(* ===== verification/_CoqProject ===== *)
-Q . S2P
Prelude.v
GoStrings.v
Go.v
Validation.v
DescribeConfig.v
ConfigTypes.v
Float64.v
Durations.v
JsonTime.v
Secrets.v
TlsConfig.v
ConfigValidation.v
Context.v
Loggers.v
TestLogger.v
Http.v
Support.v
CommonErrors.v
Timeout.v
TimeoutLog.v
RequestContext.v
AuthExpr.v
AuthGrammar.v
JwtAuth.v
KeyCache.v
JwtHttp.v
TestIssuer.v
AuthRules.v
MultiServer.v
ErrorValues.v
Middleware.v
RequestLog.v
Metrics.v
RestLib.v
FutureChan.v
Servers.v
GrpcServing.v
Bootstrap.v
Process.v
ReaderBuilder.v
Downstream.v
HeaderChecks.v
E2E.v
TestCalls.v
QueryValues.v
TestHooks.v
TemporalTester.v
ServiceHandler.v
DbHandler.v
GeneratedClient.v
ClientServer.v
App.v
GrpcApp.v
TemporalApp.v
Shims.v
TesterSetup.v
