(* ===== verification/Prelude.v ===== *)
(** * A verification development for sysl-go

    sysl-go is the library that services generated from Sysl specifications run on:
    it reads a service's configuration, brings up its REST, gRPC and Temporal servers,
    puts middleware around their handlers, authenticates and authorises requests, and
    carries the calls to downstream services. This development is a shallow embedding
    of that library. Each Go function is a Rocq function that can be evaluated; a
    function that fails or panics has a result in [Go.res]; objects that are shared
    through pointers live in explicit stores; goroutines are step functions with
    labels, and their runs are lists of labels.

    ** The parts and how they interact

    What all share
    - [Prelude] (this file): notations, automation ([boolprop], [go_case]), Go's range
      loops, and [eventually], what every schedule of a step relation comes to.
    - [GoStrings], [Go], [Http], [Context]: strings as bytes, dynamic values, errors with
      one constructor per dynamic type, results that can panic, headers, response
      writers, handlers and middleware, contexts with typed keys.
    - [ConfigTypes]: the structs of src/config as records, a nil pointer being [None].

    Reading and checking a configuration
    - [Float64], [Durations], [JsonTime]: time.ParseDuration and Duration.String down to
      the byte and the rounding; src/jsontime; the decode hooks and the strict mode of
      src/config/configreaderimpl.go; the tag timeout= of src/validator.
    - [Validation], [DescribeConfig]: src/validator/validator.go, src/common/files.go,
      and the help that core/serve.go prints for a configuration.
    - [Secrets], [TlsConfig], [ConfigValidation]: src/config/sensitivestring.go,
      secret_key.go, tls.go, with their users in http.go and grpc.go, and the Validate
      methods of the configurations that contain them.

    Who may call what
    - [AuthExpr]: src/authexpr, the rule expressions, compiled against the type
      [AuthExpr.EvaluationContext] that the claims of a token implement; [AuthGrammar]:
      the grammar that its struct tags describe, a reference parser, and Repr, whose text
      the parser's lexer reads back.
    - [JwtAuth]: src/jwtauth, tokens, verifiers and the cached key set of an issuer. The
      JOSE library is the class [Jose]; [Verifier] and [Authenticator] are the two
      interfaces of the source. [KeyCache]: the verifications and the polling goroutine
      that share one cached key set, as interleaved steps under its lock.
    - [JwtHttp], [AuthRules]: the middleware of src/jwtauth/jwthttp and jwtgrpc and the
      rules of src/core/authrules, against [Authenticator]; src/core/callback.go, which
      puts rule and authenticator together from the configuration.
    - [TestIssuer]: src/jwtauth/jwttest, the issuer whose tokens those accept.

    Serving a request
    - [CommonErrors], [ErrorValues]: src/common's errors and the responses made of them,
      their texts and causes, and errors.As over those.
    - [RequestContext]: what a request carries (corerequestcontext.go, traceability.go,
      package internal).
    - [Timeout]: src/common/timeout.go as the interleaving of two goroutines;
      [Middleware]: src/core/recoverer.go, middleware.go and src/metrics. Its timeout
      middleware is a function that [Middleware.TimeoutMiddleware_refines] shows to be
      the race of [Timeout]. [Metrics], [RequestLog], [TimeoutLog]: what is counted and
      logged for a request, src/metrics, package internal and the end of timeout.go.
    - [ServiceHandler]: the handlers that src/codegen/arrai/auto writes for the endpoints
      and methods of any specification; its templates are the source. [DbHandler]: the
      same for a service with a database, against the class [DbHandler.Database].
    - [GeneratedClient]: the clients that they write for the REST endpoints of other
      services, and what a handler answers whose service calls one; [ClientServer]: the
      query parameters on their way from such a client to the handler of the endpoint.
    - [RestLib], [FutureChan], [Downstream]: src/restlib, src/common/async.go, the builders of clients
      of src/core/downstreambuilder.go and temporal.go, and src/convert.

    The application
    - [MultiServer]: several servers as one (core/serve.go, stoppableserver.go), against
      the class [MultiServer.StoppableServer]; [Servers]: core/http.go, grpc.go and
      temporal_serve.go, which implement it; [GrpcServing]: the interceptors and loggers
      of a gRPC server, and src/health; [Shims]: core/http_shim.go, build_metadata.go and
      other adapters; [Bootstrap]: NewServer and
      NewTemporalWorker of core/serve.go; [ReaderBuilder]:
      src/config/configreaderbuilder.go, and that reading a configuration with it is
      what [Bootstrap] takes it for.
    - [App], [GrpcApp]: the two kinds of generated application, put together from all of
      the above as svc_app.arrai does it: NewServer, Start, middleware or interceptors,
      the rule of an endpoint, the service and the clients it is given.
    - [Process]: the function Serve of a generated application, its goroutine, signals
      and channels around the group of servers.
    - [TemporalApp]: a generated Temporal application, what the generator finds in the
      specification, the handler that registers workflows and activities with the
      worker of [Bootstrap.NewTemporalWorker], and the client that starts workflows.
    - [Loggers], [Support]: src/log/logging.go, the status endpoint and small helpers.

    Testing services
    - [HeaderChecks], [E2E], [TestCalls], [QueryValues], [TestHooks], [TemporalTester],
      [TesterSetup]: src/testutil/e2e and temporal_tester, the mock downstream servers,
      the expectations they hold, the tester that stands for a service's servers, the
      calls a test makes to it, the mocks of Temporal's client and worker, and the
      replacement of a service's hooks.
    - [TestLogger]: src/testutil/test_util.go, loggers that share one list of entries.

    ** What the theorems show

    - Authorisation: an endpoint with a rule is reached only with a token whose
      signature, issuer, times and claims were checked ([AuthRules], [JwtHttp],
      [JwtAuth]), the rule being the boolean meaning of its expression ([AuthExpr]),
      which a text has at most one of ([AuthGrammar]). Tokens of the test issuer get
      through ([TestIssuer]). Concurrent verifications give what the sequential ones do,
      and do not block each other for good ([KeyCache]). All of it holds of a generated
      application as it is started from its configuration ([App], [GrpcApp]).
    - One answer: in every interleaving of handler and deadline a client gets exactly
      one answer, and it gets one ([Timeout]); so does every request to every REST
      server the application starts, with no panic escaping ([Middleware], [Servers]).
      An error becomes one response with the status of its kind ([CommonErrors]).
      What is counted and logged for a request is said exactly ([Metrics],
      [RequestLog], [GrpcServing]).
    - Life of the servers: what Start and Stop of the application return on every
      schedule, that they return, and that Stop loses no error ([MultiServer],
      [Servers]); that the process around them ends, and with their errors ([Process]).
    - Configuration: what NewServer accepts ([Bootstrap]), durations decoded exactly or
      refused, and read back as printed ([Durations], [JsonTime]), validated TLS settings
      never make the code panic and are what the connection uses ([TlsConfig]), what the
      validator accepts ([Validation]), secrets that stay hidden ([Secrets]).
    - Downstream calls: when one succeeds, what its errors hold, that no response body
      stays open, who gets the result of a future, and that updates of a response
      through any derived context are seen ([RestLib], [FutureChan], [RequestContext]).
    - Transactions: a request changes the database only by what a service that succeeded
      left, and leaves neither connection nor transaction open ([DbHandler]).
    - Generated parts that meet: what the caller of a handler gets when the handler's
      downstream fails ([GeneratedClient]); query parameters arrive as they were sent
      unless they are renamed ([ClientServer]); what is scheduled by name on Temporal meets the function of that
      name on the queue it was sent to ([TemporalApp]).
    - Tests: a mock endpoint serves its expectations in order and reports those that
      are left; endpoints do not share queues; header checks mean what they say;
      patched hooks and workflow mocks do what the test set up ([E2E], [HeaderChecks],
      [TestHooks]).
    - Some theorems state behaviour of the code that is not what it means to do: among
      them [JwtHttp.AuthAllowAnon_authorises_empty_claims],
      [Bootstrap.Start_panics_on_unvalidated_TLS], [Durations.makeDefaultDecodeHook_spec],
      [Metrics.MetricsMiddleware_counts], [MultiServer.multiStoppableServer_Start_progress],
      [Downstream.nil_transport_panics], [E2E.NewDownstream_replaces],
      [TimeoutLog.superfluous_WriteHeader_logs], [RequestLog.request_log_spec],
      [App.unauthenticated_status], [TesterSetup.tester_service_setup],
      [GeneratedClient.client_method_panics_on_XML],
      [TemporalApp.namespaced_client_misses_worker],
      [DbHandler.invalid_response_after_commit].

    ** Machine integers, fuel and order

    - A duration is its number of nanoseconds in [Z]; the parser's unsigned 64-bit
      accumulators test for overflow as the source does, and its floating-point
      fractions are binary64 by the Standard Library's specification of floats. Status
      codes, levels and lengths, on which the code does no arithmetic that could
      overflow, are unbounded.
    - [Durations.parse_components] has fuel for its loop, the length of the string:
      each round takes at least one byte ([Durations.parse_components_fuel]).
      [JsonTime.fmtInt_loop] has fuel for 20 digits, as many as an unsigned 64-bit
      number can have. All other recursion is structural.
    - Go walks a map in any order: where it matters the order is a parameter that is a
      permutation of the map's entries.
    - The steps of goroutines are operations on channels and mutexes and the returns of
      calls; between two of them a goroutine touches nothing that another one does.

    ** What is not modelled

    - Third-party code is a parameter, with the laws that are relied on in a class or a
      named hypothesis: the JOSE library, the parser of rule expressions, viper and
      mapstructure, go-playground/validator, the router of chi, gRPC, database/sql,
      Temporal's SDK and its test environment, the logging libraries, testify. Likewise
      the parts of Go's library with no bearing on control flow here: JSON and YAML
      encoding, certificates, the network, the file system, reflection on types,
      Unicode's folding tables and, in names that the generator makes, its letters.
    - Lines that are only logged, except those of requests, of the timeout writer and of
      the gRPC library, which have models of their own beside the functions that write
      them; the exporter of metrics.
    - Of the generated code: the clients of gRPC services, which hand on to the
      generated code of protobuf; the mocks and testers for each service. What an
      application adds through AddHTTPMiddleware is any function of the router. A
      handler runs as one step; requests that overlap do so only in [Timeout],
      [KeyCache], [MultiServer], [FutureChan] and [Process].
    - Of src/common/test_util.go and testutil the helpers that only call httptest; the
      generated protobuf code; accessors that return a field, and interfaces, which are
      records or classes of their users.
    - The code generator under src/codegen but for the templates named above and what
      they compute of a specification: the rest of it makes text. *)

From Corelib Require Export ssreflect.
From Stdlib Require Export ZArith Lia.
From stdpp Require Export base gmap strings list fin_maps numbers.

(** Shared conventions: stdpp's notations and maps, integers as [Z]. *)
#[export] Set Default Goal Selector "!".
#[export] Set Default Proof Using "Type".
#[export] Set Warnings "-rewrite-rw".

Declare Scope go_scope.
Delimit Scope go_scope with go.

(** ** Automation *)

Create HintDb syslgo.
#[export] Hint Constants Opaque : syslgo.

(** Boolean tests of the code as propositions. *)
Create Rewrite HintDb boolprop.
#[export] Hint Rewrite
  andb_true_iff andb_false_iff orb_true_iff orb_false_iff
  negb_true_iff negb_false_iff
  bool_decide_eq_true bool_decide_eq_false
  String.eqb_eq String.eqb_neq
  Z.ltb_lt Z.ltb_ge Z.leb_le Z.leb_gt Z.eqb_eq Z.eqb_neq : boolprop.

Ltac boolprop := autorewrite with boolprop in *.

(** A closed equation by evaluation of its left side, checked once. *)
Ltac by_vm :=
  lazymatch goal with
  | |- @eq ?A _ ?y => vm_cast_no_check (@eq_refl A y)
  | _ => vm_compute; reflexivity
  end.

(** Case analysis on every [match] and [if] in sight, closing the branches
    that are contradictory or immediate. *)
Ltac go_case :=
  repeat (case_match; simplify_eq/=; try done).

(** ** Loops with an early return

    The range loop
    [for _, x := range l { if err := f(x); err != nil { return err } }]:
    [None] is Go's [nil] error. *)
Section range_err.
Context {A E : Type} (f : A → option E).
Fixpoint range_err (l : list A) : option E :=
  match l with
  | [] => None
  | x :: l => match f x with Some e => Some e | None => range_err l end
  end.
End range_err.

(** The membership style loop: [for _, x := range l { if p(x) { return true } }]. *)
Section range_any.
Context {A : Type} (p : A → bool).
Fixpoint range_any (l : list A) : bool :=
  match l with [] => false | x :: l => if p x then true else range_any l end.
End range_any.

Lemma range_err_None {A E} (f : A → option E) l :
  range_err f l = None ↔ Forall (λ x, f x = None) l.
Proof.
  induction l as [|x l IH]; simpl; [by split|].
  rewrite list.Forall_cons -IH. destruct (f x); [by split; [|intros [??]]|]. by split; [|intros [??]].
Qed.

(** The loop stops at the first element that fails. *)
Lemma range_err_Some {A E} (f : A → option E) l e :
  range_err f l = Some e ↔
  ∃ l1 x l2, l = l1 ++ x :: l2 ∧ Forall (λ y, f y = None) l1 ∧ f x = Some e.
Proof.
  induction l as [|x l IH]; simpl.
  { split; [done|]. by intros ([]&?&?&?&_). }
  destruct (f x) as [e'|] eqn:Hx.
  - split.
    + intros [= ->]. exists [], x, l. eauto using Forall_nil.
    + intros (l1&z&l2&Hl&H&Hz). destruct l1 as [|y l1]; simplify_eq/=; [done|].
      apply list.Forall_cons in H as [??]. congruence.
  - rewrite IH. split.
    + intros (l1&z&l2&->&?&?). exists (x :: l1), z, l2.
      rewrite list.Forall_cons. eauto.
    + intros (l1&z&l2&Hl&H&Hz). destruct l1 as [|y l1]; simplify_eq/=.
      apply list.Forall_cons in H as [??]. eauto 10.
Qed.

Lemma range_any_true {A} (p : A → bool) l :
  range_any p l = true ↔ ∃ x, x ∈ l ∧ p x = true.
Proof.
  induction l as [|x l IH]; simpl.
  - split; [done|]. intros (?&?%elem_of_nil&_). done.
  - destruct (p x) eqn:?.
    + split; [|done]. intros _. exists x. rewrite elem_of_cons. auto.
    + rewrite IH. split.
      * intros (y&?&?). exists y. rewrite elem_of_cons. auto.
      * intros (y&[->|?]%elem_of_cons&?); [congruence|eauto].
Qed.

Lemma range_any_existsb {A} (p : A → bool) l : range_any p l = existsb p l.
Proof. induction l as [|x l IH]; simpl; [done|]. by destruct (p x). Qed.

Lemma range_any_false {A} (p : A → bool) l :
  range_any p l = false ↔ Forall (λ x, p x = false) l.
Proof.
  induction l as [|x l IH]; simpl; [by split|].
  rewrite list.Forall_cons -IH. destruct (p x); naive_solver.
Qed.


Lemma filter_is_nil {A} (P : A → Prop) `{!∀ x, Decision (P x)} l :
  filter P l = [] ↔ Forall (λ x, ¬ P x) l.
Proof.
  induction l as [|x l IH]; [by split|]. rewrite filter_cons list.Forall_cons -IH.
  case_decide; naive_solver.
Qed.

(** ** What every schedule comes to

    [eventually R P s]: whatever steps of [R] are taken from [s], a state with [P]
    comes up, and no state on the way is stuck. *)
Section eventually.
Context {S : Type} (R : S → S → Prop).

Inductive eventually (P : S → Prop) (s : S) : Prop :=
| eventually_now : P s → eventually P s
| eventually_next :
    (∃ s', R s s') → (∀ s', R s s' → eventually P s') → eventually P s.

(** The usual reason: away from [P] there is always a step, and every step brings a
    measure down. *)
Lemma eventually_measure (I P : S → Prop) `{!∀ s, Decision (P s)} (f : S → nat) :
  (∀ s, I s → ¬ P s → ∃ s', R s s') →
  (∀ s s', I s → ¬ P s → R s s' → I s' ∧ (f s' < f s)%nat) →
  ∀ s, I s → eventually P s.
Proof.
  intros Hprogress Hdown s.
  induction s as [s IH] using (well_founded_induction (well_founded_ltof S f)). intros HI.
  destruct (decide (P s)) as [|HP]; [by constructor 1|].
  constructor 2; [by apply Hprogress|].
  intros s' HR. destruct (Hdown s s' HI HP HR) as [HI' Hlt]. by apply IH.
Qed.
End eventually.

Lemma sum_list_with_insert {A} (f : A → nat) l i x y :
  l !! i = Some x → (sum_list_with f (<[i := y]> l) + f x = sum_list_with f l + f y)%nat.
Proof.
  revert i. induction l as [|z l IH]; intros [|i] Hl; simplify_eq/=; [lia|].
  specialize (IH i Hl). lia.
Qed.
