(* ===== verification/GoStrings.v ===== *)
(** * Go strings

    A Go string is its sequence of bytes: [string] of the Standard Library,
    one [ascii] per byte. This file models the functions of the packages
    [strings], [strconv] and [net/textproto] that sysl-go calls. *)

From Stdlib Require Export Ascii.
From S2P Require Export Prelude.


#[global] Arguments String.append !_ _ / : simpl nomatch.

(** ** Bytes *)

Definition byte_N (c : ascii) : N := Ascii.N_of_ascii c.

Definition byte_between (lo hi c : ascii) : bool :=
  (byte_N lo <=? byte_N c)%N && (byte_N c <=? byte_N hi)%N.

Definition is_upper (c : ascii) : bool := byte_between "A" "Z" c.
Definition is_lower (c : ascii) : bool := byte_between "a" "z" c.
Definition is_digit (c : ascii) : bool := byte_between "0" "9" c.
Definition is_ascii (c : ascii) : bool := (byte_N c <? 128)%N.

Definition lower_byte (c : ascii) : ascii :=
  if is_upper c then Ascii.ascii_of_N (byte_N c + 32) else c.
Definition upper_byte (c : ascii) : ascii :=
  if is_lower c then Ascii.ascii_of_N (byte_N c - 32) else c.

Fixpoint str_map (f : ascii → ascii) (s : string) : string :=
  match s with "" => "" | String c s => String (f c) (str_map f s) end.

Fixpoint str_forall (p : ascii → bool) (s : string) : bool :=
  match s with "" => true | String c s => p c && str_forall p s end.

(** [s[:n]] and [s[n:]], for an [n] within the string. *)
Fixpoint str_take (n : nat) (s : string) : string :=
  match n, s with
  | S n, String c s => String c (str_take n s)
  | _, _ => ""
  end.
Fixpoint str_drop (n : nat) (s : string) : string :=
  match n, s with
  | S n, String _ s => str_drop n s
  | _, _ => s
  end.

(** ** Package strings *)

(** [strings.ToLower]. Besides the ASCII letters, two runes outside ASCII have
    a lower-case form inside ASCII: U+0130 (bytes C4 B0) becomes "i" and the
    Kelvin sign U+212A (bytes E2 84 AA) becomes "k". The result is exact for
    every comparison with an ASCII literal, the only use the code makes of it:
    any other rune outside ASCII keeps at least one byte outside ASCII. *)
Fixpoint ToLower (s : string) : string :=
  match s with
  | "" => ""
  | String c1 s1 =>
      match s1 with
      | String c2 s2 =>
          if bool_decide (c1 = "196"%char ∧ c2 = "176"%char) then String "i" (ToLower s2)
          else
            match s2 with
            | String c3 s3 =>
                if bool_decide (c1 = "226"%char ∧ c2 = "132"%char ∧ c3 = "170"%char)
                then String "k" (ToLower s3)
                else String (lower_byte c1) (ToLower s1)
            | "" => String (lower_byte c1) (ToLower s1)
            end
      | "" => String (lower_byte c1) (ToLower s1)
      end
  end.

(** [strings.EqualFold(s, t)] for an ASCII literal [t]: Unicode simple folding
    identifies U+017F (bytes C5 BF) with "s" and the Kelvin sign with "k"; no
    other rune outside ASCII folds to an ASCII one. *)
Fixpoint fold_case (s : string) : string :=
  match s with
  | "" => ""
  | String c1 s1 =>
      match s1 with
      | String c2 s2 =>
          if bool_decide (c1 = "197"%char ∧ c2 = "191"%char) then String "s" (fold_case s2)
          else
            match s2 with
            | String c3 s3 =>
                if bool_decide (c1 = "226"%char ∧ c2 = "132"%char ∧ c3 = "170"%char)
                then String "k" (fold_case s3)
                else String (lower_byte c1) (fold_case s1)
            | "" => String (lower_byte c1) (fold_case s1)
            end
      | "" => String (lower_byte c1) (fold_case s1)
      end
  end.
Definition EqualFold (s t : string) : bool := bool_decide (fold_case s = fold_case t).

Fixpoint HasPrefix (s p : string) : bool :=
  match p, s with
  | "", _ => true
  | String a p, String b s => bool_decide (a = b) && HasPrefix s p
  | String _ _, "" => false
  end.

(** [strings.Contains]. *)
Fixpoint Contains (s sub : string) : bool :=
  HasPrefix s sub || match s with "" => false | String _ s => Contains s sub end.

Definition HasSuffix (s p : string) : bool :=
  bool_decide (String.length p ≤ String.length s)%nat &&
  bool_decide (str_drop (String.length s - String.length p) s = p).

(** [strings.Split(s, sep)] for a one-byte separator. *)
Fixpoint Split (sep : ascii) (s : string) : list string :=
  match s with
  | "" => [""]
  | String c s =>
      if bool_decide (c = sep) then "" :: Split sep s
      else match Split sep s with
           | [] => [String c ""]
           | w :: ws => String c w :: ws
           end
  end.

(** [strings.Join]. *)
Fixpoint Join (l : list string) (sep : string) : string :=
  match l with
  | [] => ""
  | [s] => s
  | s :: l => s +:+ sep +:+ Join l sep
  end.

(** ** Lemmas *)

Lemma str_append_nil_r (s : string) : s +:+ "" = s.
Proof. induction s; simpl; [done|]. by f_equal. Qed.
Lemma str_append_assoc (a b c : string) : (a +:+ b) +:+ c = a +:+ (b +:+ c).
Proof. induction a; simpl; [done|]. by f_equal. Qed.
Lemma str_append_inj (p a b : string) : p +:+ a = p +:+ b → a = b.
Proof. induction p; simpl; [done|]. intros [=]. auto. Qed.
Lemma str_take_drop n s : str_take n s +:+ str_drop n s = s.
Proof. revert n; induction s; intros [|n]; simpl; try done. f_equal. apply IHs. Qed.
Lemma str_length_append a b : String.length (a +:+ b) = (String.length a + String.length b)%nat.
Proof. induction a; simpl; [done|]. by f_equal. Qed.
Lemma str_take_app s t : str_take (String.length s) (s +:+ t) = s.
Proof. induction s; simpl; [by destruct t|]. by f_equal. Qed.
Lemma str_drop_app s t : str_drop (String.length s) (s +:+ t) = t.
Proof. induction s; simpl; [by destruct t|]. done. Qed.
Lemma str_length_take n s : (n ≤ String.length s)%nat → String.length (str_take n s) = n.
Proof. revert n; induction s; intros [|n]; simpl; intros; try lia. f_equal. apply IHs. lia. Qed.

(** [Split] and [Join] are inverse, so "w is one of the words of s" has a
    meaning independent of the loop that looks for it. *)
Lemma Split_not_nil sep s : Split sep s ≠ [].
Proof. destruct s; simpl; [done|]. repeat case_match; done. Qed.

Lemma Join_Split sep s : Join (Split sep s) (String sep "") = s.
Proof.
  induction s as [|c s IH]; [done|]. cbn [Split].
  destruct (Split sep s) as [|w ws] eqn:E; [by apply Split_not_nil in E|].
  destruct (decide (c = sep)) as [->|?].
  - rewrite bool_decide_true //. cbn. f_equal. exact IH.
  - rewrite bool_decide_false //.
    destruct ws; cbn in *; by rewrite IH.
Qed.

Definition no_byte (sep : ascii) (s : string) : bool :=
  str_forall (λ c, negb (bool_decide (c = sep))) s.

Lemma Split_no_sep sep s : no_byte sep s = true → Split sep s = [s].
Proof.
  induction s as [|c s IH]; [done|]. cbn.
  rewrite andb_true_iff negb_true_iff bool_decide_eq_false.
  intros [? Hs]. rewrite bool_decide_false //. by rewrite IH.
Qed.

Lemma Split_app_sep sep w s :
  no_byte sep w = true → Split sep (w +:+ String sep s) = w :: Split sep s.
Proof.
  induction w as [|c w IH]; cbn.
  - by rewrite bool_decide_true.
  - rewrite andb_true_iff negb_true_iff bool_decide_eq_false.
    intros [? Hs]. rewrite bool_decide_false // IH //.
Qed.

Lemma Split_Join sep ws :
  ws ≠ [] → Forall (λ w, no_byte sep w = true) ws →
  Split sep (Join ws (String sep "")) = ws.
Proof.
  induction ws as [|w ws IH]; [done|]. intros _ [Hw Hws]%list.Forall_cons.
  destruct ws as [|w' ws].
  - by apply Split_no_sep.
  - change (Join (w :: w' :: ws) (String sep ""))
      with (w +:+ String sep (Join (w' :: ws) (String sep ""))).
    rewrite Split_app_sep // IH //.
Qed.

Lemma Split_words_no_sep sep s : Forall (λ w, no_byte sep w = true) (Split sep s).
Proof.
  induction s as [|c s IH]; cbn [Split].
  { repeat constructor. }
  destruct (decide (c = sep)) as [->|?].
  - rewrite bool_decide_true //. by constructor.
  - rewrite bool_decide_false //. destruct (Split sep s) as [|w ws].
    + repeat constructor. cbn. by rewrite bool_decide_false.
    + apply list.Forall_cons in IH as [Hw ?]. constructor; [|done].
      unfold no_byte in *. cbn. by rewrite bool_decide_false.
Qed.


(** ** Package strconv: [Atoi] and [ParseInt(s, 10, 64)] *)

Definition digit_value (c : ascii) : option Z :=
  if is_digit c then Some (Z.of_N (byte_N c) - 48)%Z else None.

Fixpoint parse_digits (acc : Z) (s : string) : option Z :=
  match s with
  | "" => Some acc
  | String c s => d ← digit_value c; parse_digits (10 * acc + d) s
  end.

(** The number in base ten, with an optional sign; [None] is a syntax error. *)
Definition parse_decimal (s : string) : option Z :=
  match s with
  | "" => None
  | String c s' =>
    if bool_decide (c = "+"%char ∨ c = "-"%char) then
      match s' with
      | "" => None
      | _ => (λ v, if bool_decide (c = "-"%char) then (- v)%Z else v) <$> parse_digits 0 s'
      end
    else parse_digits 0 s
  end.

(** [strconv.Atoi]: an [int] is 64 bits wide; out of range is an error. *)
Definition Atoi (s : string) : option Z :=
  n ← parse_decimal s;
  if bool_decide (- 2 ^ 63 ≤ n ≤ 2 ^ 63 - 1)%Z then Some n else None.

Example Atoi_examples :
  Atoi "418" = Some 418%Z ∧ Atoi "-7" = Some (-7)%Z ∧ Atoi "" = None ∧ Atoi "4_0" = None ∧
  Atoi "9223372036854775808" = None.
Proof. repeat split; vm_compute; reflexivity. Qed.
