(* ===== verification/Go.v ===== *)
(** * Go values, errors, headers and response writers

    What the components share of Go and of [net/http]: dynamic values,
    the [error] interface with every dynamic type sysl-go gives it, results
    that can also panic, HTTP headers and the [http.ResponseWriter]
    interface. *)

From Stdlib Require Import Floats.SpecFloat.
From S2P Require Export GoStrings.

(** ** Dynamic values: [interface{}] as JSON and configuration hold it *)

Inductive value : Type :=
| VNil
| VBool (b : bool)
| VInt (z : Z)
| VFloat (f : spec_float)
| VString (s : string)
| VSlice (l : list value)
| VMap (m : list (string * value))
| VFunc. (* a func or channel: no JSON encoding *)

Section value_induction.
Context (P : value → Prop).
Hypothesis Hnil : P VNil.
Hypothesis Hbool : ∀ b, P (VBool b).
Hypothesis Hint : ∀ z, P (VInt z).
Hypothesis Hfloat : ∀ f, P (VFloat f).
Hypothesis Hstring : ∀ s, P (VString s).
Hypothesis Hslice : ∀ l, Forall P l → P (VSlice l).
Hypothesis Hmap : ∀ m, Forall (λ kv, P kv.2) m → P (VMap m).
Hypothesis Hfunc : P VFunc.
Fixpoint value_nested_ind (v : value) : P v :=
  match v with
  | VNil => Hnil | VBool b => Hbool b | VInt z => Hint z | VFloat f => Hfloat f
  | VString s => Hstring s | VFunc => Hfunc
  | VSlice l => Hslice l ((fix go l := match l return Forall P l with
      | [] => Forall_nil _
      | v :: l => Forall_cons _ v l (value_nested_ind v) (go l) end) l)
  | VMap m => Hmap m ((fix go m := match m return Forall (λ kv, P kv.2) m with
      | [] => Forall_nil _
      | kv :: m => Forall_cons _ kv m (value_nested_ind kv.2) (go m) end) m)
  end.
End value_induction.

(** [encoding/json] refuses functions, channels, infinities and NaN. *)
Definition float_encodable (f : spec_float) : bool :=
  match f with S754_zero _ | S754_finite _ _ _ => true | _ => false end.

Fixpoint json_encodable (v : value) : bool :=
  match v with
  | VNil | VBool _ | VInt _ | VString _ => true
  | VFloat f => float_encodable f
  | VSlice l => (fix go l := match l with [] => true | v :: l => json_encodable v && go l end) l
  | VMap m => (fix go m := match m with [] => true | (_, v) :: m => json_encodable v && go m end) m
  | VFunc => false
  end.

(** ** HTTP headers: [http.Header] *)

Notation Header := (gmap string (list string)).

(** [jwtauth.Claims], that is [map[string]interface{}]. *)
Notation Claims := (gmap string value).

(** [textproto.CanonicalMIMEHeaderKey]: a key with a byte that is not a
    token character is left alone; otherwise the first letter and every letter
    after a hyphen are upper case, the others lower case. *)
Definition is_token_byte (c : ascii) : bool :=
  is_upper c || is_lower c || is_digit c ||
  bool_decide (c ∈ ["!"; "#"; "$"; "%"; "&"; "'"; "*"; "+"; "-"; "."; "^"; "_"; "`"; "|"; "~"]%char).

Fixpoint canonical_from (upper : bool) (s : string) : string :=
  match s with
  | "" => ""
  | String c s =>
      String (if upper then upper_byte c else lower_byte c)
             (canonical_from (bool_decide (c = "-"%char)) s)
  end.

Definition CanonicalHeaderKey (s : string) : string :=
  if str_forall is_token_byte s then canonical_from true s else s.

Definition header_get (h : Header) (key : string) : string :=
  match h !! CanonicalHeaderKey key with
  | Some (v :: _) => v
  | _ => ""
  end.
Definition header_add (h : Header) (key v : string) : Header :=
  let k := CanonicalHeaderKey key in
  <[k := default [] (h !! k) ++ [v]]> h.
Definition header_set (h : Header) (key v : string) : Header :=
  <[CanonicalHeaderKey key := [v]]> h.

(** ** The [http.ResponseWriter] interface

    What a handler does to its writer: the header map it has filled and the
    calls it has made, each [WriteHeader] with the headers at that moment. *)
Inductive rwcall :=
| CallWriteHeader (code : Z) (hdr : Header)
| CallWrite (body : string).

Record RW := mkRW { rw_header : Header; rw_calls : list rwcall }.

Definition rw_empty : RW := mkRW ∅ [].
Definition rw_set_header (k v : string) (w : RW) : RW :=
  mkRW (header_set (rw_header w) k v) (rw_calls w).
Definition rw_add_header (k v : string) (w : RW) : RW :=
  mkRW (header_add (rw_header w) k v) (rw_calls w).
Definition rw_write_header (code : Z) (w : RW) : RW :=
  mkRW (rw_header w) (rw_calls w ++ [CallWriteHeader code (rw_header w)]).
Definition rw_write (b : string) (w : RW) : RW :=
  mkRW (rw_header w) (rw_calls w ++ [CallWrite b]).

(** Status codes of package [net/http] the code names. *)
Definition StatusOK : Z := 200.
Definition StatusUnauthorized : Z := 401.
Definition StatusForbidden : Z := 403.
Definition StatusNotFound : Z := 404.
Definition StatusInternalServerError : Z := 500.

(** ** Errors

    One constructor per dynamic type the code can find behind the [error]
    interface. [ErrForeign] is a type declared outside sysl-go; it may have the
    methods sysl-go looks for with a type assertion. *)
Inductive error : Type :=
| ErrText (msg : string)
| ErrWrap (msg : string) (cause : error)
| ErrDeadlineExceeded
| ErrCanceled
| ErrServerClosed
| ErrHandlerTimeout
| ErrNotSupported
| ErrStatus (code : Z) (msg : string)
| ErrAuthExpr (msg : string) (cause : option error)
| ErrAuth (code : Z) (cause : error)
| ErrServer (kind : Z) (msg : string) (cause : option error)
| ErrDownstream (kind : Z) (method url : string) (status : Z) (body : string) (cause : option error)
| ErrCustom (fields : gmap string string)
| ErrWrapped (e : error) (fields : list (string * value))
| ErrHTTPResult (status : Z) (header : Header) (body : string)
| ErrMulti (msg : string) (errors : list error)
| ErrOpenBodies (urls : list string) (* errors.New of the text that says which bodies are open *)
| ErrDisplayHelp
| ErrForeign (msg : string)
    (kind : option Z)                    (* ErrorKind() *)
    (http_status : option Z)             (* HTTPStatus() *)
    (write_error : option (RW → bool * RW)). (* WriteError(ctx, w) *)

(** What [recover] returns. *)
Inductive panicval :=
| PanicString (s : string)
| PanicError (e : error)
| PanicOther (v : value).

(** A nil pointer dereference, an assignment to an entry of a nil map, an
    index out of range: run-time errors, which implement [error]. *)
Definition nil_dereference : panicval :=
  PanicError (ErrText "runtime error: invalid memory address or nil pointer dereference").
Definition nil_map_write : panicval :=
  PanicError (ErrText "assignment to entry in nil map").
Definition index_out_of_range : panicval :=
  PanicError (ErrText "runtime error: index out of range").
Definition slice_bounds_out_of_range : panicval :=
  PanicError (ErrText "runtime error: slice bounds out of range").

(** What [recover()] gives while panicking with [p]: up to Go 1.20, the language
    version of the module, [panic(nil)] is not told apart from no panic at all. *)
Definition recover (p : panicval) : option panicval :=
  match p with PanicOther VNil => None | _ => Some p end.

Lemma recover_Some p q : recover p = Some q → q = p.
Proof. destruct p as [| |[]]; by intros [= <-]. Qed.

(** The result of a function that returns [(T, error)]. *)
Inductive res (A : Type) : Type :=
| Ok (a : A)
| Err (e : error)
| Panic (p : panicval).
Arguments Ok {A} a.
Arguments Err {A} e.
Arguments Panic {A} p.

#[export] Instance res_ret : MRet res := λ A a, Ok a.
#[export] Instance res_bind : MBind res := λ A B f m,
  match m with Ok a => f a | Err e => Err e | Panic p => Panic p end.
#[export] Instance res_fmap : FMap res := λ A B f m,
  match m with Ok a => Ok (f a) | Err e => Err e | Panic p => Panic p end.

Definition of_option_err (o : option error) : res () :=
  match o with None => Ok () | Some e => Err e end.
Definition deref {A} (p : option A) : res A :=
  match p with Some a => Ok a | None => Panic nil_dereference end.

Definition is_ok {A} (m : res A) : bool := match m with Ok _ => true | _ => false end.
Definition is_panic {A} (m : res A) : bool := match m with Panic _ => true | _ => false end.

Section res_lemmas.
Context {A B : Type}.
Implicit Types (m : res A) (f : A → res B).

Lemma res_bind_Ok m f b : m ≫= f = Ok b ↔ ∃ a, m = Ok a ∧ f a = Ok b.
Proof. destruct m; simpl; naive_solver. Qed.
Lemma res_bind_Err m f e : m ≫= f = Err e ↔ m = Err e ∨ ∃ a, m = Ok a ∧ f a = Err e.
Proof. destruct m; simpl; naive_solver. Qed.
Lemma res_bind_Panic m f p : m ≫= f = Panic p ↔ m = Panic p ∨ ∃ a, m = Ok a ∧ f a = Panic p.
Proof. destruct m; simpl; naive_solver. Qed.
Lemma res_fmap_Ok m (g : A → B) b : g <$> m = Ok b ↔ ∃ a, m = Ok a ∧ b = g a.
Proof. destruct m; simpl; naive_solver. Qed.
Lemma res_fmap_Err m (g : A → B) e : g <$> m = Err e ↔ m = Err e.
Proof. destruct m; simpl; naive_solver. Qed.
Lemma res_fmap_Panic m (g : A → B) p : g <$> m = Panic p ↔ m = Panic p.
Proof. destruct m; simpl; naive_solver. Qed.
Lemma deref_Ok (o : option A) a : deref o = Ok a ↔ o = Some a.
Proof. destruct o; naive_solver. Qed.
Lemma deref_Err (o : option A) e : deref o ≠ Err e.
Proof. by destruct o. Qed.
Lemma deref_Panic (o : option A) p : deref o = Panic p ↔ o = None ∧ p = nil_dereference.
Proof. destruct o; naive_solver. Qed.
End res_lemmas.

Ltac res_simpl :=
  repeat match goal with
  | H : _ ≫= _ = Ok _ |- _ => apply res_bind_Ok in H as (?&?&?)
  | H : deref _ = Ok _ |- _ => apply deref_Ok in H
  | H : Ok _ = Ok _ |- _ => injection H as H
  | H : Ok _ = Err _ |- _ => discriminate H
  | H : Err _ = Ok _ |- _ => discriminate H
  | H : Panic _ = Ok _ |- _ => discriminate H
  | H : Ok _ = Panic _ |- _ => discriminate H
  | H : Err _ = Panic _ |- _ => discriminate H
  | H : Panic _ = Err _ |- _ => discriminate H
  end; simplify_eq/=.

(** The loop [for _, x := range l { y, err := f(x); if err != nil { return err }; ys = append(ys, y) }]. *)
Section mapM_res.
Context {A B : Type} (f : A → res B).
Fixpoint mapM_res (l : list A) : res (list B) :=
  match l with
  | [] => Ok []
  | x :: l => y ← f x; ys ← mapM_res l; Ok (y :: ys)
  end.
End mapM_res.

(** The loop [for _, x := range l { if err := f(x); err != nil { return err } }]
    when [f] may also panic. *)
Section forM_res.
Context {A : Type} (f : A → res ()).
Fixpoint forM_res (l : list A) : res () :=
  match l with
  | [] => Ok ()
  | x :: l => _ ← f x; forM_res l
  end.
End forM_res.

Lemma forM_res_Ok {A} (f : A → res ()) l :
  forM_res f l = Ok () ↔ Forall (λ x, f x = Ok ()) l.
Proof.
  induction l as [|x l IH]; simpl; [by split|].
  rewrite res_bind_Ok list.Forall_cons -IH. split.
  - by intros ([]&?&?).
  - intros [??]. by exists ().
Qed.

Lemma mapM_res_Ok {A B} (f : A → res B) l k :
  mapM_res f l = Ok k ↔ Forall2 (λ x y, f x = Ok y) l k.
Proof.
  revert k. induction l as [|x l IH]; intros k; simpl.
  - split; [intros [= <-]; constructor|]. by inversion_clear 1.
  - rewrite res_bind_Ok. split.
    + intros (y&?&(ys&?&[= <-])%res_bind_Ok). constructor; [done|]. by apply IH.
    + inversion_clear 1 as [|? y ? ys Hy Hys]. exists y. split; [done|].
      apply IH in Hys. apply res_bind_Ok. eauto.
Qed.

(** The loop stops at the first element that fails. *)
Lemma mapM_res_Err {A B} (f : A → res B) l e :
  mapM_res f l = Err e ↔
  ∃ l1 x l2 k, l = l1 ++ x :: l2 ∧ Forall2 (λ y z, f y = Ok z) l1 k ∧ f x = Err e.
Proof.
  induction l as [|x l IH]; simpl.
  { split; [done|]. by intros ([]&?&?&?&?&_). }
  rewrite res_bind_Err. split.
  - intros [?|(y&?&[H|(?&?&?)]%res_bind_Err)]; [|apply IH in H as (l1&z&l2&k&->&?&?)|done].
    + exists [], x, l, []. eauto using Forall2.
    + exists (x :: l1), z, l2, (y :: k). eauto using Forall2.
  - intros (l1&z&l2&k&Hl&Hk&Hz). destruct l1 as [|w l1]; simplify_eq/=; [by left|].
    inversion_clear Hk as [|? y ? k' Hy Hk']. right. exists y. split; [done|].
    apply res_bind_Err. left. apply IH. eauto 10.
Qed.

(** ** Lemmas on headers *)

Lemma header_get_add_new h k v :
  h !! CanonicalHeaderKey k = None → header_get (header_add h k v) k = v.
Proof. intros H. unfold header_get, header_add. rewrite lookup_insert_eq H //. Qed.
Lemma header_get_set h k v : header_get (header_set h k v) k = v.
Proof. unfold header_get, header_set. by rewrite lookup_insert_eq. Qed.
Lemma header_get_set_ne h k k' v :
  CanonicalHeaderKey k ≠ CanonicalHeaderKey k' → header_get (header_set h k v) k' = header_get h k'.
Proof. intros ?. unfold header_get, header_set. by rewrite lookup_insert_ne. Qed.

Lemma mapM_res_app {A B} (f : A → res B) l1 l2 :
  mapM_res f (l1 ++ l2) = (k1 ← mapM_res f l1; k2 ← mapM_res f l2; Ok (k1 ++ k2)).
Proof.
  induction l1 as [|x l1 IH]; simpl; [by destruct (mapM_res f l2)|].
  destruct (f x); simpl; [|done..]. rewrite IH.
  destruct (mapM_res f l1); simpl; [|done..]. by destruct (mapM_res f l2).
Qed.

Lemma mapM_res_length {A B} (f : A → res B) l k :
  mapM_res f l = Ok k → length k = length l.
Proof. intros ?%mapM_res_Ok. symmetry. by eapply Forall2_length. Qed.

(** ** Results that are not panics *)

Definition no_panic {A} (m : res A) : Prop := match m with Panic _ => False | _ => True end.

Lemma no_panic_Ok {A} (a : A) : no_panic (Ok a).
Proof. done. Qed.
Lemma no_panic_Err {A} e : no_panic (@Err A e).
Proof. done. Qed.
Lemma no_panic_deref {A} (o : option A) : is_Some o → no_panic (deref o).
Proof. by intros [a ->]. Qed.
Lemma no_panic_bind {A B} (m : res A) (f : A → res B) :
  no_panic m → (∀ a, m = Ok a → no_panic (f a)) → no_panic (m ≫= f).
Proof. destruct m; simpl; auto. Qed.
Lemma no_panic_fmap {A B} (m : res A) (f : A → B) : no_panic m → no_panic (f <$> m).
Proof. by destruct m. Qed.
Lemma no_panic_mapM {A B} (f : A → res B) l :
  Forall (λ x, no_panic (f x)) l → no_panic (mapM_res f l).
Proof.
  induction 1 as [|x l Hx _ IH]; simpl; [done|].
  apply no_panic_bind; [done|]. intros y _. by apply no_panic_bind.
Qed.
Lemma no_panic_ne {A} (m : res A) : no_panic m ↔ ∀ p, m ≠ Panic p.
Proof. destruct m; simpl; split; try done. intros H. by eapply H. Qed.

Create HintDb nopanic.
#[export] Hint Resolve no_panic_Ok no_panic_Err no_panic_deref no_panic_fmap : nopanic.
#[export] Hint Extern 1 (no_panic (_ ≫= _)) => apply no_panic_bind; [|intros ? ?] : nopanic.


(** ** Canonical header keys *)

Lemma ascii_forall (P : ascii → Prop) `{!∀ c, Decision (P c)} :
  forallb (λ n, bool_decide (P (ascii_of_nat n))) (seq 0 256) = true → ∀ c, P c.
Proof.
  intros Hall c. rewrite forallb_forall in Hall.
  rewrite -(ascii_nat_embedding c). eapply bool_decide_eq_true_1, Hall.
  apply in_seq. pose proof (nat_ascii_bounded c). lia.
Qed.

Lemma upper_byte_facts c :
  upper_byte (upper_byte c) = upper_byte c ∧ is_token_byte (upper_byte c) = is_token_byte c ∧
  (upper_byte c = "-"%char ↔ c = "-"%char) ∧ upper_byte (lower_byte c) = upper_byte c.
Proof.
  refine (ascii_forall (λ c, upper_byte (upper_byte c) = upper_byte c ∧
    is_token_byte (upper_byte c) = is_token_byte c ∧
    (upper_byte c = "-"%char ↔ c = "-"%char) ∧ upper_byte (lower_byte c) = upper_byte c) _ c).
  vm_compute. reflexivity.
Qed.
Lemma lower_byte_facts c :
  lower_byte (lower_byte c) = lower_byte c ∧ is_token_byte (lower_byte c) = is_token_byte c ∧
  (lower_byte c = "-"%char ↔ c = "-"%char) ∧ lower_byte (upper_byte c) = lower_byte c.
Proof.
  refine (ascii_forall (λ c, lower_byte (lower_byte c) = lower_byte c ∧
    is_token_byte (lower_byte c) = is_token_byte c ∧
    (lower_byte c = "-"%char ↔ c = "-"%char) ∧ lower_byte (upper_byte c) = lower_byte c) _ c).
  vm_compute. reflexivity.
Qed.

Lemma canonical_from_idemp b s : canonical_from b (canonical_from b s) = canonical_from b s.
Proof.
  revert b. induction s as [|c s IH]; intros b; [done|]. cbn.
  destruct (upper_byte_facts c) as (Hu&_&Hd&_), (lower_byte_facts c) as (Hl&_&Hd'&_).
  destruct b; rewrite ?Hu ?Hl; f_equal.
  - rewrite (bool_decide_ext _ _ Hd). apply IH.
  - rewrite (bool_decide_ext _ _ Hd'). apply IH.
Qed.

Lemma canonical_from_token b s :
  str_forall is_token_byte (canonical_from b s) = str_forall is_token_byte s.
Proof.
  revert b. induction s as [|c s IH]; intros b; [done|]. cbn.
  destruct (upper_byte_facts c) as (_&Hu&_), (lower_byte_facts c) as (_&Hl&_).
  rewrite IH. by destruct b; rewrite ?Hu ?Hl.
Qed.

Lemma CanonicalHeaderKey_idemp s : CanonicalHeaderKey (CanonicalHeaderKey s) = CanonicalHeaderKey s.
Proof.
  unfold CanonicalHeaderKey. destruct (str_forall is_token_byte s) eqn:E.
  - by rewrite canonical_from_token E canonical_from_idemp.
  - by rewrite E.
Qed.

(** The case of a key's letters does not matter. *)
Lemma canonical_from_lower b s : canonical_from b (str_map lower_byte s) = canonical_from b s.
Proof.
  revert b. induction s as [|c s IH]; intros b; [done|]. cbn.
  destruct (upper_byte_facts c) as (_&_&_&Hu), (lower_byte_facts c) as (Hl&_&Hd&_).
  rewrite (bool_decide_ext _ _ Hd) IH. by destruct b; rewrite ?Hu ?Hl.
Qed.

Lemma token_lower s : str_forall is_token_byte (str_map lower_byte s) = str_forall is_token_byte s.
Proof. induction s as [|c s IH]; [done|]. cbn. by rewrite (proj1 (proj2 (lower_byte_facts c))) IH. Qed.

Lemma CanonicalHeaderKey_lower s :
  str_forall is_token_byte s = true → CanonicalHeaderKey (str_map lower_byte s) = CanonicalHeaderKey s.
Proof. intros Hs. unfold CanonicalHeaderKey. by rewrite token_lower Hs canonical_from_lower. Qed.

Lemma mapM_res_ext {A B} (f g : A → res B) l : (∀ x, f x = g x) → mapM_res f l = mapM_res g l.
Proof. intros H. induction l as [|x l IH]; [done|]. cbn. by rewrite H IH. Qed.
