(* ===== verification/Validation.v ===== *)
(** * Validation: src/validator/validator.go and src/common/files.go

    [Validate] looks through a value by reflection and hands what it cannot decide
    itself to a validator of go-playground/validator, a parameter here. That
    validator is made on first use, of what had been registered by then, and kept
    for good. Then the loading of YAML files with their validation. The tag
    [timeout=] of the same package is in [Durations]. *)

From S2P Require Export Go.

(** ** Values, by the kinds that [Validate] tells apart *)

Inductive rvalue {T : Type} :=
| RNil                          (* a nil interface *)
| RString (s : string)
| RSlice (l : list rvalue)
| RPtr (p : option rvalue)
| ROther (x : T).               (* a struct, mostly *)
Arguments rvalue : clear implicits.

Section rvalue_induction.
Context {T : Type} (P : rvalue T → Prop).
Hypothesis Hnil : P RNil.
Hypothesis Hstring : ∀ s, P (RString s).
Hypothesis Hslice : ∀ l, Forall P l → P (RSlice l).
Hypothesis Hptr : ∀ p, (∀ v, p = Some v → P v) → P (RPtr p).
Hypothesis Hother : ∀ x, P (ROther x).
Fixpoint rvalue_nested_ind (v : rvalue T) : P v :=
  match v with
  | RNil => Hnil | RString s => Hstring s | ROther x => Hother x
  | RSlice l => Hslice l ((fix go l := match l return Forall P l with
      | [] => Forall_nil _
      | v :: l => Forall_cons _ v l (rvalue_nested_ind v) (go l) end) l)
  | RPtr p => Hptr p (match p return ∀ v, p = Some v → P v with
      | None => λ v e, match e with end
      | Some v0 => λ v e, match e in _ = o return match o with Some v => P v | None => True end with
                          | eq_refl => rvalue_nested_ind v0 end end)
  end.
End rvalue_induction.

Section validator.
(** [T] stands for the other types; [A] and [B] for the functions that are
    registered with the types they are for. [Struct] and [Var] are the validator
    made of registrations, on a value and on a string with its tag. *)
Context {T A B : Type}.
Context (Struct : list A * list B → rvalue T → option error).
Context (Var : list A * list B → string → string → option error).

(** The package's variables. *)
Record vstate := mk_vstate {
  DefaultValidator : option (list A * list B); (* what it was made of *)
  registeredTypes : list A;
  registeredStructLevel : list B
}.
Definition vstate_init : vstate := mk_vstate None [] [].

Definition NewDefaultValidator (st : vstate) : list A * list B :=
  (registeredTypes st, registeredStructLevel st).

Definition added_after_init : panicval := PanicString "attempting to add a new validator after init()".

Definition RegisterCustomValidator (data : A) (st : vstate) : vstate * res () :=
  match DefaultValidator st with
  | Some _ => (st, Panic added_after_init)
  | None => (mk_vstate None (registeredTypes st ++ [data]) (registeredStructLevel st), Ok ())
  end.
Definition RegisterStructLevel (data : B) (st : vstate) : vstate * res () :=
  match DefaultValidator st with
  | Some _ => (st, Panic added_after_init)
  | None => (mk_vstate None (registeredTypes st) (registeredStructLevel st ++ [data]), Ok ())
  end.

(** [if DefaultValidator == nil { DefaultValidator = NewDefaultValidator() }]. *)
Definition with_default (st : vstate) : vstate * (list A * list B) :=
  match DefaultValidator st with
  | Some v => (st, v)
  | None =>
      let v := NewDefaultValidator st in
      (mk_vstate (Some v) (registeredTypes st) (registeredStructLevel st), v)
  end.

Definition err_result (e : option error) : res () := match e with Some e => Err e | None => Ok () end.

Definition validate_struct (v : rvalue T) (st : vstate) : vstate * res () :=
  let '(st, d) := with_default st in (st, err_result (Struct d v)).

Fixpoint Validate (v : rvalue T) (st : vstate) : vstate * res () :=
  match v with
  | RNil => (st, Panic nil_dereference) (* the Kind of a nil Type *)
  | RString _ => (st, Ok ())
  | RPtr (Some (RString _ | RSlice _)) => (st, Ok ())
  | RSlice l =>
      (fix loop (l : list (rvalue T)) (st : vstate) : vstate * res () :=
         match l with
         | [] => (st, Ok ())
         | x :: l =>
             match Validate x st with
             | (st, Ok _) => loop l st
             | r => r
             end
         end) l st
  | RPtr _ | ROther _ => validate_struct v st
  end.

Definition ValidateString (val tag : string) (st : vstate) : vstate * res () :=
  let '(st, d) := with_default st in (st, err_result (Var d val tag)).
End validator.
Arguments vstate : clear implicits.

(** ** Files (common/files.go)

    [exists_file] is [os.Stat] without an error, [ReadFile] the file system, and
    [C] the configuration that the YAML decoder, in strict mode, fills in. *)
Section files.
Context (filepath_Join : string → string → string) (exists_file : string → bool).
Context (ReadFile : string → error + string) (error_Error : error → string).
Context {C : Type} (UnmarshalStrict : string → error + C) (C_Validate : C → option error).

Fixpoint find_loop (cfgDir prefix : string) (exts : list string) : string :=
  match exts with
  | [] => ""
  | ext :: exts =>
      let filename := filepath_Join cfgDir (prefix +:+ ext) in
      if exists_file filename then filename else find_loop cfgDir prefix exts
  end.
Definition FindConfigFilename (cfgDir prefix : string) : string := find_loop cfgDir prefix [".json"; ".yaml"].

Definition loadAndValidateFromYAML (b : string) : res C :=
  match UnmarshalStrict b with
  | inl err => Err (ErrText ("failed to parse: " +:+ error_Error err))
  | inr out =>
    match C_Validate out with
    | Some err => Err (ErrText ("failed to validate: " +:+ error_Error err))
    | None => Ok out
    end
  end.

Definition LoadAndValidateFromYAMLFileName (filename : string) : res C :=
  match ReadFile filename with
  | inl err => Err err
  | inr cfgBytes =>
    match loadAndValidateFromYAML cfgBytes with
    | Err err => Err (ErrText ("error encountered with YAML file " +:+ filename +:+ ": " +:+ error_Error err))
    | r => r
    end
  end.
End files.

(** * Lemmas *)

Section validator_properties.
Context {T A B : Type}.
Context (Struct : list A * list B → rvalue T → option error).
Context (Var : list A * list B → string → string → option error).
Notation validate := (Validate Struct).

(** What [Validate] leaves to the validator: slices are looked through, at any
    depth; strings, and pointers to strings and slices, are taken as they are. *)
Fixpoint leaves (v : rvalue T) : list (rvalue T) :=
  match v with
  | RString _ | RPtr (Some (RString _ | RSlice _)) => []
  | RSlice l => (fix go l := match l with [] => [] | x :: l => leaves x ++ go l end) l
  | _ => [v]
  end.

(** The leaves in order, up to the first that fails. *)
Fixpoint check_leaves (l : list (rvalue T)) (st : vstate A B) : vstate A B * res () :=
  match l with
  | [] => (st, Ok ())
  | v :: l =>
      match v with
      | RNil => (st, Panic nil_dereference)
      | _ => match validate_struct Struct v st with
             | (st, Ok _) => check_leaves l st
             | r => r
             end
      end
  end.

Lemma check_leaves_app l1 l2 st :
  check_leaves (l1 ++ l2) st =
    match check_leaves l1 st with (st, Ok _) => check_leaves l2 st | r => r end.
Proof.
  revert st. induction l1 as [|v l1 IH]; intros st; cbn; [done|].
  destruct v; try done; destruct (validate_struct Struct _ st) as [st' [[]| |]]; by rewrite ?IH.
Qed.

Lemma Validate_leaves v st : validate v st = check_leaves (leaves v) st.
Proof.
  revert st. induction v as [|s|l IH|p IH|x] using rvalue_nested_ind; intros st; try done.
  - cbn [Validate leaves]. revert st. induction IH as [|v l Hv _ IHl]; intros st; [done|].
    rewrite check_leaves_app Hv. by destruct (check_leaves (leaves v) st) as [st' [[]| |]].
  - cbn [Validate leaves].
    destruct p as [[]|]; cbn; try done;
      by match goal with |- context [validate_struct ?f ?v ?st] => destruct (validate_struct f v st) as [? [[]| |]] end.
  - cbn. by destruct (validate_struct Struct _ st) as [st' [[]| |]].
Qed.

(** The first error among the leaves, once there is a validator. *)
Definition leaf_error (d : list A * list B) (v : rvalue T) : option error :=
  match v with RNil => None | _ => Struct d v end.

Lemma check_leaves_no_nil l st :
  RNil ∉ l →
  (check_leaves l st).2 = err_result (range_err (Struct (with_default st).2) l) ∧
  (check_leaves l st).1 = (if bool_decide (l = []) then st else (with_default st).1).
Proof.
  intros Hnil. revert st. induction l as [|v l IH]; intros st; [done|].
  apply not_elem_of_cons in Hnil as [Hv Hnil].
  assert (check_leaves (v :: l) st = match validate_struct Struct v st with
    | (st, Ok _) => check_leaves l st | r => r end) as -> by (by destruct v).
  unfold validate_struct. destruct (with_default st) as [st' d] eqn:Ed. cbn [range_err].
  assert (with_default st' = (st', d)) as Ed'.
  { unfold with_default in *. destruct (DefaultValidator st) eqn:E; simplify_eq; [by rewrite E|done]. }
  cbn [snd fst]. destruct (Struct d v) as [e|]; cbn [err_result snd fst]; [by rewrite bool_decide_false|].
  rewrite (bool_decide_false (v :: l = [])) //. destruct (IH Hnil st') as [-> ->]. rewrite Ed' /=.
  split; [done|]. by case_bool_decide.
Qed.

(** [Validate] accepts a value exactly if the validator accepts everything in it that
    is not a string or a pointer to a string or slice, slices being looked through
    at any depth; otherwise it returns the error of the first that fails, in order;
    and it panics only on a nil among them. The validator is that of what had been
    registered when it was first needed. *)
Theorem Validate_spec v st :
  (RNil ∉ leaves v →
   (validate v st).2 = err_result (range_err (Struct (with_default st).2) (leaves v)) ∧
   ((validate v st).2 = Ok () ↔ Forall (λ x, Struct (with_default st).2 x = None) (leaves v)) ∧
   (validate v st).1 = (if bool_decide (leaves v = []) then st else (with_default st).1)) ∧
  (∀ p, (validate v st).2 = Panic p → RNil ∈ leaves v ∧ p = nil_dereference).
Proof.
  rewrite Validate_leaves. split.
  - intros Hnil. destruct (check_leaves_no_nil _ st Hnil) as [-> ->]. split; [done|]. split; [|done].
    rewrite -range_err_None. by destruct (range_err _ _).
  - generalize (leaves v) as l. intros l. revert st. induction l as [|x l IH]; intros st p; [done|].
    cbn. destruct x; try (unfold validate_struct; destruct (with_default st) as [st' d];
      destruct (Struct d _); cbn; [done|]; intros [? ?]%IH; by rewrite elem_of_cons; auto).
    cbn. intros [= <-]. by rewrite elem_of_cons; auto.
Qed.

(** ** The package's state *)

Inductive vop := OpRegister (a : A) | OpRegisterStruct (b : B) | OpValidate (v : rvalue T) | OpVar (val tag : string).
Definition vstep (st : vstate A B) (op : vop) : vstate A B :=
  match op with
  | OpRegister a => (RegisterCustomValidator a st).1
  | OpRegisterStruct b => (RegisterStructLevel b st).1
  | OpValidate v => (validate v st).1
  | OpVar val tag => (ValidateString Var val tag st).1
  end.

Lemma with_default_frozen (st : vstate A B) :
  DefaultValidator st = None ∨ DefaultValidator st = Some (NewDefaultValidator st) →
  DefaultValidator (with_default st).1 = Some (NewDefaultValidator st) ∧
  NewDefaultValidator (with_default st).1 = NewDefaultValidator st ∧
  (with_default st).2 = NewDefaultValidator st.
Proof. unfold with_default. intros [E|E]; rewrite E; by cbn. Qed.

Lemma check_leaves_state l (st : vstate A B) :
  (check_leaves l st).1 = st ∨ (check_leaves l st).1 = (with_default st).1.
Proof.
  revert st. induction l as [|v l IH]; intros st; [by left|].
  assert ((check_leaves (v :: l) st).1 = st ∨ check_leaves (v :: l) st = match validate_struct Struct v st with
    | (st, Ok _) => check_leaves l st | r => r end) as [-> | ->] by (destruct v; auto); [by left|].
  unfold validate_struct. destruct (with_default st) as [st' d] eqn:Ed.
  assert (with_default st' = (st', d)) as Ed'.
  { unfold with_default in *. destruct (DefaultValidator st) eqn:E; simplify_eq; [by rewrite E|done]. }
  destruct (Struct d v); cbn; [by right|]. right. destruct (IH st') as [-> | ->]; [done|by rewrite Ed'].
Qed.

Definition vstate_ok (st : vstate A B) : Prop :=
  DefaultValidator st = None ∨ DefaultValidator st = Some (NewDefaultValidator st).

(** Whatever is called in whatever order, the default validator is missing or made of
    all that has been registered. Once it is there it never changes any more, and a
    later registration panics and leaves everything as it was. *)
Theorem validator_state_frozen ops ops' :
  let st := foldl vstep vstate_init ops in
  let st' := foldl vstep st ops' in
  vstate_ok st ∧
  (is_Some (DefaultValidator st) →
   st' = st ∧ (∀ a, RegisterCustomValidator a st = (st, Panic added_after_init)) ∧
   (∀ b, RegisterStructLevel b st = (st, Panic added_after_init))).
Proof.
  cbn zeta.
  assert (∀ st op, vstate_ok st → vstate_ok (vstep st op)) as Hstep.
  { intros st op Hok. assert (vstate_ok (with_default st).1) as Hwd.
    { destruct (with_default_frozen st Hok) as (E1&E2&_). right. by rewrite E1 E2. }
    destruct op as [a|b|v|val tag]; cbn.
    - unfold RegisterCustomValidator. destruct (DefaultValidator st) eqn:E; [done|by left].
    - unfold RegisterStructLevel. destruct (DefaultValidator st) eqn:E; [done|by left].
    - rewrite Validate_leaves. by destruct (check_leaves_state (leaves v) st) as [-> | ->].
    - unfold ValidateString. by destruct (with_default st). }
  assert (∀ ops st, vstate_ok st → vstate_ok (foldl vstep st ops)) as Hall.
  { clear ops ops'. induction ops as [|op ops IH]; intros st Hok; [done|]. apply IH, Hstep, Hok. }
  split; [apply Hall; by left|]. intros [d Hd]. split.
  - assert (∀ st op, is_Some (DefaultValidator st) → vstep st op = st) as Hsame.
    { intros st op [d' E]. assert (with_default st = (st, d')) as Ew by (unfold with_default; by rewrite E).
      destruct op as [a|b|v|val tag]; cbn.
      - unfold RegisterCustomValidator. by rewrite E.
      - unfold RegisterStructLevel. by rewrite E.
      - rewrite Validate_leaves. destruct (check_leaves_state (leaves v) st) as [-> | ->]; [done|by rewrite Ew].
      - unfold ValidateString. by rewrite Ew. }
    revert Hd. generalize (foldl vstep vstate_init ops). clear -Hsame.
    induction ops' as [|op ops' IH]; intros st Hd; [done|]. cbn. rewrite Hsame; [by eexists|]. by apply IH.
  - unfold RegisterCustomValidator, RegisterStructLevel. by rewrite Hd.
Qed.
End validator_properties.

(** A YAML file is loaded exactly if it can be read, decodes and validates, and
    each failure says at which of the three. *)
Lemma LoadAndValidate_spec {C} ReadFile error_Error (UnmarshalStrict : string → error + C) C_Validate filename c :
  LoadAndValidateFromYAMLFileName ReadFile error_Error UnmarshalStrict C_Validate filename = Ok c ↔
  ∃ b, ReadFile filename = inr b ∧ UnmarshalStrict b = inr c ∧ C_Validate c = None.
Proof.
  unfold LoadAndValidateFromYAMLFileName, loadAndValidateFromYAML. split.
  - intros H. repeat case_match; simplify_eq; eauto.
  - intros (b&->&->&->). done.
Qed.

(** JSON is preferred to YAML. *)
Lemma FindConfigFilename_spec join exists_file dir prefix :
  FindConfigFilename join exists_file dir prefix =
    if exists_file (join dir (prefix +:+ ".json")) then join dir (prefix +:+ ".json")
    else if exists_file (join dir (prefix +:+ ".yaml")) then join dir (prefix +:+ ".yaml") else "".
Proof. done. Qed.

(** ** Two structs in nested slices *)
Module ValidationExample.
(** A struct is its name; the validator refuses those that start with a minus. *)
Definition strct (d : list unit * list unit) (v : rvalue string) : option error :=
  match v with ROther s => if HasPrefix s "-" then Some (ErrText ("bad " +:+ s)) else None | _ => None end.
Definition v : rvalue string :=
  RSlice [RSlice [RString "a"; ROther "x"]; RPtr (Some (RSlice [ROther "-hidden"])); ROther "-y"; ROther "-z"].
End ValidationExample.

Lemma Validate_spec_witness :
  (Validate ValidationExample.strct ValidationExample.v vstate_init).2 = Err (ErrText "bad -y") ∧
  (RNil ∉ leaves ValidationExample.v).
Proof.
  assert (RNil ∉ leaves ValidationExample.v) as Hn by (cbn; rewrite !not_elem_of_cons; by split_and!; try apply not_elem_of_nil).
  split; [|exact Hn].
  destruct (Validate_spec ValidationExample.strct ValidationExample.v vstate_init) as [H _].
  destruct (H Hn) as [E _]. rewrite E. vm_compute. reflexivity.
Defined.

Lemma validator_state_frozen_witness :
  RegisterCustomValidator () (foldl (vstep ValidationExample.strct (λ _ _ _, None)) vstate_init
      [OpRegister (); OpValidate ValidationExample.v]) =
    (mk_vstate (Some ([()], [])) [()] [], Panic added_after_init).
Proof.
  destruct (validator_state_frozen ValidationExample.strct (λ _ _ _, None)
    [OpRegister (); OpValidate ValidationExample.v] []) as [_ H].
  destruct H as (_&H&_); [vm_compute; by eexists|]. exact (H ()).
Defined.
