(* ===== verification/DescribeConfig.v ===== *)
(** * The help on the configuration file: of src/core/serve.go, [describeCustomConfig]

    Without a configuration a server prints the schema of its file: the types that
    occur all over once each, then the application's own configuration. The types are
    inspected by reflection: a type here is a tree of what reflection tells of it. A
    type that contains itself has no such tree, and the code would not come to an end
    on it. *)

From stdpp Require Import sorting.
From S2P Require Export Go.

(** ** Types, as reflection sees them *)

Inductive gtype := GType (pkgPath name : string) (kind : gkind)
with gkind :=
| KBool | KInt | KFloat | KString | KInterface | KFunc
| KSeq (elem : gtype)               (* array, slice *)
| KMap (elem : gtype)
| KPtr (elem : gtype)
| KStruct (fields : list gfield)
| KOther                            (* channels, complex numbers, ... *)
with gfield := GField (name yamlTag mapTag : string) (type : gtype).

Definition type_id (t : gtype) : string * string := let '(GType pkg name _) := t in (pkg, name).

(** ** Output *)

Definition newline : string := String "010" "".
Definition escape (code : string) : string := String "027" ("[" +:+ code +:+ "m").
Definition bold : string := escape "1".
Definition plain : string := escape "0".

Fixpoint spaces (n : nat) : string := match n with O => "" | S n => String " " (spaces n) end.

(** [strings.Join(strings.SplitAfterN(format, "\n", 2), strings.Repeat(" ", indent))]. *)
Fixpoint indent_format (indent : nat) (format : string) : string :=
  match format with
  | "" => ""
  | String c rest =>
      if bool_decide (c = "010"%char) then String c (spaces indent +:+ rest)
      else String c (indent_format indent rest)
  end.

Section describe.
(** [strconv.Quote], for %q. *)
Context (Quote : string → string).

(** [fmt.Sprintf] with the verbs the code uses. *)
Fixpoint Sprintf (format : string) (args : list string) : string :=
  match format with
  | "" => ""
  | String c rest =>
      if bool_decide (c = "%"%char) then
        match rest with
        | String v rest' =>
            match args with
            | a :: args =>
                if bool_decide (v = "s"%char) then a +:+ Sprintf rest' args
                else if bool_decide (v = "q"%char) then Quote a +:+ Sprintf rest' args
                else String c (Sprintf rest (a :: args))
            | [] => String c (Sprintf rest [])
            end
        | "" => String c ""
        end
      else String c (Sprintf rest args)
  end.

Definition yamlEgComment (example format : string) (args : list string) : string :=
  Sprintf (escape "1;31" +:+ "%s " +:+ escape "0;32" +:+ "# " +:+ format +:+ plain) (example :: args).

(** The types with a section of their own, or with a text to stand for them. *)
Definition aliases := gmap (string * string) string.

(** What is written, and whether it ends in a panic. *)
Definition written := (string * res ())%type.
Definition andthen (a b : written) : written :=
  match a with
  | (s, Ok _) => (s +:+ b.1, b.2)
  | _ => a
  end.

Definition outf (indent : nat) (format : string) (args : list string) : written :=
  (Sprintf (indent_format indent format) args, Ok ()).

(** The name a field goes under. *)
Definition field_name (name yamlTag mapTag : string) (t : gtype) : string :=
  if bool_decide (mapTag ≠ "") then default "" (head (Split "," mapTag))
  else if bool_decide (yamlTag ≠ "") then default "" (head (Split "," yamlTag))
  else match t with GType _ _ KFunc => "" | _ => name end.

Definition out_name (indent : nat) (name : string) : written :=
  if bool_decide (name ≠ "") then outf indent (newline +:+ "%s:") [name] else ("", Ok ()).

Definition unhandled : panicval := PanicError (ErrText "describeYAMLForType: Unhandled type").

Section types.
Context (commonTypes : aliases).

Fixpoint describeYAMLForType (t : gtype) (indent : nat) : written :=
  match t with
  | GType pkg name k =>
    match commonTypes !! (pkg, name) with
    | Some alias =>
        if bool_decide (alias = "") then outf indent (" " +:+ yamlEgComment "{}" "%q.%s" [pkg; name]) []
        else outf indent " %s" [alias]
    | None => describe_kind k indent
    end
  end
with describe_kind (k : gkind) (indent : nat) : written :=
  match k with
  | KBool => outf indent (" " +:+ bold +:+ "false" +:+ plain) []
  | KInt => outf indent (" " +:+ bold +:+ "0" +:+ plain) []
  | KFloat => outf indent (" " +:+ bold +:+ "0.0" +:+ plain) []
  | KSeq e => andthen (outf indent (newline +:+ "-") []) (describeYAMLForType e (indent + 4))
  | KInterface => outf indent (" " +:+ yamlEgComment "{}" "any value" []) []
  | KMap e => andthen (outf indent (newline +:+ " key: ") []) (describeYAMLForType e (indent + 4))
  | KPtr e => describeYAMLForType e indent
  | KString => outf indent (" " +:+ bold +:+ String "034" (String "034" "") +:+ plain) []
  | KStruct fields =>
      (fix go (fields : list gfield) : written :=
         match fields with
         | [] => ("", Ok ())
         | f :: fields => andthen (describe_field f indent) (go fields)
         end) fields
  | KFunc => ("", Ok ())
  | KOther => ("", Panic unhandled)
  end
with describe_field (f : gfield) (indent : nat) : written :=
  match f with
  | GField fname yamlTag mapTag ft =>
      andthen (out_name indent (field_name fname yamlTag mapTag ft)) (describeYAMLForType ft (indent + 4))
  end.
End types.

(** ** describeCustomConfig *)

Definition full_name (t : gtype) : string := (type_id t).1 +:+ "." +:+ (type_id t).2.

Definition string_le (a b : string) : Prop := String.leb a b = true.
#[export] Instance string_le_dec : RelDecision string_le.
Proof. intros a b. unfold string_le. apply _. Defined.

(** The loop over the sorted names; the map changes only while a type is described. *)
Fixpoint describe_common (byName : gmap string gtype) (names : list string) (commonTypes : aliases) :
    written * aliases :=
  match names with
  | [] => (("", Ok ()), commonTypes)
  | name :: names =>
      match byName !! name with
      | None => describe_common byName names commonTypes (* every name has its type *)
      | Some ct =>
          if bool_decide (commonTypes !! type_id ct = Some "") then
            let w := andthen
              (Sprintf (newline +:+ newline +:+ escape "1;32" +:+ "%q.%s:" +:+ plain) [(type_id ct).1; (type_id ct).2], Ok ())
              (describeYAMLForType (delete (type_id ct) commonTypes) ct 4) in
            let '(rest, commonTypes) := describe_common byName names (<[type_id ct := ""]> (delete (type_id ct) commonTypes)) in
            (andthen w rest, commonTypes)
          else describe_common byName names commonTypes
      end
  end.

(** [common] gives the four types of the code: the sensitive string with its text,
    the others with none. *)
Definition describeCustomConfig (common : list (gtype * string)) (customConfig : gtype) : written :=
  let commonTypes : aliases := list_to_map ((λ c, (type_id c.1, c.2)) <$> common) in
  let byName : gmap string gtype := list_to_map ((λ c, (full_name c.1, c.1)) <$> common) in
  let names := merge_sort string_le ((λ c, full_name c.1) <$> common) in
  let '(sections, commonTypes) := describe_common byName names commonTypes in
  andthen (bold +:+ "Configuration file YAML schema" +:+ plain, Ok ())
    (andthen sections
      (andthen (newline +:+ newline +:+ bold +:+ "Application Configuration" +:+ plain, Ok ())
        (describeYAMLForType commonTypes customConfig 0))).

Definition sensitive_alias : string := yamlEgComment (String "034" "*****" +:+ String "034" "") "sensitive string" [].
End describe.

(** * Lemmas *)

Section gtype_induction.
Context (P : gtype → Prop) (Pk : gkind → Prop) (Pf : gfield → Prop).
Hypothesis Htype : ∀ pkg name k, Pk k → P (GType pkg name k).
Hypothesis Hleaf : ∀ k, (∀ e, k ≠ KSeq e) → (∀ e, k ≠ KMap e) → (∀ e, k ≠ KPtr e) → (∀ l, k ≠ KStruct l) → Pk k.
Hypothesis Hseq : ∀ e, P e → Pk (KSeq e).
Hypothesis Hmap : ∀ e, P e → Pk (KMap e).
Hypothesis Hptr : ∀ e, P e → Pk (KPtr e).
Hypothesis Hstruct : ∀ l, Forall Pf l → Pk (KStruct l).
Hypothesis Hfield : ∀ n y m t, P t → Pf (GField n y m t).
Fixpoint gtype_nested_ind (t : gtype) : P t :=
  match t with GType pkg name k => Htype pkg name k (gkind_nested_ind k) end
with gkind_nested_ind (k : gkind) : Pk k :=
  match k with
  | KSeq e => Hseq e (gtype_nested_ind e)
  | KMap e => Hmap e (gtype_nested_ind e)
  | KPtr e => Hptr e (gtype_nested_ind e)
  | KStruct l => Hstruct l ((fix go l := match l return Forall Pf l with
      | [] => Forall_nil _
      | f :: l => Forall_cons _ f l (gfield_nested_ind f) (go l) end) l)
  | k => Hleaf k ltac:(done) ltac:(done) ltac:(done) ltac:(done)
  end
with gfield_nested_ind (f : gfield) : Pf f :=
  match f with GField n y m t => Hfield n y m t (gtype_nested_ind t) end.
End gtype_induction.

Lemma andthen_result a b : (andthen a b).2 = match a.2 with Ok _ => b.2 | _ => a.2 end.
Proof. by destruct a as [? [[]| |]]. Qed.
Lemma andthen_Ok s b : andthen (s, Ok ()) b = (s +:+ b.1, b.2).
Proof. done. Qed.

(** ** What can be described *)

(** No channel and no other kind without a YAML form below the common types. *)
Fixpoint handled (commonTypes : aliases) (t : gtype) : bool :=
  match t with
  | GType pkg name k => bool_decide (is_Some (commonTypes !! (pkg, name))) || handled_kind commonTypes k
  end
with handled_kind (commonTypes : aliases) (k : gkind) : bool :=
  match k with
  | KSeq e | KMap e | KPtr e => handled commonTypes e
  | KStruct fields => (fix go fields := match fields with
      | [] => true | GField _ _ _ t :: fields => handled commonTypes t && go fields end) fields
  | KOther => false
  | _ => true
  end.

Lemma describe_result Quote ct t indent :
  (describeYAMLForType Quote ct t indent).2 = if handled ct t then Ok () else Panic unhandled.
Proof.
  revert indent. apply (gtype_nested_ind
    (λ t, ∀ indent, (describeYAMLForType Quote ct t indent).2 = if handled ct t then Ok () else Panic unhandled)
    (λ k, ∀ indent, (describe_kind Quote ct k indent).2 = if handled_kind ct k then Ok () else Panic unhandled)
    (λ f, ∀ indent, (describe_field Quote ct f indent).2 =
      let '(GField _ _ _ t) := f in if handled ct t then Ok () else Panic unhandled)).
  - intros pkg name k IH indent. cbn [describeYAMLForType handled].
    destruct (ct !! (pkg, name)) as [alias|] eqn:E.
    + rewrite (bool_decide_true (is_Some _)); [by eexists|]. by case_bool_decide.
    + rewrite bool_decide_false; [|done]. intros [? ?]. congruence.
  - intros k H1 H2 H3 H4 indent. destruct k as [| | | | | |e|e|e|l|]; try done;
      [by destruct (H1 e)|by destruct (H2 e)|by destruct (H3 e)|by destruct (H4 l)].
  - intros e IH indent. cbn [describe_kind handled_kind]. rewrite andthen_result. apply IH.
  - intros e IH indent. cbn [describe_kind handled_kind]. rewrite andthen_result. apply IH.
  - intros e IH indent. apply IH.
  - intros l IH indent. cbn [describe_kind handled_kind].
    induction IH as [|[n y m t'] l Hf _ IHl]; [done|]. rewrite andthen_result Hf IHl. by destruct (handled ct t').
  - intros n y m t' IH indent. cbn [describe_field]. rewrite andthen_result.
    assert ((out_name Quote indent (field_name n y m t')).2 = Ok ()) as ->; [|apply IH].
    unfold out_name. by case_bool_decide.
Qed.

(** ** Indentation *)

(** Every line after the first starts with [n] spaces at least. *)
Fixpoint lines_indented (n : nat) (s : string) : bool :=
  match s with
  | "" => true
  | String c s => (negb (bool_decide (c = "010"%char)) || HasPrefix s (spaces n)) && lines_indented n s
  end.
Definition one_line (s : string) : bool := str_forall (λ c, negb (bool_decide (c = "010"%char))) s.

Lemma HasPrefix_app s t p : HasPrefix s p = true → HasPrefix (s +:+ t) p = true.
Proof.
  revert s. induction p as [|a p IH]; intros s; [by destruct (s +:+ t)|].
  destruct s as [|b s]; [done|]. cbn. intros [Hab Hp]%andb_true_iff. rewrite Hab /=. by apply IH.
Qed.

Lemma lines_indented_app n s t :
  lines_indented n s = true → lines_indented n t = true → lines_indented n (s +:+ t) = true.
Proof.
  intros Hs Ht. induction s as [|c s IH]; [done|]. cbn in *.
  apply andb_true_iff in Hs as [Hc Hs]. rewrite IH // andb_true_r.
  apply orb_true_iff in Hc as [->|Hc]; [done|]. by rewrite (HasPrefix_app _ _ _ Hc) orb_true_r.
Qed.

Lemma HasPrefix_spaces m n s : (m ≤ n)%nat → HasPrefix s (spaces n) = true → HasPrefix s (spaces m) = true.
Proof.
  revert n s. induction m as [|m IH]; intros n s Hmn; [by destruct s|].
  destruct n as [|n]; [lia|]. destruct s as [|c s]; [done|]. cbn. intros [-> ?]%andb_true_iff.
  apply (IH n); [lia|done].
Qed.

Lemma lines_indented_le m n s : (m ≤ n)%nat → lines_indented n s = true → lines_indented m s = true.
Proof.
  intros Hmn. induction s as [|c s IH]; [done|]. cbn. intros [Hc Hs]%andb_true_iff. rewrite IH // andb_true_r.
  apply orb_true_iff in Hc as [->|Hc]; [done|]. by rewrite (HasPrefix_spaces m n) // orb_true_r.
Qed.

Lemma one_line_indented n s : one_line s = true → lines_indented n s = true.
Proof.
  induction s as [|c s IH]; [done|]. cbn. intros [-> Hs]%andb_true_iff. by rewrite IH.
Qed.

Lemma one_line_app s t : one_line (s +:+ t) = one_line s && one_line t.
Proof. induction s as [|c s IH]; [done|]. cbn. unfold one_line in IH. by rewrite IH andb_assoc. Qed.

Section indentation.
Context (Quote : string → string).
(** A quoted string is on one line: %q writes a newline as an escape. *)
Hypothesis Quote_one_line : ∀ s, one_line (Quote s) = true.
#[local] Set Default Proof Using "All".

Lemma Sprintf_one_line format args :
  one_line format = true → forallb one_line args = true → one_line (Sprintf Quote format args) = true.
Proof.
  remember (String.length format) as n eqn:Hn.
  assert (String.length format ≤ n)%nat as Hle by lia. clear Hn. revert format args Hle.
  induction n as [|n IH]; intros format args Hle; (destruct format as [|c rest]; [done|]; cbn in Hle); [lia|].
  intros Hf Ha. assert (negb (bool_decide (c = "010"%char)) = true ∧ one_line rest = true) as [Hc Hr]
    by (by apply andb_true_iff).
  assert (∀ args, forallb one_line args = true → one_line (String c (Sprintf Quote rest args)) = true) as Hcons.
  { intros args' Ha'. unfold one_line. cbn. rewrite Hc /=. apply IH; [lia|done|done]. }
  cbn [Sprintf]. destruct (bool_decide (c = "%"%char)); [|by apply Hcons].
  destruct rest as [|v rest']; [by unfold one_line; cbn; rewrite Hc|].
  destruct args as [|a args]; [by apply Hcons|]. cbn in Ha. apply andb_true_iff in Ha as [Ha1 Ha2].
  apply andb_true_iff in Hr as [_ Hr']. cbn in Hle.
  destruct (bool_decide (v = "s"%char)); [rewrite one_line_app Ha1 /=; apply IH; [lia|done|done]|].
  destruct (bool_decide (v = "q"%char)); [rewrite one_line_app Quote_one_line /=; apply IH; [lia|done|done]|].
  apply Hcons. cbn. by rewrite Ha1.
Qed.

Lemma indent_format_one_line indent s : one_line s = true → indent_format indent s = s.
Proof.
  induction s as [|c s IH]; [done|]. cbn. intros [Hc Hs]%andb_true_iff. apply negb_true_iff in Hc.
  rewrite Hc. f_equal. by apply IH.
Qed.

Lemma Sprintf_spaces n s args : Sprintf Quote (spaces n +:+ s) args = spaces n +:+ Sprintf Quote s args.
Proof. induction n as [|n IH]; [done|]. cbn. by rewrite IH. Qed.

Lemma spaces_prefix n s : HasPrefix (spaces n +:+ s) (spaces n) = true.
Proof. induction n as [|n IH]; [by destruct s|]. done. Qed.

Lemma spaces_one_line n : one_line (spaces n) = true.
Proof. induction n as [|n IH]; [done|]. done. Qed.

Lemma outf_indented indent format args :
  one_line format = true → forallb one_line args = true →
  lines_indented indent (outf Quote indent format args).1 = true ∧
  lines_indented indent (outf Quote indent (newline +:+ format) args).1 = true.
Proof.
  intros Hf Ha. split; cbn [outf fst].
  - apply one_line_indented. rewrite indent_format_one_line //. by apply Sprintf_one_line.
  - change (indent_format indent (newline +:+ format)) with (newline +:+ (spaces indent +:+ format)).
    change (Sprintf Quote (newline +:+ (spaces indent +:+ format)) args) with
      (newline +:+ Sprintf Quote (spaces indent +:+ format) args).
    rewrite Sprintf_spaces. cbn. rewrite spaces_prefix /=. apply one_line_indented.
    by rewrite one_line_app spaces_one_line Sprintf_one_line.
Qed.

(** The names and aliases that go into the text are single lines. *)
Definition aliases_one_line (ct : aliases) : Prop := map_Forall (λ _ a, one_line a = true) ct.

Fixpoint names_one_line (t : gtype) : bool :=
  match t with GType pkg name k => one_line pkg && one_line name && names_one_line_kind k end
with names_one_line_kind (k : gkind) : bool :=
  match k with
  | KSeq e | KMap e | KPtr e => names_one_line e
  | KStruct fields => (fix go fields := match fields with
      | [] => true
      | GField n y m t :: fields => one_line (field_name n y m t) && names_one_line t && go fields end) fields
  | _ => true
  end.

Lemma yamlEgComment_one_line example format args :
  one_line example = true → one_line format = true → forallb one_line args = true →
  one_line (yamlEgComment Quote example format args) = true.
Proof.
  intros He Hf Ha. apply Sprintf_one_line; [|by cbn; rewrite He]. rewrite !one_line_app Hf. done.
Qed.

Lemma andthen_indented n a b :
  lines_indented n a.1 = true → lines_indented n b.1 = true → lines_indented n (andthen a b).1 = true.
Proof. destruct a as [s [[]| |]]; cbn; try done. apply lines_indented_app. Qed.

(** The description of a type at some indentation is nested in it: every line it
    starts is indented by as much at least. *)
Lemma describe_indented ct t indent :
  aliases_one_line ct → names_one_line t = true →
  lines_indented indent (describeYAMLForType Quote ct t indent).1 = true.
Proof.
  intros Hct. revert indent. apply (gtype_nested_ind
    (λ t, ∀ indent, names_one_line t = true → lines_indented indent (describeYAMLForType Quote ct t indent).1 = true)
    (λ k, ∀ indent, names_one_line_kind k = true → lines_indented indent (describe_kind Quote ct k indent).1 = true)
    (λ f, ∀ indent, (let '(GField n y m t) := f in one_line (field_name n y m t) && names_one_line t) = true →
      lines_indented indent (describe_field Quote ct f indent).1 = true)).
  - intros pkg name k IH indent [[Hp Hn]%andb_true_iff Hk]%andb_true_iff. cbn [describeYAMLForType].
    destruct (ct !! (pkg, name)) as [alias|] eqn:E; [|by apply IH]. case_bool_decide.
    + apply outf_indented; [|done]. rewrite one_line_app. apply yamlEgComment_one_line; [done..|].
      cbn. by rewrite Hp Hn.
    + apply outf_indented; [done|]. cbn. by rewrite (Hct _ _ E).
  - intros k H1 H2 H3 H4 indent _.
    destruct k as [| | | | | |e|e|e|l|]; try done; try (by apply outf_indented);
      [by destruct (H1 e)|by destruct (H2 e)|by destruct (H3 e)|by destruct (H4 l)].
  - intros e IH indent Hn. cbn [describe_kind]. apply andthen_indented; [by apply outf_indented|].
    apply (lines_indented_le _ (indent + 4)); [lia|by apply IH].
  - intros e IH indent Hn. cbn [describe_kind]. apply andthen_indented; [by apply outf_indented|].
    apply (lines_indented_le _ (indent + 4)); [lia|by apply IH].
  - intros e IH indent Hn. by apply IH.
  - intros l IH indent. cbn [describe_kind names_one_line_kind].
    induction IH as [|[n y m t'] l Hf _ IHl]; [done|]. intros [Hn Hl]%andb_true_iff.
    apply andthen_indented; [by apply Hf|by apply IHl].
  - intros n y m t' IH indent [Hn Ht]%andb_true_iff. cbn [describe_field]. apply andthen_indented.
    + unfold out_name. case_bool_decide; [|done]. apply outf_indented; [done|]. cbn. by rewrite Hn.
    + apply (lines_indented_le _ (indent + 4)); [lia|by apply IH].
Qed.
End indentation.

(** ** The whole text *)

#[export] Instance string_le_total : Total string_le.
Proof. intros a b. unfold string_le. apply String.leb_total. Qed.

Section whole.
Context (Quote : string → string).

(** The section of one of the common types, described with the others by name. *)
Definition section_of (byName : gmap string gtype) (ct : aliases) (name : string) : written :=
  match byName !! name with
  | Some t =>
      if bool_decide (ct !! type_id t = Some "") then
        andthen (Sprintf Quote (newline +:+ newline +:+ escape "1;32" +:+ "%q.%s:" +:+ plain)
                   [(type_id t).1; (type_id t).2], Ok ())
          (describeYAMLForType Quote (delete (type_id t) ct) t 4)
      else ("", Ok ())
  | None => ("", Ok ())
  end.

Lemma andthen_nil a : andthen ("", Ok ()) a = a.
Proof. by destruct a. Qed.

Lemma describe_common_sections byName names ct :
  describe_common Quote byName names ct =
    (foldr (λ name w, andthen (section_of byName ct name) w) ("", Ok ()) names, ct).
Proof.
  induction names as [|name names IH]; [done|]. cbn [describe_common foldr]. unfold section_of at 1.
  destruct (byName !! name) as [t|]; [|by rewrite IH andthen_nil].
  case_bool_decide as E; [|by rewrite IH andthen_nil].
  rewrite insert_delete_eq (insert_id ct _ _ E) IH. reflexivity.
Qed.

(** The help is the three headings with, in between, a section for each common type
    that has no text of its own, in the order of the names, each of them written with
    the other common types by name and itself in full; and the application's types at
    the end, with all the common ones by name. It is cut short by a panic exactly if
    one of those types contains a kind that YAML has nothing for. *)
Theorem describeCustomConfig_spec common app :
  let ct : aliases := list_to_map ((λ c, (type_id c.1, c.2)) <$> common) in
  let byName : gmap string gtype := list_to_map ((λ c, (full_name c.1, c.1)) <$> common) in
  ∃ names, names ≡ₚ (λ c, full_name c.1) <$> common ∧ Sorted string_le names ∧
  describeCustomConfig Quote common app =
    andthen (bold +:+ "Configuration file YAML schema" +:+ plain, Ok ())
      (andthen (foldr (λ name w, andthen (section_of byName ct name) w) ("", Ok ()) names)
        (andthen (newline +:+ newline +:+ bold +:+ "Application Configuration" +:+ plain, Ok ())
          (describeYAMLForType Quote ct app 0))) ∧
  (describeCustomConfig Quote common app).2 =
    if forallb (λ name, match byName !! name with
                        | Some t => negb (bool_decide (ct !! type_id t = Some "")) || handled (delete (type_id t) ct) t
                        | None => true end) names && handled ct app
    then Ok () else Panic unhandled.
Proof.
  intros ct byName. set (names := merge_sort string_le ((λ c, full_name c.1) <$> common)).
  exists names. split; [apply merge_sort_Permutation|]. split; [apply Sorted_merge_sort; apply _|].
  assert (describeCustomConfig Quote common app =
    andthen (bold +:+ "Configuration file YAML schema" +:+ plain, Ok ())
      (andthen (foldr (λ name w, andthen (section_of byName ct name) w) ("", Ok ()) names)
        (andthen (newline +:+ newline +:+ bold +:+ "Application Configuration" +:+ plain, Ok ())
          (describeYAMLForType Quote ct app 0)))) as E.
  { unfold describeCustomConfig. fold ct byName names. by rewrite describe_common_sections. }
  split; [done|]. rewrite E !andthen_result. cbn [snd]. rewrite describe_result.
  clear E. generalize names as ns. clear names. intros ns. induction ns as [|name ns IH]; [done|].
  cbn [foldr forallb]. rewrite andthen_result.
  set (ok := match byName !! name with Some t => _ | None => true end).
  assert ((section_of byName ct name).2 = if ok then Ok () else Panic unhandled) as ->.
  { subst ok. unfold section_of. destruct (byName !! name) as [t|]; [|done].
    destruct (bool_decide (ct !! type_id t = Some "")); [|done]. rewrite andthen_result. apply describe_result. }
  destruct ok; [exact IH|done].
Qed.
End whole.

(** ** An application with one setting *)
Module DescribeExample.
Definition tls : gtype :=
  GType "config" "TLSConfig" (KStruct [GField "MinVersion" "min" "min" (GType "" "" (KPtr (GType "" "string" KString)))]).
Definition app : gtype :=
  GType "main" "App" (KStruct [GField "TLS" "tls,omitempty" "" tls; GField "Ports" "" "" (GType "" "" (KSeq (GType "" "int" KInt)))]).
Definition nl : string := newline.
Example text :
  describeCustomConfig (λ s, s) [(tls, "")] app =
    (bold +:+ "Configuration file YAML schema" +:+ plain +:+
     nl +:+ nl +:+ escape "1;32" +:+ "config.TLSConfig:" +:+ plain +:+
     nl +:+ "    min: " +:+ bold +:+ String "034" (String "034" "") +:+ plain +:+
     nl +:+ nl +:+ bold +:+ "Application Configuration" +:+ plain +:+
     nl +:+ "tls: " +:+ escape "1;31" +:+ "{} " +:+ escape "0;32" +:+ "# config.TLSConfig" +:+ plain +:+
     nl +:+ "Ports:" +:+ nl +:+ "    - " +:+ bold +:+ "0" +:+ plain, Ok ()).
Proof. vm_compute. reflexivity. Qed.
End DescribeExample.
