(* ===== verification/ConfigTypes.v ===== *)
(** * Configuration data: the structs of src/config and src/jwtauth/config.go

    Records in the shape of the structs a configuration file is decoded into.
    A Go pointer that may be nil is an [option]; a [time.Duration] is its number
    of nanoseconds, in [Z]. *)

From S2P Require Export Go.

(** [time.Duration] is an [int64]. *)
Definition Nanosecond : Z := 1.
Definition Microsecond : Z := 1000.
Definition Millisecond : Z := 1000000.
Definition Second : Z := 1000000000.
Definition Minute : Z := 60000000000.
Definition Hour : Z := 3600000000000.
Definition maxInt64 : Z := 2 ^ 63 - 1.
Definition minInt64 : Z := - 2 ^ 63.
Definition in_int64 (z : Z) : Prop := (minInt64 ≤ z ≤ maxInt64)%Z.

(** ** Secrets (sensitivestring.go, secret_key.go) *)

Record SensitiveString := mkSensitiveString {
  ss_s : string;
  ss_replacement : option string
}.

Record SecretKeyConfig := mkSecretKeyConfig {
  sk_Encoding : option string;
  sk_Alias : option string;
  sk_KeyStore : option string;
  sk_KeyStorePassword : option SensitiveString;
  sk_Value : option SensitiveString
}.

(** ** TLS (tls.go) *)

Record CertKeyPair := mkCertKeyPair {
  ckp_CertPath : option string;
  ckp_KeyPath : option string
}.

Record Pkcs12Store := mkPkcs12Store {
  p12_Path : option string;
  p12_Password : option SensitiveString
}.

Record ServerIdentityConfig := mkServerIdentityConfig {
  si_CertKeyPair : option CertKeyPair;
  si_PKCS12Store : option Pkcs12Store
}.

Record TrustedCertPoolConfig := mkTrustedCertPoolConfig {
  tcp_Mode : option string;
  tcp_Encoding : option string;
  tcp_Path : option string;
  tcp_Password : option SensitiveString
}.

Record TLSConfig := mkTLSConfig {
  tls_MinVersion : option string;
  tls_MaxVersion : option string;
  tls_ClientAuth : option string;
  tls_Ciphers : list string;
  tls_ServerIdentities : list (option ServerIdentityConfig);
  tls_TrustedCertPool : option TrustedCertPoolConfig;
  tls_InsecureSkipVerify : bool;
  tls_SelfSigned : bool;
  tls_Renegotiation : option string
}.

(** ** JWT authentication (jwtauth/config.go) *)

Record IssuerConfig := mkIssuerConfig {
  ic_Name : string;
  ic_JWKSURL : string;
  ic_CacheTTL : Z;
  ic_CacheRefresh : Z
}.

Record JwtConfig := mkJwtConfig { jc_Issuers : list IssuerConfig }.

(** ** Library and server configuration (library.go, http.go, gen_code.go, temporal.go, development.go) *)

Record LogConfig := mkLogConfig {
  log_Format : string;
  log_Level : Z;
  log_ReportCaller : bool;
  log_LogPayload : bool
}.

Record AuthenticationConfig := mkAuthenticationConfig { auth_JWTAuth : option JwtConfig }.

Record TraceConfig := mkTraceConfig { trace_IncomingHeaderForID : string }.

Record LibraryConfig := mkLibraryConfig {
  lib_Log : LogConfig;
  lib_Profiling : bool;
  lib_Health : bool;
  lib_Authentication : option AuthenticationConfig;
  lib_Trace : TraceConfig
}.

Record CommonServerConfig := mkCommonServerConfig {
  csc_HostName : string;
  csc_Port : Z;
  csc_TLS : option TLSConfig
}.

Record CommonHTTPServerConfig := mkCommonHTTPServerConfig {
  hsc_Common : CommonServerConfig;
  hsc_BasePath : string;
  hsc_ReadTimeout : Z;
  hsc_WriteTimeout : Z
}.

Record GRPCServerConfig := mkGRPCServerConfig {
  gsc_Common : CommonServerConfig;
  gsc_EnableReflection : bool
}.

Record TemporalServerConfig := mkTemporalServerConfig {
  tsc_HostPort : string;
  tsc_Namespace : string
}.

Record AdminConfig := mkAdminConfig {
  admin_ContextTimeout : Z;
  admin_HTTP : CommonHTTPServerConfig
}.

Record UpstreamConfig := mkUpstreamConfig {
  up_ContextTimeout : Z;
  up_HTTP : CommonHTTPServerConfig;
  up_GRPC : GRPCServerConfig;
  up_Temporal : TemporalServerConfig
}.

Record GenCodeConfig := mkGenCodeConfig {
  gen_Upstream : UpstreamConfig;
  gen_Downstream : value
}.

Record DevelopmentConfig := mkDevelopmentConfig { dev_DisableAllAuthorizationRules : bool }.

Record DefaultConfig := mkDefaultConfig {
  cfg_Library : LibraryConfig;
  cfg_Admin : option AdminConfig;
  cfg_GenCode : GenCodeConfig;
  cfg_Development : option DevelopmentConfig
}.

(** ** Downstream configuration (http.go, grpc.go, temporal.go) *)

Record Dialer := mkDialer { dial_Timeout : Z; dial_KeepAlive : Z; dial_DualStack : bool }.

Record Transport := mkTransport {
  tr_Dialer : Dialer;
  tr_MaxIdleConns : Z;
  tr_IdleConnTimeout : Z;
  tr_TLSHandshakeTimeout : Z;
  tr_ExpectContinueTimeout : Z;
  tr_ClientTLS : option TLSConfig;
  tr_ProxyURL : string;
  tr_UseProxy : bool
}.

Record CommonDownstreamData := mkCommonDownstreamData {
  cdd_ServiceURL : string;
  cdd_ClientTransport : Transport;
  cdd_ClientTimeout : Z;
  cdd_Headers : Header
}.

Record CommonGRPCDownstreamData := mkCommonGRPCDownstreamData {
  cgd_ServiceAddress : string;
  cgd_TLS : option TLSConfig;
  cgd_WithBlock : bool
}.

Record CommonTemporalDownstreamData := mkCommonTemporalDownstreamData {
  ctd_HostPort : string;
  ctd_Identity : string;
  ctd_Namespace : string
}.

(** ** Zero values *)

Definition zero_LogConfig : LogConfig := mkLogConfig "" 0 false false.
Definition zero_LibraryConfig : LibraryConfig :=
  mkLibraryConfig zero_LogConfig false false None (mkTraceConfig "").
Definition zero_CommonServerConfig : CommonServerConfig := mkCommonServerConfig "" 0 None.
Definition zero_CommonHTTPServerConfig : CommonHTTPServerConfig :=
  mkCommonHTTPServerConfig zero_CommonServerConfig "" 0 0.
Definition zero_GRPCServerConfig : GRPCServerConfig := mkGRPCServerConfig zero_CommonServerConfig false.
Definition zero_UpstreamConfig : UpstreamConfig :=
  mkUpstreamConfig 0 zero_CommonHTTPServerConfig zero_GRPCServerConfig (mkTemporalServerConfig "" "").
Definition zero_DefaultConfig : DefaultConfig :=
  mkDefaultConfig zero_LibraryConfig None (mkGenCodeConfig zero_UpstreamConfig VNil) None.
