(* ===== verification/Float64.v ===== *)
(** * float64

    The floating-point arithmetic that [time.ParseDuration] does: IEEE 754 binary64
    with rounding to nearest even, from the specification of floats of the Standard
    Library; and that it is exact on the integers below 2^53. *)

From Stdlib Require Export Floats.SpecFloat.
From S2P Require Export Prelude.

(** A [float64] from an integer, and the operations the parser uses. *)
Definition f64_of_Z (z : Z) : spec_float := binary_normalize 53 1024 z 0 false.
Definition f64_mul : spec_float → spec_float → spec_float := SFmul 53 1024.
Definition f64_div : spec_float → spec_float → spec_float := SFdiv 53 1024.
(** The conversion to [uint64], of a number in its range: truncation. *)
Definition f64_trunc (f : spec_float) : Z :=
  match f with
  | S754_finite false m e => if bool_decide (0 ≤ e)%Z then Z.pos m * 2 ^ e else Z.pos m / 2 ^ (- e)
  | _ => 0
  end%Z.

#[export] Instance spec_float_eq_dec : EqDecision spec_float.
Proof. solve_decision. Defined.

(** * Lemmas *)

Lemma f64_trunc_nonneg f : (0 ≤ f64_trunc f)%Z.
Proof.
  destruct f as [| | |[] m e]; cbn; try lia. case_bool_decide.
  - apply Z.mul_nonneg_nonneg; [lia|]. by apply Z.pow_nonneg.
  - apply Z.div_pos; [lia|]. apply Z.pow_pos_nonneg; lia.
Qed.

(** ** Exact results *)

(** [f] is the integer [v], with at most [b] binary places below the point. *)
Definition f64_is (b : Z) (f : spec_float) (v : Z) : Prop :=
  ∃ m e, f = S754_finite false m e ∧ (- b ≤ e ≤ 0)%Z ∧ Z.pos m = (v * 2 ^ (- e))%Z.

Lemma f64_is_trunc b f v : f64_is b f v → f64_trunc f = v.
Proof.
  intros (m&e&->&He&Hm). unfold f64_trunc. rewrite Hm. case_bool_decide.
  - assert (e = 0)%Z as -> by lia. cbn. lia.
  - apply Z.div_mul. apply Z.pow_nonzero; lia.
Qed.

Lemma digits2_log2 p : Z.pos (digits2_pos p) = (Z.log2 (Z.pos p) + 1)%Z.
Proof.
  induction p as [p IH|p IH|]; [..|done]; cbn [digits2_pos]; rewrite Pos2Z.inj_succ IH.
  - rewrite (Pos2Z.inj_xI p) Z.log2_succ_double; lia.
  - rewrite (Pos2Z.inj_xO p) Z.log2_double; lia.
Qed.

Lemma shr_1_even k : (0 < k)%Z →
  shr_1 (Build_shr_record (2 * k) false false) = Build_shr_record k false false.
Proof. by destruct k. Qed.

Lemma shr_exact n q : (0 < q)%Z →
  SpecFloat.iter_pos shr_1 n (Build_shr_record (q * 2 ^ Z.pos n) false false) = Build_shr_record q false false.
Proof.
  revert q. induction n as [n IH|n IH|]; intros q Hq; cbn [SpecFloat.iter_pos].
  - assert (0 < q * 2 ^ Z.pos n)%Z by (apply Z.mul_pos_pos; [done|by apply Z.pow_pos_nonneg]).
    replace (q * 2 ^ Z.pos n~1)%Z with (2 * ((q * 2 ^ Z.pos n) * 2 ^ Z.pos n))%Z.
    + rewrite shr_1_even; [apply Z.mul_pos_pos; [done|by apply Z.pow_pos_nonneg]|]. by rewrite !IH.
    + rewrite (Pos2Z.inj_xI n) Z.pow_add_r // Z.pow_mul_r // Z.pow_2_r. change (2 ^ 1)%Z with 2%Z.
      rewrite Z.pow_mul_l. lia.
  - assert (0 < q * 2 ^ Z.pos n)%Z by (apply Z.mul_pos_pos; [done|by apply Z.pow_pos_nonneg]).
    replace (q * 2 ^ Z.pos n~0)%Z with ((q * 2 ^ Z.pos n) * 2 ^ Z.pos n)%Z; [by rewrite !IH|].
    replace (Z.pos n~0) with (Z.pos n + Z.pos n)%Z by lia. rewrite Z.pow_add_r //. lia.
  - rewrite Z.pow_1_r Z.mul_comm. by apply shr_1_even.
Qed.

(** Rounding leaves an integer of at most 53 bits as it is, however it is scaled. *)
Lemma round_exact b p e v :
  (b ≤ 1000)%Z → (- b ≤ e ≤ 0)%Z → (0 < v < 2 ^ 53)%Z → Z.pos p = (v * 2 ^ (- e))%Z →
  f64_is b (binary_round_aux 53 1024 false (Z.pos p) e loc_Exact) v.
Proof.
  intros Hb He Hv Hp.
  assert (Z.log2 (Z.pos p) = Z.log2 v - e)%Z as Hlog by (rewrite Hp Z.log2_mul_pow2; lia).
  assert (0 ≤ Z.log2 v < 53)%Z as Hlv.
  { split; [apply Z.log2_nonneg|]. apply Z.log2_lt_pow2; lia. }
  assert (∀ q e', Z.log2 (Z.pos q) = (Z.log2 v - e')%Z → (- b ≤ e' ≤ 0)%Z →
    shr_fexp 53 1024 (Z.pos q) e' loc_Exact =
      shr (Build_shr_record (Z.pos q) false false) e' (Z.log2 v + 1 - 53 - e')) as Hshr.
  { intros q e' Hq He'. unfold shr_fexp, shr_record_of_loc. f_equal.
    unfold fexp, emin, Zdigits2. rewrite digits2_log2 Hq. lia. }
  unfold binary_round_aux. rewrite (Hshr p e Hlog He).
  remember (Z.log2 v + 1 - 53 - e)%Z as n eqn:En.
  destruct (decide (0 < n)%Z) as [Hn|Hn].
  - set (q := (v * 2 ^ (- (e + n)))%Z).
    assert (0 ≤ - (e + n))%Z by lia.
    assert (0 < q)%Z by (apply Z.mul_pos_pos; [lia|by apply Z.pow_pos_nonneg]).
    assert (Z.pos p = q * 2 ^ n)%Z as Eq.
    { rewrite Hp /q -Z.mul_assoc -Z.pow_add_r; [lia..|]. do 2 f_equal. lia. }
    assert (Z.log2 q = Z.log2 v - (e + n))%Z as Hq by (rewrite /q Z.log2_mul_pow2; lia).
    assert (q = v * 2 ^ (- (e + n)))%Z as Ev by done. clearbody q.
    destruct q as [|q|]; [done| |done]. destruct n as [|k|]; [done| |done].
    unfold shr at 1. rewrite Eq shr_exact //. cbn [shr_m loc_of_shr_record round_nearest_even].
    rewrite (Hshr q (e + Z.pos k)%Z Hq); [lia|].
    replace (Z.log2 v + 1 - 53 - (e + Z.pos k))%Z with 0%Z by lia.
    cbn [shr shr_m]. rewrite (proj2 (Z.leb_le _ _)); [lia|].
    exists q, (e + Z.pos k)%Z. split; [done|]. split; [lia|done].
  - assert (∀ r : shr_record, shr r e n = (r, e)) as Hid by (intros r; destruct n; [done|lia|done]).
    rewrite Hid. cbn [shr_m loc_of_shr_record round_nearest_even].
    rewrite (Hshr p e Hlog He) -En Hid.
    cbn [shr_m]. rewrite (proj2 (Z.leb_le _ _)); [lia|]. by exists p, e.
Qed.

Lemma f64_of_Z_is v : (0 < v < 2 ^ 53)%Z → f64_is 53 (f64_of_Z v) v.
Proof.
  intros Hv. destruct v as [|p|]; [lia| |lia]. unfold f64_of_Z, binary_normalize, binary_round.
  rewrite digits2_log2. assert (0 ≤ Z.log2 (Z.pos p) < 53)%Z as Hl.
  { split; [apply Z.log2_nonneg|]. apply Z.log2_lt_pow2; lia. }
  unfold fexp, emin. rewrite Z.max_l; [lia|]. set (e := (Z.log2 (Z.pos p) + 1 + 0 - 53)%Z).
  unfold shl_align. rewrite Z.sub_0_r. destruct e as [|k|k] eqn:E; [| lia|].
  - apply round_exact; [lia..|]. cbn. lia.
  - apply round_exact; [lia..|]. cbn [Z.opp].
    assert (∀ j, Z.pos (Pos.iter xO p j) = Z.pos p * 2 ^ Z.pos j)%Z as H.
    { intros j. induction j as [|j IH] using Pos.peano_ind; [cbn; lia|].
      rewrite Pos.iter_succ Pos2Z.inj_xO IH Pos2Z.inj_succ Z.pow_succ_r; lia. }
    apply H.
Qed.

Lemma f64_mul_is b1 b2 x y v w :
  (b1 + b2 ≤ 1000)%Z → (0 < v)%Z → (0 < w)%Z → (v * w < 2 ^ 53)%Z →
  f64_is b1 x v → f64_is b2 y w → f64_is (b1 + b2) (f64_mul x y) (v * w).
Proof.
  intros Hb Hv Hw Hlt (m1&e1&->&He1&Hm1) (m2&e2&->&He2&Hm2). unfold f64_mul, SFmul. cbn [xorb].
  apply round_exact; [lia|lia| |].
  - split; [by apply Z.mul_pos_pos|done].
  - rewrite Pos2Z.inj_mul Hm1 Hm2. replace (- (e1 + e2))%Z with (- e1 + - e2)%Z by lia.
    rewrite Z.pow_add_r; [lia..|]. lia.
Qed.

(** So the product of two integers is exact if it is below 2^53. *)
Lemma f64_trunc_mul v w :
  (0 < v)%Z → (0 < w)%Z → (v * w < 2 ^ 53)%Z → f64_trunc (f64_mul (f64_of_Z v) (f64_of_Z w)) = (v * w)%Z.
Proof.
  intros Hv Hw Hlt. apply (f64_is_trunc (53 + 53)). apply f64_mul_is; try lia.
  - apply f64_of_Z_is. nia.
  - apply f64_of_Z_is. nia.
Qed.
