(* ===== verification/Durations.v ===== *)
(** * Durations, and the reader of configuration: [time.ParseDuration],
    src/jsontime/jsonduration.go, src/config/configreaderimpl.go and of src/validator
    the tag [timeout=]

    The parser of durations of the standard library, on 64-bit unsigned
    accumulators and with its floating-point fractions; the duration type that
    configuration and JSON carry; the hooks by which strings of a configuration are
    decoded, its defaults, and the strict mode of its reader. *)

From S2P Require Export Float64 ConfigTypes.

(** ** time.ParseDuration *)

Definition two63 : Z := 2 ^ 63.
Definition two64 : Z := 2 ^ 64.

(** [leadingInt]: the leading digits; [None] if they exceed 2^63. *)
Fixpoint leadingInt (x : Z) (s : string) : option (Z * string) :=
  match s with
  | String c s' =>
      match digit_value c with
      | Some d =>
          if bool_decide (x > two63 / 10)%Z then None
          else let x := (x * 10 + d)%Z in
               if bool_decide (x > two63)%Z then None else leadingInt x s'
      | None => Some (x, s)
      end
  | "" => Some (x, "")
  end.

(** [leadingFraction]: the digits and the power of ten below them; digits that no
    longer fit are dropped. *)
Fixpoint leadingFraction (overflow : bool) (x : Z) (scale : spec_float) (s : string) : Z * spec_float * string :=
  match s with
  | String c s' =>
      match digit_value c with
      | Some d =>
          if overflow then leadingFraction true x scale s'
          else if bool_decide (x > (two63 - 1) / 10)%Z then leadingFraction true x scale s'
          else let y := (x * 10 + d)%Z in
               if bool_decide (y > two63)%Z then leadingFraction true x scale s'
               else leadingFraction false y (f64_mul scale (f64_of_Z 10)) s'
      | None => (x, scale, s)
      end
  | "" => (x, scale, "")
  end.

Definition micro_sign : string := String "194"%char (String "181"%char "").
Definition greek_mu : string := String "206"%char (String "188"%char "").

Definition unitMap (u : string) : option Z :=
  if bool_decide (u = "ns") then Some Nanosecond
  else if bool_decide (u = "us" ∨ u = micro_sign +:+ "s" ∨ u = greek_mu +:+ "s") then Some Microsecond
  else if bool_decide (u = "ms") then Some Millisecond
  else if bool_decide (u = "s") then Some Second
  else if bool_decide (u = "m") then Some Minute
  else if bool_decide (u = "h") then Some Hour
  else None.

Definition is_number_byte (c : ascii) : bool := bool_decide (c = "."%char) || is_digit c.

(** The unit: everything up to the next digit or period. *)
Fixpoint take_unit (s : string) : string * string :=
  match s with
  | String c s' => if is_number_byte c then ("", s)
                   else let '(u, rest) := take_unit s' in (String c u, rest)
  | "" => ("", "")
  end.

(** One number with its unit, in nanoseconds, and the rest. *)
Definition parse_component (s : string) : option (Z * string) :=
  match s with
  | "" => None
  | String c _ =>
    if is_number_byte c then
      '(v, s1) ← leadingInt 0 s;
      let pre := bool_decide (String.length s1 ≠ String.length s) in
      let '(f, scale, post, s2) :=
        match s1 with
        | String c s1' =>
            if bool_decide (c = "."%char) then
              let '(f, scale, s2) := leadingFraction false 0 (f64_of_Z 1) s1' in
              (f, scale, bool_decide (String.length s2 ≠ String.length s1'), s2)
            else (0%Z, f64_of_Z 1, false, s1)
        | "" => (0%Z, f64_of_Z 1, false, s1)
        end in
      if negb pre && negb post then None
      else
        let '(u, rest) := take_unit s2 in
        if bool_decide (u = "") then None
        else
          unit ← unitMap u;
          if bool_decide (v > two63 / unit)%Z then None
          else
            let v := (v * unit)%Z in
            let v' := if bool_decide (f > 0)%Z
                      then (v + f64_trunc (f64_mul (f64_of_Z f) (f64_div (f64_of_Z unit) scale)))%Z else v in
            if bool_decide (v' > two63)%Z then None else Some (v', rest)
    else None
  end.

(** The loop; every component takes at least one byte of what is left. *)
Fixpoint parse_components (fuel : nat) (d : Z) (s : string) : option Z :=
  match s with
  | "" => Some d
  | _ =>
    match fuel with
    | O => None
    | S fuel =>
        '(v, rest) ← parse_component s;
        let d := ((d + v) mod two64)%Z in (* uint64 addition *)
        if bool_decide (d > two63)%Z then None else parse_components fuel d rest
    end
  end.

Definition parse_unsigned (s : string) : option Z := parse_components (String.length s) 0 s.

Definition invalid_duration (s : string) : error := ErrText ("time: invalid duration " +:+ s).

Definition ParseDuration (orig : string) : res Z :=
  let '(neg, s) := match orig with
                   | String c s => if bool_decide (c = "-"%char) then (true, s)
                                   else if bool_decide (c = "+"%char) then (false, s) else (false, orig)
                   | "" => (false, orig)
                   end in
  if bool_decide (s = "0") then Ok 0%Z
  else if bool_decide (s = "") then Err (invalid_duration orig)
  else
    match parse_unsigned s with
    | None => Err (invalid_duration orig)
    | Some d =>
        if neg then Ok (- d)%Z
        else if bool_decide (d > two63 - 1)%Z then Err (invalid_duration orig) else Ok d
    end.

(** ** jsontime/jsonduration.go *)

(** [string(data[1 : len(data)-1])]. *)
Definition slice_inner (data : string) : res string :=
  if bool_decide (String.length data < 2)%nat then Panic slice_bounds_out_of_range
  else Ok (str_take (String.length data - 2) (str_drop 1 data)).

Definition UnmarshalJSON (data : string) : res Z :=
  if bool_decide (data = "null") then Ok 0%Z
  else inner ← slice_inner data; ParseDuration inner.

(** [unmarshal] is what the YAML decoder makes of the node as a string. *)
Definition UnmarshalYAML (unmarshal : error + string) : res Z :=
  match unmarshal with
  | inl err => Err err
  | inr s => if bool_decide (s = "") then Ok 0%Z else ParseDuration s
  end.

(** ** The decode hooks of a configuration (configreaderimpl.go, jsonduration.go)

    The data a hook gets and the type it is decoded into, as far as the hooks tell
    them apart. *)
Inductive cfg_data :=
| CStr (s : string)
| CLevel (level : Z)         (* a log.Level, an integer *)
| CDuration (d : Z)
| CStrings (l : list string)
| CSensitive (s : string)
| COther (v : value).

Inductive cfg_type := TString | TLevel | TDuration | TSlice | TSensitive | TOtherType.
#[export] Instance cfg_type_eq_dec : EqDecision cfg_type.
Proof. solve_decision. Defined.

Definition ErrorLevel : Z := 2.
Definition InfoLevel : Z := 4.
Definition DebugLevel : Z := 5.

Definition log_levels : gmap string Z := list_to_map [
  ("panic", ErrorLevel); ("fatal", ErrorLevel); ("error", ErrorLevel); ("warn", InfoLevel);
  ("info", InfoLevel); ("debug", DebugLevel); ("trace", DebugLevel)].
#[global] Arguments log_levels : simpl never.

(** The first hook does not look at the type it decodes into. *)
Definition log_level_hook (t : cfg_type) (data : cfg_data) : res cfg_data :=
  match data with
  | CStr s =>
      let str := ToLower s in
      match log_levels !! str with
      | Some level => Ok (CLevel level)
      | None => Ok data
      end
  | _ => Ok data
  end.

Definition DurationMapstructureDecodeHookFunc (t : cfg_type) (data : cfg_data) : res cfg_data :=
  match data, t with
  | CStr s, TDuration => d ← ParseDuration s; Ok (CDuration d)
  | _, _ => Ok data
  end.

(** [mapstructure.StringToSliceHookFunc(",")]. *)
Definition StringToSliceHookFunc (t : cfg_type) (data : cfg_data) : res cfg_data :=
  match data, t with
  | CStr s, TSlice => Ok (CStrings (if bool_decide (s = "") then [] else Split ","%char s))
  | _, _ => Ok data
  end.

Definition SensitiveHookFunc (t : cfg_type) (data : cfg_data) : res cfg_data :=
  match data, t with
  | CStr s, TSensitive => Ok (CSensitive s)
  | _, _ => Ok data
  end.

(** [ComposeDecodeHookFunc]: each hook gets what the one before made. *)
Definition compose_hooks (hooks : list (cfg_type → cfg_data → res cfg_data)) (t : cfg_type) (data : cfg_data) :
    res cfg_data :=
  foldl (λ r hook, r ≫= hook t) (Ok data) hooks.

Definition makeDefaultDecodeHook : cfg_type → cfg_data → res cfg_data :=
  compose_hooks [log_level_hook; DurationMapstructureDecodeHookFunc; DurationMapstructureDecodeHookFunc;
                 StringToSliceHookFunc; SensitiveHookFunc].

(** ** configreaderimpl.go *)

Definition validateNoUnusedKeys (strictModeIgnoredKeys unused : list string) : option error :=
  let toIgnore := list_to_set (ToLower <$> strictModeIgnoredKeys) : gset string in
  let unusedNotIgnored := filter (λ k, k ∉ toIgnore) unused in
  if bool_decide (0 < length unusedNotIgnored)%nat
  then Some (ErrText ("Misconfiguration error: found unexpected config key(s): " +:+ Join unusedNotIgnored ","))
  else None.

(** A reader: the keys and values viper holds, and how strict it is. *)
Record configReaderImpl := mk_configReaderImpl {
  cr_envVars : string → option value;
  cr_strictMode : bool;
  cr_strictModeIgnoredKeys : list string
}.

(** The errors of configreader.go are their messages. *)
Definition NilValueError (message : string) : error := ErrText message.
Definition ValueConversionError (message : string) : error := ErrText message.
Definition buildValueConversionErr (key valueType : string) : error :=
  ErrWrap "value conversion failed" (ValueConversionError (key +:+ ": key value is incompatible with " +:+ valueType)).

Definition configReader_Get (m : configReaderImpl) (key : string) : res value :=
  match cr_envVars m key with
  | None | Some VNil => Err (NilValueError (key +:+ ": key value is nil"))
  | Some v => Ok v
  end.

Definition configReader_GetString (cast_ToStringE : value → option string) (m : configReaderImpl) (key : string) :
    res string :=
  val ← configReader_Get m key;
  match cast_ToStringE val with
  | None => Err (buildValueConversionErr key "string")
  | Some str => Ok str
  end.

(** [decode] is viper's decoding, with the keys it could not place. *)
Definition configReader_Unmarshal {C} (decode : error + C * list string) (m : configReaderImpl) : res C :=
  match decode with
  | inl err => Err (ErrWrap "Unable to decode into struct" err)
  | inr (config, unused) =>
      if cr_strictMode m then
        match validateNoUnusedKeys (cr_strictModeIgnoredKeys m) unused with
        | Some err => Err err
        | None => Ok config
        end
      else Ok config
  end.

Definition WithStrictMode (m : configReaderImpl) (strict : bool) (ignoredKeys : list string) : configReaderImpl :=
  mk_configReaderImpl (cr_envVars m) strict ignoredKeys.

(** ** Defaults (library.go, gen_code.go) *)

Definition SetLibraryConfigDefaults (prefix : string) : list (string * value) :=
  [(prefix +:+ "Log.Format", VString "text"); (prefix +:+ "Log.Level", VInt InfoLevel)].
Definition SetGenCodeConfigDefaults (prefix : string) : list (string * value) :=
  [(prefix +:+ "Upstream.ContextTimeout", VString "30s");
   (prefix +:+ "Upstream.HTTP.ReadTimeout", VString "30s");
   (prefix +:+ "Upstream.HTTP.WriteTimeout", VString "30s")].
Definition SetDefaults : list (string * value) :=
  SetLibraryConfigDefaults "Library." ++ SetGenCodeConfigDefaults "GenCode.".

(** ** config.LoadConfig *)

Definition LoadConfig {D C} (decode_default : error + D * list string) (decode_custom : error + C * list string)
    (validate_default : D → option error) (validate_custom : C → option error) (m : configReaderImpl) : res (D * C) :=
  defaultConfig ← configReader_Unmarshal decode_default m;
  customConfig ← configReader_Unmarshal decode_custom m;
  _ ← of_option_err (validate_default defaultConfig);
  _ ← of_option_err (validate_custom customConfig);
  Ok (defaultConfig, customConfig).

(** ** validator.go: the tag [timeout=] *)

(** The field is a [time.Duration], or something else. *)
Definition timeoutValidatorFunc (param : string) (field : option Z) : bool :=
  let parts := Split ":"%char param in
  match field with
  | None => false
  | Some val =>
    match parts with
    | [max] => match ParseDuration max with Ok p => bool_decide (val < p)%Z | _ => false end
    | [min; max] =>
        match ParseDuration min with
        | Ok min =>
            if bool_decide (0 < String.length max)%nat then
              match ParseDuration max with
              | Ok max => bool_decide (min ≤ val)%Z && bool_decide (val < max)%Z
              | _ => false
              end
            else bool_decide (min ≤ val)%Z
        | _ => false
        end
    | _ => false
    end
  end.

(** The tag of [CommonDownstreamData.ClientTimeout]. *)
Definition ClientTimeout_tag : string := "1ms:60s".

Example ParseDuration_examples :
  ParseDuration "1h15m30.918273645s" = Ok 4530918273645%Z ∧ ParseDuration "1.5h" = Ok 5400000000000%Z ∧
  ParseDuration "-2us" = Ok (-2000)%Z ∧ ParseDuration ".s" = Err (invalid_duration ".s") ∧
  ParseDuration "1.s" = Ok 1000000000%Z ∧ ParseDuration "-9223372036854775808ns" = Ok minInt64 ∧
  ParseDuration "9223372036854775808ns" = Err (invalid_duration "9223372036854775808ns") ∧
  ParseDuration "0.830103483285477580700h" = Ok 2988372539827%Z.
Proof. repeat split; vm_compute; reflexivity. Qed.

(** * Lemmas *)

Lemma digit_value_Some c d : digit_value c = Some d → (0 ≤ d ≤ 9)%Z ∧ is_digit c = true.
Proof.
  unfold digit_value. destruct (is_digit c) eqn:E; [|done]. intros [= <-]. split; [|done].
  unfold is_digit, byte_between in E. change (byte_N "0") with 48%N in E. change (byte_N "9") with 57%N in E.
  boolprop. destruct E as [?%N.leb_le ?%N.leb_le]. lia.
Qed.

(** ** The range of a result, and what a component takes *)

Lemma leadingInt_spec s x v rest :
  (0 ≤ x ≤ two63)%Z → leadingInt x s = Some (v, rest) →
  (x ≤ v ≤ two63)%Z ∧ (String.length rest ≤ String.length s)%nat.
Proof.
  revert x. induction s as [|c s IH]; intros x Hx; cbn [leadingInt].
  { intros [= <- <-]. lia. }
  destruct (digit_value c) as [d|] eqn:Hd; [|intros [= <- <-]; lia].
  apply digit_value_Some in Hd as [? _].
  case_bool_decide; [done|]. case_bool_decide; [done|]. intros H'.
  apply IH in H' as [? ?]; [|lia]. cbn. split; [lia|lia].
Qed.

Lemma leadingFraction_spec s o x scale f scale' rest :
  (0 ≤ x)%Z → leadingFraction o x scale s = (f, scale', rest) →
  (0 ≤ f)%Z ∧ (String.length rest ≤ String.length s)%nat.
Proof.
  revert o x scale. induction s as [|c s IH]; intros o x scale Hx; cbn [leadingFraction].
  { by intros [= <- _ <-]. }
  destruct (digit_value c) as [d|] eqn:Hd; [|by intros [= <- _ <-]].
  apply digit_value_Some in Hd as [? _].
  repeat case_match; intros H'; apply IH in H' as [? ?]; cbn; lia.
Qed.

Lemma take_unit_spec s u rest :
  take_unit s = (u, rest) → u ≠ "" → (String.length rest < String.length s)%nat.
Proof.
  assert (∀ s u rest, take_unit s = (u, rest) → (String.length rest ≤ String.length s)%nat) as Hle.
  { clear. induction s as [|c s IH]; intros u rest; cbn; [by intros [= _ <-]|].
    destruct (is_number_byte c); [by intros [= _ <-]|].
    destruct (take_unit s) as [u' r'] eqn:E. intros [= _ <-]. specialize (IH _ _ eq_refl). lia. }
  destruct s as [|c s]; cbn; [by intros [= <- _]|].
  destruct (is_number_byte c); [by intros [= <- _]|].
  destruct (take_unit s) as [u' r'] eqn:E. intros [= _ <-] _. apply Hle in E. lia.
Qed.

Lemma unitMap_pos u unit : unitMap u = Some unit → (0 < unit)%Z.
Proof. unfold unitMap. repeat case_bool_decide; intros [= <-]; done. Qed.

Lemma parse_component_spec s v rest :
  parse_component s = Some (v, rest) → (0 ≤ v ≤ two63)%Z ∧ (String.length rest < String.length s)%nat.
Proof.
  destruct s as [|c s]; [done|]. unfold parse_component. set (s0 := String c s).
  destruct (is_number_byte c); [|done]. intros ([v0 s1]&Hint&H)%bind_Some.
  apply leadingInt_spec in Hint as [? Hlen]; [|by split].
  set (frac := match s1 with String _ _ => _ | "" => _ end) in H.
  destruct frac as [[[f scale] post] s2] eqn:Hfrac.
  assert ((0 ≤ f)%Z ∧ (String.length s2 ≤ String.length s1)%nat) as [Hf Hlen2].
  { clear H. subst frac. destruct s1 as [|c1 s1']; [by simplify_eq|].
    case_bool_decide; [|by simplify_eq].
    destruct (leadingFraction false 0 (f64_of_Z 1) s1') as [[f' sc'] s2'] eqn:E. simplify_eq.
    apply leadingFraction_spec in E; [|done]. cbn. lia. }
  clear frac Hfrac. case_match; [done|]. destruct (take_unit s2) as [u rest'] eqn:Hu.
  case_bool_decide as Hune; [done|]. apply take_unit_spec in Hu; [|done].
  apply bind_Some in H as (unit&Hunit&H). apply unitMap_pos in Hunit.
  case_bool_decide; [done|].
  pose proof (f64_trunc_nonneg (f64_mul (f64_of_Z f) (f64_div (f64_of_Z unit) scale))).
  set (v' := if bool_decide (f > 0)%Z then _ else _) in H.
  assert (0 ≤ v0 * unit)%Z by (apply Z.mul_nonneg_nonneg; lia).
  assert (0 ≤ v')%Z by (subst v'; destruct (bool_decide (f > 0)%Z); lia).
  clearbody v'. case_bool_decide; [done|]. simplify_eq. split; [lia|lia].
Qed.

Lemma parse_components_range n d s v :
  (0 ≤ d ≤ two63)%Z → parse_components n d s = Some v → (0 ≤ v ≤ two63)%Z.
Proof.
  revert d s. induction n as [|n IH]; intros d s Hd; (destruct s as [|c s]; cbn [parse_components]; [by intros [= <-]|]);
    [done|].
  intros ([v' rest]&_&H)%bind_Some. case_bool_decide; [done|].
  apply IH in H; [done|]. split; [|lia]. by apply Z.mod_pos.
Qed.

(** The fuel is enough: a component takes at least one byte. *)
Lemma parse_components_fuel n d s :
  (String.length s ≤ n)%nat → parse_components n d s = parse_components (String.length s) d s.
Proof.
  assert (∀ n m d s, (String.length s ≤ n)%nat → (String.length s ≤ m)%nat →
    parse_components n d s = parse_components m d s) as H; [|intros; apply H; lia].
  clear. induction n as [|n IH]; intros m d s Hn Hm; (destruct s as [|c s]; [by destruct m|]); [cbn in Hn; lia|].
  destruct m as [|m]; [cbn in Hm; lia|]. cbn [parse_components].
  destruct (parse_component (String c s)) as [[v rest]|] eqn:E; [|done].
  apply parse_component_spec in E as [_ Hlen]. cbn -[String.length] in *. case_bool_decide; [done|].
  apply IH; cbn in *; lia.
Qed.

(** ** Whole numbers of units *)

Definition starts_number (s : string) : bool :=
  match s with "" => true | String c _ => is_number_byte c end.

Lemma unitMap_text u unit :
  unitMap u = Some unit → u ≠ "" ∧ str_forall (λ c, negb (is_number_byte c)) u = true.
Proof.
  unfold unitMap. repeat case_bool_decide; try done; intros _;
    repeat match goal with H : _ ∨ _ |- _ => destruct H end; subst u; by split.
Qed.

Lemma take_unit_app u rest :
  str_forall (λ c, negb (is_number_byte c)) u = true → starts_number rest = true →
  take_unit (u +:+ rest) = (u, rest).
Proof.
  intros Hu Hrest. induction u as [|c u IH].
  - destruct rest as [|c rest]; [done|]. cbn in Hrest |- *. by rewrite Hrest.
  - cbn in Hu |- *. apply andb_true_iff in Hu as [Hc%negb_true_iff Hu]. by rewrite Hc IH.
Qed.

Lemma parse_digits_mono ds acc v : (0 ≤ acc)%Z → parse_digits acc ds = Some v → (acc ≤ v)%Z.
Proof.
  revert acc. induction ds as [|c ds IH]; intros acc Hacc; cbn; [by intros [= <-]|].
  intros (d&Hd&H)%bind_Some. apply digit_value_Some in Hd as [? _]. apply IH in H; lia.
Qed.

Lemma leadingInt_digits ds acc v rest :
  (0 ≤ acc)%Z → parse_digits acc ds = Some v → (v ≤ two63)%Z →
  match rest with "" => True | String c _ => digit_value c = None end →
  leadingInt acc (ds +:+ rest) = Some (v, rest).
Proof.
  intros Hacc Hv Hle Hrest. revert acc Hacc Hv. induction ds as [|c ds IH]; intros acc Hacc; cbn.
  - intros [= ->]. destruct rest as [|c rest]; [done|]. cbn. by rewrite Hrest.
  - intros (d&Hd&H)%bind_Some. rewrite Hd. apply digit_value_Some in Hd as [? _].
    assert (10 * acc + d ≤ v)%Z by (eapply parse_digits_mono; [|exact H]; lia).
    assert (acc ≤ two63 / 10)%Z by (apply Z.div_le_lower_bound; lia).
    rewrite bool_decide_false; [lia|]. rewrite bool_decide_false; [lia|].
    replace (acc * 10 + d)%Z with (10 * acc + d)%Z by lia. apply IH; [lia|done].
Qed.

Lemma leadingInt_overflow ds acc v rest :
  (0 ≤ acc ≤ two63)%Z → parse_digits acc ds = Some v → (two63 < v)%Z → leadingInt acc (ds +:+ rest) = None.
Proof.
  revert acc. induction ds as [|c ds IH]; intros acc Hacc; cbn.
  - intros [= ->]. lia.
  - intros (d&Hd&H)%bind_Some Hv. rewrite Hd. apply digit_value_Some in Hd as [? _].
    case_bool_decide; [done|]. case_bool_decide; [done|].
    replace (10 * acc + d)%Z with (acc * 10 + d)%Z in H by lia. apply IH; [lia|done..].
Qed.

(** One whole number with its unit is read exactly, or not at all where it is too large. *)
Lemma parse_component_whole ds u n unit rest :
  ds ≠ "" → parse_digits 0 ds = Some n → unitMap u = Some unit → starts_number rest = true →
  parse_component (ds +:+ u +:+ rest) = if bool_decide (n * unit ≤ two63)%Z then Some ((n * unit)%Z, rest) else None.
Proof.
  intros Hds Hn Hunit Hrest. pose proof (unitMap_pos _ _ Hunit).
  pose proof (parse_digits_mono _ _ _ (Z.le_refl 0) Hn).
  destruct (unitMap_text _ _ Hunit) as [Hune Hu].
  destruct ds as [|c0 ds0]; [done|]. set (ds := String c0 ds0) in *.
  assert (is_number_byte c0 = true) as Hc0.
  { subst ds. cbn in Hn. apply bind_Some in Hn as (d&Hd&_). apply digit_value_Some in Hd as [_ Hd].
    unfold is_number_byte. by rewrite Hd orb_true_r. }
  destruct u as [|cu u0]; [done|]. set (u := String cu u0) in *.
  assert (is_number_byte cu = false) as Hcu.
  { subst u. cbn in Hu. by apply andb_true_iff in Hu as [?%negb_true_iff _]. }
  unfold parse_component. change (ds +:+ u +:+ rest) with (String c0 (ds0 +:+ u +:+ rest)) at 1.
  cbn iota. rewrite Hc0.
  destruct (Z.lt_ge_cases two63 n) as [Hbig|Hsmall].
  { rewrite (leadingInt_overflow ds 0 n) //. rewrite bool_decide_false; [nia|done]. }
  assert (leadingInt 0 (ds +:+ u +:+ rest) = Some (n, u +:+ rest)) as ->.
  { apply leadingInt_digits; [done|done|done|]. subst u. cbn. unfold digit_value.
    unfold is_number_byte in Hcu. by apply orb_false_iff in Hcu as [_ ->]. }
  cbn [mbind option_bind].
  assert (bool_decide (String.length (u +:+ rest) ≠ String.length (ds +:+ u +:+ rest)) = true) as ->.
  { apply bool_decide_eq_true. rewrite (str_length_append ds). subst ds. cbn. lia. }
  change (u +:+ rest) with (String cu (u0 +:+ rest)) at 1. cbn iota.
  rewrite (bool_decide_false (cu = "."%char)).
  { intros ->. done. }
  cbn iota. cbn [negb andb].
  change (String cu (u0 +:+ rest)) with (u +:+ rest). rewrite (take_unit_app u rest Hu Hrest).
  rewrite (bool_decide_false (u = "")) // Hunit. cbn [mbind option_bind].
  rewrite (bool_decide_false (0 > 0)%Z) //. case_bool_decide as Hdiv.
  - rewrite bool_decide_false; [|done]. intros Hle. assert (n ≤ two63 / unit)%Z; [|lia]. apply Z.div_le_lower_bound; lia.
  - assert (n * unit ≤ two63)%Z as Hle.
    { pose proof (Z.mul_div_le two63 unit). nia. }
    rewrite bool_decide_false; [lia|]. by rewrite bool_decide_true.
Qed.

(** ** Sequences of components *)

(** [t] is read as one component of [v] nanoseconds, whatever follows it. *)
Definition component (t : string) (v : Z) : Prop :=
  starts_number t = true ∧ t ≠ "" ∧ (0 ≤ v)%Z ∧
  ∀ rest, starts_number rest = true → parse_component (t +:+ rest) = Some (v, rest).

Definition sum_list (l : list Z) : Z := foldr Z.add 0%Z l.
Definition concat_text (ts : list string) : string := foldr String.append "" ts.

Lemma concat_text_starts ts vs : Forall2 component ts vs → starts_number (concat_text ts) = true.
Proof. destruct 1 as [|t v ts vs (Ht&Hne&_) _]; [done|]. by destruct t. Qed.

Lemma sum_list_nonneg ts vs : Forall2 component ts vs → (0 ≤ sum_list vs)%Z.
Proof. induction 1 as [|t v ts vs (_&_&?&_) _ IH]; cbn in *; [done|unfold sum_list in *; lia]. Qed.

Lemma parse_concat ts vs n d :
  Forall2 component ts vs → (String.length (concat_text ts) ≤ n)%nat → (0 ≤ d)%Z → (d + sum_list vs ≤ two63)%Z →
  parse_components n d (concat_text ts) = Some (d + sum_list vs)%Z.
Proof.
  intros Hall. revert n d. induction Hall as [|t v ts vs Hc Hall IH]; intros n d Hlen Hd Hle.
  { cbn. replace (d + 0)%Z with d by lia. by destruct n. }
  pose proof (concat_text_starts _ _ Hall) as Hst. pose proof (sum_list_nonneg _ _ Hall).
  destruct Hc as (_&Hne&Hv&Hp). cbn [sum_list foldr] in Hle |- *. fold (sum_list vs) in *.
  change (concat_text (t :: ts)) with (t +:+ concat_text ts) in *.
  rewrite str_length_append in Hlen. specialize (Hp _ Hst).
  destruct t as [|c t]; [done|]. destruct n as [|n]; [cbn in Hlen; lia|].
  cbn [parse_components String.append] in *. rewrite Hp. cbn [mbind option_bind].
  rewrite Z.mod_small; [unfold two63, two64 in *; lia|]. rewrite bool_decide_false; [lia|].
  cbn in Hlen. rewrite IH; [lia..|]. f_equal. lia.
Qed.

(** The parser reads off their sum, and after a minus sign its negation. *)
Lemma ParseDuration_components ts vs :
  ts ≠ [] → Forall2 component ts vs →
  ((sum_list vs ≤ maxInt64)%Z → ParseDuration (concat_text ts) = Ok (sum_list vs)) ∧
  ((sum_list vs ≤ two63)%Z → ParseDuration ("-" +:+ concat_text ts) = Ok (- sum_list vs)%Z).
Proof.
  intros Hne Hall. unfold maxInt64.
  assert ((sum_list vs ≤ two63)%Z → parse_unsigned (concat_text ts) = Some (sum_list vs)) as Hp.
  { intros Hle. unfold parse_unsigned. by rewrite (parse_concat ts vs). }
  assert (concat_text ts ≠ "0" ∧ concat_text ts ≠ "") as [H0 H1].
  { destruct Hall as [|t v ts vs (_&Ht&_&Hc) Hall]; [done|]. destruct t as [|c t]; [done|]. split; [|done].
    cbn. intros [= -> E]. destruct t as [|? t]; [|done]. by specialize (Hc "" eq_refl). }
  pose proof (concat_text_starts _ _ Hall) as Hst.
  split; intros Hle.
  - unfold ParseDuration. destruct (concat_text ts) as [|c s] eqn:E; [done|]. cbn in Hst.
    rewrite (bool_decide_false (c = "-"%char)); [by intros ->|].
    rewrite (bool_decide_false (c = "+"%char)); [by intros ->|].
    rewrite bool_decide_false // bool_decide_false // Hp; [unfold two63; lia|].
    rewrite bool_decide_false; [unfold two63; lia|done].
  - unfold ParseDuration. cbn [String.append]. rewrite (bool_decide_true ("-"%char = "-"%char)) //.
    rewrite bool_decide_false // bool_decide_false // Hp //.
Qed.

(** A whole number with its unit is one. *)
Definition whole_value (c : string * string) (v : Z) : Prop :=
  ∃ n unit, c.1 ≠ "" ∧ parse_digits 0 c.1 = Some n ∧ unitMap c.2 = Some unit ∧ v = (n * unit)%Z.
Definition whole_text (cs : list (string * string)) : string := concat_text ((λ c, c.1 +:+ c.2) <$> cs).

Lemma digits_start ds acc n rest :
  ds ≠ "" → parse_digits acc ds = Some n → starts_number (ds +:+ rest) = true.
Proof.
  destruct ds as [|c ds]; [done|]. intros _ (d&Hd&_)%bind_Some. apply digit_value_Some in Hd as [_ Hd].
  cbn. unfold is_number_byte. by rewrite Hd orb_true_r.
Qed.

Lemma whole_component ds u n unit :
  ds ≠ "" → parse_digits 0 ds = Some n → unitMap u = Some unit → (n * unit ≤ two63)%Z →
  component (ds +:+ u) (n * unit).
Proof.
  intros Hds Hn Hu Hle. pose proof (unitMap_pos _ _ Hu). pose proof (parse_digits_mono _ _ _ (Z.le_refl 0) Hn).
  split_and!; [by eapply digits_start|by destruct ds|nia|].
  intros rest Hr. rewrite str_append_assoc (parse_component_whole ds u n unit) //. by rewrite bool_decide_true.
Qed.

Lemma whole_value_nonneg c v : whole_value c v → (0 ≤ v)%Z.
Proof. intros (n&unit&_&Hn&Hu%unitMap_pos&->). apply parse_digits_mono in Hn; [nia|done]. Qed.

Lemma whole_components cs vs :
  Forall2 whole_value cs vs → (sum_list vs ≤ two63)%Z →
  Forall2 component ((λ c, c.1 +:+ c.2) <$> cs) vs.
Proof.
  induction 1 as [|c v cs vs Hc Hall IH]; intros Hle; [constructor|]. cbn in Hle. fold (sum_list vs) in Hle.
  assert (0 ≤ sum_list vs)%Z as Hs.
  { clear -Hall. induction Hall as [|c v cs vs H%whole_value_nonneg _ IH]; cbn; [done|unfold sum_list in *; lia]. }
  pose proof (whole_value_nonneg _ _ Hc). constructor; [|apply IH; lia].
  destruct Hc as (n&unit&Hne&Hn&Hu&->). apply whole_component; [done..|lia].
Qed.

(** A sequence of whole numbers with units, such as [1h30m15s], is their sum in
    nanoseconds whenever that fits, and with a minus sign its negation. *)
Theorem ParseDuration_units cs vs :
  cs ≠ [] → Forall2 whole_value cs vs → (sum_list vs ≤ maxInt64)%Z →
  ParseDuration (whole_text cs) = Ok (sum_list vs) ∧
  ParseDuration ("-" +:+ whole_text cs) = Ok (- sum_list vs)%Z.
Proof.
  intros Hne Hall Hle. assert (sum_list vs ≤ two63)%Z by (unfold maxInt64, two63 in *; lia).
  destruct (ParseDuration_components ((λ c, c.1 +:+ c.2) <$> cs) vs) as [Hpos Hneg]; [by destruct cs| |by auto].
  by apply whole_components.
Qed.

Lemma ParseDuration_units_witness :
  ParseDuration "1h30m15s" = Ok 5415000000000%Z ∧ ParseDuration "-1h30m15s" = Ok (-5415000000000)%Z.
Proof.
  apply (ParseDuration_units [("1", "h"); ("30", "m"); ("15", "s")]
    [3600000000000; 1800000000000; 15000000000]%Z).
  - discriminate.
  - repeat constructor; (eexists _, _; split; [discriminate|split; [reflexivity|split; reflexivity]]).
  - vm_compute. discriminate.
Defined.

(** ** JSON *)

Definition quote : string := String "034"%char "".

Lemma slice_inner_spec a s b : slice_inner (String a (s +:+ String b "")) = Ok s.
Proof.
  unfold slice_inner. cbn [String.length]. rewrite str_length_append. cbn [String.length].
  rewrite bool_decide_false; [lia|]. f_equal.
  replace (S (String.length s + 1) - 2)%nat with (String.length s) by lia. apply str_take_app.
Qed.

Lemma UnmarshalJSON_quoted s : UnmarshalJSON (quote +:+ s +:+ quote) = ParseDuration s.
Proof.
  unfold UnmarshalJSON. rewrite bool_decide_false; [done|].
  change (quote +:+ s +:+ quote) with (String "034"%char (s +:+ String "034"%char "")).
  by rewrite slice_inner_spec.
Qed.

(** A duration in JSON is what [time.ParseDuration] makes of the string between
    the quotes, and null is zero. But the quotes are not looked for: the outer
    bytes of any other value are dropped, so that a JSON number of three digits
    with a zero in the middle, such as 500, is read as zero, and a number of one
    digit makes the decoder panic. *)
Theorem UnmarshalJSON_spec :
  (∀ s, UnmarshalJSON (quote +:+ s +:+ quote) = ParseDuration s) ∧
  UnmarshalJSON "null" = Ok 0%Z ∧
  (∀ a b, UnmarshalJSON (String a (String "0" (String b ""))) = Ok 0%Z) ∧
  (∀ a, UnmarshalJSON (String a "") = Panic slice_bounds_out_of_range).
Proof.
  split_and!.
  - apply UnmarshalJSON_quoted.
  - done.
  - intros a b. unfold UnmarshalJSON. rewrite bool_decide_false; [done|].
    by rewrite (slice_inner_spec a "0" b).
  - intros a. unfold UnmarshalJSON. by rewrite bool_decide_false.
Qed.

(** ** The decode hooks *)

(** Decoding a string of the configuration: durations are parsed, slices split and
    sensitive strings wrapped, each by the type of its field; but a string that is
    the name of a log level, in any case, becomes a number first, whatever it is
    decoded into, a password or a host name as well. *)
Theorem makeDefaultDecodeHook_spec t s :
  makeDefaultDecodeHook t (CStr s) =
  match log_levels !! ToLower s with
  | Some level => Ok (CLevel level)
  | None =>
      match t with
      | TDuration => CDuration <$> ParseDuration s
      | TSlice => Ok (CStrings (if bool_decide (s = "") then [] else Split ","%char s))
      | TSensitive => Ok (CSensitive s)
      | TString | TLevel | TOtherType => Ok (CStr s)
      end
  end.
Proof.
  unfold makeDefaultDecodeHook, compose_hooks, log_level_hook. cbn -[ParseDuration].
  destruct (log_levels !! ToLower s) as [level|]; [by destruct t|].
  destruct t; cbn -[ParseDuration]; try done. by destruct (ParseDuration s).
Qed.

Example a_sensitive_string_named_like_a_level :
  makeDefaultDecodeHook TSensitive (CStr "Error") = Ok (CLevel ErrorLevel).
Proof. rewrite /makeDefaultDecodeHook /compose_hooks /=. by vm_compute. Qed.

(** ** Whole numbers of units through every decoder *)

Lemma concat_whole_start c v cs vs :
  Forall2 whole_value (c :: cs) (v :: vs) → ∃ a s, whole_text (c :: cs) = String a s ∧ is_digit a = true.
Proof.
  intros [(n&unit&Hne&Hn&_) _]%Forall2_cons_1. destruct c as [[|a ds] u]; [done|]. cbn in Hn.
  apply bind_Some in Hn as (d&Hd&_). apply digit_value_Some in Hd as [_ Hd]. cbn. by eexists a, _.
Qed.

Lemma whole_text_starts cs vs : Forall2 whole_value cs vs → starts_number (whole_text cs) = true.
Proof.
  intros Hall. destruct cs as [|c cs]; [done|]. destruct vs as [|v vs]; [by inversion Hall|].
  destruct (concat_whole_start _ _ _ _ Hall) as (a&s&->&Ha). cbn. unfold is_number_byte. by rewrite Ha orb_true_r.
Qed.

Lemma whole_sum_nonneg cs vs : Forall2 whole_value cs vs → (0 ≤ sum_list vs)%Z.
Proof. induction 1 as [|c v cs vs H%whole_value_nonneg _ IH]; cbn; [done|unfold sum_list in *; lia]. Qed.

(** The loop adds them up, and stops once the sum is too large; an addition could only
    wrap around to a small sum from 2^63 by 2^63 more. *)
Lemma parse_whole cs vs n d :
  Forall2 whole_value cs vs → (two63 ∉ vs ∨ ∃ v, vs = [v] ∧ d = 0%Z) → (String.length (whole_text cs) ≤ n)%nat →
  (0 ≤ d ≤ two63)%Z →
  parse_components n d (whole_text cs) = if bool_decide (d + sum_list vs ≤ two63)%Z then Some (d + sum_list vs)%Z else None.
Proof.
  intros Hall. revert n d. induction Hall as [|c v cs vs Hc Hall IH]; intros n d Hno Hlen Hd.
  { cbn. rewrite Z.add_0_r bool_decide_true; [lia|]. by destruct n. }
  destruct (concat_whole_start c v cs vs) as (a&s&E&_); [by constructor|].
  pose proof (whole_sum_nonneg _ _ Hall). pose proof (whole_value_nonneg _ _ Hc).
  pose proof (whole_text_starts _ _ Hall) as Hst. destruct Hc as (k&unit&Hne&Hk&Hu&->).
  rewrite E in Hlen |- *. destruct n as [|n]; [cbn in Hlen; lia|]. cbn [parse_components]. rewrite -E.
  change (whole_text (c :: cs)) with ((c.1 +:+ c.2) +:+ whole_text cs) in *.
  rewrite str_append_assoc (parse_component_whole _ _ k unit) // in E |- *.
  cbn [sum_list foldr]. fold (sum_list vs). case_bool_decide as Hle; cbn [mbind option_bind].
  2: { rewrite bool_decide_false; [lia|done]. }
  assert (String.length (whole_text cs) ≤ n)%nat as Hlen'.
  { assert (String.length (c.1 +:+ c.2 +:+ whole_text cs) = S (String.length s)) as El by (by rewrite E).
    rewrite !str_length_append in El. cbn in Hlen. destruct c as [[|] ]; [done|]. cbn in El. lia. }
  assert (d + k * unit < two64)%Z as Hwrap.
  { assert (k * unit ≠ two63 ∨ d = 0)%Z as Hne'.
    { destruct Hno as [Hno|(v&_&->)]; [left|by right]. intros Ev. apply Hno. rewrite Ev. by left. }
    clear -Hle Hd Hne'. unfold two63, two64 in *. lia. }
  rewrite Z.mod_small; [lia|]. case_bool_decide as Hbig; [rewrite bool_decide_false; [lia|done]|].
  rewrite IH //; [|lia|by rewrite Z.add_assoc].
  destruct Hno as [Hno|(v&[= _ ->]&_)]; left; [|by apply not_elem_of_nil]. intros ?. apply Hno. by right.
Qed.

(** Decoded as the duration [d] exactly if that is one; an error otherwise, never
    another duration. *)
Definition decoded_exactly {A} (f : Z → A) (d : Z) (r : res A) : Prop :=
  (in_int64 d → r = Ok (f d)) ∧ (¬ in_int64 d → ∃ e, r = Err e).

Definition signed_text (neg : bool) (s : string) : string := (if neg then "-" else "") +:+ s.

Lemma ParseDuration_whole neg cs vs :
  cs ≠ [] → Forall2 whole_value cs vs → (two63 ∉ vs ∨ ∃ v, vs = [v]) →
  decoded_exactly id (if neg then - sum_list vs else sum_list vs)%Z (ParseDuration (signed_text neg (whole_text cs))).
Proof.
  intros Hne Hall Hno. pose proof (whole_sum_nonneg _ _ Hall).
  assert (parse_unsigned (whole_text cs) = if bool_decide (sum_list vs ≤ two63)%Z then Some (sum_list vs) else None) as Hp.
  { unfold parse_unsigned. rewrite (parse_whole cs vs) //. destruct Hno as [?|[v ->]]; [by left|right; by exists v]. }
  destruct cs as [|c cs]; [done|]. destruct vs as [|v vs]; [by inversion Hall|].
  destruct (concat_whole_start _ _ _ _ Hall) as (a&s&E&Ha). rewrite E in Hp |- *.
  assert (String a s ≠ "0") as H0.
  { rewrite -E. apply Forall2_cons_1 in Hall as [(n&unit&Hc&_&[Hu _]%unitMap_text&_) _].
    destruct c as [[|x d] [|y u]]; [done..|]. intros [= _ E']. by destruct d. }
  unfold decoded_exactly, in_int64, minInt64, maxInt64, ParseDuration, two63 in *. destruct neg; cbn [signed_text String.append].
  - rewrite (bool_decide_true ("-"%char = "-"%char)) // (bool_decide_false (String a s = "0")) // bool_decide_false // Hp.
    case_bool_decide; split; intros; [done|lia|lia|by eexists].
  - rewrite (bool_decide_false (a = "-"%char)); [by intros ->|]. rewrite (bool_decide_false (a = "+"%char)); [by intros ->|].
    rewrite (bool_decide_false (String a s = "0")) // bool_decide_false // Hp.
    case_bool_decide; [case_bool_decide|]; split; intros; try lia; (done || by eexists).
Qed.

Lemma ToLower_head c s : is_ascii c = true → ∃ s', ToLower (String c s) = String (lower_byte c) s'.
Proof.
  intros Hc. assert (c ≠ "196"%char ∧ c ≠ "226"%char) as [H1 H2] by (split; intros ->; done).
  destruct s as [|c2 s2]; cbn [ToLower]; [by eexists|]. rewrite bool_decide_false; [tauto|].
  destruct s2 as [|c3 s3]; [by eexists|]. rewrite bool_decide_false; [tauto|]. by eexists.
Qed.

(** No name of a log level starts like a number. *)
Lemma no_level c s : is_digit c = true ∨ c = "-"%char → log_levels !! ToLower (String c s) = None.
Proof.
  intros Hc.
  assert (is_ascii c = true ∧ lower_byte c = c) as [Ha Hl].
  { destruct Hc as [Hd| ->]; [|done]. unfold is_ascii, lower_byte, is_upper, is_digit, byte_between, byte_N in *.
    apply andb_true_iff in Hd as [H1%N.leb_le H2%N.leb_le]. cbn in H1, H2. split; [apply N.ltb_lt; lia|].
    rewrite (proj2 (N.leb_gt _ _)) //; cbn; lia. }
  destruct (ToLower_head c s Ha) as [s' ->]. rewrite Hl. unfold log_levels.
  apply not_elem_of_list_to_map_1. cbn [map fst fmap list_fmap]. rewrite !elem_of_cons elem_of_nil. intros H.
  repeat destruct H as [H|H]; try done; injection H as -> _; by destruct Hc.
Qed.

Lemma whole_no_level neg cs vs :
  cs ≠ [] → Forall2 whole_value cs vs → log_levels !! ToLower (signed_text neg (whole_text cs)) = None.
Proof.
  intros Hne Hall. destruct cs as [|c cs]; [done|]. destruct vs as [|v vs]; [by inversion Hall|].
  destruct (concat_whole_start _ _ _ _ Hall) as (a&s&->&Ha). destruct neg; apply no_level; [by right|by left].
Qed.

(** C35. A text such as [1h30m] or [-90s], any number of whole numbers with units, is
    decoded as exactly the duration it says whenever that fits in 64 bits, and refused
    whenever it does not, never taken for another one: from JSON, from YAML and by the
    decode hooks of the configuration alike. Where there are several numbers none of
    them is 2^63 nanoseconds, from which the parser's sum could wrap around. *)
Theorem durations_decoded_exactly neg cs vs :
  cs ≠ [] → Forall2 whole_value cs vs → (two63 ∉ vs ∨ ∃ v, vs = [v]) →
  let t := signed_text neg (whole_text cs) in
  let d := (if neg then - sum_list vs else sum_list vs)%Z in
  decoded_exactly id d (UnmarshalJSON (quote +:+ t +:+ quote)) ∧
  decoded_exactly id d (UnmarshalYAML (inr t)) ∧
  decoded_exactly CDuration d (makeDefaultDecodeHook TDuration (CStr t)).
Proof.
  intros Hne Hall Hno t d. destruct (ParseDuration_whole neg cs vs Hne Hall Hno) as [Hin Hout]. fold t d in Hin, Hout.
  assert (t ≠ "") as Ht.
  { subst t. destruct cs as [|c cs]; [done|]. destruct vs as [|v vs]; [by inversion Hall|].
    destruct (concat_whole_start _ _ _ _ Hall) as (a&s&->&_). by destruct neg. }
  pose proof (whole_no_level neg cs vs Hne Hall) as Hlevel. fold t in Hlevel. split_and!.
  - rewrite UnmarshalJSON_quoted. by split.
  - cbn. rewrite bool_decide_false //.
  - unfold decoded_exactly. rewrite makeDefaultDecodeHook_spec Hlevel. split.
    + intros H%Hin. by rewrite H.
    + intros (e&He)%Hout. exists e. by rewrite He.
Qed.

Lemma durations_decoded_exactly_witness :
  UnmarshalJSON (quote +:+ "-1h30m" +:+ quote) = Ok (-5400000000000)%Z ∧ ∃ e, UnmarshalYAML (inr "2562048h") = Err e.
Proof.
  split.
  - destruct (durations_decoded_exactly true [("1", "h"); ("30", "m")] [3600000000000; 1800000000000]%Z) as [[H _] _].
    + discriminate.
    + repeat constructor; (eexists _, _; split; [discriminate|split; [reflexivity|split; reflexivity]]).
    + left. vm_compute. intros H. repeat (apply elem_of_cons in H as [H|H]; [discriminate H|]). by apply not_elem_of_nil in H.
    + apply H. split; vm_compute; discriminate.
  - destruct (durations_decoded_exactly false [("2562048", "h")] [9223372800000000000]%Z) as (_&[_ H]&_).
    + discriminate.
    + repeat constructor; (eexists _, _; split; [discriminate|split; [reflexivity|split; reflexivity]]).
    + right. by eexists.
    + apply H. intros [_ Hle]. vm_compute in Hle. by apply Hle.
Defined.

(** What the last condition leaves out. *)
Example sum_wraps : ParseDuration "9223372036854775808ns9223372036854775808ns" = Ok 0%Z.
Proof. vm_compute. reflexivity. Qed.

(** In strict mode a configuration is decoded exactly if every key that has no
    place in the structure is one of the ignored keys, written in lower case; and
    what is decoded does not depend on the mode. *)
Theorem configReader_Unmarshal_strict {C} (config : C) unused m :
  configReader_Unmarshal (inr (config, unused)) m =
    (if bool_decide (cr_strictMode m = false ∨ Forall (λ k, k ∈ ToLower <$> cr_strictModeIgnoredKeys m) unused)
     then Ok config
     else Err (ErrText ("Misconfiguration error: found unexpected config key(s): " +:+
            Join (filter (λ k, k ∉ ToLower <$> cr_strictModeIgnoredKeys m) unused) ","))).
Proof.
  unfold configReader_Unmarshal, validateNoUnusedKeys. cbn zeta.
  destruct (cr_strictMode m); [|by rewrite bool_decide_true; [by left|]].
  set (keys := ToLower <$> cr_strictModeIgnoredKeys m).
  assert (filter (λ k, k ∉ (list_to_set keys : gset string)) unused = filter (λ k, k ∉ keys) unused) as ->.
  { apply list_filter_iff. intros k. by rewrite elem_of_list_to_set. }
  destruct (decide (Forall (λ k, k ∈ keys) unused)) as [H|H].
  - rewrite (bool_decide_true (_ ∨ _)); [by right|].
    assert (filter (λ k, k ∉ keys) unused = []) as ->; [|done].
    apply filter_is_nil. eapply list.Forall_impl; [exact H|]. intros k Hk Hn. by apply Hn.
  - rewrite (bool_decide_false (_ ∨ _)); [by intros [?|?]|].
    destruct (filter (λ k, k ∉ keys) unused) as [|k l] eqn:E; [|by rewrite bool_decide_true; [cbn; lia|]].
    exfalso. apply H. apply filter_is_nil in E. eapply list.Forall_impl; [exact E|]. intros k Hk.
    by apply dec_stable.
Qed.

(** ** Timeouts *)

(** The tag [timeout=1ms:60s] of a client's timeout accepts the durations from one
    millisecond up to, but not including, one minute. *)
Theorem ClientTimeout_tag_spec field :
  timeoutValidatorFunc ClientTimeout_tag field = true ↔
  ∃ val, field = Some val ∧ (Millisecond ≤ val < 60 * Second)%Z.
Proof.
  assert (ParseDuration "1ms" = Ok Millisecond) as H1 by by vm_compute.
  assert (ParseDuration "60s" = Ok (60 * Second)%Z) as H2 by by vm_compute.
  unfold timeoutValidatorFunc, ClientTimeout_tag. change (Split ":"%char "1ms:60s") with ["1ms"; "60s"].
  destruct field as [val|]; [|by split; [|intros (?&?&_)]]. rewrite H1 H2.
  rewrite bool_decide_true; [cbn; lia|]. rewrite andb_true_iff !bool_decide_eq_true.
  split; [intros [??]; by exists val|]. by intros (?&[= <-]&?&?).
Qed.
