(* ===== verification/JsonTime.v ===== *)
(** * Printing durations: [time.Duration.String] and src/jsontime/jsonduration.go

    The standard library's printer of durations, byte by byte, the JSON and YAML
    forms made with it, and that the parser of [Durations] reads every one of them
    back. *)

From S2P Require Export Durations.

(** ** time.Duration.String

    The printer fills its buffer from the end: what is in the buffer so far is
    [buf], and a byte more goes to the front. *)

Definition digit_byte (d : Z) : ascii := Ascii.ascii_of_N (Z.to_N (d + 48)).

(** [fmtInt]; a [uint64] has at most 20 digits. *)
Fixpoint fmtInt_loop (fuel : nat) (buf : string) (v : Z) : string :=
  if bool_decide (v > 0)%Z then
    match fuel with
    | O => buf
    | S fuel => fmtInt_loop fuel (String (digit_byte (v mod 10)) buf) (v / 10)
    end
  else buf.
Definition fmtInt (buf : string) (v : Z) : string :=
  if bool_decide (v = 0)%Z then String "0" buf else fmtInt_loop 20 buf v.

(** [fmtFrac]: the fraction v/10^prec without trailing zeros, and v/10^prec. *)
Fixpoint fmtFrac_loop (prec : nat) (print : bool) (buf : string) (v : Z) : bool * string * Z :=
  match prec with
  | O => (print, buf, v)
  | S prec =>
      let digit := (v mod 10)%Z in
      let print := print || bool_decide (digit ≠ 0)%Z in
      fmtFrac_loop prec print (if print then String (digit_byte digit) buf else buf) (v / 10)
  end.
Definition fmtFrac (buf : string) (v : Z) (prec : nat) : string * Z :=
  let '(print, buf, v) := fmtFrac_loop prec false buf v in
  (if print then String "." buf else buf, v).

(** What is printed of a duration of [u] nanoseconds, sign aside. *)
Definition print_unsigned (u : Z) : string :=
  if bool_decide (u < Second)%Z then
    let '(unit, prec) :=
      if bool_decide (u < Microsecond)%Z then ("ns", 0%nat)
      else if bool_decide (u < Millisecond)%Z then (micro_sign +:+ "s", 3%nat)
      else ("ms", 6%nat) in
    let '(buf, u) := fmtFrac unit u prec in
    fmtInt buf u
  else
    let '(buf, u) := fmtFrac "s" u 9 in
    let buf := fmtInt buf (u mod 60) in
    let u := (u / 60)%Z in
    if bool_decide (u > 0)%Z then
      let buf := fmtInt (String "m" buf) (u mod 60) in
      let u := (u / 60)%Z in
      if bool_decide (u > 0)%Z then fmtInt (String "h" buf) u else buf
    else buf.

Definition Duration_String (d : Z) : string :=
  let u := (d mod two64)%Z in (* uint64(d) *)
  let neg := bool_decide (d < 0)%Z in
  let u := if neg then ((- u) mod two64)%Z else u in
  if bool_decide (u = 0)%Z then "0s"
  else
    let buf := print_unsigned u in
    if neg then String "-" buf else buf.

Example Duration_String_examples :
  Duration_String 0 = "0s" ∧ Duration_String 1 = "1ns" ∧ Duration_String 1100 = "1.1" +:+ micro_sign +:+ "s" ∧
  Duration_String 2200000 = "2.2ms" ∧ Duration_String (-3300000000) = "-3.3s" ∧
  Duration_String 300000000000 = "5m0s" ∧ Duration_String 480000000001 = "8m0.000000001s" ∧
  Duration_String maxInt64 = "2562047h47m16.854775807s" ∧ Duration_String minInt64 = "-2562047h47m16.854775808s".
Proof. repeat split; vm_compute; reflexivity. Qed.

(** ** jsontime/jsonduration.go *)

Definition MarshalJSON (d : Z) : res string := Ok (quote +:+ Duration_String d +:+ quote).
Definition MarshalYAML (d : Z) : res string := Ok (Duration_String d).

(** * Lemmas *)

(** ** Digits *)

Lemma digit_byte_value d : (0 ≤ d < 10)%Z → digit_value (digit_byte d) = Some d.
Proof.
  intros Hd. assert (∃ n : nat, (n < 10)%nat ∧ d = Z.of_nat n) as (n&Hn&->) by (exists (Z.to_nat d); lia).
  do 10 (destruct n as [|n]; [done|]). lia.
Qed.

Lemma parse_digits_app a b acc : parse_digits acc (a +:+ b) = parse_digits acc a ≫= λ v, parse_digits v b.
Proof.
  revert acc. induction a as [|c a IH]; intros acc; cbn; [done|].
  destruct (digit_value c); [apply IH|done].
Qed.

Lemma parse_digits_snoc ds v d :
  parse_digits 0 ds = Some v → (0 ≤ d < 10)%Z →
  parse_digits 0 (ds +:+ String (digit_byte d) "") = Some (10 * v + d)%Z.
Proof. intros Hv Hd. by rewrite parse_digits_app Hv /= digit_byte_value. Qed.

Lemma snoc_append ds c buf : ds +:+ String c buf = (ds +:+ String c "") +:+ buf.
Proof. by rewrite str_append_assoc. Qed.

Lemma fmtInt_loop_spec k fuel buf v :
  (k ≤ fuel)%nat → (0 ≤ v < 10 ^ Z.of_nat k)%Z →
  ∃ ds, fmtInt_loop fuel buf v = ds +:+ buf ∧ parse_digits 0 ds = Some v ∧ (String.length ds ≤ k)%nat.
Proof.
  revert k buf v. induction fuel as [|fuel IH]; intros k buf v Hk Hv.
  - assert (k = 0%nat) as -> by lia. cbn in Hv. assert (v = 0)%Z as -> by lia. by exists "".
  - cbn [fmtInt_loop]. case_bool_decide; [|exists ""; split_and!; [done|cbn; f_equal; lia|cbn; lia]].
    destruct k as [|k]; [cbn in Hv; lia|]. rewrite Nat2Z.inj_succ Z.pow_succ_r in Hv; [lia|].
    pose proof (Z.mod_pos_bound v 10). pose proof (Z.div_mod v 10).
    destruct (IH k (String (digit_byte (v mod 10)) buf) (v / 10)%Z) as (ds&->&Hds&Hlen); [lia| |].
    { split; [by apply Z.div_pos; lia|]. apply Z.div_lt_upper_bound; lia. }
    exists (ds +:+ String (digit_byte (v mod 10)) ""). split; [apply snoc_append|].
    rewrite (parse_digits_snoc _ (v / 10)%Z) //; [lia|]. split; [f_equal; lia|].
    rewrite str_length_append. cbn. lia.
Qed.

Lemma fmtInt_spec k buf v :
  (1 ≤ k ≤ 20)%nat → (0 ≤ v < 10 ^ Z.of_nat k)%Z →
  ∃ ds, fmtInt buf v = ds +:+ buf ∧ ds ≠ "" ∧ parse_digits 0 ds = Some v ∧ (String.length ds ≤ k)%nat.
Proof.
  intros Hk Hv. unfold fmtInt. case_bool_decide as H0.
  - exists "0". subst v. split_and!; [done..|cbn; lia].
  - destruct (fmtInt_loop_spec k 20 buf v) as (ds&->&Hds&?); [lia|done|]. exists ds. split_and!; try done.
    intros ->. cbn in Hds. congruence.
Qed.

(** A fraction is printed from its last digit that is not zero. *)
Lemma fmtFrac_loop_printing n buf v :
  (0 ≤ v)%Z → ∃ ds, fmtFrac_loop n true buf v = (true, ds +:+ buf, (v / 10 ^ Z.of_nat n)%Z) ∧
    parse_digits 0 ds = Some (v mod 10 ^ Z.of_nat n)%Z ∧ String.length ds = n.
Proof.
  revert buf v. induction n as [|n IH]; intros buf v Hv.
  - exists "". cbn. by rewrite Z.mod_1_r Z.div_1_r.
  - cbn [fmtFrac_loop orb]. pose proof (Z.mod_pos_bound v 10).
    destruct (IH (String (digit_byte (v mod 10)) buf) (v / 10)%Z) as (ds&->&Hds&Hlen); [apply Z.div_pos; lia|].
    assert (0 < 10 ^ Z.of_nat n)%Z by (apply Z.pow_pos_nonneg; lia).
    exists (ds +:+ String (digit_byte (v mod 10)) "").
    rewrite -snoc_append Nat2Z.inj_succ Z.pow_succ_r; [lia|]. rewrite Z.div_div; [lia..|].
    split; [done|]. rewrite (parse_digits_snoc _ _ _ Hds); [lia|].
    rewrite Z.rem_mul_r; [lia..|]. split; [f_equal; lia|]. rewrite str_length_append. cbn. lia.
Qed.

Lemma fmtFrac_loop_spec n buf v :
  (0 ≤ v)%Z →
  let low := (v mod 10 ^ Z.of_nat n)%Z in
  let v' := (v / 10 ^ Z.of_nat n)%Z in
  (low = 0%Z ∧ fmtFrac_loop n false buf v = (false, buf, v')) ∨
  (∃ ds f, fmtFrac_loop n false buf v = (true, ds +:+ buf, v') ∧ parse_digits 0 ds = Some f ∧ (0 < f)%Z ∧
     (0 < String.length ds ≤ n)%nat ∧ low = (f * 10 ^ Z.of_nat (n - String.length ds))%Z).
Proof.
  revert buf v. induction n as [|n IH]; intros buf v Hv; cbn zeta.
  { left. cbn. by rewrite Z.mod_1_r Z.div_1_r. }
  cbn [fmtFrac_loop orb]. pose proof (Z.mod_pos_bound v 10).
  assert (0 < 10 ^ Z.of_nat n)%Z by (apply Z.pow_pos_nonneg; lia).
  assert (0 ≤ v / 10)%Z by (apply Z.div_pos; lia).
  rewrite Nat2Z.inj_succ Z.pow_succ_r; [lia|]. rewrite Z.rem_mul_r; [lia..|].
  rewrite -Z.div_div; [lia..|].
  case_bool_decide as Hd.
  - destruct (fmtFrac_loop_printing n (String (digit_byte (v mod 10)) buf) (v / 10)%Z) as (ds&->&Hds&Hlen); [done|].
    right. exists (ds +:+ String (digit_byte (v mod 10)) ""), (10 * ((v / 10) mod 10 ^ Z.of_nat n) + v mod 10)%Z.
    rewrite -snoc_append str_length_append Hlen. cbn [String.length].
    pose proof (Z.mod_pos_bound (v / 10) (10 ^ Z.of_nat n)).
    split; [done|]. split; [apply parse_digits_snoc; [done|lia]|]. split; [lia|]. split; [lia|].
    replace (S n - (n + 1))%nat with 0%nat by lia. cbn. lia.
  - assert (v mod 10 = 0)%Z as -> by (by destruct (decide (v mod 10 = 0)%Z)). cbn [orb].
    destruct (IH buf (v / 10)%Z) as [[Hlow ->]|(ds&f&->&Hf&Hpos&Hlen&Hlow)]; [done|left|right].
    + split; [lia|done].
    + exists ds, f. split_and!; [done..|lia|lia|]. rewrite Hlow.
      replace (S n - String.length ds)%nat with (S (n - String.length ds)) by lia.
      rewrite Nat2Z.inj_succ Z.pow_succ_r; lia.
Qed.

(** ** The parser on a fraction *)

Definition scale_at (k : nat) : spec_float := Nat.iter k (λ s, f64_mul s (f64_of_Z 10)) (f64_of_Z 1).

Lemma leadingFraction_digits ds j x f rest :
  (0 ≤ x)%Z → parse_digits x ds = Some f → (f < 2 ^ 59)%Z →
  match rest with "" => True | String c _ => digit_value c = None end →
  leadingFraction false x (scale_at j) (ds +:+ rest) = (f, scale_at (j + String.length ds), rest).
Proof.
  intros Hx Hf Hlt Hrest. revert j x Hx Hf. induction ds as [|c ds IH]; intros j x Hx;
    cbn [parse_digits String.append String.length].
  - intros [= ->]. rewrite Nat.add_0_r. destruct rest as [|c rest]; [done|]. cbn. by rewrite Hrest.
  - intros (d&Hd&H)%bind_Some. cbn [leadingFraction]. rewrite Hd. apply digit_value_Some in Hd as [? _].
    assert (10 * x + d ≤ f)%Z by (eapply parse_digits_mono; [|exact H]; lia).
    rewrite bool_decide_false; [change ((two63 - 1) / 10)%Z with 922337203685477580%Z; lia|].
    rewrite bool_decide_false; [unfold two63; lia|].
    replace (x * 10 + d)%Z with (10 * x + d)%Z by lia.
    change (f64_mul (scale_at j) (f64_of_Z 10)) with (scale_at (S j)).
    replace (j + S (String.length ds))%nat with (S j + String.length ds)%nat by lia. apply IH; [lia|done].
Qed.

(** The quotients of the units by the scales are whole numbers, and computed exactly. *)
Lemma scale_quotient prec k :
  (prec ∈ [3; 6; 9] → k ≤ prec →
   f64_div (f64_of_Z (10 ^ Z.of_nat prec)) (scale_at k) = f64_of_Z (10 ^ Z.of_nat (prec - k)))%nat.
Proof.
  intros Hp Hk.
  assert (forallb (λ p, forallb (λ k, bool_decide
    (f64_div (f64_of_Z (10 ^ Z.of_nat p)) (scale_at k) = f64_of_Z (10 ^ Z.of_nat (p - k)))) (seq 0 (S p)))
    [3; 6; 9]%nat = true) as H.
  { reflexivity. }
  rewrite forallb_forall in H. specialize (H prec). rewrite -list_elem_of_In in H. specialize (H Hp).
  rewrite forallb_forall in H. specialize (H k). rewrite -list_elem_of_In elem_of_seq in H.
  eapply bool_decide_eq_true, H. lia.
Qed.

(** The units that take a fraction, and how many decimals they have. *)
Definition frac_unit (u : string) (prec : nat) : Prop :=
  (u = micro_sign +:+ "s" ∧ prec = 3%nat) ∨ (u = "ms" ∧ prec = 6%nat) ∨ (u = "s" ∧ prec = 9%nat).

Lemma frac_unit_spec u prec :
  frac_unit u prec →
  prec ∈ [3; 6; 9]%nat ∧ unitMap u = Some (10 ^ Z.of_nat prec)%Z ∧
  match u with "" => False | String c _ => digit_value c = None end.
Proof. intros [[-> ->]|[[-> ->]|[-> ->]]]; (split; [set_solver|by split]). Qed.

(** A whole part and a fraction, read to the nanosecond: the floating-point product
    of the parser is exact. *)
Lemma frac_component di df u prec n f :
  frac_unit u prec → di ≠ "" → parse_digits 0 di = Some n →
  parse_digits 0 df = Some f → (0 < f)%Z → (0 < String.length df ≤ prec)%nat →
  let low := (f * 10 ^ Z.of_nat (prec - String.length df))%Z in
  (low < 10 ^ Z.of_nat prec)%Z → (n * 10 ^ Z.of_nat prec + low ≤ two63)%Z →
  component (di +:+ String "." (df +:+ u)) (n * 10 ^ Z.of_nat prec + low).
Proof.
  intros Hfu Hdi Hn Hf Hfpos Hlen low Hlow Hle.
  destruct (frac_unit_spec _ _ Hfu) as (Hprec&Hunit&Hu0).
  destruct (unitMap_text _ _ Hunit) as [Hune Hutext].
  set (k := String.length df) in *. set (unit := (10 ^ Z.of_nat prec)%Z) in *.
  assert (0 ≤ n)%Z by (eapply parse_digits_mono; [|exact Hn]; lia).
  assert (1 ≤ 10 ^ Z.of_nat (prec - k))%Z by (apply (Z.pow_le_mono_r 10 0); lia).
  assert (unit ≤ 10 ^ 9)%Z.
  { apply Z.pow_le_mono_r; [done|]. rewrite !elem_of_cons elem_of_nil in Hprec. lia. }
  assert (0 < unit)%Z by (apply Z.pow_pos_nonneg; lia).
  assert (0 < low)%Z by (subst low; nia).
  assert (f ≤ low)%Z by (subst low; nia).
  split_and!; [by eapply digits_start|by destruct di|nia|]. intros rest Hrest.
  rewrite str_append_assoc. cbn [String.append]. rewrite str_append_assoc.
  set (tail := df +:+ (u +:+ rest)). unfold parse_component.
  assert (is_number_byte (match di with String c _ => c | "" => "." end) = true) as Hc0.
  { pose proof (digits_start di 0 n "" Hdi Hn) as Hs. by destruct di. }
  assert (leadingInt 0 (di +:+ String "." tail) = Some (n, String "." tail)) as Hint.
  { apply leadingInt_digits; [done|done|unfold two63 in *; nia|done]. }
  assert (leadingFraction false 0 (f64_of_Z 1) tail = (f, scale_at k, u +:+ rest)) as Hfrac.
  { apply (leadingFraction_digits df 0 0 f (u +:+ rest)); [done|done|lia|]. by destruct u. }
  remember (di +:+ String "." tail) as s eqn:Es. destruct s as [|c s]; [by destruct di|].
  destruct di as [|c1 di]; [done|]. assert (c = c1) as -> by (by injection Es). rewrite Hc0 Hint.
  cbn [mbind option_bind]. rewrite (bool_decide_true ("."%char = "."%char)) // Hfrac.
  rewrite (bool_decide_true (String.length (u +:+ rest) ≠ String.length tail)).
  { subst tail. rewrite (str_length_append df). subst k. lia. }
  rewrite andb_false_r take_unit_app // (bool_decide_false (u = "")) // Hunit. cbn [mbind option_bind].
  rewrite (bool_decide_false (n > two63 / unit)%Z).
  { assert (n ≤ two63 / unit)%Z; [|lia]. apply Z.div_le_lower_bound; nia. }
  rewrite (bool_decide_true (f > 0)%Z); [lia|].
  subst unit. rewrite scale_quotient //; [lia|]. rewrite f64_trunc_mul; [done|lia| |].
  { fold low. lia. }
  fold low. rewrite bool_decide_false; [lia|done].
Qed.

(** What [fmtFrac] and then [fmtInt] print before a unit is a component. *)
Lemma fmt_component u prec k v :
  frac_unit u prec ∨ u = "ns" ∧ prec = 0%nat →
  (1 ≤ k ≤ 20)%nat → (0 ≤ v)%Z →
  ∃ ft, fmtFrac u v prec = (ft, v / 10 ^ Z.of_nat prec)%Z ∧ (String.length ft ≤ S prec + String.length u)%nat ∧
    ∀ n buf, (0 ≤ n < 10 ^ Z.of_nat k)%Z → (n * 10 ^ Z.of_nat prec + v mod 10 ^ Z.of_nat prec ≤ two63)%Z →
    ∃ t, fmtInt (ft +:+ buf) n = t +:+ buf ∧
      component t (n * 10 ^ Z.of_nat prec + v mod 10 ^ Z.of_nat prec) ∧
      (String.length t ≤ k + String.length ft)%nat.
Proof.
  intros Hu Hk Hv. set (unit := (10 ^ Z.of_nat prec)%Z) in *.
  assert (unitMap u = Some unit) as Hunit.
  { destruct Hu as [Hu|[-> ->]]; [by apply frac_unit_spec in Hu as (_&?&_)|done]. }
  assert (0 < unit)%Z by (apply Z.pow_pos_nonneg; lia). pose proof (Z.mod_pos_bound v unit) as Hm.
  unfold fmtFrac. destruct (fmtFrac_loop_spec prec u v) as [[Hlow E]|(df&f&E&Hf&Hpos&Hlen&Hlow)]; [lia|..];
    fold unit in E, Hlow |- *; rewrite E.
  - exists u. split; [done|]. split; [lia|]. intros n buf Hn Hle. rewrite Hlow Z.add_0_r in Hle |- *.
    destruct (fmtInt_spec k (u +:+ buf) n Hk Hn) as (di&->&Hdi&Hnd&Hl).
    exists (di +:+ u). split; [by rewrite str_append_assoc|]. split; [by apply whole_component|].
    rewrite str_length_append. lia.
  - destruct Hu as [Hu|[_ ->]]; [|lia].
    exists (String "." (df +:+ u)). split; [done|]. split; [cbn; rewrite str_length_append; lia|].
    intros n buf Hn Hle.
    destruct (fmtInt_spec k (String "." (df +:+ u) +:+ buf) n Hk Hn) as (di&->&Hdi&Hnd&Hl).
    exists (di +:+ String "." (df +:+ u)). split; [by rewrite str_append_assoc|].
    split; [|rewrite str_length_append; lia]. rewrite Hlow in Hm, Hle |- *.
    refine (frac_component di df u prec n f Hu Hdi Hnd Hf Hpos Hlen _ Hle). lia.
Qed.

#[local] Ltac components := repeat (constructor; [eassumption|]); constructor.

(** Below a second it is one component, and from there on up to three. *)
Lemma print_small u :
  (0 ≤ u < Second)%Z → ∃ t, print_unsigned u = t ∧ component t u ∧ (String.length t ≤ 24)%nat.
Proof.
  intros Hu. unfold print_unsigned. rewrite bool_decide_true; [lia|].
  set (up := if bool_decide (u < Microsecond)%Z then _ else _).
  assert (∃ unit prec, up = (unit, prec) ∧ (frac_unit unit prec ∨ unit = "ns" ∧ prec = 0%nat) ∧ (prec ≤ 6)%nat ∧
    (String.length unit ≤ 3)%nat ∧ (u < 1000 * 10 ^ Z.of_nat prec)%Z) as (unit&prec&->&Hunit&Hprec&Hul&Hlt).
  { subst up. unfold Microsecond, Millisecond, Second, frac_unit in *.
    repeat case_bool_decide; eexists _, _; (split; [reflexivity|]); split_and!; try tauto; cbn; lia. }
  assert (0 < 10 ^ Z.of_nat prec)%Z by (apply Z.pow_pos_nonneg; lia).
  destruct (fmt_component unit prec 3 u Hunit) as (ft&->&Hft&Ht); [lia|lia|].
  destruct (Ht (u / 10 ^ Z.of_nat prec)%Z "") as (t&E&Hc&Hl).
  - split; [apply Z.div_pos; lia|]. apply Z.div_lt_upper_bound; lia.
  - rewrite Z.mul_comm -Z.div_mod; unfold Second, two63 in *; lia.
  - rewrite !str_append_nil_r in E. exists t. split; [done|]. split; [|lia].
    rewrite Z.mul_comm -Z.div_mod in Hc; [lia|done].
Qed.

(** A whole number before a minute or an hour. *)
Lemma fmtInt_component u unit k n buf :
  unitMap u = Some unit → (1 ≤ k ≤ 20)%nat → (0 ≤ n < 10 ^ Z.of_nat k)%Z → (n * unit ≤ two63)%Z →
  ∃ t, fmtInt (u +:+ buf) n = t +:+ buf ∧ component t (n * unit) ∧ (String.length t ≤ k + String.length u)%nat.
Proof.
  intros Hu Hk Hn Hle. destruct (fmtInt_spec k (u +:+ buf) n Hk Hn) as (di&->&Hdi&Hnd&Hl).
  exists (di +:+ u). split; [by rewrite str_append_assoc|]. split; [by apply whole_component|].
  rewrite str_length_append. lia.
Qed.

Lemma print_large u :
  (Second ≤ u ≤ two63)%Z →
  ∃ ts vs, print_unsigned u = concat_text ts ∧ ts ≠ [] ∧ Forall2 component ts vs ∧ sum_list vs = u ∧
    (String.length (concat_text ts) ≤ 24)%nat.
Proof.
  intros Hu. unfold Second, two63 in Hu. unfold print_unsigned. rewrite bool_decide_false; [unfold Second; lia|].
  destruct (fmt_component "s" 9 2 u) as (ft&->&Hft&Ht); [unfold frac_unit; tauto|lia|lia|].
  change (10 ^ Z.of_nat 9)%Z with 1000000000%Z in *. set (s := (u / 1000000000)%Z) in *.
  pose proof (Z.div_mod u 1000000000) as Hdm. fold s in Hdm. pose proof (Z.mod_pos_bound u 1000000000).
  pose proof (Z.mod_pos_bound s 60). pose proof (Z.div_mod s 60).
  destruct (Ht (s mod 60)%Z "") as (ts&Es&Hs&Hls); [cbn; lia|unfold two63; lia|].
  rewrite !str_append_nil_r in Es. rewrite Es. cbn in Hft. set (m := (s / 60)%Z) in *.
  case_bool_decide; [|exists [ts], [(s mod 60 * 1000000000 + u mod 1000000000)%Z]; split_and!;
    [by rewrite /= str_append_nil_r|done|components|cbn; lia|rewrite /= str_append_nil_r; lia]].
  pose proof (Z.mod_pos_bound m 60). pose proof (Z.div_mod m 60).
  destruct (fmtInt_component "m" Minute 2 (m mod 60) ts) as (tm&Em&Hm&Hlm);
    [done|lia|cbn; lia|unfold Minute, two63; lia|].
  change (String "m" ts) with ("m" +:+ ts). rewrite Em. cbn in Hlm. set (h := (m / 60)%Z) in *.
  case_bool_decide.
  2: { exists [tm; ts], [(m mod 60 * Minute)%Z; (s mod 60 * 1000000000 + u mod 1000000000)%Z]. split_and!;
    [by rewrite /= str_append_nil_r|done|components|unfold Minute; cbn; lia|].
    rewrite /= str_append_nil_r str_length_append. lia. }
  destruct (fmtInt_component "h" Hour 7 h (tm +:+ ts)) as (th&Eh&Hh&Hlh);
    [done|lia|cbn; lia|unfold Hour, two63; lia|].
  change (String "h" (tm +:+ ts)) with ("h" +:+ (tm +:+ ts)). rewrite Eh. cbn in Hlh.
  exists [th; tm; ts], [(h * Hour)%Z; (m mod 60 * Minute)%Z; (s mod 60 * 1000000000 + u mod 1000000000)%Z].
  split_and!; [by rewrite /= str_append_nil_r|done|components|unfold Minute, Hour; cbn; lia|].
  rewrite /= str_append_nil_r !str_length_append. lia.
Qed.

Lemma print_components u :
  (0 ≤ u ≤ two63)%Z →
  ∃ ts vs, print_unsigned u = concat_text ts ∧ ts ≠ [] ∧ Forall2 component ts vs ∧ sum_list vs = u ∧
    (String.length (concat_text ts) ≤ 24)%nat.
Proof.
  intros Hu. destruct (decide (u < Second)%Z); [|apply print_large; lia].
  destruct (print_small u) as (t&->&Hc&Hl); [lia|]. exists [t], [u].
  rewrite /= str_append_nil_r. split_and!; [done..|components|lia|done].
Qed.

(** ** Every duration comes back *)

Lemma Duration_String_parts d :
  in_int64 d → Duration_String d = if bool_decide (d = 0)%Z then "0s" else
    (if bool_decide (d < 0)%Z then "-" else "") +:+ print_unsigned (Z.abs d).
Proof.
  unfold in_int64, minInt64, maxInt64. intros Hd. unfold Duration_String.
  assert ((if bool_decide (d < 0)%Z then (- (d mod two64)) mod two64 else d mod two64) = Z.abs d)%Z as ->.
  { case_bool_decide; unfold two64.
    - rewrite -(Z.mod_unique d (2 ^ 64) (-1) (d + 2 ^ 64)); [lia..|].
      rewrite -(Z.mod_unique _ (2 ^ 64) (-1) (- d)); lia.
    - rewrite Z.mod_small; lia. }
  rewrite (bool_decide_ext (Z.abs d = 0)%Z (d = 0)%Z); [lia|]. by case_bool_decide; [|case_bool_decide].
Qed.

(** C13. Every duration of 64 bits, the smallest included, is read back as it was printed:
    by the JSON and YAML decoders from what the encoders made of it, and by the hook
    that decodes a configuration. The printed form is never longer than the 32 bytes
    of the printer's buffer, of which 25 are the most it needs. *)
Theorem Duration_roundtrip d :
  in_int64 d →
  ParseDuration (Duration_String d) = Ok d ∧
  (data ← MarshalJSON d; UnmarshalJSON data) = Ok d ∧
  (s ← MarshalYAML d; UnmarshalYAML (inr s)) = Ok d ∧
  DurationMapstructureDecodeHookFunc TDuration (CStr (Duration_String d)) = Ok (CDuration d) ∧
  (String.length (Duration_String d) ≤ 25)%nat.
Proof.
  intros Hd.
  assert (ParseDuration (Duration_String d) = Ok d ∧ Duration_String d ≠ "" ∧
    (String.length (Duration_String d) ≤ 25)%nat) as (Hp&Hne&Hl).
  { rewrite Duration_String_parts //. case_bool_decide as H0; [subst d; split_and!; [done..|cbn; lia]|].
    unfold in_int64, minInt64, maxInt64 in Hd.
    destruct (print_components (Z.abs d)) as (ts&vs&->&Hne&Hall&Hsum&Hl); [unfold two63; lia|].
    destruct (ParseDuration_components ts vs Hne Hall) as [Hpos Hneg]. rewrite Hsum in Hpos, Hneg.
    case_bool_decide.
    - split; [rewrite Hneg; [unfold two63; lia|f_equal; lia]|]. split; [done|cbn; lia].
    - cbn [String.append]. split; [rewrite Hpos; [unfold maxInt64; lia|f_equal; lia]|]. split; [|lia].
      destruct Hall as [|t v ts vs (_&Ht&_) _]; [done|]. by destruct t. }
  split_and!; try done.
  - unfold MarshalJSON. cbn [mbind res_bind]. by rewrite (proj1 UnmarshalJSON_spec).
  - unfold MarshalYAML. cbn [mbind res_bind UnmarshalYAML]. by rewrite bool_decide_false.
  - unfold DurationMapstructureDecodeHookFunc. by rewrite Hp.
Qed.

Lemma Duration_roundtrip_witness : ParseDuration "-2562047h47m16.854775808s" = Ok minInt64.
Proof. apply (Duration_roundtrip minInt64). vm_compute. split; discriminate. Defined.

(** ** jsontime.go

    [T] is [time.Time]; the parts of package time and of [encoding/json] that are
    called are parameters. *)
Section jsontime.
Context {T : Type} (Year : T → Z) (Format_RFC3339Nano : T → string) (Parse_RFC3339Nano : string → error + T)
  (Time_MarshalJSON : T → error + string) (json_Unmarshal : string → error + T).

Definition Time_Marshal (t : T) : error + string := Time_MarshalJSON t.
Definition Time_UnmarshalJSON (t : T) (data : string) : T * option error :=
  match json_Unmarshal data with inl err => (t, Some err) | inr parsed => (parsed, None) end.
Definition Time_MarshalYAML (t : T) : error + string :=
  if bool_decide (Year t < 0 ∨ Year t > 10000)%Z
  then inl (ErrText "Time.MarshalYAML: year outside range [0,9999]")
  else inr (Format_RFC3339Nano t).
(** [unmarshal] is what the node of the document decodes to as a string. *)
Definition Time_UnmarshalYAML (t : T) (unmarshal : error + string) : T * option error :=
  match unmarshal with
  | inl err => (t, Some err)
  | inr s =>
      if bool_decide (s = "null") then (t, None)
      else match Parse_RFC3339Nano s with inl err => (t, Some err) | inr tim => (tim, None) end
  end.

(** A time whose year the printer accepts comes back, the year 10000 included, which
    the message of the error excludes, if the layout can be parsed for it. *)
Lemma Time_YAML_roundtrip t t0 s :
  Time_MarshalYAML t = inr s → Format_RFC3339Nano t ≠ "null" → Parse_RFC3339Nano (Format_RFC3339Nano t) = inr t →
  Time_UnmarshalYAML t0 (inr s) = (t, None).
Proof.
  unfold Time_MarshalYAML, Time_UnmarshalYAML. case_bool_decide; [done|]. intros [= <-] ? ->.
  by rewrite bool_decide_false.
Qed.
Lemma Time_MarshalYAML_year_10000 t : Year t = 10000%Z → Time_MarshalYAML t = inr (Format_RFC3339Nano t).
Proof. unfold Time_MarshalYAML. intros ->. case_bool_decide; [lia|done]. Qed.
End jsontime.
