(* ===== verification/Secrets.v ===== *)
(** * Secrets in configuration: src/config/sensitivestring.go and secret_key.go

    Strings that print as asterisks, and secret keys decoded from base64.
    [encoding/base64] is modelled (standard alphabet, padding required, line
    breaks ignored); [encoding/json] and the YAML decoder are parameters. *)

From S2P Require Export ConfigTypes.

(** ** encoding/base64: [StdEncoding] *)

Definition base64_pad : ascii := "=".

(** The six bits a character of the alphabet stands for. *)
Definition base64_sextet (c : ascii) : option N :=
  if is_upper c then Some (byte_N c - 65)%N
  else if is_lower c then Some (byte_N c - 71)%N
  else if is_digit c then Some (byte_N c + 4)%N
  else if bool_decide (c = "+"%char) then Some 62%N
  else if bool_decide (c = "/"%char) then Some 63%N
  else None.

Definition base64_char (n : N) : ascii :=
  (if n <? 26 then Ascii.ascii_of_N (n + 65)
   else if n <? 52 then Ascii.ascii_of_N (n + 71)
   else if n <? 62 then Ascii.ascii_of_N (n - 4)
   else if n =? 62 then "+"%char else "/"%char)%N.

(** Byte [i] (from the left) of a 24-bit group. *)
Definition group_byte (v : N) (i : N) : ascii := Ascii.ascii_of_N ((v / 2 ^ (8 * (2 - i))) mod 256)%N.
Definition group_sextet (v : N) (i : N) : N := ((v / 2 ^ (6 * (3 - i))) mod 64)%N.
Definition sextets_group (a b c d : N) : N := (a * 2 ^ 18 + b * 2 ^ 12 + c * 2 ^ 6 + d)%N.
Definition bytes_group (a b c : ascii) : N := (byte_N a * 2 ^ 16 + byte_N b * 2 ^ 8 + byte_N c)%N.

Definition CorruptInputError : error := ErrText "illegal base64 data at input byte".

Fixpoint base64_quanta (s : string) : res string :=
  match s with
  | "" => Ok ""
  | String c1 (String c2 (String c3 (String c4 rest))) =>
    match base64_sextet c1, base64_sextet c2 with
    | Some a, Some b =>
      match base64_sextet c3 with
      | None =>
        if bool_decide (c3 = base64_pad ∧ c4 = base64_pad ∧ rest = "") then
          Ok (String (group_byte (sextets_group a b 0 0) 0) "")
        else Err CorruptInputError
      | Some c =>
        match base64_sextet c4 with
        | None =>
          if bool_decide (c4 = base64_pad ∧ rest = "") then
            let v := sextets_group a b c 0 in
            Ok (String (group_byte v 0) (String (group_byte v 1) ""))
          else Err CorruptInputError
        | Some d =>
          let v := sextets_group a b c d in
          out ← base64_quanta rest;
          Ok (String (group_byte v 0) (String (group_byte v 1) (String (group_byte v 2) out)))
        end
      end
    | _, _ => Err CorruptInputError
    end
  | _ => Err CorruptInputError
  end.

(** Carriage returns and line feeds are skipped wherever they are. *)
Fixpoint skip_newlines (s : string) : string :=
  match s with
  | "" => ""
  | String c s =>
      if bool_decide (c = "010"%char ∨ c = "013"%char) then skip_newlines s
      else String c (skip_newlines s)
  end.

(** [base64.StdEncoding.DecodeString]; the bytes decoded before an error, which
    no caller looks at, are dropped. *)
Definition DecodeString (s : string) : res string := base64_quanta (skip_newlines s).

(** What an operator writes into the configuration file: [EncodeToString]. *)
Fixpoint EncodeToString (s : string) : string :=
  match s with
  | "" => ""
  | String a "" =>
      let v := bytes_group a zero zero in
      String (base64_char (group_sextet v 0)) (String (base64_char (group_sextet v 1)) "==")
  | String a (String b "") =>
      let v := bytes_group a b zero in
      String (base64_char (group_sextet v 0)) (String (base64_char (group_sextet v 1))
        (String (base64_char (group_sextet v 2)) "="))
  | String a (String b (String c s)) =>
      let v := bytes_group a b c in
      String (base64_char (group_sextet v 0)) (String (base64_char (group_sextet v 1))
        (String (base64_char (group_sextet v 2)) (String (base64_char (group_sextet v 3))
          (EncodeToString s))))
  end.

(** ** sensitivestring.go *)

Definition DefaultReplacementText : string := "****************".

Definition NewSensitiveString (from : string) : SensitiveString :=
  mkSensitiveString from (Some DefaultReplacementText).

Definition SensitiveString_String (s : SensitiveString) : string :=
  match ss_replacement s with None => DefaultReplacementText | Some r => r end.

(** [Value] has a pointer receiver. *)
Definition SensitiveString_Value (s : option SensitiveString) : res string :=
  s ← deref s; Ok (ss_s s).

Definition SensitiveString_UnmarshalYAML (unmarshal : res string) (s : SensitiveString) : res SensitiveString :=
  val ← unmarshal; Ok (mkSensitiveString val (ss_replacement s)).

Definition SensitiveString_MarshalYAML (s : SensitiveString) : string := SensitiveString_String s.

Definition SensitiveString_UnmarshalJSON (json_Unmarshal : string → res string) (data : string)
    (s : SensitiveString) : res SensitiveString :=
  val ← json_Unmarshal data; Ok (mkSensitiveString val (ss_replacement s)).

Definition SensitiveString_MarshalJSON (json_Marshal : string → res string) (s : SensitiveString) :
    res string :=
  json_Marshal (SensitiveString_String s).

(** What the validator library hands to [sensitiveStringValidator]. *)
Inductive field_value :=
| FieldSensitive (s : SensitiveString)
| FieldSensitivePtr (s : option SensitiveString)
| FieldOther.

Definition sensitiveStringValidator (field : field_value) : res value :=
  match field with
  | FieldSensitive s => VString <$> SensitiveString_Value (Some s)
  | FieldSensitivePtr s => VString <$> SensitiveString_Value s
  | FieldOther => Ok VNil
  end.

(** The decode hook, on the kinds and types it tells apart. *)
Inductive decode_data :=
| DecodeString_to_Sensitive (s : string) (* from a string to a SensitiveString *)
| DecodeOther (v : value).

Definition StringToSensitiveStringHookFunc (d : decode_data) : SensitiveString + value :=
  match d with
  | DecodeString_to_Sensitive s => inl (NewSensitiveString s)
  | DecodeOther v => inr v
  end.

(** ** secret_key.go *)

Definition SecretKeyEncodingBase64 : string := "base64".

Definition validateBase64Value (cfg : SecretKeyConfig) : res () :=
  match sk_Value cfg with
  | None => Err (ErrText "value config missing")
  | Some v =>
    match DecodeString (ss_s v) with
    | Ok _ => Ok ()
    | _ => Err (ErrText "value config is invalid")
    end
  end.

Definition SecretKeyValidators : gmap string (SecretKeyConfig → res ()) :=
  {[ SecretKeyEncodingBase64 := validateBase64Value ]}.

Definition SecretKeyConfig_Validate (s : option SecretKeyConfig) : res () :=
  match s with
  | None => Ok ()
  | Some s =>
    match sk_Encoding s with
    | None => Err (ErrText "encoding config missing")
    | Some enc =>
      match SecretKeyValidators !! ToLower enc with
      | Some validateFn => validateFn s
      | None => Err (ErrText ("encoding `" +:+ enc +:+ "` is invalid, must be one of [base64]"))
      end
    end
  end.

Definition readBase64Value (cfg : SecretKeyConfig) : res string :=
  v ← SensitiveString_Value (sk_Value cfg); DecodeString v.

Definition SecretKeyReader : gmap string (SecretKeyConfig → res string) :=
  {[ SecretKeyEncodingBase64 := readBase64Value ]}.

(** [SecretKey] only embeds a [SensitiveString]. *)
Definition MakeSecretKey (cfg : option SecretKeyConfig) : res SensitiveString :=
  match cfg with
  | None => Err (ErrText "secret key load error, config is nil")
  | Some s =>
    _ ← SecretKeyConfig_Validate (Some s);
    enc ← deref (sk_Encoding s);
    match SecretKeyReader !! ToLower enc with
    | None => Err (ErrText ("secret key load error, encoding `" +:+ enc +:+ "` is invalid"))
    | Some readFn => key ← readFn s; Ok (NewSensitiveString key)
    end
  end.

(** ** Base64 round trip *)

Lemma N_below_check (P : N → Prop) `{!∀ n, Decision (P n)} (k : nat) n :
  forallb (λ n, bool_decide (P n)) (N.of_nat <$> seq 0 k) = true → (n < N.of_nat k)%N → P n.
Proof.
  intros Hall Hn. rewrite forallb_forall in Hall. eapply bool_decide_eq_true_1, Hall.
  apply list_elem_of_In, list_elem_of_fmap.
  exists (N.to_nat n). rewrite N2Nat.id elem_of_seq. lia.
Qed.

Lemma base64_sextet_char n : (n < 64)%N → base64_sextet (base64_char n) = Some n.
Proof. apply (λ H, N_below_check (λ n, base64_sextet (base64_char n) = Some n) 64 n H). vm_compute. reflexivity. Qed.

Lemma skip_newlines_char n s :
  (n < 64)%N → skip_newlines (String (base64_char n) s) = String (base64_char n) (skip_newlines s).
Proof.
  intros Hn. cbn. rewrite bool_decide_false //. revert Hn.
  apply (λ H, N_below_check (λ n, ¬ (base64_char n = "010"%char ∨ base64_char n = "013"%char)) 64 n H).
  vm_compute. reflexivity.
Qed.

Lemma group_sextet_lt v i : (group_sextet v i < 64)%N.
Proof. apply N.mod_lt. lia. Qed.

Lemma byte_N_lt c : (byte_N c < 256)%N.
Proof. apply N_ascii_bounded. Qed.

Lemma bytes_group_lt a b c : (bytes_group a b c < 2 ^ 24)%N.
Proof. unfold bytes_group. pose proof (byte_N_lt a). pose proof (byte_N_lt b). pose proof (byte_N_lt c). lia. Qed.

(** A 24-bit number is its four sextets. *)
Lemma sextets_group_sextets v :
  (v < 2 ^ 24)%N →
  sextets_group (group_sextet v 0) (group_sextet v 1) (group_sextet v 2) (group_sextet v 3) = v.
Proof.
  unfold sextets_group, group_sextet. intros Hv.
  change (2 ^ (6 * (3 - 0)))%N with 262144%N. change (2 ^ (6 * (3 - 1)))%N with 4096%N.
  change (2 ^ (6 * (3 - 2)))%N with 64%N. change (2 ^ (6 * (3 - 3)))%N with 1%N.
  change (2 ^ 18)%N with 262144%N. change (2 ^ 12)%N with 4096%N. change (2 ^ 6)%N with 64%N.
  change (2 ^ 24)%N with 16777216%N in Hv.
  zify. Z.to_euclidean_division_equations. lia.
Qed.

(** ... and its three bytes. *)
Lemma group_byte_bytes a b c :
  group_byte (bytes_group a b c) 0 = a ∧ group_byte (bytes_group a b c) 1 = b ∧
  group_byte (bytes_group a b c) 2 = c.
Proof.
  unfold group_byte, bytes_group.
  pose proof (byte_N_lt a). pose proof (byte_N_lt b). pose proof (byte_N_lt c).
  change (2 ^ (8 * (2 - 0)))%N with 65536%N. change (2 ^ (8 * (2 - 1)))%N with 256%N.
  change (2 ^ (8 * (2 - 2)))%N with 1%N. change (2 ^ 16)%N with 65536%N. change (2 ^ 8)%N with 256%N.
  split_and!; (etrans; [|apply ascii_N_embedding]); f_equal;
    change (N_of_ascii ?x) with (byte_N x); zify; Z.to_euclidean_division_equations; lia.
Qed.

(** The sextets of a partial group that are not written are zero. *)
Lemma partial_sextets a b :
  group_sextet (bytes_group a zero zero) 2 = 0%N ∧ group_sextet (bytes_group a zero zero) 3 = 0%N ∧
  group_sextet (bytes_group a b zero) 3 = 0%N.
Proof.
  unfold group_sextet, bytes_group. change (byte_N zero) with 0%N.
  change (2 ^ (6 * (3 - 2)))%N with 64%N. change (2 ^ (6 * (3 - 3)))%N with 1%N.
  change (2 ^ 16)%N with 65536%N. change (2 ^ 8)%N with 256%N.
  split_and!; zify; Z.to_euclidean_division_equations; lia.
Qed.

Lemma partial_group a b :
  (let v := bytes_group a zero zero in sextets_group (group_sextet v 0) (group_sextet v 1) 0 0 = v) ∧
  (let v := bytes_group a b zero in
   sextets_group (group_sextet v 0) (group_sextet v 1) (group_sextet v 2) 0 = v).
Proof.
  cbn zeta. destruct (partial_sextets a b) as (E2&E3&E3').
  pose proof (sextets_group_sextets _ (bytes_group_lt a zero zero)) as H1.
  pose proof (sextets_group_sextets _ (bytes_group_lt a b zero)) as H2.
  rewrite E2 E3 in H1. by rewrite E3' in H2.
Qed.

Lemma base64_quanta_Encode s : base64_quanta (skip_newlines (EncodeToString s)) = Ok s.
Proof.
  revert s. fix IH 1. intros [|a [|b [|c s]]]; [done|..]; cbn [EncodeToString].
  - rewrite !skip_newlines_char; try apply group_sextet_lt. cbn -[base64_char group_sextet group_byte].
    rewrite !base64_sextet_char; try apply group_sextet_lt. cbn -[group_byte].
    rewrite (proj1 (partial_group a zero)).
    by rewrite (proj1 (group_byte_bytes _ _ _)).
  - rewrite !skip_newlines_char; try apply group_sextet_lt. cbn -[base64_char group_sextet group_byte].
    rewrite !base64_sextet_char; try apply group_sextet_lt. cbn -[group_byte].
    rewrite (proj2 (partial_group a b)).
    destruct (group_byte_bytes a b zero) as (->&->&_). done.
  - rewrite !skip_newlines_char; try apply group_sextet_lt. cbn -[base64_char group_sextet group_byte].
    rewrite !base64_sextet_char; try apply group_sextet_lt. cbn -[group_byte].
    rewrite IH sextets_group_sextets; [apply bytes_group_lt|].
    destruct (group_byte_bytes a b c) as (->&->&->). done.
Qed.

Lemma DecodeString_EncodeToString s : DecodeString (EncodeToString s) = Ok s.
Proof. apply base64_quanta_Encode. Qed.

(** Decoding fails with an error, it never panics; and what it yields is three
    quarters of the text at most. *)
Lemma base64_quanta_no_panic s p : base64_quanta s ≠ Panic p.
Proof.
  revert s. fix IH 1. intros [|c1 [|c2 [|c3 [|c4 s]]]]; cbn; try done.
  repeat (case_match; try done). intros [?|(?&?&?)]%res_bind_Panic; [by eapply IH|done].
Qed.

Lemma base64_quanta_length s out :
  base64_quanta s = Ok out → (4 * String.length out ≤ 3 * String.length s)%nat.
Proof.
  revert s out. fix IH 1. intros [|c1 [|c2 [|c3 [|c4 s]]]] out; cbn; try done.
  { intros [= <-]. done. }
  repeat (case_match; try done).
  - intros (out'&H'%IH&[= <-])%res_bind_Ok. cbn. lia.
  - intros [= <-]. cbn. lia.
  - intros [= <-]. cbn. lia.
Qed.

(** ** Loading a secret key *)

Lemma SecretKeyConfig_Validate_no_panic s p : SecretKeyConfig_Validate s ≠ Panic p.
Proof.
  destruct s as [s|]; [|done]. unfold SecretKeyConfig_Validate. destruct (sk_Encoding s) as [s0|]; [|done].
  destruct (SecretKeyValidators !! ToLower s0) eqn:E; [|done].
  unfold SecretKeyValidators in E. apply lookup_singleton_Some in E as [_ <-]. unfold validateBase64Value.
  repeat case_match; done.
Qed.

Lemma SecretKeyConfig_Validate_spec s :
  SecretKeyConfig_Validate (Some s) = Ok () ↔
  ∃ enc v key, sk_Encoding s = Some enc ∧ ToLower enc = SecretKeyEncodingBase64 ∧
    sk_Value s = Some v ∧ DecodeString (ss_s v) = Ok key.
Proof.
  unfold SecretKeyConfig_Validate. destruct (sk_Encoding s) as [enc|]; [|naive_solver].
  unfold SecretKeyValidators. destruct (decide (ToLower enc = SecretKeyEncodingBase64)) as [E|E].
  - rewrite E lookup_singleton_eq. unfold validateBase64Value.
    destruct (sk_Value s) as [v|]; [|by split; [|intros (?&?&?&_&_&?&_)]].
    destruct (DecodeString (ss_s v)) eqn:Hd; split; try done; [by eauto 10|..];
      intros (?&?&?&?&?&?&?); congruence.
  - rewrite lookup_singleton_ne //. split; [done|]. intros (?&?&?&?&?&_). congruence.
Qed.

(** A secret key is loaded exactly when the configuration names the base64
    encoding, in any case, and its value decodes; the key is what it decodes to.
    In particular the key an operator encoded is the key that is loaded. *)
Theorem MakeSecretKey_spec cfg k :
  (MakeSecretKey cfg = Ok k ↔
   ∃ s enc v key, cfg = Some s ∧ sk_Encoding s = Some enc ∧ ToLower enc = SecretKeyEncodingBase64 ∧
     sk_Value s = Some v ∧ DecodeString (ss_s v) = Ok key ∧ k = NewSensitiveString key) ∧
  (∀ key, DecodeString (EncodeToString key) = Ok key).
Proof.
  split; [|apply DecodeString_EncodeToString].
  destruct cfg as [s|]; [|naive_solver]. cbn [MakeSecretKey]. split.
  - intros ([]&(enc&v&key&He&Hl&Hv&Hd)%SecretKeyConfig_Validate_spec&Hk)%res_bind_Ok.
    rewrite He in Hk. cbn in Hk. unfold SecretKeyReader in Hk. rewrite Hl lookup_singleton_eq in Hk.
    unfold readBase64Value in Hk. rewrite Hv in Hk. cbn in Hk. rewrite Hd in Hk. naive_solver.
  - intros (?&enc&v&key&[= <-]&He&Hl&Hv&Hd&->).
    apply res_bind_Ok. exists (). split; [apply SecretKeyConfig_Validate_spec; eauto 10|].
    rewrite He. cbn. unfold SecretKeyReader. rewrite Hl lookup_singleton_eq.
    unfold readBase64Value. rewrite Hv. cbn. by rewrite Hd.
Qed.

(** Loading never panics: a validated configuration has everything the reader
    dereferences. *)
Lemma MakeSecretKey_no_panic cfg p : MakeSecretKey cfg ≠ Panic p.
Proof.
  destruct cfg as [s|]; [|done]. cbn [MakeSecretKey]. intros [H|([]&H&Hp)]%res_bind_Panic.
  { by apply SecretKeyConfig_Validate_no_panic in H. }
  apply SecretKeyConfig_Validate_spec in H as (enc&v&key&He&Hl&Hv&Hd).
  rewrite He in Hp. cbn in Hp. unfold SecretKeyReader in Hp. rewrite Hl lookup_singleton_eq in Hp.
  unfold readBase64Value in Hp. rewrite Hv in Hp. cbn in Hp. by rewrite Hd in Hp.
Qed.

(** What is printed, logged or marshalled does not depend on the secret. *)
Lemma SensitiveString_String_hides s s' r json_Marshal :
  SensitiveString_String (mkSensitiveString s r) = SensitiveString_String (mkSensitiveString s' r) ∧
  SensitiveString_MarshalYAML (mkSensitiveString s r) = SensitiveString_MarshalYAML (mkSensitiveString s' r) ∧
  SensitiveString_MarshalJSON json_Marshal (mkSensitiveString s r) =
    SensitiveString_MarshalJSON json_Marshal (mkSensitiveString s' r).
Proof. done. Qed.

Example MakeSecretKey_example :
  MakeSecretKey (Some (mkSecretKeyConfig (Some "BASE64") None None None
    (Some (NewSensitiveString "c3lzbC1nbw==")))) = Ok (NewSensitiveString "sysl-go").
Proof. vm_compute. reflexivity. Qed.
