(* ===== verification/TlsConfig.v ===== *)
(** * TLS configuration: src/config/tls.go, and its users in grpc.go and http.go

    Validation of the configuration and construction of a [tls.Config] from it.
    The file system is an argument; certificates, PEM and PKCS#12 decoding
    are parameters. *)

From S2P Require Export Secrets.

(** ** path/filepath: [Join] of a directory and a file name, on Unix *)

(** [Clean]: the stack of path elements, last one first. *)
Definition clean_push (rooted : bool) (stack : list string) (e : string) : list string :=
  if bool_decide (e = "" ∨ e = ".") then stack
  else if bool_decide (e = "..") then
    match stack with
    | [] => if rooted then [] else [".."]
    | top :: rest => if bool_decide (top = "..") then ".." :: stack else rest
    end
  else e :: stack.

Definition Clean (path : string) : string :=
  let rooted := HasPrefix path "/" in
  let out := Join (rev (foldl (clean_push rooted) [] (Split "/" path))) "/" in
  if rooted then "/" +:+ out else if bool_decide (out = "") then "." else out.

Definition filepath_Join (dir name : string) : string :=
  match dir, name with
  | "", "" => ""
  | "", _ => Clean name
  | _, "" => Clean dir
  | _, _ => Clean (dir +:+ "/" +:+ name)
  end.

(** ** The tables (tls.go) *)

Definition cipherSuites : gmap string Z := list_to_map [
  ("TLS_RSA_WITH_RC4_128_SHA", 0x0005%Z);
  ("TLS_RSA_WITH_3DES_EDE_CBC_SHA", 0x000a%Z);
  ("TLS_RSA_WITH_AES_128_CBC_SHA", 0x002f%Z);
  ("TLS_RSA_WITH_AES_256_CBC_SHA", 0x0035%Z);
  ("TLS_RSA_WITH_AES_128_CBC_SHA256", 0x003c%Z);
  ("TLS_RSA_WITH_AES_128_GCM_SHA256", 0x009c%Z);
  ("TLS_RSA_WITH_AES_256_GCM_SHA384", 0x009d%Z);
  ("TLS_ECDHE_ECDSA_WITH_RC4_128_SHA", 0xc007%Z);
  ("TLS_ECDHE_ECDSA_WITH_AES_128_CBC_SHA", 0xc009%Z);
  ("TLS_ECDHE_ECDSA_WITH_AES_256_CBC_SHA", 0xc00a%Z);
  ("TLS_ECDHE_RSA_WITH_RC4_128_SHA", 0xc011%Z);
  ("TLS_ECDHE_RSA_WITH_3DES_EDE_CBC_SHA", 0xc012%Z);
  ("TLS_ECDHE_RSA_WITH_AES_128_CBC_SHA", 0xc013%Z);
  ("TLS_ECDHE_RSA_WITH_AES_256_CBC_SHA", 0xc014%Z);
  ("TLS_ECDHE_ECDSA_WITH_AES_128_CBC_SHA256", 0xc023%Z);
  ("TLS_ECDHE_RSA_WITH_AES_128_CBC_SHA256", 0xc027%Z);
  ("TLS_ECDHE_RSA_WITH_AES_128_GCM_SHA256", 0xc02f%Z);
  ("TLS_ECDHE_ECDSA_WITH_AES_128_GCM_SHA256", 0xc02b%Z);
  ("TLS_ECDHE_RSA_WITH_AES_256_GCM_SHA384", 0xc030%Z);
  ("TLS_ECDHE_ECDSA_WITH_AES_256_GCM_SHA384", 0xc02c%Z);
  ("TLS_ECDHE_RSA_WITH_CHACHA20_POLY1305", 0xcca8%Z);
  ("TLS_ECDHE_ECDSA_WITH_CHACHA20_POLY1305", 0xcca9%Z);
  ("TLS_AES_128_GCM_SHA256", 0x1301%Z);
  ("TLS_AES_256_GCM_SHA384", 0x1302%Z);
  ("TLS_CHACHA20_POLY1305_SHA256", 0x1303%Z);
  ("TLS_FALLBACK_SCSV", 0x5600%Z)].

Definition tlsVersions : gmap string Z := list_to_map [
  ("1.0", 0x0301%Z); ("1.1", 0x0302%Z); ("1.2", 0x0303%Z); ("1.3", 0x0304%Z)].

Definition NoClientCert : Z := 0.
Definition clientAuthTypes : gmap string Z := list_to_map [
  ("NoClientCert", NoClientCert);
  ("RequestClientCert", 1%Z);
  ("RequireAnyClientCert", 2%Z);
  ("VerifyClientCertIfGiven", 3%Z);
  ("RequireAndVerifyClientCert", 4%Z)].

Definition renegotiationSupportTypes : gmap string Z := list_to_map [
  ("renegotiatenever", 0%Z);
  ("renegotiateonceasclient", 1%Z);
  ("renegotiatefreelyasclient", 2%Z)].

Definition DIRMODE : string := "directory".
Definition FILEMODE : string := "file".
Definition SYSMODE : string := "system".
Definition PEM : string := "pem".
Definition PKCS12 : string := "pkcs12".

(** ** Versions, ciphers, client authentication, renegotiation *)

Definition tls_version (p : option string) (msg : string) : res Z :=
  match p with
  | None => Ok 0%Z
  | Some v => match tlsVersions !! v with Some n => Ok n | None => Err (ErrText (msg +:+ v)) end
  end.

Definition TLSVersions (cfg : TLSConfig) : res (Z * Z) :=
  min ← tls_version (tls_MinVersion cfg) "invalid TLSMin config: ";
  max ← tls_version (tls_MaxVersion cfg) "invalid TLSMax config: ";
  if bool_decide (max < min)%Z then Err (ErrText "invalid TLS version config")
  else Ok (min, max).

Definition TLSCiphers (cfg : TLSConfig) : res (list Z) :=
  if bool_decide (size cipherSuites < length (tls_Ciphers cfg))%nat then
    Err (ErrText "TLS cipher suite configuration contains more ciphers than the number of known ciphers")
  else
    mapM_res (λ cipher, match cipherSuites !! cipher with
      | Some c => Ok c
      | None => Err (ErrText ("unknown TLS cipher suite: " +:+ cipher))
      end) (tls_Ciphers cfg).

Definition TLSClientAuth (cfg : TLSConfig) : res Z :=
  auth ← deref (tls_ClientAuth cfg);
  match clientAuthTypes !! auth with
  | Some policy => Ok policy
  | None => Err (ErrText ("invalid client authentication policy: " +:+ auth))
  end.

Definition TLSRenegotiationSupport (cfg : TLSConfig) : res Z :=
  r ← deref (tls_Renegotiation cfg);
  match renegotiationSupportTypes !! ToLower r with
  | Some policy => Ok policy
  | None => Err (ErrText ("renegotiation policy is invalid, expected value is one item in [renegotiatefreelyasclient renegotiatenever renegotiateonceasclient], but got: " +:+ r))
  end.

(** ** Certificates: the cryptographic libraries *)

Class Crypto := {
  Cert : Type;                       (* an *x509.Certificate *)
  Certificate : Type;                (* a tls.Certificate: a chain with its key *)
  PrivateKey : Type;
  LoadX509KeyPair : string → string → error + Certificate; (* of the contents of two files *)
  MakeCertificate : PrivateKey → Cert → list Cert → Certificate;
  pem_certs : string → list Cert;    (* the certificates AppendCertsFromPEM finds *)
  DecodeChain : string → string → error + (PrivateKey * Cert * list Cert) (* pkcs12 *)
}.

(** What the code reads of the machine it runs on. *)
Record Machine `{Crypto} := mkMachine {
  ReadFile : string → error + string;
  ReadDir : string → error + list (string * bool); (* name, IsDir *)
  GOOS : string;
  SystemCertPool : error + list Cert
}.

(** [tls.Config], the fields the code sets. A pool is the certificates in it. *)
Record tls_Config `{Crypto} := mk_tls_Config {
  tc_MinVersion : Z;
  tc_MaxVersion : Z;
  tc_CipherSuites : list Z;
  tc_PreferServerCipherSuites : bool;
  tc_Certificates : list Certificate;
  tc_ClientCAs : option (list Cert);
  tc_ClientAuth : Z;
  tc_RootCAs : option (list Cert);
  tc_InsecureSkipVerify : bool;
  tc_Renegotiation : Z
}.

Arguments mkMachine {_} _ _ _ _.
Arguments mk_tls_Config {_} _ _ _ _ _ _ _ _ _ _.

Definition err_res {A} (x : error + A) : res A := match x with inl e => Err e | inr a => Ok a end.

Section certificates.
Context `{Crypto} (m : Machine).

(** One iteration of the loop of [OurIdentityCertificates]: [None] when the
    identity contributes no certificate. *)
Definition identity_certificate (identity : option ServerIdentityConfig) : res (option Certificate) :=
  match identity with
  | None => Ok None
  | Some identity =>
    match si_CertKeyPair identity, si_PKCS12Store identity with
    | Some kp, _ =>
        certPath ← deref (ckp_CertPath kp);
        keyPath ← deref (ckp_KeyPath kp);
        certPEM ← err_res (ReadFile m certPath);
        keyPEM ← err_res (ReadFile m keyPath);
        cert ← err_res (LoadX509KeyPair certPEM keyPEM);
        Ok (Some cert)
    | None, Some store =>
        password ← SensitiveString_Value (p12_Password store);
        pass ← DecodeString password;
        path ← deref (p12_Path store);
        p12bytes ← err_res (ReadFile m path);
        '(privKey, cert, caCerts) ← err_res (DecodeChain p12bytes pass);
        Ok (Some (MakeCertificate privKey cert caCerts))
    | None, None => Ok None
    end
  end.

Fixpoint identity_certificates (ids : list (option ServerIdentityConfig)) : res (list Certificate) :=
  match ids with
  | [] => Ok []
  | id :: ids =>
      c ← identity_certificate id;
      cs ← identity_certificates ids;
      Ok (option_list c ++ cs)
  end.

Definition OurIdentityCertificates (cfg : TLSConfig) : res (list Certificate) :=
  if bool_decide (length (tls_ServerIdentities cfg) = 0)%nat then Ok []
  else identity_certificates (tls_ServerIdentities cfg).

(** The paths of the entries of a directory that are not directories. *)
Definition files_in (path : string) (fileInfo : list (string * bool)) : list string :=
  (λ f, filepath_Join path f.1) <$> filter (λ f : string * bool, f.2 = false) fileInfo.

Definition findCertsFromPath (cfg : TrustedCertPoolConfig) : res (list string) :=
  mode ← deref (tcp_Mode cfg);
  if bool_decide (ToLower mode = DIRMODE) then
    path ← deref (tcp_Path cfg);
    fileInfo ← err_res (ReadDir m path);
    Ok (files_in path fileInfo)
  else if bool_decide (ToLower mode = FILEMODE) then
    path ← deref (tcp_Path cfg); Ok [path]
  else Err (ErrText ("unknown or missing mode: " +:+ mode +:+ ". Valid modes are directory & file")).

(** The loop over the files: the certificates of one file, or none when the
    file cannot be read or has none; then [failedCerts] grows. *)
Record pool_state := mk_pool_state {
  ps_pool : list Cert;
  ps_failedCerts : list string;
  ps_addedCerts : bool
}.

Definition add_file (certs : string → option (list Cert)) (s : pool_state) (file : string) : pool_state :=
  match certs file with
  | None => mk_pool_state (ps_pool s) (ps_failedCerts s ++ [file]) (ps_addedCerts s)
  | Some cs => mk_pool_state (ps_pool s ++ cs) (ps_failedCerts s) true
  end.

Definition pool_of_files (certs : string → option (list Cert)) (files : list string) : res (list Cert) :=
  let s := foldl (add_file certs) (mk_pool_state [] [] false) files in
  if bool_decide (ps_failedCerts s ≠ []) && negb (ps_addedCerts s) then
    Err (ErrText "failed to append any certificates to the RootCA")
  else Ok (ps_pool s).

Definition pem_file_certs (file : string) : option (list Cert) :=
  match ReadFile m file with
  | inl _ => None
  | inr bytes => match pem_certs bytes with [] => None | cs => Some cs end
  end.

Definition pkcs12_file_certs (pass file : string) : option (list Cert) :=
  match ReadFile m file with
  | inl _ => None
  | inr bytes =>
    match DecodeChain bytes pass with
    | inl _ => None
    | inr (_, cert, caCerts) => Some (cert :: caCerts)
    end
  end.

Definition buildPoolFromPEM (cfg : TrustedCertPoolConfig) : res (list Cert) :=
  files ← findCertsFromPath cfg; pool_of_files pem_file_certs files.

Definition buildPoolFromPKCS12 (cfg : TrustedCertPoolConfig) : res (list Cert) :=
  password ← deref (tcp_Password cfg);
  pass ← DecodeString (ss_s password);
  files ← findCertsFromPath cfg;
  pool_of_files (pkcs12_file_certs pass) files.

Definition CertPoolEncodingTypes : gmap string (TrustedCertPoolConfig → res (list Cert)) :=
  <[PEM := buildPoolFromPEM]> {[ PKCS12 := buildPoolFromPKCS12 ]}.

Definition buildPool (cfg : TrustedCertPoolConfig) : res (list Cert) :=
  encoding ← deref (tcp_Encoding cfg);
  match CertPoolEncodingTypes !! ToLower encoding with
  | None => Err (ErrText ("unrecognised certificate encoding: " +:+ encoding))
  | Some buildPoolFn => buildPoolFn cfg
  end.

Definition system_pool : res (option (list Cert)) :=
  if bool_decide (GOOS m = "windows") then Ok None
  else pool ← err_res (SystemCertPool m); Ok (Some pool).

Definition GetTrustedCAs (cfg : TLSConfig) : res (option (list Cert)) :=
  match tls_TrustedCertPool cfg with
  | Some p =>
      mode ← deref (tcp_Mode p);
      if bool_decide (mode ≠ SYSMODE) then pool ← buildPool p; Ok (Some pool)
      else system_pool
  | None => system_pool
  end.

Definition makeSelfSignedTLSConfig (cfg : TLSConfig) : res tls_Config :=
  '(tlsMin, tlsMax) ← TLSVersions cfg;
  certs ← OurIdentityCertificates cfg;
  Ok (mk_tls_Config tlsMin tlsMax [] false certs None NoClientCert None false 0).

Definition MakeTLSConfig (cfg : option TLSConfig) : res (option tls_Config) :=
  match cfg with
  | None => Ok None
  | Some cfg =>
    if tls_InsecureSkipVerify cfg then
      Ok (Some (mk_tls_Config 0 0 [] false [] None NoClientCert None true 0))
    else if tls_SelfSigned cfg then Some <$> makeSelfSignedTLSConfig cfg
    else
      trustedCAs ← GetTrustedCAs cfg;
      '(tlsMin, tlsMax) ← TLSVersions cfg;
      ciphers ← TLSCiphers cfg;
      policy ← TLSClientAuth cfg;
      certs ← OurIdentityCertificates cfg;
      renegotiation ← TLSRenegotiationSupport cfg;
      Ok (Some (mk_tls_Config tlsMin tlsMax ciphers true certs trustedCAs policy trustedCAs
                  (tls_InsecureSkipVerify cfg) renegotiation))
  end.
End certificates.

#[global] Arguments CertPoolEncodingTypes : simpl never.
#[global] Arguments cipherSuites : simpl never.
#[global] Arguments tlsVersions : simpl never.
#[global] Arguments clientAuthTypes : simpl never.
#[global] Arguments renegotiationSupportTypes : simpl never.

(** ** Validation *)

#[export] Instance SensitiveString_eq_dec : EqDecision SensitiveString.
Proof. solve_decision. Defined.
#[export] Instance CertKeyPair_eq_dec : EqDecision CertKeyPair.
Proof. solve_decision. Defined.
#[export] Instance Pkcs12Store_eq_dec : EqDecision Pkcs12Store.
Proof. solve_decision. Defined.
#[export] Instance ServerIdentityConfig_eq_dec : EqDecision ServerIdentityConfig.
Proof. solve_decision. Defined.
#[export] Instance TrustedCertPoolConfig_eq_dec : EqDecision TrustedCertPoolConfig.
Proof. solve_decision. Defined.
#[export] Instance TLSConfig_eq_dec : EqDecision TLSConfig.
Proof. solve_decision. Defined.

Definition zero_TLSConfig : TLSConfig := mkTLSConfig None None None [] [] None false false None.

Definition CertKeyPair_validate (c : CertKeyPair) : option error :=
  match ckp_KeyPath c, ckp_CertPath c with
  | None, _ => Some (ErrText "keyPath must be set")
  | _, None => Some (ErrText "certPath must be set")
  | _, _ => None
  end.

Definition Pkcs12Store_validate (p : Pkcs12Store) : option error :=
  match p12_Path p, p12_Password p with
  | None, _ => Some (ErrText "path must be set")
  | _, None => Some (ErrText "password must be set")
  | _, _ => None
  end.

Definition ServerIdentityConfig_validate (b : ServerIdentityConfig) : option error :=
  match si_PKCS12Store b, si_CertKeyPair b with
  | Some _, Some _ | None, None => Some (ErrText "p12Store/certKeyPair: only one may be configured")
  | None, Some c => ErrWrap "certKeyPair." <$> CertKeyPair_validate c
  | Some p, None => ErrWrap "p12Store." <$> Pkcs12Store_validate p
  end.

(** [validate] lower-cases the mode and the encoding in place, also when it
    then fails. *)
Definition TrustedCertPoolConfig_validate (t : TrustedCertPoolConfig) :
    TrustedCertPoolConfig * option error :=
  match tcp_Mode t with
  | None => (t, Some (ErrText "mode config missing"))
  | Some mode =>
    let t := mkTrustedCertPoolConfig (Some (ToLower mode)) (tcp_Encoding t) (tcp_Path t) (tcp_Password t) in
    if bool_decide (ToLower mode = SYSMODE) then (t, None)
    else
      match tcp_Path t with
      | None => (t, Some (ErrText "path config missing"))
      | Some _ =>
        match tcp_Encoding t with
        | None => (t, Some (ErrText "encoding missing"))
        | Some encoding =>
          let e := ToLower encoding in
          let t := mkTrustedCertPoolConfig (tcp_Mode t) (Some e) (tcp_Path t) (tcp_Password t) in
          if bool_decide (e = PKCS12 ∧ tcp_Password t = None) then
            (t, Some (ErrText "password config missing. Must be provided if the encoding config provided is type of pkcs12"))
          else if bool_decide (e = PEM ∨ e = PKCS12) then (t, None)
          else (t, Some (ErrText ("encoding " +:+ e +:+ " is not of valid encoding types")))
        end
      end
  end.

(** The loop over [t.ServerIdentities]. *)
Definition identity_validate (identity : option ServerIdentityConfig) : option error :=
  match identity with
  | None => Some (ErrText "config missing")
  | Some identity => ServerIdentityConfig_validate identity
  end.

(** A check whose failure ends [Validate]: [if !ok { return fmt.Errorf(msg) }]. *)
Definition check (ok : bool) (msg : string) (rest : option error) : option error :=
  if ok then rest else Some (ErrText msg).

(** ... and one of a pointer that must not be nil. *)
Definition check_set {A} (p : option A) (msg : string) (rest : A → option error) : option error :=
  match p with None => Some (ErrText msg) | Some a => rest a end.

(** Everything [Validate] checks before the trusted certificate pool. *)
Definition TLSConfig_checks (t : TLSConfig) : option error :=
  check (negb (bool_decide (t = zero_TLSConfig))) "config missing" (
  check_set (tls_ClientAuth t) "clientAuth config missing" (λ auth,
  check (bool_decide (is_Some (clientAuthTypes !! auth)))
    "clientAuth: client authentication policy must be set if TLS is in use" (
  check_set (tls_MinVersion t) "min config missing" (λ min,
  check (bool_decide (is_Some (tlsVersions !! min))) "min: TLS version not recognized" (
  check_set (tls_MaxVersion t) "max config missing" (λ max,
  check (bool_decide (is_Some (tlsVersions !! max))) "max: TLS version not recognized" (
  check (bool_decide (filter (λ cs, cipherSuites !! cs = None) (tls_Ciphers t) = []))
    "ciphers: not valid" (
  check_set (tls_Renegotiation t) "renegotiation config missing" (λ ren,
  check (bool_decide (is_Some (renegotiationSupportTypes !! ToLower ren)))
    "renegotiation policy is invalid" (
  check (negb (bool_decide (tls_ServerIdentities t = []))) "serverIdentities config missing" (
  range_err (λ id, ErrWrap "serverIdentity" <$> identity_validate id)
    (tls_ServerIdentities t)))))))))))).

Definition set_TrustedCertPool (t : TLSConfig) (p : TrustedCertPoolConfig) : TLSConfig :=
  mkTLSConfig (tls_MinVersion t) (tls_MaxVersion t) (tls_ClientAuth t) (tls_Ciphers t)
    (tls_ServerIdentities t) (Some p) (tls_InsecureSkipVerify t) (tls_SelfSigned t) (tls_Renegotiation t).

(** [(t *TLSConfig) Validate()]: the configuration it leaves behind and its error. *)
Definition TLSConfig_Validate (t : TLSConfig) : TLSConfig * option error :=
  match TLSConfig_checks t with
  | Some err => (t, Some err)
  | None =>
    match tls_TrustedCertPool t with
    | None => (t, Some (ErrText "trustedCertPool config missing"))
    | Some p =>
        let '(p', err) := TrustedCertPoolConfig_validate p in
        (set_TrustedCertPool t p', ErrWrap "trustedCertPool." <$> err)
    end
  end.

Definition TLSConfig_Validate_ptr (t : option TLSConfig) : option TLSConfig * option error :=
  match t with
  | None => (None, None)
  | Some t => let '(t', err) := TLSConfig_Validate t in (Some t', err)
  end.

(** ** What a valid configuration is *)

Definition valid_identity (id : option ServerIdentityConfig) : Prop :=
  (∃ c k, id = Some (mkServerIdentityConfig (Some (mkCertKeyPair (Some c) (Some k))) None)) ∨
  (∃ path pw, id = Some (mkServerIdentityConfig None (Some (mkPkcs12Store (Some path) (Some pw))))).

Definition valid_pool (p : TrustedCertPoolConfig) : Prop :=
  ∃ mode, tcp_Mode p = Some mode ∧
    (ToLower mode = SYSMODE ∨
     is_Some (tcp_Path p) ∧ ∃ e, tcp_Encoding p = Some e ∧
       (ToLower e = PEM ∨ ToLower e = PKCS12 ∧ is_Some (tcp_Password p))).

Definition known {A} (table : gmap string A) (p : option string) : Prop :=
  ∃ k, p = Some k ∧ is_Some (table !! k).

Record valid_tls (t : TLSConfig) : Prop := mk_valid_tls {
  vt_auth : known clientAuthTypes (tls_ClientAuth t);
  vt_min : known tlsVersions (tls_MinVersion t);
  vt_max : known tlsVersions (tls_MaxVersion t);
  vt_ciphers : Forall (λ c, is_Some (cipherSuites !! c)) (tls_Ciphers t);
  vt_renegotiation : known renegotiationSupportTypes (ToLower <$> tls_Renegotiation t);
  vt_identities : tls_ServerIdentities t ≠ [] ∧ Forall valid_identity (tls_ServerIdentities t);
  vt_pool : ∃ p, tls_TrustedCertPool t = Some p ∧ valid_pool p
}.

Lemma check_None b msg rest : check b msg rest = None ↔ b = true ∧ rest = None.
Proof. destruct b; cbn; naive_solver. Qed.
Lemma check_set_None {A} (p : option A) msg rest :
  check_set p msg rest = None ↔ ∃ a, p = Some a ∧ rest a = None.
Proof. destruct p; cbn; naive_solver. Qed.

Lemma identity_validate_spec id : identity_validate id = None ↔ valid_identity id.
Proof.
  unfold valid_identity. destruct id as [[[[[c|] [k|]]|] [[[path|] [pw|]]|]]|]; cbn; naive_solver.
Qed.

Lemma TrustedCertPoolConfig_validate_spec p :
  (TrustedCertPoolConfig_validate p).2 = None ↔ valid_pool p.
Proof.
  unfold TrustedCertPoolConfig_validate, valid_pool.
  destruct p as [[mode|] enc path pw]; cbn; [|naive_solver].
  case_bool_decide as Hm; cbn; [naive_solver|].
  destruct path as [path|]; cbn; [|split; [done|]; intros (?&[= <-]&[?|[[? ?] ?]]); done].
  destruct enc as [e|]; cbn; [|split; [done|]; intros (?&[= <-]&[?|[? (?&?&?)]]); done].
  assert (PEM ≠ PKCS12) by done.
  case_bool_decide as Hp; cbn.
  { split; [done|]. intros (?&[= <-]&[?|[_ (?&[= <-]&[?|[? [??]]])]]); [done|..]; destruct Hp; congruence. }
  case_bool_decide as He; cbn.
  - split; [|done]. intros _. exists mode. split; [done|]. right. split; [by eexists|]. exists e.
    split; [done|]. destruct He as [|He]; [by left|]. right. split; [done|].
    destruct pw; [by eexists|]. by destruct Hp.
  - split; [done|]. intros (?&[= <-]&[?|[_ (?&[= <-]&[?|[? _]])]]); [done|destruct He; auto..].
Qed.

Lemma TLSConfig_checks_spec t :
  TLSConfig_checks t = None ↔
    known clientAuthTypes (tls_ClientAuth t) ∧ known tlsVersions (tls_MinVersion t) ∧
    known tlsVersions (tls_MaxVersion t) ∧ Forall (λ c, is_Some (cipherSuites !! c)) (tls_Ciphers t) ∧
    known renegotiationSupportTypes (ToLower <$> tls_Renegotiation t) ∧
    tls_ServerIdentities t ≠ [] ∧ Forall valid_identity (tls_ServerIdentities t).
Proof.
  assert (∀ l, filter (λ cs, cipherSuites !! cs = None) l = [] ↔
               Forall (λ c, is_Some (cipherSuites !! c)) l) as Hc.
  { intros l. rewrite filter_is_nil. apply list.Forall_iff. intros c. apply not_eq_None_Some. }
  assert (∀ l, range_err (λ id, ErrWrap "serverIdentity" <$> identity_validate id) l = None ↔
               Forall valid_identity l) as Hi.
  { intros l. rewrite range_err_None. apply list.Forall_iff. intros id.
    by rewrite fmap_None identity_validate_spec. }
  unfold TLSConfig_checks, known. split.
  - intros H. repeat (apply check_None in H as [? H] || apply check_set_None in H as (?&?&H)).
    boolprop. rewrite ->Hc, ->Hi in *. split_and!; eauto.
    match goal with H : tls_Renegotiation t = Some ?r |- _ => exists (ToLower r); rewrite H; eauto end.
  - intros ((auth&Ha&?)&(min&?&?)&(max&?&?)&?&(ren&Hr&?)&?&?).
    apply fmap_Some in Hr as (ren'&?&->).
    apply check_None; split. { rewrite bool_decide_false //. intros ->. done. }
    repeat (apply check_None; split; [by rewrite bool_decide_true // Hc
                                     |] || (apply check_set_None; eexists; split; [eassumption|])).
    apply check_None; split; [by rewrite bool_decide_false|]. by apply Hi.
Qed.

(** Validation accepts exactly the configurations with a known client
    authentication policy, known versions and ciphers, a known renegotiation
    policy, at least one identity, each identity a complete key pair or a
    complete PKCS#12 store and not both, and a complete pool of trusted
    certificates. *)
Theorem TLSConfig_Validate_spec t : (TLSConfig_Validate t).2 = None ↔ valid_tls t.
Proof.
  unfold TLSConfig_Validate. destruct (TLSConfig_checks t) eqn:Hchecks.
  - split; [done|]. intros []. assert (TLSConfig_checks t = None); [|congruence].
    apply TLSConfig_checks_spec. naive_solver.
  - apply TLSConfig_checks_spec in Hchecks as (?&?&?&?&?&?&?).
    destruct (tls_TrustedCertPool t) as [p|] eqn:Hp; cycle 1.
    { split; [done|]. intros [_ _ _ _ _ _ (?&?&_)]. congruence. }
    pose proof (TrustedCertPoolConfig_validate_spec p) as Hpool.
    destruct (TrustedCertPoolConfig_validate p) as [p' err]. cbn in *. rewrite fmap_None Hpool. split.
    + intros. constructor; eauto.
    + intros [_ _ _ _ _ _ (?&?&?)]. congruence.
Qed.

(** ** Building the configuration *)

Lemma base64_no_panic s : no_panic (DecodeString s).
Proof. apply no_panic_ne, base64_quanta_no_panic. Qed.
#[export] Hint Resolve base64_no_panic : nopanic.

Lemma no_panic_err_res {A} (x : error + A) : no_panic (err_res x).
Proof. by destruct x. Qed.
#[export] Hint Resolve no_panic_err_res : nopanic.

Section building.
Context `{Crypto} (m : Machine).

Lemma TLSVersions_no_panic cfg : no_panic (TLSVersions cfg).
Proof.
  assert (∀ p msg, no_panic (tls_version p msg)) by (intros; unfold tls_version; by repeat case_match).
  unfold TLSVersions. apply no_panic_bind; [done|intros]. apply no_panic_bind; [done|intros].
  by case_bool_decide.
Qed.

Lemma TLSCiphers_no_panic cfg : no_panic (TLSCiphers cfg).
Proof.
  unfold TLSCiphers. case_bool_decide; [done|]. apply no_panic_mapM, list.Forall_forall.
  intros. by case_match.
Qed.

Lemma identities_no_panic cfg :
  Forall valid_identity (tls_ServerIdentities cfg) → no_panic (OurIdentityCertificates m cfg).
Proof.
  intros Hall. unfold OurIdentityCertificates. case_bool_decide; [done|]. clear -Hall.
  induction Hall as [|id ids Hid _ IH]; [done|]. cbn.
  apply no_panic_bind; [|intros; by apply no_panic_bind].
  destruct Hid as [(?&?&->)|(?&?&->)]; cbn; eauto 10 with nopanic.
  repeat (apply no_panic_bind; [by auto with nopanic|intros]). by repeat case_match.
Qed.

Lemma find_no_panic p mode :
  tcp_Mode p = Some mode → is_Some (tcp_Path p) → no_panic (findCertsFromPath m p).
Proof.
  intros Hm [path Hp]. unfold findCertsFromPath. rewrite Hm. cbn. rewrite Hp.
  repeat case_bool_decide; cbn; auto with nopanic.
Qed.

Lemma pool_no_panic certs files : no_panic (pool_of_files certs files).
Proof. unfold pool_of_files. by case_match. Qed.

Lemma buildPool_no_panic p mode e :
  tcp_Mode p = Some mode → is_Some (tcp_Path p) → tcp_Encoding p = Some e →
  (ToLower e = PKCS12 → is_Some (tcp_Password p)) → no_panic (buildPool m p).
Proof.
  intros Hm Hp He Hpw. unfold buildPool. rewrite He /=.
  destruct (CertPoolEncodingTypes m !! ToLower e) as [fn|] eqn:Hfn; [|done].
  unfold CertPoolEncodingTypes in Hfn.
  apply lookup_insert_Some in Hfn as [[_ <-]|[_ [HP <-]%lookup_singleton_Some]].
  - unfold buildPoolFromPEM. apply no_panic_bind; [by eapply find_no_panic|]. intros. apply pool_no_panic.
  - unfold buildPoolFromPKCS12. destruct (Hpw (eq_sym HP)) as [pw ->]. cbn.
    apply no_panic_bind; [apply base64_no_panic|intros].
    apply no_panic_bind; [by eapply find_no_panic|]. intros. apply pool_no_panic.
Qed.
End building.

(** Validation leaves a configuration that is lower-case where it matters, so
    that checking it again changes nothing. *)
Lemma ToLower_SYSMODE_fixed mode : ToLower mode = SYSMODE → ToLower (ToLower mode) = SYSMODE.
Proof. by intros ->. Qed.

Definition lowered (p : TrustedCertPoolConfig) : Prop :=
  ∃ mode, tcp_Mode p = Some mode ∧
    (mode = SYSMODE ∨
     is_Some (tcp_Path p) ∧ ∃ e, tcp_Encoding p = Some e ∧
       (e = PEM ∨ e = PKCS12 ∧ is_Some (tcp_Password p))).

Lemma TrustedCertPoolConfig_validate_lowered p p' :
  TrustedCertPoolConfig_validate p = (p', None) → lowered p'.
Proof.
  unfold TrustedCertPoolConfig_validate, lowered.
  destruct p as [[mode|] enc path pw]; cbn; [|done].
  case_bool_decide as Hm; cbn; [intros [= <-]; rewrite Hm; by eauto|].
  destruct path as [path|]; cbn; [|done]. destruct enc as [e|]; cbn; [|done].
  case_bool_decide as Hp; [done|]. case_bool_decide as He; [|done]. intros [= <-].
  eexists. split; [done|]. right. split; [by eexists|]. eexists. split; [done|].
  destruct He as [|He]; [by left|]. right. split; [done|]. destruct pw; [by eexists|]. by destruct Hp.
Qed.

Lemma MakeTLSConfig_validated `{Crypto} (m : Machine) t t' p :
  TLSConfig_Validate t = (t', None) → MakeTLSConfig m (Some t') ≠ Panic p.
Proof.
  intros Hv. assert (valid_tls t) as Hvalid by (by apply TLSConfig_Validate_spec; rewrite Hv).
  unfold TLSConfig_Validate in Hv. destruct (TLSConfig_checks t); [done|].
  destruct (tls_TrustedCertPool t) as [pool|]; [|done].
  destruct (TrustedCertPoolConfig_validate pool) as [pool' err] eqn:Hpool.
  destruct err; simplify_eq/=. apply TrustedCertPoolConfig_validate_lowered in Hpool.
  destruct Hvalid as [(auth&Hauth&_) _ _ _ (ren&(ren'&Hren&_)%fmap_Some&_) [_ Hids] _].
  revert p. apply no_panic_ne. cbn -[TLSVersions TLSCiphers]. case_match; [done|]. case_match.
  { apply no_panic_fmap. unfold makeSelfSignedTLSConfig.
    apply no_panic_bind; [apply TLSVersions_no_panic|intros [] _].
    apply no_panic_bind; [by apply identities_no_panic|done]. }
  apply no_panic_bind.
  - unfold GetTrustedCAs. cbn. destruct Hpool as (mode&Hmode&Hrest). rewrite Hmode. cbn.
    case_bool_decide as Hsys.
    + destruct Hrest as [|(?&e&He&Henc)]; [done|].
      apply no_panic_bind; [|done]. eapply buildPool_no_panic; [done..|].
      intros Hp. destruct Henc as [->|[_ ?]]; [vm_compute in Hp; discriminate|done].
    + unfold system_pool. case_bool_decide; [done|]. apply no_panic_bind; auto with nopanic.
  - intros cas _. apply no_panic_bind; [apply TLSVersions_no_panic|intros [] _].
    apply no_panic_bind; [apply TLSCiphers_no_panic|intros ciphers _].
    apply no_panic_bind. { unfold TLSClientAuth. cbn. rewrite Hauth. cbn. by case_match. }
    intros policy _. apply no_panic_bind; [by apply identities_no_panic|intros certs _].
    apply no_panic_bind; [|done]. unfold TLSRenegotiationSupport. cbn. rewrite Hren. cbn. by case_match.
Qed.

(** C24. A configuration that passed validation, as validation leaves it, never
    makes [MakeTLSConfig] dereference a nil pointer, whatever files are there. *)
Theorem validated_MakeTLSConfig_no_panic `{Crypto} (m : Machine) t t' p :
  TLSConfig_Validate t = (t', None) → MakeTLSConfig m (Some t') ≠ Panic p.
Proof. apply MakeTLSConfig_validated. Qed.

(** The certificates of a pool are those of the files that could be used. *)
Lemma pool_of_files_spec `{Crypto} (certs : string → option (list Cert)) files pool :
  pool_of_files certs files = Ok pool ↔
  pool = files ≫= (λ f, default [] (certs f)) ∧
  (files = [] ∨ Exists (λ f, is_Some (certs f)) files).
Proof.
  unfold pool_of_files.
  assert (∀ fs s, foldl (add_file certs) s fs =
    mk_pool_state (ps_pool s ++ (fs ≫= (λ f, default [] (certs f))))
      (ps_failedCerts s ++ filter (λ f, certs f = None) fs)
      (ps_addedCerts s || existsb (λ f, bool_decide (is_Some (certs f))) fs)) as Hfold.
  { induction fs as [|f fs IH]; intros [cs failed added].
    { cbn. by rewrite !app_nil_r orb_false_r. }
    cbn [foldl existsb]. rewrite IH bind_cons filter_cons. unfold add_file.
    destruct (certs f); cbn [ps_pool ps_failedCerts ps_addedCerts default].
    - case_decide; [done|]. rewrite -app_assoc bool_decide_true //. by rewrite orb_true_r.
    - case_decide; [|done]. rewrite -app_assoc bool_decide_false //. }
  rewrite Hfold. cbn. clear Hfold.
  destruct (existsb _ files) eqn:Hex.
  - rewrite andb_false_r. apply existsb_exists in Hex as (f&Hf&Hc%bool_decide_eq_true).
    split; [intros [= <-]|by intros [-> _]]. split; [done|]. right. apply list.Exists_exists.
    exists f. split; [by apply list_elem_of_In|done].
  - rewrite andb_true_r. assert (Forall (λ f, certs f = None) files) as Hnone.
    { apply list.Forall_forall. intros f Hf. destruct (certs f) eqn:E; [|done].
      rewrite -not_true_iff_false existsb_exists in Hex. destruct Hex. exists f.
      split; [by apply list_elem_of_In|]. rewrite E. by apply bool_decide_true. }
    assert (¬ Exists (λ f, is_Some (certs f)) files) as Hne.
    { rewrite list.Exists_exists. intros (f&Hf&[? ?]). rewrite list.Forall_forall in Hnone.
      specialize (Hnone _ Hf). congruence. }
    destruct files as [|f files].
    + cbn. split; [intros [= <-]; auto|intros [-> _]; done].
    + apply list.Forall_cons in Hnone as [Hf _]. rewrite filter_cons. case_decide; [|done].
      rewrite bool_decide_true //. split; [done|]. by intros [_ [?|?]].
Qed.

(** ** What a configuration asks for *)

Section asked.
Context `{Crypto} (m : Machine).

(** The certificates that an identity is to be proved with: of a pair of files, or of a
    PKCS#12 store that its password opens. *)
Inductive presents : option ServerIdentityConfig → list Certificate → Prop :=
| presents_nil : presents None []
| presents_nothing id : si_CertKeyPair id = None → si_PKCS12Store id = None → presents (Some id) []
| presents_pair id kp certPath keyPath certPEM keyPEM cert :
    si_CertKeyPair id = Some kp → ckp_CertPath kp = Some certPath → ckp_KeyPath kp = Some keyPath →
    ReadFile m certPath = inr certPEM → ReadFile m keyPath = inr keyPEM →
    LoadX509KeyPair certPEM keyPEM = inr cert → presents (Some id) [cert]
| presents_store id store password pass path bytes key cert chain :
    si_CertKeyPair id = None → si_PKCS12Store id = Some store →
    SensitiveString_Value (p12_Password store) = Ok password → DecodeString password = Ok pass →
    p12_Path store = Some path → ReadFile m path = inr bytes → DecodeChain bytes pass = inr (key, cert, chain) →
    presents (Some id) [MakeCertificate key cert chain].

(** The files of a pool: one, or those of a directory. *)
Inductive pool_files (p : TrustedCertPoolConfig) : list string → Prop :=
| pool_file mode path : tcp_Mode p = Some mode → ToLower mode = "file" → tcp_Path p = Some path → pool_files p [path]
| pool_directory mode path entries : tcp_Mode p = Some mode → ToLower mode = "directory" → tcp_Path p = Some path →
    ReadDir m path = inr entries →
    pool_files p ((λ e, filepath_Join path e.1) <$> filter (λ e : string * bool, e.2 = false) entries).

(** The certificates of a file, in the encoding of the pool and with its password. *)
Inductive pool_decoder (p : TrustedCertPoolConfig) : (string → option (list Cert)) → Prop :=
| decoder_pem encoding : tcp_Encoding p = Some encoding → ToLower encoding = "pem" →
    pool_decoder p (λ f, match ReadFile m f with
      | inr bytes => match pem_certs bytes with [] => None | cs => Some cs end
      | inl _ => None
      end)
| decoder_pkcs12 encoding password pass : tcp_Encoding p = Some encoding → ToLower encoding = "pkcs12" →
    tcp_Password p = Some password → DecodeString (ss_s password) = Ok pass →
    pool_decoder p (λ f, match ReadFile m f with
      | inr bytes => match DecodeChain bytes pass with inr (_, cert, chain) => Some (cert :: chain) | inl _ => None end
      | inl _ => None
      end).

(** The authorities to trust: those of the system, none being given on Windows, or those
    of the files of the pool that can be used, of which there is one if there are any. *)
Definition trusts (cfg : TLSConfig) (cas : option (list Cert)) : Prop :=
  match tls_TrustedCertPool cfg with
  | Some p =>
      (tcp_Mode p = Some "system" ∧ (GOOS m = "windows" ∧ cas = None ∨
         GOOS m ≠ "windows" ∧ ∃ pool, SystemCertPool m = inr pool ∧ cas = Some pool)) ∨
      (tcp_Mode p ≠ Some "system" ∧ ∃ files certs, pool_files p files ∧ pool_decoder p certs ∧
         (files = [] ∨ Exists (λ f, is_Some (certs f)) files) ∧ cas = Some (files ≫= (λ f, default [] (certs f))))
  | None => GOOS m = "windows" ∧ cas = None ∨ GOOS m ≠ "windows" ∧ ∃ pool, SystemCertPool m = inr pool ∧ cas = Some pool
  end.

Lemma err_res_Ok {A} (x : error + A) a : err_res x = Ok a ↔ x = inr a.
Proof. destruct x; cbn; split; congruence. Qed.

Lemma identity_certificate_presents id c : identity_certificate m id = Ok c → presents id (option_list c).
Proof.
  destruct id as [id|]; cbn; [|intros [= <-]; constructor].
  destruct (si_CertKeyPair id) as [kp|] eqn:Hkp.
  - intros (cp&Hcp%deref_Ok&(kf&Hkf%deref_Ok&(cb&Hcb%err_res_Ok&(kb&Hkb%err_res_Ok&(cert&Hc%err_res_Ok&[= <-])
      %res_bind_Ok)%res_bind_Ok)%res_bind_Ok)%res_bind_Ok)%res_bind_Ok. by eapply presents_pair.
  - destruct (si_PKCS12Store id) as [store|] eqn:Hst; [|intros [= <-]; by constructor].
    intros (pw&Hpw&(pass&Hpass&(path&Hpath%deref_Ok&(b&Hb%err_res_Ok&([[key cert] chain]&Hd%err_res_Ok&[= <-])
      %res_bind_Ok)%res_bind_Ok)%res_bind_Ok)%res_bind_Ok)%res_bind_Ok. by eapply presents_store.
Qed.

Lemma identities_present cfg certs :
  OurIdentityCertificates m cfg = Ok certs →
  ∃ each, Forall2 presents (tls_ServerIdentities cfg) each ∧ certs = concat each.
Proof.
  unfold OurIdentityCertificates. case_bool_decide as Hl.
  - intros [= <-]. destruct (tls_ServerIdentities cfg); [|done]. by exists [].
  - clear Hl. revert certs. induction (tls_ServerIdentities cfg) as [|id ids IH]; intros certs; cbn; [intros [= <-]; by exists []|].
    intros (c&Hc%identity_certificate_presents&(cs&Hcs&[= <-])%res_bind_Ok)%res_bind_Ok.
    destruct (IH _ Hcs) as (each&Hall&->). exists (option_list c :: each). by split; [constructor|].
Qed.

Lemma findCerts_files p files : findCertsFromPath m p = Ok files → pool_files p files.
Proof.
  unfold findCertsFromPath. intros (mode&Hmode%deref_Ok&Hf)%res_bind_Ok. case_bool_decide as Hd.
  - apply res_bind_Ok in Hf as (path&Hp%deref_Ok&(entries&He%err_res_Ok&[= <-])%res_bind_Ok). by eapply pool_directory.
  - case_bool_decide; [|done]. apply res_bind_Ok in Hf as (path&Hp%deref_Ok&[= <-]). by eapply pool_file.
Qed.

Lemma GetTrustedCAs_trusts cfg cas : GetTrustedCAs m cfg = Ok cas → trusts cfg cas.
Proof.
  assert (∀ cas, system_pool m = Ok cas → GOOS m = "windows" ∧ cas = None ∨
    GOOS m ≠ "windows" ∧ ∃ pool, SystemCertPool m = inr pool ∧ cas = Some pool) as Hsys.
  { intros c. unfold system_pool. case_bool_decide; [intros [= <-]; by left|].
    intros (pool&Hp%err_res_Ok&[= <-])%res_bind_Ok. right. eauto. }
  unfold GetTrustedCAs, trusts. destruct (tls_TrustedCertPool cfg) as [p|]; [|apply Hsys].
  intros (mode&Hmode%deref_Ok&H1)%res_bind_Ok. rewrite Hmode. case_bool_decide as Hm.
  2: { left. destruct (decide (mode = SYSMODE)) as [->|]; [|done]. by split; [|apply Hsys]. }
  right. split; [by intros [= ->]|]. apply res_bind_Ok in H1 as (pool&Hpool&[= <-]). unfold buildPool in Hpool.
  apply res_bind_Ok in Hpool as (e&He%deref_Ok&Hpool).
  destruct (CertPoolEncodingTypes m !! ToLower e) as [fn|] eqn:Hfn; [|done].
  unfold CertPoolEncodingTypes in Hfn. apply lookup_insert_Some in Hfn as [[Hk <-]|[_ [Hk <-]%lookup_singleton_Some]].
  - apply res_bind_Ok in Hpool as (files&Hfiles%findCerts_files&[-> ?]%pool_of_files_spec).
    exists files, (pem_file_certs m). split_and!; [done| |done..]. by eapply decoder_pem.
  - apply res_bind_Ok in Hpool as (pw&Hpw%deref_Ok&(pass&Hpass&(files&Hfiles%findCerts_files&[-> ?]%pool_of_files_spec)%res_bind_Ok)%res_bind_Ok).
    exists files, (pkcs12_file_certs m pass). split_and!; [done| |done..]. by eapply decoder_pkcs12.
Qed.
End asked.

(** C25. A configuration that neither skips verification nor is self-signed gets, if a
    TLS configuration can be made of it, exactly what it asks for: the peer is
    verified; the versions are the configured ones, in order, every cipher and the
    policies for client authentication and renegotiation the named ones; the
    certificates are those of its identities, in order; and the authorities that are
    trusted, the same for both directions, are those of the pool's files, read in the
    pool's encoding and with its password, or those of the system if the mode is
    [system] or there is no pool. *)
Theorem MakeTLSConfig_strict `{Crypto} (m : Machine) cfg tc :
  tls_InsecureSkipVerify cfg = false → tls_SelfSigned cfg = false →
  MakeTLSConfig m (Some cfg) = Ok (Some tc) →
  tc_InsecureSkipVerify tc = false ∧ tc_PreferServerCipherSuites tc = true ∧
  (tc_MinVersion tc ≤ tc_MaxVersion tc)%Z ∧
  default (Some 0%Z) ((tlsVersions !!.) <$> tls_MinVersion cfg) = Some (tc_MinVersion tc) ∧
  default (Some 0%Z) ((tlsVersions !!.) <$> tls_MaxVersion cfg) = Some (tc_MaxVersion tc) ∧
  Forall2 (λ name id, cipherSuites !! name = Some id) (tls_Ciphers cfg) (tc_CipherSuites tc) ∧
  (tls_ClientAuth cfg ≫= λ a, clientAuthTypes !! a) = Some (tc_ClientAuth tc) ∧
  (tls_Renegotiation cfg ≫= λ r, renegotiationSupportTypes !! ToLower r) = Some (tc_Renegotiation tc) ∧
  (∃ each, Forall2 (presents m) (tls_ServerIdentities cfg) each ∧ tc_Certificates tc = concat each) ∧
  trusts m cfg (tc_RootCAs tc) ∧ tc_ClientCAs tc = tc_RootCAs tc.
Proof.
  intros Hskip Hself. cbn. rewrite Hskip Hself.
  intros (cas&Hcas&([min max]&Hvers&(ciphers&Hciphers&(policy&Hpol&(certs&Hcerts&
    (ren&Hren&[= <-])%res_bind_Ok)%res_bind_Ok)%res_bind_Ok)%res_bind_Ok)%res_bind_Ok)%res_bind_Ok.
  cbn. split; [done|]. split; [done|].
  unfold TLSVersions in Hvers. apply res_bind_Ok in Hvers as (min'&Hmin&(max'&Hmax&Hle)%res_bind_Ok).
  case_bool_decide; [done|]. injection Hle as -> ->. split; [lia|].
  assert (∀ p msg v, tls_version p msg = Ok v → default (Some 0%Z) ((tlsVersions !!.) <$> p) = Some v) as Hv.
  { intros [s|] msg v; cbn; [|by intros [= ->]]. destruct (tlsVersions !! s); [by intros [= ->]|done]. }
  split; [by eapply Hv|]. split; [by eapply Hv|].
  split. { unfold TLSCiphers in Hciphers. case_bool_decide; [done|].
    apply mapM_res_Ok in Hciphers. refine (Forall2_impl _ _ Hciphers).
    intros name id Hid. case_match; [by injection Hid as ->|done]. }
  split. { unfold TLSClientAuth in Hpol. apply res_bind_Ok in Hpol as (a&->%deref_Ok&Ha). cbn.
    case_match; [by injection Ha as ->|done]. }
  split. { unfold TLSRenegotiationSupport in Hren. apply res_bind_Ok in Hren as (r&->%deref_Ok&Hr). cbn.
    case_match; [by injection Hr as ->|done]. }
  split; [by apply identities_present|]. split; [by apply GetTrustedCAs_trusts|done].
Qed.

(** ** A concrete machine *)
Module TlsExample.
(** A certificate is its subject; a PEM file holds one per line. *)
#[export] Instance crypto : Crypto := {|
  Cert := string; Certificate := list string; PrivateKey := string;
  LoadX509KeyPair c k := if bool_decide (k = "key of " +:+ c) then inr [c] else inl (ErrText "tls: private key does not match public key");
  MakeCertificate k c cs := c :: cs;
  pem_certs bytes := filter (λ l, l ≠ "") (Split "010" bytes);
  DecodeChain bytes pass := inl (ErrText "pkcs12: decryption password incorrect")
|}.

Definition machine : Machine := mkMachine
  (λ f, if bool_decide (f = "/certs/ca.pem") then inr "root-ca"
        else if bool_decide (f = "/certs/server.crt") then inr "server"
        else if bool_decide (f = "/certs/server.key") then inr "key of server"
        else inl (ErrText ("open " +:+ f +:+ ": no such file or directory")))
  (λ d, if bool_decide (d = "/certs/") then inr [("old", true); ("ca.pem", false); ("missing.pem", false)]
        else inl (ErrText "no such directory"))
  "linux" (inr ["os-ca"]).

Definition pool : TrustedCertPoolConfig :=
  mkTrustedCertPoolConfig (Some "Directory") (Some "PEM") (Some "/certs/") None.
Definition server : option ServerIdentityConfig :=
  Some (mkServerIdentityConfig (Some (mkCertKeyPair (Some "/certs/server.crt") (Some "/certs/server.key"))) None).
Definition cfg : TLSConfig :=
  mkTLSConfig (Some "1.2") (Some "1.3") (Some "RequireAndVerifyClientCert") ["TLS_AES_128_GCM_SHA256"]
    [server] (Some pool) false false (Some "RenegotiateNever").
Definition made : tls_Config :=
  mk_tls_Config 771 772 [4865%Z] true [["server"]] (Some ["root-ca"]) 4 (Some ["root-ca"]) false 0.
End TlsExample.
#[local] Existing Instance TlsExample.crypto.

Lemma validated_MakeTLSConfig_no_panic_witness :
  (TLSConfig_Validate TlsExample.cfg).2 = None ∧
  MakeTLSConfig TlsExample.machine (Some (TLSConfig_Validate TlsExample.cfg).1) ≠ Panic nil_dereference.
Proof.
  split; [vm_compute; reflexivity|].
  apply (validated_MakeTLSConfig_no_panic TlsExample.machine TlsExample.cfg).
  vm_compute. reflexivity.
Defined.

Lemma MakeTLSConfig_strict_witness :
  MakeTLSConfig TlsExample.machine (Some TlsExample.cfg) = Ok (Some TlsExample.made) ∧
  trusts TlsExample.machine TlsExample.cfg (tc_RootCAs TlsExample.made) ∧
  ∃ each, Forall2 (presents TlsExample.machine) [TlsExample.server] each ∧ [["server"]] = concat each.
Proof.
  assert (MakeTLSConfig TlsExample.machine (Some TlsExample.cfg) = Ok (Some TlsExample.made)) as E
    by (vm_compute; reflexivity).
  split; [exact E|].
  destruct (MakeTLSConfig_strict TlsExample.machine TlsExample.cfg TlsExample.made eq_refl eq_refl E)
    as (_&_&_&_&_&_&_&_&H&Ht&_). split; [exact Ht|exact H].
Defined.

(** Without validation, a mode in upper case is not the system pool, and the
    missing encoding is dereferenced. *)
Example unvalidated_panics :
  MakeTLSConfig TlsExample.machine (Some (set_TrustedCertPool TlsExample.cfg
    (mkTrustedCertPoolConfig (Some "SYSTEM") None None None))) = Panic nil_dereference.
Proof. vm_compute. reflexivity. Qed.

(** An empty directory of trusted certificates is not an error: nothing is trusted. *)
Example empty_directory_trusts_nothing :
  buildPoolFromPEM (mkMachine (λ _, inl (ErrText "")) (λ _, inr []) "linux" (inr [])) TlsExample.pool = Ok [].
Proof. vm_compute. reflexivity. Qed.

(** ** The users of [MakeTLSConfig]: grpc.go and http.go *)

(** The unary interceptors of core/grpc.go, and those of an application. *)
Inductive interceptor :=
| LoggerInterceptor
| TraceidLogInterceptor
| AppInterceptor (name : string).

(** What a [grpc.ServerOption] or [grpc.DialOption] made here is. *)
Inductive grpc_option `{Crypto} :=
| ChainUnaryInterceptor (l : list interceptor)
| Creds (c : option tls_Config)
| WithTransportCredentials (c : option tls_Config) (* None: insecure *)
| WithBlock.

Section users.
Context `{Crypto} (m : Machine).

Definition ExtractGrpcServerOptions (cfg : option GRPCServerConfig) : res (list grpc_option) :=
  match cfg with
  | Some c =>
    match csc_TLS (gsc_Common c) with
    | Some t => tlsConfig ← MakeTLSConfig m (Some t); Ok [Creds tlsConfig]
    | None => Ok []
    end
  | None => Ok []
  end.

Definition NewDefaultCommonGRPCDownstreamData : CommonGRPCDownstreamData :=
  mkCommonGRPCDownstreamData "" None false.

Definition DefaultGrpcDialOptions (cfg : option CommonGRPCDownstreamData) : res (list grpc_option) :=
  let cfg := default NewDefaultCommonGRPCDownstreamData cfg in
  opts ← match cgd_TLS cfg with
         | Some t => tlsConfig ← MakeTLSConfig m (Some t); Ok [WithTransportCredentials tlsConfig]
         | None => Ok [WithTransportCredentials None]
         end;
  Ok (opts ++ if cgd_WithBlock cfg then [WithBlock] else []).

Definition DefaultCommonDownstreamData : CommonDownstreamData :=
  mkCommonDownstreamData ""
    (mkTransport (mkDialer (30 * Second) (30 * Second) true) 100 (90 * Second) (10 * Second)
       (1 * Second) None "" false)
    (60 * Second) ∅.

(** [url_Parse] and [ProxyFromEnvironment] are those of the standard library;
    a proxy function gives the proxy's URL for a request's. *)
Definition proxyHandlerFromConfig (url_Parse : string → error + string)
    (ProxyFromEnvironment : string → error + option string) (cfg : Transport) :
    option (string → error + option string) :=
  if tr_UseProxy cfg then
    if bool_decide (0 < String.length (tr_ProxyURL cfg))%nat then
      Some (λ req, match url_Parse (tr_ProxyURL cfg) with
                   | inl _ => ProxyFromEnvironment req
                   | inr proxyURL => inr (Some proxyURL)
                   end)
    else Some ProxyFromEnvironment
  else None.

Record http_Transport := mk_http_Transport {
  ht_Proxy : option (string → error + option string);
  ht_Dialer : Dialer;
  ht_MaxIdleConns : Z;
  ht_IdleConnTimeout : Z;
  ht_TLSHandshakeTimeout : Z;
  ht_ExpectContinueTimeout : Z;
  ht_TLSClientConfig : option tls_Config
}.
Record http_Client := mk_http_Client { hc_Timeout : Z; hc_Transport : http_Transport }.

Context (url_Parse : string → error + string) (ProxyFromEnvironment : string → error + option string).

Definition defaultHTTPTransport (cfg : Transport) : res http_Transport :=
  tlsConfig ← MakeTLSConfig m (tr_ClientTLS cfg);
  Ok (mk_http_Transport (proxyHandlerFromConfig url_Parse ProxyFromEnvironment cfg) (tr_Dialer cfg)
        (tr_MaxIdleConns cfg) (tr_IdleConnTimeout cfg) (tr_TLSHandshakeTimeout cfg)
        (tr_ExpectContinueTimeout cfg) tlsConfig).

Definition DefaultHTTPClient (cfg : option CommonDownstreamData) : res http_Client :=
  let cfg := default DefaultCommonDownstreamData cfg in
  transport ← defaultHTTPTransport (cdd_ClientTransport cfg);
  Ok (mk_http_Client (cdd_ClientTimeout cfg) transport).

(** A client made without configuration always exists and has a timeout. *)
Lemma DefaultHTTPClient_nil :
  ∃ c, DefaultHTTPClient None = Ok c ∧ hc_Timeout c = (60 * Second)%Z ∧
       ht_TLSClientConfig (hc_Transport c) = None.
Proof. by eexists. Qed.

(** No connection is made with credentials other than those configured. *)
Lemma DefaultGrpcDialOptions_spec cfg opts :
  DefaultGrpcDialOptions cfg = Ok opts →
  match cfg ≫= cgd_TLS with
  | Some t => ∃ c, MakeTLSConfig m (Some t) = Ok c ∧ head opts = Some (WithTransportCredentials c)
  | None => head opts = Some (WithTransportCredentials None)
  end.
Proof.
  unfold DefaultGrpcDialOptions. destruct cfg as [[addr [t|] wb]|]; cbn -[MakeTLSConfig].
  - intros (opts'&(c&Hc&[= <-])%res_bind_Ok&[= <-])%res_bind_Ok. eauto.
  - by intros [= <-].
  - by intros [= <-].
Qed.
End users.
