(* ===== verification/ConfigValidation.v ===== *)
(** * The [Validate] methods of the configuration: src/config/http.go, library.go and
    gen_code.go

    What each part of a configuration checks when it is asked to, and that a downstream
    whose configuration was checked can be built without a panic. [validator.Validate],
    which follows the tags, is a parameter. *)

From S2P Require Export TlsConfig.

Section validate.
(** The verdict of the tags. *)
Context (validate_downstream : CommonDownstreamData → option error)
  (validate_server : CommonHTTPServerConfig → option error) (validate_library : LibraryConfig → option error).

Definition set_ClientTLS (t : option TLSConfig) (g : CommonDownstreamData) : CommonDownstreamData :=
  let tr := cdd_ClientTransport g in
  mkCommonDownstreamData (cdd_ServiceURL g)
    (mkTransport (tr_Dialer tr) (tr_MaxIdleConns tr) (tr_IdleConnTimeout tr) (tr_TLSHandshakeTimeout tr)
       (tr_ExpectContinueTimeout tr) t (tr_ProxyURL tr) (tr_UseProxy tr))
    (cdd_ClientTimeout g) (cdd_Headers g).

(** The TLS settings are checked in place: their validation rewrites the mode of the
    trusted certificates. *)
Definition CommonDownstreamData_Validate (g : CommonDownstreamData) : CommonDownstreamData * option error :=
  match validate_downstream g with
  | Some err => (g, Some err)
  | None =>
    match tr_ClientTLS (cdd_ClientTransport g) with
    | Some tls => let '(tls, err) := TLSConfig_Validate tls in (set_ClientTLS (Some tls) g, err)
    | None => (g, None)
    end
  end.

Definition CommonHTTPServerConfig_Validate (c : CommonHTTPServerConfig) : option error := validate_server c.

Definition LibraryConfig_Validate (c : LibraryConfig) : option error :=
  match validate_library c with Some err => Some err | None => None end.

Definition UpstreamConfig_Validate (c : UpstreamConfig) : option error := None.
End validate.

(** A downstream whose configuration was validated, as validation leaves it, is
    built without a panic, whatever the machine's files are: the client is there, or
    there is an error that says why not. *)
Theorem validated_DefaultHTTPClient_no_panic `{Crypto} (m : Machine) url_Parse proxy validate g g' p :
  CommonDownstreamData_Validate validate g = (g', None) →
  DefaultHTTPClient m url_Parse proxy (Some g') ≠ Panic p.
Proof.
  unfold CommonDownstreamData_Validate. destruct (validate g); [done|].
  destruct (tr_ClientTLS (cdd_ClientTransport g)) as [tls|] eqn:Ht.
  - destruct (TLSConfig_Validate tls) as [tls' err] eqn:Hv. intros [= <- ->].
    unfold DefaultHTTPClient, defaultHTTPTransport. cbn -[MakeTLSConfig].
    pose proof (MakeTLSConfig_validated m tls tls') as Hm. specialize (λ p, Hm p Hv).
    destruct (MakeTLSConfig m (Some tls')) as [| |p']; [done..|]. by edestruct Hm.
  - intros [= <-]. unfold DefaultHTTPClient, defaultHTTPTransport. cbn -[MakeTLSConfig]. by rewrite Ht.
Qed.

(** Without validation the same settings may panic: a downstream whose TLS section
    names no client authentication. *)
Module ConfigValidationExample.
#[export] Existing Instance TlsExample.crypto.
Definition parse (s : string) : error + string := inr s.
Definition no_proxy (s : string) : error + option string := inr None.
Definition downstream (t : TLSConfig) : CommonDownstreamData := set_ClientTLS (Some t) DefaultCommonDownstreamData.
Definition upper : TLSConfig :=
  set_TrustedCertPool TlsExample.cfg (mkTrustedCertPoolConfig (Some "SYSTEM") None None None).
Example unvalidated :
  DefaultHTTPClient TlsExample.machine parse no_proxy (Some (downstream upper)) = Panic nil_dereference.
Proof. vm_compute. reflexivity. Qed.
End ConfigValidationExample.
Import ConfigValidationExample.

Lemma validated_DefaultHTTPClient_no_panic_witness :
  (CommonDownstreamData_Validate (λ _, None) (downstream TlsExample.cfg)).2 = None ∧
  DefaultHTTPClient TlsExample.machine parse no_proxy
    (Some (CommonDownstreamData_Validate (λ _, None) (downstream TlsExample.cfg)).1) ≠ Panic nil_dereference.
Proof.
  split; [vm_compute; reflexivity|].
  apply (validated_DefaultHTTPClient_no_panic TlsExample.machine parse no_proxy (λ _, None) (downstream TlsExample.cfg)).
  vm_compute. reflexivity.
Defined.
