(* ===== verification/Context.v ===== *)
(** * [context.Context]

    A context is its values, one per key, and what [ctx.Err()] returns. Every
    key the code uses is a private type of its package, so keys of different
    packages never collide: they are the constructors of [ctxkey], and
    [ctxval] gives the type stored under each of them. *)

From S2P Require Export ConfigTypes.

(** A pointer to a mutable object lives in a heap of its own component. *)
Definition loc := positive.

Record RequestID := mkRequestID { rid_id : string; rid_wasProvided : bool }.

Inductive ctxkey :=
| KClaims              (* jwtauth.claimsKey *)
| KDefaultConfig       (* config.defaultConfigKey *)
| KReqHeader           (* common.reqHeaderContextKey *)
| KRespHeaderAndStatus (* common.respHeaderAndStatusContextKey *)
| KTraceability        (* common.traceabilityContextKey *)
| KRestResult          (* common.RestResultContextKey *)
| KBodyMonitor         (* internal.unclosedResponseBodyMonitorContextKey *)
| KTemporalClients     (* common.temporalClientMapKey *)
| KYamlConfig          (* core.serveYAMLConfigFileKey *)
| KIncomingMetadata.   (* google.golang.org/grpc/metadata *)

#[export] Instance ctxkey_eq_dec : EqDecision ctxkey.
Proof. solve_decision. Defined.

Definition ctxval (k : ctxkey) : Type :=
  match k with
  | KClaims => Claims
  | KDefaultConfig => DefaultConfig
  | KReqHeader => option Header (* the header of *reqHeaderContext, possibly nil *)
  | KRespHeaderAndStatus => loc
  | KTraceability => RequestID
  | KRestResult => loc
  | KBodyMonitor => loc
  | KTemporalClients => gmap string loc
  | KYamlConfig => string
  | KIncomingMetadata => Header
  end.

Record Context := mkContext {
  ctx_Err : option error;
  ctx_Value : ∀ k, option (ctxval k)
}.

Definition Background : Context := mkContext None (λ _, None).

Definition WithValue (ctx : Context) (k : ctxkey) (v : ctxval k) : Context :=
  mkContext (ctx_Err ctx) (λ k',
    match decide (k = k') with
    | left e => Some (eq_rect k ctxval v k' e)
    | right _ => ctx_Value ctx k'
    end).

Lemma WithValue_same ctx k v : ctx_Value (WithValue ctx k v) k = Some v.
Proof. unfold WithValue. cbn. destruct (decide (k = k)) as [e|]; [|done].
  by rewrite (Eqdep_dec.UIP_dec (λ x y, decide (x = y)) e eq_refl). Qed.
Lemma WithValue_other ctx k k' v : k ≠ k' → ctx_Value (WithValue ctx k v) k' = ctx_Value ctx k'.
Proof. intros. unfold WithValue. cbn. by destruct (decide (k = k')). Qed.
Lemma WithValue_Err ctx k v : ctx_Err (WithValue ctx k v) = ctx_Err ctx.
Proof. done. Qed.
Create Rewrite HintDb ctx.
#[export] Hint Rewrite WithValue_same WithValue_Err : ctx.
#[export] Hint Rewrite WithValue_other using done : ctx.

(** config.go: the configuration of the running server. *)
Definition GetDefaultConfig (ctx : Context) : option DefaultConfig := ctx_Value ctx KDefaultConfig.
Definition PutDefaultConfig (ctx : Context) (config : DefaultConfig) : Context :=
  WithValue ctx KDefaultConfig config.
