(* ===== verification/Loggers.v ===== *)
(** * Loggers: src/log/logging.go and src/common/internal/timelogger.go

    The [Logger] interface with its three implementations, the logger in a context,
    and the line that is logged for a request. The packages that write the lines
    (anz-bank/pkg/log, anz-bank/pkg/logging and logrus) are parameters. The values of
    the first two are immutable; a logrus logger is a pointer to a mutable object, so
    its level lives in a store that every wrapper around it shares. *)

From stdpp Require Import pretty.
From S2P Require Export Durations Context.

(** ** The packages underneath *)

Inductive fval := FStr (s : string) | FInt (z : Z) | FDuration (d : Z).

(** [NCtx] is what the packages themselves keep in a context. *)
Class NativeLogs := {
  NCtx : Type;
  Fields : Type;
  NoFields : Fields;
  Fields_With : string → fval → Fields → Fields;
  SetVerboseMode : bool → Fields → Fields;
  Onto : Fields → NCtx → NCtx;
  FieldsFrom : NCtx → Fields;
  ZLogger : Type;
  ZLevel : Type;
  ZNoLevel : ZLevel; (* the zero value *)
  ZErrorLevel : ZLevel;
  ZInfoLevel : ZLevel;
  ZDebugLevel : ZLevel;
  Z_With : string → fval → ZLogger → ZLogger;
  Z_WithLevel : ZLevel → ZLogger → ZLogger;
  ToContext : ZLogger → NCtx → NCtx;
  FromContext : NCtx → ZLogger;
  Entry : Type
}.

(** What their documentation says of the context: what was put in is found. *)
Class NativeLogsLaws `{!NativeLogs} : Prop := {
  FieldsFrom_Onto f c : FieldsFrom (Onto f c) = f;
  FromContext_ToContext z c : FromContext (ToContext z c) = z
}.

Definition Level_String (l : Z) : string :=
  if bool_decide (l = ErrorLevel) then "error" else if bool_decide (l = InfoLevel) then "info" else "debug".

Section loggers.
Context `{!NativeLogs}.

(** ** The implementations *)

Inductive Logger :=
| pkgLogger (fields : Fields)
| zeroPkgLogger (logger : ZLogger)
| logrusLogger (logger : loc) (fields : gmap string fval).

Definition NewPkgLogger (fields : Fields) : Logger := pkgLogger fields.
Definition NewZeroPkgLogger (logger : ZLogger) : Logger := zeroPkgLogger logger.
Definition NewDefaultLogger : Logger := NewPkgLogger NoFields.
Definition NewLogrusLogger (logger : loc) : Logger := logrusLogger logger ∅.

Inductive severity := SError (err : error) | SInfo | SDebug.

(** The call of the package underneath that writes a line. *)
Inductive line :=
| PkgLine (fields : Fields) (sev : severity) (message : string)
| ZeroLine (logger : ZLogger) (sev : severity) (message : string)
| LogrusLine (logger : loc) (fields : gmap string fval) (sev : severity) (message : string).

(** [Error], [Info] and [Debug] of each kind. *)
Definition pkgLogger_log (fields : Fields) (sev : severity) (message : string) : line := PkgLine fields sev message.
Definition zeroPkgLogger_log (logger : ZLogger) (sev : severity) (message : string) : line := ZeroLine logger sev message.
Definition logrusLogger_log (logger : loc) (fields : gmap string fval) (sev : severity) (message : string) : line :=
  LogrusLine logger fields sev message.

Definition Logger_log (l : Logger) (sev : severity) (message : string) : line :=
  match l with
  | pkgLogger fields => pkgLogger_log fields sev message
  | zeroPkgLogger logger => zeroPkgLogger_log logger sev message
  | logrusLogger logger fields => logrusLogger_log logger fields sev message
  end.

(** [withField]: the map is copied. *)
Definition withField (key : string) (v : fval) (fields : gmap string fval) : gmap string fval :=
  <[key := v]> (map_fold (λ k v m, <[k := v]> m) ∅ fields).

(** [WithStr], [WithInt] and [WithDuration] of each kind. *)
Definition pkgLogger_With (key : string) (v : fval) (fields : Fields) : Logger := pkgLogger (Fields_With key v fields).
Definition zeroPkgLogger_With (key : string) (v : fval) (logger : ZLogger) : Logger := zeroPkgLogger (Z_With key v logger).
Definition logrusLogger_With (key : string) (v : fval) (logger : loc) (fields : gmap string fval) : Logger :=
  logrusLogger logger (withField key v fields).

Definition Logger_With (key : string) (v : fval) (l : Logger) : Logger :=
  match l with
  | pkgLogger fields => pkgLogger_With key v fields
  | zeroPkgLogger logger => zeroPkgLogger_With key v logger
  | logrusLogger logger fields => logrusLogger_With key v logger fields
  end.

(** The levels of the logrus loggers; 0 is logrus's [PanicLevel]. *)
Definition levels := gmap loc Z.

Definition zero_level (level : Z) : ZLevel :=
  if bool_decide (level = ErrorLevel) then ZErrorLevel
  else if bool_decide (level = InfoLevel) then ZInfoLevel
  else if bool_decide (level = DebugLevel) then ZDebugLevel else ZNoLevel.
Definition logrus_level (level : Z) : Z :=
  if bool_decide (level = ErrorLevel) then 2%Z
  else if bool_decide (level = InfoLevel) then 4%Z
  else if bool_decide (level = DebugLevel) then 5%Z else 0%Z.

(** [WithLevel] of each kind; that of logrus sets the level of the shared logger. *)
Definition pkgLogger_WithLevel (level : Z) (fields : Fields) : Logger :=
  pkgLogger (SetVerboseMode (bool_decide (level = DebugLevel)) fields).
Definition zeroPkgLogger_WithLevel (level : Z) (logger : ZLogger) : Logger :=
  zeroPkgLogger (Z_WithLevel (zero_level level) logger).
Definition logrusLogger_WithLevel (level : Z) (logger : loc) (fields : gmap string fval) (s : levels) : Logger * levels :=
  (logrusLogger logger fields, <[logger := logrus_level level]> s).

Definition Logger_WithLevel (level : Z) (l : Logger) (s : levels) : Logger * levels :=
  match l with
  | pkgLogger fields => (pkgLogger_WithLevel level fields, s)
  | zeroPkgLogger logger => (zeroPkgLogger_WithLevel level logger, s)
  | logrusLogger logger fields => logrusLogger_WithLevel level logger fields s
  end.

(** ** The logger in a context *)

(** The function that [Inject] returns: it finds the logger in a later context. *)
Inductive restore := RestorePkg | RestoreZero | RestoreLogrus (l : Logger).

Record LogContext := mkLogContext {
  lc_native : NCtx;
  lc_logger : option restore;                 (* under loggerKey *)
  lc_logrus : option (loc * option Entry)     (* under logrusRequestContextKey *)
}.

Definition run_restore (r : restore) (c : LogContext) : Logger :=
  match r with
  | RestorePkg => pkgLogger (FieldsFrom (lc_native c))
  | RestoreZero => zeroPkgLogger (FromContext (lc_native c))
  | RestoreLogrus l => l
  end.

Definition LogrusLoggerToContext (c : LogContext) (logger : loc) (entry : option Entry) : LogContext :=
  mkLogContext (lc_native c) (lc_logger c) (Some (logger, entry)).
Definition GetLogrusLogEntryFromContext (c : LogContext) : option Entry := lc_logrus c ≫= snd.
Definition GetLogrusLoggerFromContext (c : LogContext) : option loc := fst <$> lc_logrus c.

Definition Inject (l : Logger) (c : LogContext) : LogContext * restore :=
  match l with
  | pkgLogger fields => (mkLogContext (Onto fields (lc_native c)) (lc_logger c) (lc_logrus c), RestorePkg)
  | zeroPkgLogger logger => (mkLogContext (ToContext logger (lc_native c)) (lc_logger c) (lc_logrus c), RestoreZero)
  | logrusLogger logger _ =>
      (LogrusLoggerToContext c logger (GetLogrusLogEntryFromContext c), RestoreLogrus l)
  end.

Definition PutLogger (c : LogContext) (l : Logger) : LogContext :=
  let '(c, fn) := Inject l c in mkLogContext (lc_native c) (Some fn) (lc_logrus c).

Definition GetLogger (c : LogContext) : option Logger := (λ fn, run_restore fn c) <$> lc_logger c.

(** A method of the logger in a context; without one the interface is nil. *)
Definition the_logger (c : LogContext) : res Logger :=
  match GetLogger c with Some l => Ok l | None => Panic nil_dereference end.

(** [Error], [Info] and [Debug]. *)
Definition log_at (sev : severity) (c : LogContext) (message : string) : res line :=
  l ← the_logger c; Ok (Logger_log l sev message).

(** [WithStr], [WithInt], [WithDuration]; and [WithLevel]. *)
Definition With (c : LogContext) (key : string) (v : fval) : res LogContext :=
  l ← the_logger c; Ok (PutLogger c (Logger_With key v l)).
Definition WithLevel (c : LogContext) (level : Z) (s : levels) : res LogContext * levels :=
  match the_logger c with
  | Ok l => let '(l, s) := Logger_WithLevel level l s in (Ok (PutLogger c l), s)
  | Err e => (Err e, s)
  | Panic p => (Panic p, s)
  end.

(** ** The line of a request (timelogger.go) *)

Definition distributedTracingIDs : list string := ["X-B3-Traceid"; "X-B3-Spanid"; "X-B3-ParentSpanId"].

Fixpoint tracing_loop (names : list string) (c : LogContext) (header : Header) : res LogContext :=
  match names with
  | [] => Ok c
  | name :: names =>
      let val := header_get header name in
      c ← (if bool_decide (val ≠ "") then With c name (FStr val) else Ok c);
      tracing_loop names c header
  end.
Definition distributedTracingFields : LogContext → Header → res LogContext := tracing_loop distributedTracingIDs.

(** What the line says of the request. *)
Record logged_request := mk_logged_request {
  lr_Header : Header;
  lr_RemoteAddr : string;
  lr_URL : string;
  lr_Method : string
}.

Definition InitFieldsFromRequest (c : LogContext) (req : logged_request) : res LogContext :=
  c ← distributedTracingFields c (lr_Header req);
  c ← With c "remote" (FStr (lr_RemoteAddr req));
  c ← With c "request" (FStr (lr_URL req));
  With c "method" (FStr (lr_Method req)).

Definition initCommonLogFields (c : LogContext) (status reqTime : Z) (req : logged_request) : res LogContext :=
  c ← InitFieldsFromRequest c req;
  c ← With c "status" (FInt status);
  c ← With c "took" (FDuration reqTime);
  With c "latency" (FStr (pretty reqTime)).

(** [RequestTimer.Log]: [status] is the status the wrapped writer has seen, and
    [latency] the time since the timer was made. *)
Definition RequestTimer_Log (c : LogContext) (status latency : Z) (req : logged_request) : res line :=
  c ← initCommonLogFields c status latency req;
  if bool_decide (status < 400)%Z then log_at SInfo c "Request completed"
  else log_at (SError (ErrText ("invalid status: " +:+ pretty status))) c "request completed with error status".
End loggers.

(** * Lemmas *)

Section logger_properties.
Context `{!NativeLogs, !NativeLogsLaws}.
#[local] Set Default Proof Using "All".

Lemma withField_insert key v fields : withField key v fields = <[key := v]> fields.
Proof using Type.
  unfold withField. f_equal. apply (map_fold_weak_ind (λ r m, r = m)); [done|]. by intros k x m r _ ->.
Qed.

Lemma get_put c l : GetLogger (PutLogger c l) = Some l.
Proof.
  destruct l; cbn; unfold GetLogger; cbn; by rewrite ?FieldsFrom_Onto ?FromContext_ToContext.
Qed.

Lemma the_logger_get c : the_logger c = match GetLogger c with Some l => Ok l | None => Panic nil_dereference end.
Proof. done. Qed.

(** The native value that an application puts in a context by itself. *)
Definition with_native (c : LogContext) (n : NCtx) : LogContext := mkLogContext n (lc_logger c) (lc_logrus c).

(** A logger that is put in a context is found there, each of the three kinds, with
    the fields it had. What the application then adds to the context through the
    package underneath is kept, and shows in the logger that is found; a logrus
    logger does not see it, but is found by the legacy functions as well, and the
    entry they find stays. *)
Theorem PutLogger_roundtrip c l n :
  GetLogger (PutLogger c l) = Some l ∧
  GetLogger (with_native (PutLogger c l) n) =
    Some (match l with
          | pkgLogger _ => pkgLogger (FieldsFrom n)
          | zeroPkgLogger _ => zeroPkgLogger (FromContext n)
          | logrusLogger _ _ => l
          end) ∧
  GetLogrusLogEntryFromContext (PutLogger c l) = GetLogrusLogEntryFromContext c ∧
  GetLogrusLoggerFromContext (PutLogger c l) =
    match l with logrusLogger logger _ => Some logger | _ => GetLogrusLoggerFromContext c end.
Proof. split; [apply get_put|]. by destruct l. Qed.

(** The loggers of a context that a list of fields is added to. *)
Definition with_fields (l : Logger) (fs : list (string * fval)) : Logger :=
  foldl (λ l f, Logger_With f.1 f.2 l) l fs.

Lemma with_fields_app l fs fs' : with_fields l (fs ++ fs') = with_fields (with_fields l fs) fs'.
Proof. apply foldl_app. Qed.

Lemma With_Ok c l key v :
  GetLogger c = Some l → ∃ c', With c key v = Ok c' ∧ GetLogger c' = Some (with_fields l [(key, v)]).
Proof. intros Hl. unfold With, the_logger. rewrite Hl. eexists. split; [done|]. apply get_put. Qed.

Lemma With_nil c key v : GetLogger c = None → With c key v = Panic nil_dereference.
Proof. intros Hl. unfold With, the_logger. by rewrite Hl. Qed.

(** The tracing headers that are there, in the order of [distributedTracingIDs]. *)
Definition tracing_fields (header : Header) : list (string * fval) :=
  (λ name, (name, FStr (header_get header name))) <$>
    filter (λ name, header_get header name ≠ "") distributedTracingIDs.

Lemma tracing_loop_Ok names c l header :
  GetLogger c = Some l →
  ∃ c', tracing_loop names c header = Ok c' ∧
    GetLogger c' = Some (with_fields l ((λ name, (name, FStr (header_get header name))) <$>
      filter (λ name, header_get header name ≠ "") names)).
Proof.
  revert c l. induction names as [|name names IH]; intros c l Hl; cbn [tracing_loop]; [by exists c|].
  rewrite list.filter_cons. case_bool_decide as Hne.
  - destruct (With_Ok c l name (FStr (header_get header name)) Hl) as (c1&->&Hl1). cbn [mbind res_bind].
    destruct (IH _ _ Hl1) as (c'&->&Hl'). exists c'. by rewrite Hl' decide_True.
  - rewrite decide_False; [by rewrite Hne; tauto|]. cbn. by apply IH.
Qed.

(** Everything the line of a request holds besides what its logger held. *)
Definition init_fields (req : logged_request) : list (string * fval) :=
  tracing_fields (lr_Header req) ++
  [("remote", FStr (lr_RemoteAddr req)); ("request", FStr (lr_URL req)); ("method", FStr (lr_Method req))].
Definition request_fields (status latency : Z) (req : logged_request) : list (string * fval) :=
  init_fields req ++ [("status", FInt status); ("took", FDuration latency); ("latency", FStr (pretty latency))].

Ltac with_step :=
  match goal with
  | Hl : GetLogger ?c = Some ?l |- context [With ?c ?k ?v] =>
      let c' := fresh "c" in let E := fresh "E" in let Hl' := fresh "Hl" in
      destruct (With_Ok c l k v Hl) as (c'&E&Hl'); rewrite E; clear E; cbn [mbind res_bind]
  end.

Lemma InitFieldsFromRequest_Ok c l req :
  GetLogger c = Some l →
  ∃ c', InitFieldsFromRequest c req = Ok c' ∧ GetLogger c' = Some (with_fields l (init_fields req)).
Proof.
  intros Hl. unfold InitFieldsFromRequest, distributedTracingFields.
  destruct (tracing_loop_Ok distributedTracingIDs c l (lr_Header req) Hl) as (c0&->&Hl0). cbn [mbind res_bind].
  do 2 with_step. destruct (With_Ok c2 _ "method" (FStr (lr_Method req)) Hl2) as (c'&->&Hl').
  exists c'. split; [done|]. rewrite Hl'. unfold init_fields. by rewrite with_fields_app.
Qed.

Lemma initCommonLogFields_Ok c l status latency req :
  GetLogger c = Some l →
  ∃ c', initCommonLogFields c status latency req = Ok c' ∧
    GetLogger c' = Some (with_fields l (request_fields status latency req)).
Proof.
  intros Hl. unfold initCommonLogFields.
  destruct (InitFieldsFromRequest_Ok c l req Hl) as (c0&->&Hl0). cbn [mbind res_bind].
  do 3 with_step. eexists. split; [done|]. rewrite Hl3. unfold request_fields. by rewrite with_fields_app.
Qed.

(** The line of a completed request is written by the logger of the context with the
    tracing headers the request had, its remote address, URL and method, the status,
    and the time it took as a duration and in nanoseconds: as information below
    status 400, 0 (nothing written) included, and else as an error that names the
    status. Without a logger in the context it panics. *)
Theorem RequestTimer_Log_spec c status latency req :
  RequestTimer_Log c status latency req =
    match GetLogger c with
    | None => Panic nil_dereference
    | Some l =>
        Ok (if bool_decide (status < 400)%Z
            then Logger_log (with_fields l (request_fields status latency req)) SInfo "Request completed"
            else Logger_log (with_fields l (request_fields status latency req))
                   (SError (ErrText ("invalid status: " +:+ pretty status)))
                   "request completed with error status")
    end.
Proof.
  unfold RequestTimer_Log. destruct (GetLogger c) as [l|] eqn:Hl.
  - destruct (initCommonLogFields_Ok c l status latency req Hl) as (c'&->&Hl'). cbn [mbind res_bind].
    unfold log_at, the_logger. rewrite Hl'. by case_bool_decide.
  - unfold initCommonLogFields, InitFieldsFromRequest, distributedTracingFields.
    assert (∀ names, tracing_loop names c (lr_Header req) = Ok c ∨
      tracing_loop names c (lr_Header req) = Panic nil_dereference) as Htr.
    { induction names as [|n names IH]; [by left|]. cbn [tracing_loop]. case_bool_decide.
      - right. by rewrite With_nil.
      - apply IH. }
    destruct (Htr distributedTracingIDs) as [-> | ->]; [|done]. cbn [mbind res_bind]. by rewrite With_nil.
Qed.

(** What a logrus line holds: under every key the last value it was given. *)
Lemma logrus_fields logger fields fs :
  with_fields (logrusLogger logger fields) fs = logrusLogger logger (list_to_map (rev fs) ∪ fields).
Proof.
  revert fields. induction fs as [|[k v] fs IH] using rev_ind; intros fields; cbn.
  - by rewrite left_id_L.
  - rewrite with_fields_app IH /= /logrusLogger_With withField_insert rev_unit /=. by rewrite insert_union_l.
Qed.

(** Setting a level gives a new logger and leaves every other one as it was, save for
    logrus: there the level of the shared logger changes, for every wrapper that was
    ever made of it, and the logger returned is the same. And a logger of pkg/log,
    the default one, only tells debug from the rest: the level error is the level
    info to it. *)
Theorem Logger_WithLevel_spec level l s :
  let '(l', s') := Logger_WithLevel level l s in
  match l with
  | pkgLogger fields =>
      s' = s ∧ l' = pkgLogger (SetVerboseMode (bool_decide (level = DebugLevel)) fields) ∧
      Logger_WithLevel ErrorLevel l s = Logger_WithLevel InfoLevel l s
  | zeroPkgLogger logger => s' = s ∧ l' = zeroPkgLogger (Z_WithLevel (zero_level level) logger)
  | logrusLogger logger fields =>
      l' = l ∧ s' !! logger = Some (logrus_level level) ∧
      (∀ other, other ≠ logger → s' !! other = s !! other) ∧
      (level ∈ [ErrorLevel; InfoLevel; DebugLevel] → logrus_level level = level) ∧
      (level ∉ [ErrorLevel; InfoLevel; DebugLevel] → logrus_level level = 0%Z)
  end.
Proof using Type.
  destruct l as [fields|logger|logger fields]; cbn; [done..|].
  split; [done|]. split; [apply lookup_insert_eq|]. split; [intros; by apply lookup_insert_ne|].
  unfold logrus_level, ErrorLevel, InfoLevel, DebugLevel.
  split; intros Hin; rewrite !elem_of_cons elem_of_nil in Hin; repeat case_bool_decide; lia.
Qed.
End logger_properties.

(** ** A request logged through logrus *)
Module LoggersExample.
#[export] Instance native : NativeLogs := {|
  NCtx := list (string * fval) * nat;
  Fields := list (string * fval); NoFields := [];
  Fields_With := λ k v f, f ++ [(k, v)]; SetVerboseMode := λ b f, f;
  Onto := λ f c, (f, c.2); FieldsFrom := fst;
  ZLogger := nat; ZLevel := nat; ZNoLevel := 0; ZErrorLevel := 3; ZInfoLevel := 1; ZDebugLevel := 0;
  Z_With := λ k v l, l; Z_WithLevel := λ lvl l, lvl; ToContext := λ l c, (c.1, l); FromContext := snd;
  Entry := unit
|}%nat.
#[export] Instance native_laws : NativeLogsLaws.
Proof. by split. Defined.
Definition no_native : @NCtx native := ([], 0%nat).
Definition ctx : LogContext := PutLogger (mkLogContext no_native None None) (NewLogrusLogger 1%positive).
Definition req : logged_request :=
  mk_logged_request {["X-B3-Spanid" := ["77"]]} "10.0.0.1:4242" "/pets" "GET".
Example logged :
  RequestTimer_Log ctx 503 1500 req =
    Ok (LogrusLine 1%positive (list_to_map [("X-B3-Spanid", FStr "77"); ("remote", FStr "10.0.0.1:4242");
        ("request", FStr "/pets"); ("method", FStr "GET"); ("status", FInt 503); ("took", FDuration 1500);
        ("latency", FStr "1500")])
      (SError (ErrText "invalid status: 503")) "request completed with error status").
Proof. vm_compute. reflexivity. Qed.
End LoggersExample.
#[local] Existing Instance LoggersExample.native.
#[local] Existing Instance LoggersExample.native_laws.

Lemma PutLogger_roundtrip_witness :
  GetLogger LoggersExample.ctx = Some (NewLogrusLogger 1%positive) ∧
  GetLogrusLoggerFromContext LoggersExample.ctx = Some 1%positive.
Proof.
  destruct (@PutLogger_roundtrip LoggersExample.native LoggersExample.native_laws
    (mkLogContext LoggersExample.no_native None None) (NewLogrusLogger 1%positive) LoggersExample.no_native)
    as (H1&_&_&H2). split; [exact H1|exact H2].
Defined.

Lemma RequestTimer_Log_spec_witness :
  RequestTimer_Log LoggersExample.ctx 0 7 (mk_logged_request ∅ "10.0.0.1:4242" "/" "PUT") =
    Ok (Logger_log (with_fields (NewLogrusLogger 1%positive)
          [("remote", FStr "10.0.0.1:4242"); ("request", FStr "/"); ("method", FStr "PUT");
           ("status", FInt 0); ("took", FDuration 7); ("latency", FStr "7")]) SInfo "Request completed").
Proof. exact (RequestTimer_Log_spec LoggersExample.ctx 0 7 (mk_logged_request ∅ "10.0.0.1:4242" "/" "PUT")). Defined.
