(* ===== verification/TestLogger.v ===== *)
(** * The logger of unit tests: src/testutil/test_util.go

    A logger that keeps what it is given: loggers derived from one another share one
    list of entries, which lives in a store. Then the options a test makes its
    context with. *)

From S2P Require Export Loggers.

Record TestLogEntry := mkTestLogEntry {
  te_Level : Z;
  te_Message : string;
  te_Error : option error;
  te_Fields : gmap string fval
}.

(** The pointers to [TestLogEntries]. *)
Definition entries_heap := gmap loc (list TestLogEntry).

Record TestLogger := mkTestLogger {
  tl_Level : Z;
  tl_Fields : gmap string fval;
  tl_entries : loc
}.

Definition NewTestLogger (h : entries_heap) : TestLogger * entries_heap :=
  let p := fresh (dom h) in (mkTestLogger InfoLevel ∅ p, <[p := []]> h).

Definition TestLogger_Entries (l : TestLogger) (h : entries_heap) : list TestLogEntry :=
  default [] (h !! tl_entries l).
Definition EntryCount (l : TestLogger) (h : entries_heap) : nat := length (TestLogger_Entries l h).
Definition LastEntry (l : TestLogger) (h : entries_heap) : option TestLogEntry := list.last (TestLogger_Entries l h).

Definition copyFields (l : TestLogger) : gmap string fval :=
  map_fold (λ key value fields, <[key := value]> fields) ∅ (tl_Fields l).

Definition TestLogger_log (level : Z) (err : option error) (message : string) (l : TestLogger) (h : entries_heap) : entries_heap :=
  if bool_decide (tl_Level l >= level)%Z
  then <[tl_entries l := TestLogger_Entries l h ++ [mkTestLogEntry level message err (copyFields l)]]> h
  else h.
Definition TestLogger_Error (err : error) := TestLogger_log ErrorLevel (Some err).
Definition TestLogger_Info := TestLogger_log InfoLevel None.
Definition TestLogger_Debug := TestLogger_log DebugLevel None.

(** [withField], and with it [WithStr], [WithInt] and [WithDuration]. *)
Definition TestLogger_withField (key : string) (value : fval) (l : TestLogger) : TestLogger :=
  mkTestLogger (tl_Level l) (<[key := value]> (copyFields l)) (tl_entries l).
Definition TestLogger_WithLevel (level : Z) (l : TestLogger) : TestLogger :=
  mkTestLogger level (tl_Fields l) (tl_entries l).

(** ** The context of a test *)

(** The logger that [log.PutLogger] put in; [Inject] gives this very logger back. *)
Record TestContext := mkTestContext { tc_ctx : Context; tc_logger : TestLogger }.

Inductive TestContextOpt :=
| withLogLevel (level : Z)
| withConfig (cfg : DefaultConfig)
| withLogPayload (log : bool).

Definition set_LogPayload (log : bool) (cfg : DefaultConfig) : DefaultConfig :=
  let lib := cfg_Library cfg in
  let lc := lib_Log lib in
  mkDefaultConfig
    (mkLibraryConfig (mkLogConfig (log_Format lc) (log_Level lc) (log_ReportCaller lc) log)
       (lib_Profiling lib) (lib_Health lib) (lib_Authentication lib) (lib_Trace lib))
    (cfg_Admin cfg) (cfg_GenCode cfg) (cfg_Development cfg).

(** The configuration is the test's own, changed in place: the context is given its
    new value. *)
Definition Apply (o : TestContextOpt) (c : TestContext) : TestContext :=
  match o with
  | withLogLevel level => mkTestContext (tc_ctx c) (TestLogger_WithLevel level (tc_logger c))
  | withConfig cfg => mkTestContext (PutDefaultConfig (tc_ctx c) cfg) (tc_logger c)
  | withLogPayload log =>
      let cfg := default zero_DefaultConfig (GetDefaultConfig (tc_ctx c)) in
      mkTestContext (PutDefaultConfig (tc_ctx c) (set_LogPayload log cfg)) (tc_logger c)
  end.

Definition NewTestContextWithLogger (opts : list TestContextOpt) (h : entries_heap) : TestContext * entries_heap :=
  let '(l, h) := NewTestLogger h in
  (foldl (λ ctx o, Apply o ctx) (mkTestContext Background l) opts, h).

(** * Every logger of a family adds to the one list *)

(** What a test does with a logger and those it derives, each known by the position
    at which it was made. *)
Inductive logger_op :=
| OpWith (i : nat) (key : string) (value : fval)
| OpWithLevel (i : nat) (level : Z)
| OpLog (i : nat) (level : Z) (err : option error) (message : string).

Definition run_logger_op (st : list TestLogger * entries_heap) (op : logger_op) : list TestLogger * entries_heap :=
  let '(ls, h) := st in
  match op with
  | OpWith i key value => (match ls !! i with Some l => ls ++ [TestLogger_withField key value l] | None => ls end, h)
  | OpWithLevel i level => (match ls !! i with Some l => ls ++ [TestLogger_WithLevel level l] | None => ls end, h)
  | OpLog i level err message =>
      (ls, match ls !! i with Some l => TestLogger_log level err message l h | None => h end)
  end.

(** Without loggers and stores: a level, and the fields in the order they were added. *)
Notation family := (list (Z * list (string * fval))).
Definition fields_of (path : list (string * fval)) : gmap string fval :=
  foldl (λ m kv, <[kv.1 := kv.2]> m) ∅ path.
Definition entry_of (member : Z * list (string * fval)) (level : Z) (err : option error) (message : string) : list TestLogEntry :=
  if bool_decide (level <= member.1)%Z then [mkTestLogEntry level message err (fields_of member.2)] else [].
Definition family_op (st : family * list TestLogEntry) (op : logger_op) : family * list TestLogEntry :=
  let '(ms, es) := st in
  match op with
  | OpWith i key value => (match ms !! i with Some m => ms ++ [(m.1, m.2 ++ [(key, value)])] | None => ms end, es)
  | OpWithLevel i level => (match ms !! i with Some m => ms ++ [(level, m.2)] | None => ms end, es)
  | OpLog i level err message =>
      (ms, es ++ match ms !! i with Some m => entry_of m level err message | None => [] end)
  end.

Lemma copyFields_id l : copyFields l = tl_Fields l.
Proof. unfold copyFields. apply (map_fold_weak_ind (λ r m, r = m)); [done|]. by intros k x m r _ ->. Qed.

Lemma fields_of_snoc path key value : fields_of (path ++ [(key, value)]) = <[key := value]> (fields_of path).
Proof. unfold fields_of. by rewrite foldl_snoc. Qed.

(** The member of the family that a logger is, with its list at [p]. *)
Definition logger_of (p : loc) (m : Z * list (string * fval)) : TestLogger := mkTestLogger m.1 (fields_of m.2) p.

Lemma lookup_loggers p (ms : family) i : (logger_of p <$> ms) !! i = logger_of p <$> ms !! i.
Proof. apply list_lookup_fmap. Qed.

Lemma run_family_op p h0 ms es op :
  h0 !! p = None →
  run_logger_op (logger_of p <$> ms, <[p := es]> h0) op =
    let '(ms', es') := family_op (ms, es) op in (logger_of p <$> ms', <[p := es']> h0).
Proof.
  intros Hp. destruct op as [i key value|i level|i level err message]; cbn; rewrite lookup_loggers.
  - destruct (ms !! i) as [m|]; [|done]. rewrite /= fmap_app /= /TestLogger_withField copyFields_id.
    by rewrite /logger_of /= fields_of_snoc.
  - destruct (ms !! i) as [m|]; [|done]. by rewrite /= fmap_app.
  - destruct (ms !! i) as [m|]; cbn; [|by rewrite app_nil_r].
    unfold TestLogger_log, entry_of, TestLogger_Entries. cbn. rewrite copyFields_id lookup_insert_eq insert_insert_eq /=.
    destruct (decide (level <= m.1)%Z); [rewrite !bool_decide_true|rewrite !bool_decide_false]; rewrite ?app_nil_r //; lia.
Qed.

(** Whatever a test logs through a logger and those it derives from it, by fields or
    by level, is found in order in the one list they share, with the fields of the
    logger it went through, the last value of each, and nothing above that logger's
    level; the lists of other loggers stay as they are. *)
Theorem TestLogger_shares_entries ops h :
  let '(l0, h0) := NewTestLogger h in
  let '(ls, h') := foldl run_logger_op ([l0], h0) ops in
  let '(ms, es) := foldl family_op ([(InfoLevel, [])], []) ops in
  Forall (λ l, TestLogger_Entries l h' = es) ls ∧
  ls = logger_of (tl_entries l0) <$> ms ∧
  ∀ p, p ≠ tl_entries l0 → h' !! p = h !! p.
Proof.
  unfold NewTestLogger. set (p := fresh (dom h)). assert (h !! p = None) as Hp by apply not_elem_of_dom, is_fresh.
  assert (∀ ms es, foldl run_logger_op (logger_of p <$> ms, <[p := es]> h) ops =
    let '(ms', es') := foldl family_op (ms, es) ops in (logger_of p <$> ms', <[p := es']> h)) as Hrun.
  { induction ops as [|op ops IH]; intros ms es; [done|]. cbn [foldl]. rewrite run_family_op //.
    destruct (family_op (ms, es) op). apply IH. }
  specialize (Hrun [(InfoLevel, [])] []). cbn [fmap list_fmap] in Hrun.
  change (logger_of p (InfoLevel, [])) with (mkTestLogger InfoLevel ∅ p) in Hrun. rewrite Hrun.
  destruct (foldl family_op _ ops) as [ms es]. split; [|split; [done|]].
  - apply list.Forall_fmap, list.Forall_true. intros m. unfold TestLogger_Entries. cbn. by rewrite lookup_insert_eq.
  - intros q Hq. by rewrite lookup_insert_ne.
Qed.

(** A test whose logger is derived twice. *)
Example derived_loggers :
  let '(l, h) := NewTestLogger ∅ in
  let '(ls, h) := foldl run_logger_op ([l], h)
    [OpWith 0 "id" (FInt 1); OpWithLevel 1 ErrorLevel; OpLog 1 InfoLevel None "one";
     OpLog 2 InfoLevel None "not logged"; OpLog 2 ErrorLevel (Some ErrCanceled) "two"; OpLog 0 DebugLevel None "not either"] in
  map te_Message (TestLogger_Entries l h) = ["one"; "two"] ∧
  map (λ e, te_Fields e !! "id") (TestLogger_Entries l h) = [Some (FInt 1); Some (FInt 1)].
Proof. split; vm_compute; reflexivity. Qed.
