(* ===== verification/Http.v ===== *)
(** * HTTP requests, handlers and middleware

    A handler runs on a request and a response writer, and on a state [S] that
    holds everything reachable through pointers it shares with others. *)

From S2P Require Export Context.

Record Request := mkRequest {
  req_ctx : Context;
  req_Method : string;
  req_URL : string;
  req_Header : Header;
  req_Body : string
}.

Definition WithContext (ctx : Context) (r : Request) : Request :=
  mkRequest ctx (req_Method r) (req_URL r) (req_Header r) (req_Body r).

(** [http.Handler]: the state and the writer it leaves, and whether it
    returned or panicked. *)
Definition Handler (S : Type) := Request → S → RW → S * RW * res ().

Definition Middleware (S : Type) := Handler S → Handler S.

(** The router of package [chi] runs the middleware it was given in order: the
    first one is outermost. *)
Definition chain {S} (ms : list (Middleware S)) (h : Handler S) : Handler S :=
  foldr (λ m h, m h) h ms.

Lemma chain_app {S} (ms ms' : list (Middleware S)) h : chain (ms ++ ms') h = chain ms (chain ms' h).
Proof. apply foldr_app. Qed.
