(* ===== verification/Support.v ===== *)
(** * The status endpoint and small parts that others lean on: src/status/status.go,
    src/common/regex.go, src/database/dbconnection.go, src/restlib/mock.go

    The encoder of JSON, the two regular expression libraries and the database driver
    are parameters. *)

From S2P Require Export Http.

(** ** status.go *)

Record BuildMetadata := mkBuildMetadata {
  bm_Name : string; bm_Version : string; bm_BuildID : string;
  bm_CommitSha : string; bm_BranchName : string; bm_TagName : string
}.
Definition BuildMetadata_String (m : BuildMetadata) : string :=
  bm_Name m +:+ " version=" +:+ bm_Version m +:+ " build=" +:+ bm_BuildID m +:+
  " commit=" +:+ bm_CommitSha m +:+ " branch=" +:+ bm_BranchName m +:+ " tag=" +:+ bm_TagName m.

(** A service's name and its configuration, any Go value. *)
Record ServiceStatus := mkServiceStatus { ss_Name : string; ss_Config : value }.
Record ResponseConfig := mkResponseConfig { rc_Core : option LibraryConfig; rc_Services : list ServiceStatus }.
Record Response := mkResponse { rsp_BuildMetadata : BuildMetadata; rsp_Config : ResponseConfig; rsp_Status : string }.
Record Service := mkService {
  sv_BuildMetadata : option BuildMetadata;
  sv_Config : option LibraryConfig;
  sv_Services : list ServiceStatus   (* Name() and Config() of each *)
}.

Definition buildResponseConfig (s : Service) : ResponseConfig :=
  mkResponseConfig (sv_Config s)
    (foldl (λ services service, services ++ [mkServiceStatus (ss_Name service) (ss_Config service)]) [] (sv_Services s)).

Definition status_response (s : Service) : res Response :=
  metadata ← deref (sv_BuildMetadata s);
  Ok (mkResponse metadata (buildResponseConfig s) "online").

Section status.
Context {S : Type} (Encode : Response → error + string).

Definition HandleGetStatus (s : Service) : Handler S := λ _ st rw,
  match status_response s with
  | Ok response =>
      match Encode response with
      | inl err => (st, rw, Panic (PanicError err))
      | inr buffer =>
          (st, rw_write buffer (rw_set_header "Content-Type" "application/json;charset=UTF-8" rw), Ok ())
      end
  | Err e => (st, rw, Err e)
  | Panic p => (st, rw, Panic p)
  end.

(** The status endpoint answers with one document that lists every service in
    order; if that cannot be encoded, or the metadata are missing, it panics before it
    has written anything, so that the recoverer can still answer. *)
Theorem HandleGetStatus_spec s r st rw :
  let '(st', rw', out) := HandleGetStatus s r st rw in
  st' = st ∧
  match sv_BuildMetadata s with
  | None => out = Panic nil_dereference ∧ rw' = rw
  | Some m =>
      match Encode (mkResponse m (mkResponseConfig (sv_Config s) (sv_Services s)) "online") with
      | inl err => out = Panic (PanicError err) ∧ rw' = rw
      | inr doc => out = Ok () ∧ rw_calls rw' = rw_calls rw ++ [CallWrite doc] ∧
                   header_get (rw_header rw') "content-type" = "application/json;charset=UTF-8"
      end
  end.
Proof.
  assert (∀ l acc, foldl (λ services service, services ++ [mkServiceStatus (ss_Name service) (ss_Config service)]) acc l
    = acc ++ l) as Hservices.
  { induction l as [|[n c] l IH]; intros acc; cbn; [by rewrite app_nil_r|]. by rewrite IH -app_assoc. }
  unfold HandleGetStatus, status_response, buildResponseConfig. rewrite Hservices /=.
  destruct (sv_BuildMetadata s); cbn; [|done]. destruct (Encode _); cbn; [done|].
  do 3 (split; [done|]).
  change (header_get ?h "content-type") with (header_get h (str_map lower_byte "Content-Type")).
  unfold header_get. rewrite CanonicalHeaderKey_lower //. by rewrite lookup_insert_eq.
Qed.
End status.

(** ** regex.go *)
Section regex.
Context {Re Re2 : Type} (regexp_Compile : string → error + Re) (regexp2_Compile : string → error + Re2)
  (Re_MatchString : Re → string → bool) (Re2_MatchString : Re2 → string → error + bool).

Record RegexWithFallBack := mkRegexWithFallBack { stdLibRe : option Re; re2 : option Re2 }.

Definition RegexWithFallbackMustCompile (str : string) : res RegexWithFallBack :=
  match regexp_Compile str with
  | inr re => Ok (mkRegexWithFallBack (Some re) None)
  | inl _ =>
      match regexp2_Compile str with
      | inl err => Panic (PanicError err)
      | inr re => Ok (mkRegexWithFallBack None (Some re))
      end
  end.

Definition RegexWithFallBack_MatchString (r : RegexWithFallBack) (s : string) : res bool :=
  match stdLibRe r with
  | Some re => Ok (Re_MatchString re s)
  | None =>
      re ← deref (re2 r);
      match Re2_MatchString re s with
      | inl err => Panic (PanicError (ErrWrap "regexWithFallBack: " err))
      | inr ret => Ok ret
      end
  end.

(** What was compiled is matched by the standard library if it can be, and otherwise
    by the other one, whose only error becomes a panic: never a nil dereference. *)
Theorem RegexWithFallback_spec str r s :
  RegexWithFallbackMustCompile str = Ok r →
  match regexp_Compile str with
  | inr re => RegexWithFallBack_MatchString r s = Ok (Re_MatchString re s)
  | inl _ => ∃ re, regexp2_Compile str = inr re ∧
      RegexWithFallBack_MatchString r s =
        match Re2_MatchString re s with inr b => Ok b | inl err => Panic (PanicError (ErrWrap "regexWithFallBack: " err)) end
  end.
Proof.
  unfold RegexWithFallbackMustCompile. destruct (regexp_Compile str) as [err|re]; [|by intros [= <-]].
  destruct (regexp2_Compile str) as [|re]; [done|]. intros [= <-]. by exists re.
Qed.
End regex.

(** ** dbconnection.go *)
Section database.
Context {DB : Type} (Open : error + DB) (Exec : string → DB → error + DB).

(** [batch] is the list of statements in the source. *)
Fixpoint exec_batch (batch : list string) (db : DB) : res DB :=
  match batch with
  | [] => Ok db
  | b :: batch => match Exec b db with inl err => Err err | inr db => exec_batch batch db end
  end.
Definition company_table : string :=
  "CREATE TABLE company (abnnumber VARCHAR(50) PRIMARY KEY,companyname VARCHAR(50) ,companycountry VARCHAR(50));".
Definition department_table : string :=
  "CREATE TABLE department (deptid INTEGER PRIMARY KEY,deptname VARCHAR(50) ,deptloc VARCHAR(50) ,abn VARCHAR(50));".
Definition insert_company (abn name country : string) : string :=
  "insert into company(abnnumber,companyname,companycountry) values('" +:+ abn +:+ "','" +:+ name +:+ "','" +:+ country +:+ "');".
Definition insert_department (id name loc abn : string) : string :=
  "insert into department(deptid,deptname,deptloc,abn) values(" +:+ id +:+ ",'" +:+ name +:+ "','" +:+ loc +:+ "'," +:+ abn +:+ ");".
Definition batch : list string :=
  [company_table; department_table;
   insert_company "1" "ANZ" "AU"; insert_company "2" "NAB" "AU"; insert_company "3" "CBA" "AU";
   insert_company "4" "STG" "NZ"; insert_company "5" "BOM" "NZ";
   insert_department "1" "FINANCE" "MELB" "1"; insert_department "2" "HR" "SYD" "1";
   insert_department "3" "IT" "SYD" "1"; insert_department "4" "POSTAL" "MELB" "1";
   insert_department "5" "FINANCE" "SYD" "1"; insert_department "6" "IT" "MELB" "1";
   insert_department "7" "POSTAL" "MELB" "1"; insert_department "8" "TRAVEL" "SYD" "1"].
Definition GetDBHandle : res DB :=
  match Open with inl err => Err err | inr db => exec_batch batch db end.
End database.

(** ** mock.go: a response writer that remembers the last call *)

Record responseWriter := mk_responseWriter {
  LastBody : string; LastStatus : Z; mrw_header : option Header; mrw_err : option error
}.
Definition new_responseWriter : responseWriter := mk_responseWriter "" 0 None None.
Definition mrw_Err (err : option error) (m : responseWriter) : responseWriter :=
  mk_responseWriter (LastBody m) (LastStatus m) (mrw_header m) err.
(** The header is made when it is first asked for. *)
Definition mrw_Header (m : responseWriter) : Header * responseWriter :=
  let h := default ∅ (mrw_header m) in (h, mk_responseWriter (LastBody m) (LastStatus m) (Some h) (mrw_err m)).
Definition mrw_WriteHeader (status : Z) (m : responseWriter) : responseWriter :=
  mk_responseWriter (LastBody m) status (mrw_header m) (mrw_err m).
Definition mrw_Write (b : string) (m : responseWriter) : responseWriter * (nat * option error) :=
  (mk_responseWriter b (LastStatus m) (mrw_header m) (mrw_err m), (String.length b, mrw_err m)).

(** What a handler writes to the mock is what it would write to a connection: the
    mock has the last status and the last body of the calls. *)
Definition mrw_call (m : responseWriter) (c : rwcall) : responseWriter :=
  match c with CallWriteHeader code _ => mrw_WriteHeader code m | CallWrite b => (mrw_Write b m).1 end.
Lemma mock_writer_spec calls m :
  let m' := foldl mrw_call m calls in
  LastStatus m' = default (LastStatus m) (list.last (omap (λ c, match c with CallWriteHeader s _ => Some s | _ => None end) calls)) ∧
  LastBody m' = default (LastBody m) (list.last (omap (λ c, match c with CallWrite b => Some b | _ => None end) calls)).
Proof.
  cbn zeta. induction calls as [|c calls [IH1 IH2]] using rev_ind; [done|].
  rewrite foldl_snoc !omap_app /=. destruct c; cbn; by rewrite ?last_snoc ?app_nil_r.
Qed.

Lemma RegexWithFallback_spec_witness :
  let compile (s : string) := if bool_decide (s = "(?=a)") then inl (ErrText "lookahead") else inr s : error + string in
  ∃ r, RegexWithFallbackMustCompile compile (λ s, inr s) "(?=a)" = Ok r ∧
       RegexWithFallBack_MatchString (λ _ _, false) (λ re s, inr (Contains s "a")) r "banana" = Ok true.
Proof.
  intros compile. eexists. split; [reflexivity|].
  destruct (RegexWithFallback_spec compile (λ s, inr s) (λ _ _, false) (λ re s, inr (Contains s "a"))
    "(?=a)" _ "banana" eq_refl) as (re&_&Hr). exact Hr.
Defined.
