(* ===== verification/CommonErrors.v ===== *)
(** * Errors and error responses: src/common

    Error kinds, construction of errors (errors.go), mapping to an HTTP error
    and handling (error_handler.go, custom_error.go), the response that is
    written (http_error_response_writer.go) and the callback with its defaults
    (defaultcallback.go). *)

From S2P Require Export Http.

(** ** errors.go *)

Definition UnknownError : Z := 0.
Definition BadRequestError : Z := 1.
Definition InternalError : Z := 2.
Definition UnauthorizedError : Z := 3.
Definition DownstreamUnavailableError : Z := 4.
Definition DownstreamTimeoutError : Z := 5.
Definition DownstreamUnauthorizedError : Z := 6.
Definition DownstreamUnexpectedResponseError : Z := 7.
Definition DownstreamResponseError : Z := 8.

Definition downstreamResponseSnippetMaxLength : nat := 128.

Definition Kind_String (k : Z) : string :=
  if bool_decide (k = BadRequestError) then "Missing one or more of the required parameters"
  else if bool_decide (k = InternalError) then "Internal Server Error"
  else if bool_decide (k = UnauthorizedError) then "Unauthorized error"
  else if bool_decide (k = DownstreamUnavailableError) then "Downstream system is unavailable"
  else if bool_decide (k = DownstreamTimeoutError) then "Time out from down stream services"
  else if bool_decide (k = DownstreamUnauthorizedError) then "Unauthorized error from downstream services"
  else if bool_decide (k = DownstreamUnexpectedResponseError) then "Unexpected response from downstream services"
  else if bool_decide (k = DownstreamResponseError) then "Error response from downstream services"
  else "Internal Server Error".

(** The type assertion [err.(ErrorKinder)], and what its method returns. *)
Definition ErrorKinder (e : error) : option Z :=
  match e with
  | ErrServer kind _ _ => Some kind
  | ErrDownstream kind _ _ _ _ _ => Some kind
  | ErrForeign _ kind _ _ => kind
  | _ => None
  end.

(** The type assertion [err.(ErrorWriter)]. *)
Definition ErrorWriter (e : error) : option (RW → bool * RW) :=
  match e with ErrForeign _ _ _ w => w | _ => None end.

Definition is_deadline_exceeded (ctx : Context) : bool :=
  match ctx_Err ctx with Some ErrDeadlineExceeded => true | _ => false end.

Definition CheckContextTimeout (ctx : Context) (message : string) (cause : option error) : option error :=
  if is_deadline_exceeded ctx then Some (ErrServer DownstreamTimeoutError message cause) else None.

(** The type switch of [CreateError]: errors that are passed through. *)
Definition passes_through (e : error) : bool :=
  match e with
  | ErrCustom _ | ErrWrapped _ _ => true
  | _ => bool_decide (is_Some (ErrorKinder e))
  end.

Definition CreateError (ctx : Context) (kind : Z) (message : string) (cause : option error) : error :=
  match CheckContextTimeout ctx message cause with
  | Some err => err
  | None =>
    match cause with
    | Some c => if passes_through c then c else ErrServer kind message cause
    | None => ErrServer kind message cause
    end
  end.

(** The fields of an [*http.Response] and of its request that an error shows. *)
Record Response := mkResponse {
  resp_Method : string;
  resp_URL : string;
  resp_StatusCode : Z
}.

Definition CreateDownstreamError (ctx : Context) (kind : Z) (response : Response) (body : string)
    (cause : option error) : error :=
  match CheckContextTimeout ctx (resp_Method response +:+ " " +:+ resp_URL response) cause with
  | Some err => err
  | None =>
    let snippet :=
      if bool_decide (downstreamResponseSnippetMaxLength < String.length body)%nat
      then str_take downstreamResponseSnippetMaxLength body else body in
    ErrDownstream kind (resp_Method response) (resp_URL response) (resp_StatusCode response) snippet cause
  end.

(** Errors about one request header, identified up to canonical case. *)
Record ZeroHeaderLengthError := mkZeroHeaderLengthError { zhl_paramCanonical : string }.
Definition NewZeroHeaderLengthError (param : string) : ZeroHeaderLengthError :=
  mkZeroHeaderLengthError (CanonicalHeaderKey param).
Definition ZeroHeaderLengthError_Error (e : ZeroHeaderLengthError) : string :=
  zhl_paramCanonical e +:+ " header length is zero".
Definition ZeroHeaderLengthError_CausedByParam (e : ZeroHeaderLengthError) (param : string) : bool :=
  bool_decide (zhl_paramCanonical e = CanonicalHeaderKey param).

Record InvalidHeaderError := mkInvalidHeaderError { ih_paramCanonical : string; ih_cause : option error }.
Definition NewInvalidHeaderError (param : string) (cause : option error) : InvalidHeaderError :=
  mkInvalidHeaderError (CanonicalHeaderKey param) cause.
Definition InvalidHeaderError_Error (e : InvalidHeaderError) : string :=
  ih_paramCanonical e +:+ " header is invalid according to the spec".
Definition InvalidHeaderError_CausedByParam (e : InvalidHeaderError) (param : string) : bool :=
  bool_decide (ih_paramCanonical e = CanonicalHeaderKey param).
Definition InvalidHeaderError_GetCause (e : InvalidHeaderError) : option error := ih_cause e.

(** ** http_error_response_writer.go *)

Record HTTPError := mkHTTPError {
  he_HTTPCode : Z;
  he_Code : string;
  he_Description : string;
  he_extraFields : gmap string value (* nil and empty behave alike *)
}.

Definition AddField (h : HTTPError) (key : string) (val : value) : HTTPError :=
  mkHTTPError (he_HTTPCode h) (he_Code h) (he_Description h) (<[key := val]> (he_extraFields h)).

Definition GetField (h : HTTPError) (key : string) : value :=
  default VNil (he_extraFields h !! key).

(** What is marshalled under [status]: the struct, whose empty fields are
    omitted, or the map of the extra fields. *)
Inductive marshal_target :=
| TargetStruct (code description : string)
| TargetFields (fields : gmap string value).

Definition target_encodable (t : marshal_target) : bool :=
  match t with
  | TargetStruct _ _ => true
  | TargetFields fields => bool_decide (map_Forall (λ _ v, json_encodable v = true) fields)
  end.

(** The literal, with its double quotes written as single ones. *)
Definition fallback_body : string :=
  str_map (λ c, if bool_decide (c = "'"%char) then "034"%char else c)
    "{'status':{'code': '1234', 'description': 'Unknown Error'}}".

Definition set_nonempty (key val : string) (fields : gmap string value) : gmap string value :=
  if bool_decide (val ≠ "") then <[key := VString val]> fields else fields.

Definition error_target (h : HTTPError) : marshal_target :=
  if bool_decide (he_extraFields h = ∅) then TargetStruct (he_Code h) (he_Description h)
  else TargetFields (set_nonempty "description" (he_Description h)
                       (set_nonempty "code" (he_Code h) (he_extraFields h))).

(** [json_text] is the text [json.Marshal] gives for an encodable target. *)
Definition HTTPError_WriteError (json_text : marshal_target → string) (h : HTTPError) (w : RW) : RW :=
  let target := error_target h in
  let '(code, b) := if target_encodable target then (he_HTTPCode h, json_text target)
                    else (StatusInternalServerError, fallback_body) in
  rw_write b (rw_write_header code
    (rw_set_header "Content-Type" "application/json;charset=UTF-8" w)).

(** ** custom_error.go *)

Definition getOrDefault (m : gmap string string) (key dflt : string) : string :=
  match m !! key with Some value => value | None => dflt end.

Definition CustomError_HTTPError (e : gmap string string) : HTTPError :=
  let httpStatusString := getOrDefault e "http_status" "500" in
  let httpStatus := match Atoi httpStatusString with
                    | Some n => n
                    | None => StatusInternalServerError
                    end in
  mkHTTPError httpStatus (getOrDefault e "http_code" "") (getOrDefault e "http_message" "") ∅.

(** ** error_handler.go *)

Definition missingParam : string := "Missing one or more of the required parameters".
Definition internalServerError : string := "Internal Server Error".
Definition unauthorizedError : string := "Unauthorized error".
Definition downstreamUnavailable : string := "Downstream system is unavailable".
Definition timeoutDownstream : string := "Time out from down stream services".
Definition unknownError : string := "Unknown Error".

Definition kind_HTTPError (kind : Z) : HTTPError :=
  if bool_decide (kind = BadRequestError) then mkHTTPError 400 "1001" missingParam ∅
  else if bool_decide (kind = InternalError) then mkHTTPError 500 "9998" internalServerError ∅
  else if bool_decide (kind = UnauthorizedError) then mkHTTPError 401 "1003" unauthorizedError ∅
  else if bool_decide (kind = DownstreamUnavailableError) then mkHTTPError 503 "1013" downstreamUnavailable ∅
  else if bool_decide (kind = DownstreamTimeoutError) then mkHTTPError 504 "1005" timeoutDownstream ∅
  else mkHTTPError 500 "9999" unknownError ∅.

Definition MapError (ctx : Context) (err : error) : HTTPError :=
  match ErrorKinder err with
  | Some kind => kind_HTTPError kind
  | None =>
      if is_deadline_exceeded ctx then mkHTTPError 504 "1005" timeoutDownstream ∅
      else mkHTTPError 500 "9999" unknownError ∅
  end.

(** A hook: a function that may be nil. *)
Definition ErrorMapper := Context → error → option HTTPError.
Definition HTTPErrorWriter := Context → HTTPError → RW → RW.

Definition resolveErrorAsHTTPError (ctx : Context) (httpErrorMapper : option ErrorMapper) (err : error) :
    HTTPError :=
  match httpErrorMapper ≫= (λ f, f ctx err) with
  | Some httpError => httpError
  | None =>
    match err with
    | ErrCustom t => CustomError_HTTPError t
    | _ => MapError ctx err
    end
  end.

(** [Cfg] is what may be put in [UpstreamConfig], [R] a [chi.Router]. *)
Record Callback (Cfg R : Type) := mkCallback {
  cb_DownstreamTimeout : Z;
  cb_RouterBasePath : string;
  cb_UpstreamConfig : Cfg;
  cb_MapErrorFunc : option ErrorMapper;
  cb_WriteErrorFunc : option HTTPErrorWriter;
  cb_AddMiddlewareFunc : option (Context → R → R)
}.
Arguments mkCallback {Cfg R}.
Arguments cb_DownstreamTimeout {Cfg R}.
Arguments cb_RouterBasePath {Cfg R}.
Arguments cb_UpstreamConfig {Cfg R}.
Arguments cb_MapErrorFunc {Cfg R}.
Arguments cb_WriteErrorFunc {Cfg R}.
Arguments cb_AddMiddlewareFunc {Cfg R}.

Section handle.
Context (json_text : marshal_target → string).

(** The part of [HandleError] after the type assertion for [ErrorWriter]. *)
Definition handle_mapped (ctx : Context) (w : RW) (kind : Z) (message : string) (cause : option error)
    (httpErrorMapper : option ErrorMapper) (httpErrorWriter : option HTTPErrorWriter) : RW :=
  let '(err, fields) :=
    match cause with
    | Some (ErrWrapped e fields) => (CreateError ctx kind message (Some e), fields)
    | _ => (CreateError ctx kind message cause, [])
    end in
  let httpError := foldl (λ h f, AddField h f.1 f.2)
                     (resolveErrorAsHTTPError ctx httpErrorMapper err) fields in
  match httpErrorWriter with
  | Some f => f ctx httpError w
  | None => HTTPError_WriteError json_text httpError w
  end.

Definition HandleError (ctx : Context) (w : RW) (kind : Z) (message : string) (cause : option error)
    (httpErrorMapper : option ErrorMapper) (httpErrorWriter : option HTTPErrorWriter) : RW :=
  match cause ≫= ErrorWriter with
  | Some write =>
      let '(handled, w') := write w in
      if handled then w'
      else handle_mapped ctx w' kind message cause httpErrorMapper httpErrorWriter
  | None => handle_mapped ctx w kind message cause httpErrorMapper httpErrorWriter
  end.

(** ** defaultcallback.go *)

Definition DefaultCallback {R} : Callback () R := mkCallback (120 * Second) "/" () None None None.

Definition Callback_AddMiddleware {Cfg R} (g : Callback Cfg R) (ctx : Context) (r : R) : R :=
  match cb_AddMiddlewareFunc g with Some f => f ctx r | None => r end.
Definition Callback_BasePath {Cfg R} (g : Callback Cfg R) : string := cb_RouterBasePath g.
Definition Callback_Config {Cfg R} (g : Callback Cfg R) : Cfg := cb_UpstreamConfig g.

Definition Callback_MapError {Cfg R} (g : Callback Cfg R) : ErrorMapper := λ ctx err,
  match cb_MapErrorFunc g with None => None | Some f => f ctx err end.

Definition Callback_WriteError {Cfg R} (g : Callback Cfg R) : HTTPErrorWriter := λ ctx httpError w,
  match cb_WriteErrorFunc g with
  | None => HTTPError_WriteError json_text httpError w
  | Some f => f ctx httpError w
  end.

(** [HandleError] of the callback: the method [WriteError] is called on
    whatever [MapError] returns, nil included. *)
Definition Callback_HandleError {Cfg R} (g : Callback Cfg R) (ctx : Context) (w : RW) (kind : Z)
    (message : string) (cause : option error) : res RW :=
  let se := CreateError ctx kind message cause in
  httpError ← deref (Callback_MapError g ctx se);
  Ok (HTTPError_WriteError json_text httpError w).

Definition NewCallbackV3 {R} (config : GenCodeConfig) (downstreamTimeOut : Z)
    (mapError : option ErrorMapper) (writeError : option HTTPErrorWriter)
    (addMiddleware : option (Context → R → R)) : Callback UpstreamConfig R :=
  mkCallback downstreamTimeOut (hsc_BasePath (up_HTTP (gen_Upstream config))) (gen_Upstream config)
    mapError writeError addMiddleware.

Definition NewCallbackV2 {R} (config : GenCodeConfig) (downstreamTimeOut : Z)
    (mapError : option ErrorMapper) (addMiddleware : option (Context → R → R)) :
    Callback UpstreamConfig R :=
  mkCallback downstreamTimeOut (hsc_BasePath (up_HTTP (gen_Upstream config))) (gen_Upstream config)
    mapError None addMiddleware.

Definition NewCallback {R} (config : GenCodeConfig) (downstreamTimeOut : Z)
    (mapError : option ErrorMapper) : Callback UpstreamConfig R :=
  NewCallbackV2 config downstreamTimeOut mapError None.
End handle.

(** ** The response to an error *)

(** The specification: an HTTP status and the error code shown, by kind. *)
Definition kind_status (kind : Z) : Z :=
  default 500%Z ((list_to_map [(BadRequestError, 400%Z); (InternalError, 500%Z);
    (UnauthorizedError, 401%Z); (DownstreamUnavailableError, 503%Z);
    (DownstreamTimeoutError, 504%Z)] : gmap Z Z) !! kind).

Lemma kind_HTTPError_status kind :
  he_HTTPCode (kind_HTTPError kind) = kind_status kind ∧ he_extraFields (kind_HTTPError kind) = ∅.
Proof.
  unfold kind_HTTPError. repeat (case_bool_decide; [subst kind; split; vm_compute; reflexivity|]).
  split; [|done]. unfold kind_status. rewrite not_elem_of_list_to_map_1 //.
  rewrite !fmap_cons /= !not_elem_of_cons. split_and!; try done. apply not_elem_of_nil.
Qed.

(** The error [HandleError] maps: the wrapped one, or the cause itself. *)
Definition unwrapped (cause : option error) : option error * list (string * value) :=
  match cause with
  | Some (ErrWrapped e fields) => (Some e, fields)
  | _ => (cause, [])
  end.

(** The status of the default response. *)
Definition spec_status (ctx : Context) (kind : Z) (cause : option error) : Z :=
  if is_deadline_exceeded ctx then 504%Z
  else match cause with
       | None => kind_status kind
       | Some e =>
         match ErrorKinder e, e with
         | Some k, _ => kind_status k
         | None, ErrCustom t => he_HTTPCode (CustomError_HTTPError t)
         | None, ErrWrapped _ _ => 500%Z
         | None, _ => kind_status kind
         end
       end.

Lemma MapError_kind ctx e k : ErrorKinder e = Some k → MapError ctx e = kind_HTTPError k.
Proof. unfold MapError. by intros ->. Qed.

Lemma resolve_default_status ctx kind message cause :
  he_HTTPCode (resolveErrorAsHTTPError ctx None (CreateError ctx kind message cause)) =
  spec_status ctx kind cause.
Proof.
  unfold CreateError, CheckContextTimeout, spec_status.
  destruct (is_deadline_exceeded ctx) eqn:Hd; [vm_compute; reflexivity|].
  destruct cause as [e|]; [|apply kind_HTTPError_status].
  destruct (ErrorKinder e) as [k|] eqn:Hk.
  - assert (passes_through e = true) as ->.
    { unfold passes_through. rewrite Hk. by destruct e. }
    cbn. rewrite (MapError_kind _ _ _ Hk). destruct e; try done; apply kind_HTTPError_status.
  - destruct e; cbn in Hk |- *; try apply kind_HTTPError_status; try done.
    + unfold MapError. cbn. by rewrite Hd.
    + subst. cbn. apply kind_HTTPError_status.
Qed.

Lemma AddField_code fields h :
  he_HTTPCode (foldl (λ h f, AddField h f.1 f.2) h fields) = he_HTTPCode h.
Proof. revert h. induction fields as [|f fields IH]; intros h; [done|]. cbn. by rewrite IH. Qed.

Lemma AddField_fields fields h :
  he_extraFields h = ∅ →
  he_extraFields (foldl (λ h f, AddField h f.1 f.2) h fields) = list_to_map (rev fields).
Proof.
  intros Hh. assert (∀ l h, he_extraFields (foldl (λ h f, AddField h f.1 f.2) h l) =
    list_to_map (rev l) ∪ he_extraFields h) as Hl.
  { clear. induction l as [|[k v] l IH]; intros h; cbn; [by rewrite left_id_L|].
    rewrite IH list_to_map_app. cbn. rewrite -(assoc_L (∪)). f_equal.
    by rewrite insert_union_singleton_l. }
  by rewrite Hl Hh right_id_L.
Qed.

(** Strings can always be encoded, so only the extra fields can spoil it. *)
Lemma target_encodable_fields h :
  map_Forall (λ _ v, json_encodable v = true) (he_extraFields h) →
  target_encodable (error_target h) = true.
Proof.
  intros Hf. unfold error_target. case_bool_decide; [done|].
  assert (∀ k s m, map_Forall (λ _ v, json_encodable v = true) m →
    map_Forall (λ _ v, json_encodable v = true) (set_nonempty k s m)) as Hset.
  { intros k s m Hm. unfold set_nonempty. case_bool_decide; [|done].
    by apply map_Forall_insert_2. }
  apply bool_decide_true. by do 2 apply Hset.
Qed.

Definition json_headers (w : RW) : Header :=
  header_set (rw_header w) "Content-Type" "application/json;charset=UTF-8".

(** One header and one body are written, with a status that is the error's own
    unless an extra field has no JSON form. *)
Lemma WriteError_response json_text h w :
  ∃ code body,
    HTTPError_WriteError json_text h w =
      mkRW (json_headers w) (rw_calls w ++ [CallWriteHeader code (json_headers w); CallWrite body]) ∧
    (code = he_HTTPCode h ∧ body = json_text (error_target h) ∨
     code = StatusInternalServerError ∧ body = fallback_body ∧
     ¬ map_Forall (λ _ v, json_encodable v = true) (he_extraFields h)).
Proof.
  unfold HTTPError_WriteError. destruct (target_encodable (error_target h)) eqn:E.
  - do 2 eexists. split; [|left; done]. unfold rw_write, rw_write_header, rw_set_header. cbn.
    by rewrite -app_assoc.
  - do 2 eexists. split; [|right; split_and!; [done..|]].
    + unfold rw_write, rw_write_header, rw_set_header. cbn. by rewrite -app_assoc.
    + intros H%target_encodable_fields. congruence.
Qed.

Lemma handle_mapped_unwrapped json_text ctx w kind message cause mapper writer :
  handle_mapped json_text ctx w kind message cause mapper writer =
  let '(e, fields) := unwrapped cause in
  let h := foldl (λ h f, AddField h f.1 f.2)
             (resolveErrorAsHTTPError ctx mapper (CreateError ctx kind message e)) fields in
  match writer with Some f => f ctx h w | None => HTTPError_WriteError json_text h w end.
Proof. unfold handle_mapped, unwrapped. by repeat case_match; simplify_eq. Qed.

Lemma resolve_default_fields ctx err : he_extraFields (resolveErrorAsHTTPError ctx None err) = ∅.
Proof.
  assert (he_extraFields (MapError ctx err) = ∅) as H.
  { unfold MapError. case_match; [apply kind_HTTPError_status|by case_match]. }
  by destruct err.
Qed.

Lemma handle_mapped_response json_text ctx w kind message cause :
  let '(e, fields) := unwrapped cause in
  ∃ code body,
    handle_mapped json_text ctx w kind message cause None None =
      mkRW (json_headers w) (rw_calls w ++ [CallWriteHeader code (json_headers w); CallWrite body]) ∧
    (code = spec_status ctx kind e ∨
     code = StatusInternalServerError ∧ body = fallback_body ∧
     ¬ Forall (λ f, json_encodable f.2 = true) fields).
Proof.
  rewrite handle_mapped_unwrapped.
  destruct (unwrapped cause) as [e fields]. cbn zeta.
  set (h := foldl _ _ _). destruct (WriteError_response json_text h w) as (code&body&->&Hcode).
  exists code, body. split; [done|].
  destruct Hcode as [[-> _]|(->&->&Hf)]; [left|right; split_and!; try done].
  - subst h. by rewrite AddField_code resolve_default_status.
  - intros Hall. destruct Hf. subst h. rewrite AddField_fields; [apply resolve_default_fields|].
    intros k v Hk. apply elem_of_list_to_map_2 in Hk. rewrite list_elem_of_In -in_rev -list_elem_of_In in Hk.
    rewrite list.Forall_forall in Hall. by apply (Hall (k, v)).
Qed.

(** What the error itself makes of the response, and whether it handled it. *)
Definition self_written (cause : option error) (w : RW) : bool * RW :=
  match cause ≫= ErrorWriter with Some write => write w | None => (false, w) end.

(** C23. With the default hooks, an error that writes itself and says so is
    followed by nothing. Otherwise exactly one response follows, of the kind's
    status: 504 whatever the error when the deadline has passed, the configured
    status of a custom error, the kind the error itself reports, and else the
    kind the handler gave; and 500 with a fixed body if a field added to the
    error has no JSON form. *)
Theorem HandleError_response json_text ctx w kind message cause :
  let '(handled, w') := self_written cause w in
  let '(e, fields) := unwrapped cause in
  if handled then HandleError json_text ctx w kind message cause None None = w'
  else ∃ code body,
    HandleError json_text ctx w kind message cause None None =
      mkRW (json_headers w') (rw_calls w' ++ [CallWriteHeader code (json_headers w'); CallWrite body]) ∧
    (code = spec_status ctx kind e ∨
     code = StatusInternalServerError ∧ body = fallback_body ∧
     ¬ Forall (λ f, json_encodable f.2 = true) fields).
Proof.
  unfold self_written, HandleError. destruct (cause ≫= ErrorWriter) as [write|].
  - destruct (write w) as [[] w']; destruct (unwrapped cause) eqn:E; [done|].
    pose proof (handle_mapped_response json_text ctx w' kind message cause) as H. by rewrite E in H.
  - destruct (unwrapped cause) eqn:E.
    pose proof (handle_mapped_response json_text ctx w kind message cause) as H. by rewrite E in H.
Qed.

Lemma HandleError_response_witness :
  let ctx := mkContext (Some ErrDeadlineExceeded) (λ _, None) in
  ∃ code body,
    HandleError (λ _, "{}") ctx rw_empty BadRequestError "id" (Some (ErrText "boom")) None None =
      mkRW (json_headers rw_empty) [CallWriteHeader code (json_headers rw_empty); CallWrite body] ∧
    code = 504%Z.
Proof.
  destruct (HandleError_response (λ _, "{}") (mkContext (Some ErrDeadlineExceeded) (λ _, None)) rw_empty
    BadRequestError "id" (Some (ErrText "boom"))) as (code&body&E&H).
  exists code, body. split; [exact E|]. destruct H as [->|(_&_&H)]; [reflexivity|].
  exfalso. apply H. constructor.
Defined.

(** An error response from downstream keeps the kind, status, method and URL,
    and at most the first 128 bytes of the body; a timed-out context hides them
    behind a timeout error. *)
Theorem CreateDownstreamError_spec ctx kind r body cause :
  (is_deadline_exceeded ctx = true →
   CreateDownstreamError ctx kind r body cause =
     ErrServer DownstreamTimeoutError (resp_Method r +:+ " " +:+ resp_URL r) cause) ∧
  (is_deadline_exceeded ctx = false →
   ∃ snippet rest, body = snippet +:+ rest ∧ String.length snippet = Nat.min 128 (String.length body) ∧
     CreateDownstreamError ctx kind r body cause =
       ErrDownstream kind (resp_Method r) (resp_URL r) (resp_StatusCode r) snippet cause).
Proof.
  unfold CreateDownstreamError, CheckContextTimeout. split; intros ->; [done|].
  unfold downstreamResponseSnippetMaxLength. case_bool_decide.
  - eexists _, _. split; [symmetry; apply str_take_drop|]. split; [|done].
    rewrite str_length_take; lia.
  - exists body, "". split; [by rewrite str_append_nil_r|]. split; [lia|done].
Qed.

Lemma CreateDownstreamError_spec_witness :
  ∃ snippet rest, "oops" = snippet +:+ rest ∧ String.length snippet = 4%nat ∧
    CreateDownstreamError Background DownstreamResponseError (mkResponse "GET" "/x" 500) "oops" None =
      ErrDownstream DownstreamResponseError "GET" "/x" 500 snippet None.
Proof.
  apply (proj2 (CreateDownstreamError_spec Background DownstreamResponseError (mkResponse "GET" "/x" 500)
    "oops" None)). reflexivity.
Defined.

(** The callback's own [HandleError] works only with a mapper that never gives
    nil: with the hook left nil, its documented default, it dereferences a nil
    error. *)
Theorem Callback_HandleError_needs_mapper {Cfg R} json_text (g : Callback Cfg R) ctx w kind message cause :
  (cb_MapErrorFunc g = None →
   Callback_HandleError json_text g ctx w kind message cause = Panic nil_dereference) ∧
  (∀ f h, cb_MapErrorFunc g = Some f → f ctx (CreateError ctx kind message cause) = Some h →
   Callback_HandleError json_text g ctx w kind message cause = Ok (HTTPError_WriteError json_text h w)).
Proof.
  unfold Callback_HandleError, Callback_MapError. split.
  - by intros ->.
  - by intros f h -> ->.
Qed.

Lemma Callback_HandleError_needs_mapper_witness :
  Callback_HandleError (λ _, "{}") (@DefaultCallback ()) Background rw_empty InternalError "" None =
    Panic nil_dereference.
Proof.
  apply (proj1 (Callback_HandleError_needs_mapper (λ _, "{}") (@DefaultCallback ()) Background rw_empty
    InternalError "" None)). reflexivity.
Defined.

(** Errors about a header are recognised whatever the case of its name. *)
Lemma CausedByParam_case param p :
  str_forall is_token_byte p = true →
  ZeroHeaderLengthError_CausedByParam (NewZeroHeaderLengthError param) (str_map lower_byte p) =
    ZeroHeaderLengthError_CausedByParam (NewZeroHeaderLengthError param) p ∧
  ZeroHeaderLengthError_CausedByParam (NewZeroHeaderLengthError p) (str_map lower_byte p) = true.
Proof.
  intros Hp. unfold ZeroHeaderLengthError_CausedByParam. rewrite CanonicalHeaderKey_lower //.
  split; [done|]. by apply bool_decide_true.
Qed.
