(* ===== verification/Timeout.v ===== *)
(** * The timeout middleware: src/common/timeout.go

    A handler runs in a goroutine of its own on a buffering writer, while the
    serving goroutine waits for it to return, to panic, or for the context to be
    done. The two are modelled as a labelled step function on a shared state; the
    buffering writer's mutex makes each of its operations, and each branch of the
    serving goroutine's [select], one step. The handler is any sequence of
    operations. *)

From S2P Require Export CommonErrors.

(** ** The buffering writer *)

Record timeoutWriter := mk_timeoutWriter {
  tw_h : Header;
  tw_wbuf : string;
  tw_timedOut : bool;
  tw_wroteHeader : bool;
  tw_code : Z
}.

Definition tw_new : timeoutWriter := mk_timeoutWriter ∅ "" false false 0.

Definition invalid_code : panicval := PanicString "invalid WriteHeader code".

Definition checkWriteHeaderCode (code : Z) : res () :=
  if bool_decide (code < 100 ∨ code > 999)%Z then Panic invalid_code else Ok ().

Definition writeHeaderLocked (code : Z) (tw : timeoutWriter) : timeoutWriter * res () :=
  match checkWriteHeaderCode code with
  | Ok _ =>
    if tw_timedOut tw then (tw, Ok ())
    else if tw_wroteHeader tw then (tw, Ok ()) (* only logged *)
    else (mk_timeoutWriter (tw_h tw) (tw_wbuf tw) (tw_timedOut tw) true code, Ok ())
  | r => (tw, r)
  end.

Definition tw_WriteHeader (code : Z) (tw : timeoutWriter) : timeoutWriter * res () :=
  writeHeaderLocked code tw.

(** [Write] returns the number of bytes written and an error. *)
Definition tw_Write (p : string) (tw : timeoutWriter) : timeoutWriter * res nat :=
  if tw_timedOut tw then (tw, Err ErrHandlerTimeout)
  else
    let '(tw, r) := if negb (tw_wroteHeader tw) then writeHeaderLocked StatusOK tw else (tw, Ok ()) in
    match r with
    | Panic q => (tw, Panic q)
    | _ => (mk_timeoutWriter (tw_h tw) (tw_wbuf tw +:+ p) (tw_timedOut tw) (tw_wroteHeader tw) (tw_code tw),
            Ok (String.length p))
    end.

(** [Push], when the writer underneath may be an [http.Pusher]. *)
Definition tw_Push (pusher : option (string → option error)) (target : string) : option error :=
  match pusher with Some push => push target | None => Some ErrNotSupported end.

(** ** The two goroutines *)

(** What the handler may do to the writer. [Header()] hands out the map itself,
    so the handler can replace its contents at will. *)
Inductive hop :=
| OpHeader (h : Header)
| OpWrite (p : string)
| OpWriteHeader (code : Z).

Inductive handler_status := Running | Returned | Panicked (p : panicval).

Inductive phase := Waiting | Finished (outcome : res ()).

Record tstate := mk_tstate {
  ts_tw : timeoutWriter;
  ts_handler : handler_status;
  ts_done : bool;          (* ctx.Done() is closed *)
  ts_w : RW;               (* the writer of the server *)
  ts_phase : phase         (* of ServeHTTP *)
}.

Definition tinit (w : RW) : tstate := mk_tstate tw_new Running false w Waiting.

Inductive tlabel :=
| LOp (op : hop)           (* the handler *)
| LReturn
| LPanic (p : panicval)
| LDone                    (* the deadline, or a cancellation from above *)
| LSelectPanic             (* the branches of the select *)
| LSelectReturn
| LSelectTimeout.

Definition run_op (op : hop) (tw : timeoutWriter) : timeoutWriter * res nat :=
  match op with
  | OpHeader h => (mk_timeoutWriter h (tw_wbuf tw) (tw_timedOut tw) (tw_wroteHeader tw) (tw_code tw), Ok 0%nat)
  | OpWrite p => tw_Write p tw
  | OpWriteHeader code => let '(tw, r) := tw_WriteHeader code tw in (tw, (λ _, 0%nat) <$> r)
  end.

(** The branch [case <-done]: the buffered response is copied out. *)
Definition copy_response (tw : timeoutWriter) (w : RW) : RW :=
  let code := if negb (tw_wroteHeader tw) then StatusOK else tw_code tw in
  rw_write (tw_wbuf tw) (rw_write_header code (mkRW (tw_h tw ∪ rw_header w) (rw_calls w))).

Section steps.
(** The handler for timeouts, on the server's writer. *)
Context (timeoutHandler : RW → RW * res ()).

Definition set_tw (s : tstate) (tw : timeoutWriter) : tstate :=
  mk_tstate tw (ts_handler s) (ts_done s) (ts_w s) (ts_phase s).
Definition set_handler (s : tstate) (h : handler_status) : tstate :=
  mk_tstate (ts_tw s) h (ts_done s) (ts_w s) (ts_phase s).

Definition tstep (s : tstate) (l : tlabel) : option tstate :=
  match l, ts_handler s, ts_phase s with
  | LOp op, Running, _ => Some (set_tw s (run_op op (ts_tw s)).1)
  | LReturn, Running, _ => Some (set_handler s Returned)
  | LPanic p, Running, _ => Some (set_handler s (Panicked p))
  | LDone, _, _ => if ts_done s then None else Some (mk_tstate (ts_tw s) (ts_handler s) true (ts_w s) (ts_phase s))
  | LSelectPanic, Panicked p, Waiting =>
      match recover p with (* only then is anything sent on panicChan *)
      | Some p => Some (mk_tstate (ts_tw s) (ts_handler s) (ts_done s) (ts_w s) (Finished (Panic p)))
      | None => None
      end
  | LSelectReturn, Returned, Waiting =>
      Some (mk_tstate (ts_tw s) (ts_handler s) (ts_done s) (copy_response (ts_tw s) (ts_w s)) (Finished (Ok ())))
  | LSelectTimeout, _, Waiting =>
      if ts_done s then
        let '(w, r) := timeoutHandler (ts_w s) in
        let tw := ts_tw s in
        Some (mk_tstate
          (match r with
           | Panic _ => tw
           | _ => mk_timeoutWriter (tw_h tw) (tw_wbuf tw) true (tw_wroteHeader tw) (tw_code tw)
           end) (ts_handler s) (ts_done s) w (Finished r))
      else None
  | _, _, _ => None
  end.

(** Executions. *)
Inductive runs : tstate → list tlabel → tstate → Prop :=
| runs_nil s : runs s [] s
| runs_snoc s ls s1 l s2 : runs s ls s1 → tstep s1 l = Some s2 → runs s (ls ++ [l]) s2.

Fixpoint exec (s : tstate) (ls : list tlabel) : option tstate :=
  match ls with [] => Some s | l :: ls => s' ← tstep s l; exec s' ls end.
End steps.

(** [Timeout(timeout, timeoutHandler)]: what a request to the wrapped handler may
    come to. The handler behind it is any [LOp]s ended by a return or a panic. *)
Definition TimeoutHandler (timeoutHandler : RW → RW * res ()) (w w' : RW) (outcome : res ()) : Prop :=
  ∃ ls s, runs timeoutHandler (tinit w) ls s ∧ ts_phase s = Finished outcome ∧ ts_w s = w'.

(** ** The response the handler's operations amount to *)

Definition ops_of (ls : list tlabel) : list hop :=
  omap (λ l, match l with LOp op => Some op | _ => None end) ls.

Definition valid_code (code : Z) : bool := bool_decide (100 ≤ code ≤ 999)%Z.

(** The status a handler set: the first valid [WriteHeader], or 200 if it wrote first. *)
Fixpoint first_status (ops : list hop) : option Z :=
  match ops with
  | [] => None
  | OpWriteHeader code :: ops => if valid_code code then Some code else first_status ops
  | OpWrite _ :: _ => Some StatusOK
  | OpHeader _ :: ops => first_status ops
  end.

Fixpoint written (ops : list hop) : string :=
  match ops with
  | [] => ""
  | OpWrite p :: ops => p +:+ written ops
  | _ :: ops => written ops
  end.

Fixpoint header_of (h : Header) (ops : list hop) : Header :=
  match ops with
  | [] => h
  | OpHeader h' :: ops => header_of h' ops
  | _ :: ops => header_of h ops
  end.

Definition handler_response (ops : list hop) (w : RW) : RW :=
  rw_write (written ops) (rw_write_header (default StatusOK (first_status ops))
    (mkRW (header_of ∅ ops ∪ rw_header w) (rw_calls w))).

(** Operations in sequence on the buffering writer. *)
Definition run_ops (tw : timeoutWriter) (ops : list hop) : timeoutWriter :=
  foldl (λ tw op, (run_op op tw).1) tw ops.

Lemma check_code code :
  checkWriteHeaderCode code = if valid_code code then Ok () else Panic invalid_code.
Proof.
  unfold checkWriteHeaderCode, valid_code. repeat case_bool_decide; try done; lia.
Qed.

Lemma run_ops_spec ops h b wrote code :
  run_ops (mk_timeoutWriter h b false wrote code) ops =
  mk_timeoutWriter (header_of h ops) (b +:+ written ops) false
    (wrote || bool_decide (is_Some (first_status ops)))
    (if wrote then code else default code (first_status ops)).
Proof.
  revert h b wrote code. induction ops as [|op ops IH]; intros h b wrote code; cbn [run_ops foldl].
  { cbn. rewrite str_append_nil_r orb_false_r. by destruct wrote. }
  fold (run_ops (run_op op (mk_timeoutWriter h b false wrote code)).1 ops).
  destruct op as [h'|p|c]; cbn [run_op].
  - cbn. apply IH.
  - unfold tw_Write. cbn. destruct wrote; cbn; rewrite IH; cbn; by rewrite str_append_assoc.
  - unfold tw_WriteHeader, writeHeaderLocked. rewrite check_code. cbn [first_status].
    destruct (valid_code c); [|by cbn; apply IH]. by destruct wrote; cbn; rewrite IH.
Qed.

Lemma copy_run_ops ops w : copy_response (run_ops tw_new ops) w = handler_response ops w.
Proof.
  unfold tw_new. rewrite run_ops_spec. unfold copy_response, handler_response. cbn.
  by destruct (first_status ops).
Qed.

(** ** Executions *)

Definition is_select (l : tlabel) : bool :=
  match l with LSelectPanic | LSelectReturn | LSelectTimeout => true | _ => false end.

Section timeout_properties.
Context (th : RW → RW * res ()).

Lemma ops_of_snoc ls l :
  ops_of (ls ++ [l]) = ops_of ls ++ match l with LOp op => [op] | _ => [] end.
Proof. unfold ops_of. rewrite omap_app. by destruct l. Qed.

(** While the serving goroutine waits, the server's writer is untouched and the
    buffering writer is what the operations so far make of it. *)
Lemma waiting_inv w ls s :
  runs th (tinit w) ls s → ts_phase s = Waiting →
  ts_w s = w ∧ ts_tw s = run_ops tw_new (ops_of ls) ∧
  (ts_done s = true → LDone ∈ ls) ∧
  match ts_handler s with
  | Running => True
  | Returned => LReturn ∈ ls
  | Panicked p => LPanic p ∈ ls
  end.
Proof.
  remember (tinit w) as s0 eqn:E. induction 1 as [s|s ls s1 l s2 _ IH Hstep]; intros Hw.
  { subst. by cbn. }
  specialize (IH E). unfold tstep in Hstep.
  destruct l, (ts_handler s1) eqn:Hh, (ts_phase s1) eqn:Hp; simplify_eq/=;
    try (destruct (ts_done s1); try done; try (destruct (th (ts_w s1))); simplify_eq/=);
    try (destruct (recover _); simplify_eq/=); try congruence; destruct (IH eq_refl) as (?&Htw&?&?);
    rewrite ops_of_snoc ?app_nil_r; split_and!; rewrite ?elem_of_app ?list_elem_of_singleton; try tauto;
    unfold run_ops in *; rewrite ?foldl_snoc ?Hh; (done || congruence).
Qed.

(** Once it has answered, nothing the handler does reaches the client. *)
Lemma finished_stable s ls s' out :
  runs th s ls s' → ts_phase s = Finished out →
  ts_phase s' = Finished out ∧ ts_w s' = ts_w s ∧
  (tw_timedOut (ts_tw s) = true → tw_timedOut (ts_tw s') = true ∧ tw_wbuf (ts_tw s') = tw_wbuf (ts_tw s)).
Proof.
  induction 1 as [s|s ls s1 l s2 _ IH Hstep]; intros Hf; [done|].
  destruct (IH Hf) as (Hp&Hw&Ht). unfold tstep in Hstep. rewrite Hp in Hstep.
  destruct l as [op| | | | | |], (ts_handler s1); simplify_eq/=;
    try match type of Hstep with context [ts_done s1] => destruct (ts_done s1); simplify_eq/= end; try done.
  split_and!; [done..|]. intros Hto. destruct (Ht Hto) as [Hto1 Hb]. rewrite -Hb.
  destruct op as [h|p|c]; cbn; [done| |].
  - unfold tw_Write. by rewrite Hto1.
  - unfold tw_WriteHeader, writeHeaderLocked. rewrite check_code Hto1. by destruct (valid_code c).
Qed.

(** The answer is decided by the first branch of the select that is taken. *)
Lemma one_answer w ls s out :
  runs th (tinit w) ls s → ts_phase s = Finished out →
  ∃ before select after, ls = before ++ select :: after ∧
    match select with
    | LSelectReturn => LReturn ∈ before ∧ out = Ok () ∧ ts_w s = handler_response (ops_of before) w
    | LSelectPanic => ∃ p, LPanic p ∈ before ∧ recover p = Some p ∧ out = Panic p ∧ ts_w s = w
    | LSelectTimeout => LDone ∈ before ∧ (ts_w s, out) = th w ∧
        ((∀ p, out ≠ Panic p) →
         (∀ p, tw_Write p (ts_tw s) = (ts_tw s, Err ErrHandlerTimeout)) ∧
         tw_wbuf (ts_tw s) = written (ops_of before))
    | _ => False
    end.
Proof.
  intros Hrun Hfin. remember (tinit w) as s0 eqn:E.
  induction Hrun as [s|s ls s1 l s2 Hrun IH Hstep].
  { by subst. }
  destruct (ts_phase s1) as [|out1] eqn:Hp.
  - subst s. destruct (waiting_inv _ _ _ Hrun Hp) as (Hw&Htw&Hd&Hh).
    exists ls, l, []. split; [done|]. unfold tstep in Hstep. rewrite Hp in Hstep.
    destruct l, (ts_handler s1) eqn:Hh1; simplify_eq/=; try congruence.
    all: try match goal with H : (if ts_done ?s then None else _) = _ |- _ =>
      destruct (ts_done s); simplify_eq/=; congruence end.
    all: try (destruct (recover _) eqn:Hrec; [|done]; pose proof (recover_Some _ _ Hrec) as ->; simplify_eq/=;
      eexists; split_and!; [exact Hh|done|congruence..]).
    all: try (split_and!; [exact Hh|congruence|by rewrite Htw copy_run_ops]).
    all: destruct (ts_done s1); [|done]; destruct (th (ts_w s1)) as [w' r] eqn:Hth; simplify_eq/=;
      split_and!; [by apply Hd|done|]; intros Hnp.
    all: destruct out as [[]|e|q]; [..|by destruct (Hnp q)]; cbn; (split; [done|]).
    all: by rewrite Htw /tw_new run_ops_spec.
  - assert (runs th s1 [l] s2) as Hone.
    { apply (runs_snoc _ s1 [] s1 l s2); [constructor|done]. }
    destruct (finished_stable _ _ _ _ Hone Hp) as (Hp2&Hw2&Ht2).
    rewrite Hp2 in Hfin. injection Hfin as ->.
    destruct (IH E eq_refl) as (before&sel&after&->&Hsel).
    exists before, sel, (after ++ [l]). split; [by rewrite -app_assoc|]. rewrite Hw2.
    destruct sel; try done. destruct Hsel as (?&?&Hrest). split_and!; [done..|].
    intros Hnp. destruct (Hrest Hnp) as [Hwr Hb].
    assert (tw_timedOut (ts_tw s1) = true) as Hto.
    { specialize (Hwr ""). unfold tw_Write, writeHeaderLocked in Hwr.
      destruct (tw_timedOut (ts_tw s1)); [done|]. by repeat case_match; simplify_eq/=. }
    destruct (Ht2 Hto) as [Hto2 Hb2]. split; [|by rewrite Hb2].
    intros p. unfold tw_Write. by rewrite Hto2.
Qed.

(** C9. The client gets exactly one of three answers: the handler's own response,
    complete and only if the handler returned, with the first status it set and
    everything it wrote in order; the timeout handler's, only if the context was
    done; or, if the handler panicked, that panic on the serving goroutine and
    nothing written. What the handler does afterwards never reaches the client,
    and after a timeout its writes fail and are dropped. *)
Theorem TimeoutHandler_one_answer w ls s out :
  runs th (tinit w) ls s → ts_phase s = Finished out →
  ∃ before select after, ls = before ++ select :: after ∧
    match select with
    | LSelectReturn => LReturn ∈ before ∧ out = Ok () ∧ ts_w s = handler_response (ops_of before) w
    | LSelectPanic => ∃ p, LPanic p ∈ before ∧ recover p = Some p ∧ out = Panic p ∧ ts_w s = w
    | LSelectTimeout => LDone ∈ before ∧ (ts_w s, out) = th w ∧
        ((∀ p, out ≠ Panic p) →
         (∀ p, tw_Write p (ts_tw s) = (ts_tw s, Err ErrHandlerTimeout)) ∧
         tw_wbuf (ts_tw s) = written (ops_of before))
    | _ => False
    end.
Proof. apply one_answer. Qed.

(** What is left of a request, the handler having at most so many operations left. *)
Definition tnext (s s' : nat * tstate) : Prop :=
  ∃ l, tstep th s.2 l = Some s'.2 ∧ match l with LOp _ => s.1 = S s'.1 | _ => s.1 = s'.1 end.

Definition answered (s : nat * tstate) : Prop := ts_phase s.2 ≠ Waiting.

Definition tmeasure (s : nat * tstate) : nat :=
  s.1 + match ts_handler s.2 with Running => 1 | _ => 0 end +
  (if ts_done s.2 then 0 else 1) + match ts_phase s.2 with Waiting => 1 | _ => 0 end.

#[export] Instance answered_dec s : Decision (answered s).
Proof. unfold answered. destruct (ts_phase s.2); [right|left]; naive_solver. Defined.

Lemma tnext_measure s s' : tnext s s' → (tmeasure s' < tmeasure s)%nat.
Proof.
  destruct s as [n s], s' as [n' s']. intros (l&Hl&Hn). unfold tmeasure. cbn in *. unfold tstep in Hl.
  destruct l, (ts_handler s) eqn:Hh, (ts_phase s) eqn:Hp; simplify_eq/=;
    try (destruct (recover _); simplify_eq/=);
    try (destruct (ts_done s) eqn:Hd; [try (destruct (th (ts_w s))); simplify_eq/=|]; simplify_eq/=);
    rewrite ?Hh ?Hp /= ?Hd; lia.
Qed.

(** Before the answer something can always happen: at the latest the deadline. *)
Lemma tnext_enabled s : ¬ answered s → ∃ s', tnext s s'.
Proof.
  destruct s as [n s]. unfold answered. cbn. intros Hw.
  assert (ts_phase s = Waiting) as Hp by (destruct (ts_phase s); [done|by destruct Hw]).
  destruct (ts_done s) eqn:Hd.
  - exists (n, default s (tstep th s LSelectTimeout)), LSelectTimeout. cbn. rewrite Hp Hd.
    destruct (th (ts_w s)) as [w' r]. by destruct (ts_handler s).
  - exists (n, default s (tstep th s LDone)), LDone. cbn. rewrite Hd. by destruct (ts_handler s).
Qed.

(** C34. Every request is answered, on every schedule of the two goroutines, whatever
    the handler does with the operations it has left, be it a late return, a panic,
    or [panic(nil)], which is never reported; and the serving goroutine never waits
    for a handler that is late: it can answer as soon as the context is done. *)
Theorem TimeoutHandler_answers n s :
  eventually tnext answered (n, s) ∧
  (ts_phase s = Waiting → ts_done s = true → ∃ s' out, tstep th s LSelectTimeout = Some s' ∧ ts_phase s' = Finished out).
Proof.
  split.
  - apply (eventually_measure tnext (λ _, True) answered tmeasure); [| |done].
    + intros s0 _. apply tnext_enabled.
    + intros s0 s1 _ _ H. split; [done|by apply tnext_measure].
  - intros Hp Hd. unfold tstep. rewrite Hd Hp.
    destruct (th (ts_w s)) as [w' r]. destruct (ts_handler s); by eauto.
Qed.
End timeout_properties.

(** ** An execution *)
Module TimeoutExample.
Definition th (w : RW) : RW * res () := (rw_write "timed out" (rw_write_header 504 w), Ok ()).
(** The handler writes half of its response, the deadline passes, and the rest
    comes too late. *)
Definition late : list tlabel :=
  [LOp (OpWriteHeader 201); LOp (OpWrite "half"); LDone; LSelectTimeout; LOp (OpWrite "rest"); LReturn].
Definition late_end : tstate :=
  mk_tstate (mk_timeoutWriter ∅ "half" true true 201) Returned true
    (mkRW ∅ [CallWriteHeader 504 ∅; CallWrite "timed out"]) (Finished (Ok ())).

Lemma exec_runs s ls s' : exec th s ls = Some s' → runs th s ls s'.
Proof.
  assert (∀ ls s0 pre s, runs th s0 pre s → exec th s ls = Some s' → runs th s0 (pre ++ ls) s') as H.
  { clear. induction ls as [|l ls IH]; intros s0 pre s Hpre; cbn.
    - intros [= <-]. by rewrite app_nil_r.
    - intros (s1&Hs&He)%bind_Some. replace (pre ++ l :: ls) with ((pre ++ [l]) ++ ls) by by rewrite -app_assoc.
      eapply IH; [|done]. by econstructor. }
  intros He. apply (H ls s [] s); [constructor|done].
Defined.

Lemma late_runs : runs th (tinit rw_empty) late late_end.
Proof. apply exec_runs. vm_compute. reflexivity. Defined.
End TimeoutExample.

Lemma TimeoutHandler_one_answer_witness :
  runs TimeoutExample.th (tinit rw_empty) TimeoutExample.late TimeoutExample.late_end ∧
  ∃ before select after, TimeoutExample.late = before ++ select :: after ∧ is_select select = true.
Proof.
  split; [exact TimeoutExample.late_runs|].
  destruct (TimeoutHandler_one_answer TimeoutExample.th rw_empty TimeoutExample.late TimeoutExample.late_end
    (Ok ()) TimeoutExample.late_runs eq_refl) as (before&sel&after&E&H).
  exists before, sel, after. split; [exact E|]. destruct sel; try reflexivity; destruct H.
Defined.

Lemma TimeoutHandler_answers_witness :
  eventually (tnext TimeoutExample.th) answered (2%nat, tinit rw_empty) ∧
  ∃ s' out, tstep TimeoutExample.th (mk_tstate tw_new Running true rw_empty Waiting) LSelectTimeout = Some s' ∧
    ts_phase s' = Finished out.
Proof.
  split; [apply (TimeoutHandler_answers TimeoutExample.th)|].
  by apply (TimeoutHandler_answers TimeoutExample.th 0 (mk_tstate tw_new Running true rw_empty Waiting)).
Defined.
