(* ===== verification/TimeoutLog.v ===== *)
(** * What the timeout middleware logs: [relevantCaller] and [logf] of
    src/common/timeout.go

    The writer of [Timeout] complains about a handler that writes its header twice,
    and says where the handler did. The call stack is that of [runtime.Callers]: its
    frames from the caller of [Callers] on. *)

From stdpp Require Import pretty.
From S2P Require Export Timeout.

(** [runtime.Frame]. *)
Record Frame := mkFrame { fr_Function : string; fr_File : string; fr_Line : Z }.
Definition zero_Frame : Frame := mkFrame "" "" 0.

(** [frames.Next]: the next frame, or the zero one, and whether there are more. *)
Definition frames_Next (fs : list Frame) : Frame * bool * list Frame :=
  match fs with
  | [] => (zero_Frame, false, [])
  | f :: fs => (f, negb (bool_decide (fs = [])), fs)
  end.

(** The loop; the variable [frame] it assigns is its own, so at the end of the stack
    the outer one is what [var] made it. *)
Fixpoint relevant_loop (fs : list Frame) : Frame :=
  if negb (HasPrefix (fr_Function (frames_Next fs).1.1) "net/http.") then (frames_Next fs).1.1
  else
    match fs with
    | [] => zero_Frame
    | _ :: fs => if bool_decide (fs = []) then zero_Frame else relevant_loop fs
    end.

(** [runtime.Callers(1, pc)] begins with the function that calls it, which is
    [relevantCaller] itself, at some line of some file. *)
Definition self_Frame (file : string) (line : Z) : Frame :=
  mkFrame "github.com/anz-bank/sysl-go/common.relevantCaller" file line.
Definition relevantCaller (file : string) (line : Z) (stack : list Frame) : Frame :=
  relevant_loop (take 16 (self_Frame file line :: stack)).

(** [path.Base]: the last element of the path, trailing slashes removed. *)
Definition path_Base (p : string) : string :=
  if bool_decide (p = "") then "."
  else match List.filter (λ w, negb (bool_decide (w = ""))) (Split "/" p) with
       | [] => "/"
       | w :: ws => List.last ws w
       end.

(** [logf]: the error that [log.Errorf] writes with the text "timeout error". *)
Definition logf (message : string) : error * string := (ErrText message, "timeout error").

Definition superfluous_message (caller : Frame) : string :=
  "http: superfluous response.WriteHeader call from " +:+ fr_Function caller +:+ " (" +:+
  path_Base (fr_File caller) +:+ ":" +:+ pretty (fr_Line caller) +:+ ")".

(** The lines [writeHeaderLocked] writes; the request is always there, since
    [ServeHTTP] gives the writer one. *)
Definition writeHeaderLocked_logs (file : string) (line : Z) (stack : list Frame) (code : Z) (tw : timeoutWriter) :
    list (error * string) :=
  match checkWriteHeaderCode code with
  | Ok _ => if tw_timedOut tw then []
            else if tw_wroteHeader tw then [logf (superfluous_message (relevantCaller file line stack))] else []
  | _ => []
  end.
Definition tw_Write_logs (file : string) (line : Z) (stack : list Frame) (tw : timeoutWriter) : list (error * string) :=
  if tw_timedOut tw then []
  else if negb (tw_wroteHeader tw) then writeHeaderLocked_logs file line stack StatusOK tw else [].
Definition op_logs (file : string) (line : Z) (stack : list Frame) (op : hop) (tw : timeoutWriter) : list (error * string) :=
  match op with
  | OpWriteHeader code => writeHeaderLocked_logs file line stack code tw
  | OpWrite p => tw_Write_logs file line stack tw
  | _ => []
  end.
Fixpoint ops_logs (file : string) (line : Z) (stack : list Frame) (tw : timeoutWriter) (ops : list hop) : list (error * string) :=
  match ops with
  | [] => []
  | op :: ops => op_logs file line stack op tw ++ ops_logs file line stack (run_op op tw).1 ops
  end.

(** ** Properties *)

Definition in_net_http (f : Frame) : bool := HasPrefix (fr_Function f) "net/http.".

Lemma relevant_loop_spec fs :
  relevant_loop fs = default zero_Frame (List.find (λ f, negb (in_net_http f)) fs).
Proof.
  induction fs as [|f fs IH]; [done|]. cbn -[HasPrefix]. fold (in_net_http f).
  destruct (in_net_http f); cbn -[HasPrefix]; [|done].
  destruct fs; [done|]. exact IH.
Qed.

(** [WriteHeader] calls with a code it accepts, after the header was written. *)
Fixpoint superfluous_calls (wrote : bool) (ops : list hop) : nat :=
  match ops with
  | [] => 0
  | OpHeader _ :: ops => superfluous_calls wrote ops
  | OpWrite _ :: ops => superfluous_calls true ops
  | OpWriteHeader code :: ops =>
      if valid_code code then (if wrote then 1 else 0) + superfluous_calls true ops
      else superfluous_calls wrote ops
  end.

(** While the handler is in time, the log has a line for every [WriteHeader] that
    comes after the header was written, and none for a first one, for a write, or for
    a code that panics; a handler that is late leaves no line at all. The line is
    meant to say which function outside of net/http made the call, but whatever the
    call stack is it names [relevantCaller] itself, the first frame of the stack it
    looks at. *)
Theorem superfluous_WriteHeader_logs file line stack h body timedOut wrote code ops :
  ops_logs file line stack (mk_timeoutWriter h body timedOut wrote code) ops =
  replicate (if timedOut then 0 else superfluous_calls wrote ops)
    (logf (superfluous_message (self_Frame file line))).
Proof.
  assert (relevantCaller file line stack = self_Frame file line) as Hself by done.
  revert h body wrote code. induction ops as [|op ops IH]; intros h body wrote code; [by destruct timedOut|].
  destruct op as [h'|p|c]; cbn [ops_logs op_logs run_op superfluous_calls]; unfold tw_WriteHeader, tw_Write, tw_Write_logs, writeHeaderLocked, writeHeaderLocked_logs.
  - cbn. apply IH.
  - rewrite (check_code StatusOK). destruct timedOut, wrote; cbn; apply IH.
  - rewrite check_code. destruct (valid_code c), timedOut, wrote; cbn; rewrite ?Hself ?IH //.
Qed.

Example superfluous_line :
  ops_logs "/src/common/timeout.go" 23 [mkFrame "main.handler" "/app/main.go" 7; mkFrame "net/http.HandlerFunc.ServeHTTP" "server.go" 2166]
    tw_new [OpWriteHeader 201; OpWrite "done"; OpWriteHeader 500] =
  [(ErrText "http: superfluous response.WriteHeader call from github.com/anz-bank/sysl-go/common.relevantCaller (timeout.go:23)",
    "timeout error")].
Proof. vm_compute. reflexivity. Qed.
