(* ===== verification/RequestContext.v ===== *)
(** * What a request carries: src/common

    The request header and the response header and status in the context
    (corerequestcontext.go), trace ids (traceability.go), temporal clients
    (temporal.go), and package internal: the monitor of unclosed response bodies,
    the payload logger and the logging round tripper, put together in
    [CoreRequestContextMiddleware]. Lines written to the log are left out, except
    the payloads. *)

From S2P Require Export CommonErrors.

(** ** The request header *)

Section request_header.
(** [range header]: the entries of the map, in the order the run time picks. *)
Context (range_header : Header → list (string * list string)).

Definition add_values (h : Header) (entry : string * list string) : Header :=
  foldl (λ h v, header_add h entry.1 v) h entry.2.

Definition canonicalized (header : Header) : Header := foldl add_values ∅ (range_header header).

Definition RequestHeaderToContext (ctx : Context) (header : option Header) : Context :=
  WithValue ctx KReqHeader (canonicalized <$> header).
End request_header.

(** [nil] when there is none; [Clone] gives an equal header that is not shared. *)
Definition RequestHeaderFromContext (ctx : Context) : option Header :=
  match ctx_Value ctx KReqHeader with None => None | Some h => h end.

(** Reading a key of a nil header is allowed. *)
Definition nil_header_get (h : option Header) (key : string) : string := header_get (default ∅ h) key.

(** ** The response header and status: an object shared by reference *)

Record respHeaderAndStatus := mk_respHeaderAndStatus {
  rhs_header : option Header; (* nil or a map *)
  rhs_status : Z
}.
Definition resp_heap := gmap loc respHeaderAndStatus.

Definition RespHeaderAndStatusToContext (ctx : Context) (header : option Header) (status : Z)
    (h : resp_heap) : Context * resp_heap :=
  let l := fresh (dom h) in
  (WithValue ctx KRespHeaderAndStatus l, <[l := mk_respHeaderAndStatus header status]> h).

Definition getRespHeaderAndStatusContext (ctx : Context) (h : resp_heap) : option (loc * respHeaderAndStatus) :=
  l ← ctx_Value ctx KRespHeaderAndStatus; o ← h !! l; Some (l, o).

Definition RespHeaderAndStatusFromContext (ctx : Context) (h : resp_heap) : option Header * Z :=
  match getRespHeaderAndStatusContext ctx h with
  | None => (None, StatusOK)
  | Some (_, o) => (rhs_header o, rhs_status o)
  end.

Definition AppendToResponseHeader (ctx : Context) (key val : string) (h : resp_heap) : resp_heap * res () :=
  match getRespHeaderAndStatusContext ctx h with
  | None => (h, Err (CreateError ctx InternalError "response header not in context" None))
  | Some (l, o) =>
    match rhs_header o with
    | None => (h, Panic nil_map_write)
    | Some header =>
        (<[l := mk_respHeaderAndStatus (Some (header_add header key val)) (rhs_status o)]> h, Ok ())
    end
  end.

Definition UpdateResponseStatus (ctx : Context) (status : Z) (h : resp_heap) : resp_heap * res () :=
  match getRespHeaderAndStatusContext ctx h with
  | None => (h, Err (CreateError ctx InternalError "response status not in context" None))
  | Some (l, o) => (<[l := mk_respHeaderAndStatus (rhs_header o) status]> h, Ok ())
  end.

(** ** The result of a REST call, likewise *)

Record RestResult := mkRestResult {
  rr_StatusCode : Z;
  rr_Headers : option Header;
  rr_Body : string
}.
Definition rest_heap := gmap loc RestResult.

Definition ProvisionRestResult (ctx : Context) (h : rest_heap) : Context * rest_heap :=
  let l := fresh (dom h) in
  (WithValue ctx KRestResult l, <[l := mkRestResult 0 None ""]> h).

Definition GetRestResult (ctx : Context) (h : rest_heap) : option RestResult :=
  l ← ctx_Value ctx KRestResult; h !! l.

(** ** Trace ids (traceability.go) *)

Definition defaultIncomingHeaderForID : string := "RequestID".

Definition getIncomingHeaderForID (ctx : Context) : string :=
  match GetDefaultConfig ctx with
  | Some cfg =>
      let name := trace_IncomingHeaderForID (lib_Trace (cfg_Library cfg)) in
      if bool_decide (name ≠ "") then name else defaultIncomingHeaderForID
  | None => defaultIncomingHeaderForID
  end.

Definition AddTraceIDToContext (ctx : Context) (id : string) (wasProvided : bool) : Context :=
  WithValue ctx KTraceability (mkRequestID id wasProvided).

(** [uuid_New] is the random id this call would draw. *)
Definition TryGetTraceIDFromContext (uuid_New : string) (ctx : Context) : string * bool :=
  match ctx_Value ctx KTraceability with
  | Some v => (rid_id v, rid_wasProvided v)
  | None => (uuid_New, false)
  end.
Definition GetTraceIDFromContext (uuid_New : string) (ctx : Context) : string :=
  (TryGetTraceIDFromContext uuid_New ctx).1.

Definition TraceabilityMiddleware {S} (uuid_Parse : string → option string) (uuid_New : string) :
    Middleware S := λ next r s w,
  let r' := match uuid_Parse (header_get (req_Header r) (getIncomingHeaderForID (req_ctx r))) with
            | None => WithContext (AddTraceIDToContext (req_ctx r) uuid_New false) r
            | Some val => WithContext (AddTraceIDToContext (req_ctx r) val true) r
            end in
  next r' s w.

(** ** Temporal clients (temporal.go) *)

Definition WithTemporalClientMap (ctx : Context) (m : gmap string loc) : Context :=
  WithValue ctx KTemporalClients m.

Definition TemporalClientFrom (ctx : Context) (taskqueue : string) : res loc :=
  match ctx_Value ctx KTemporalClients with
  | None => Err (ErrText "no temporal client exists in this handler")
  | Some m =>
    match m !! taskqueue with
    | None => Err (ErrText ("no temporal client for TaskQueue " +:+ taskqueue +:+ " exists in this handler"))
    | Some c => Ok c
    end
  end.

(** ** Responses and the monitor of unclosed bodies (unclosedresponsebodymonitor.go) *)

(** A [readCloserClosedWrapper]: the URL of the parent request, and [closed]. *)
Record wrapper := mk_wrapper { wr_url : string; wr_closed : bool }.
Definition monitor := list wrapper.
Definition newUnclosedResponseBodyMonitor : monitor := [].

(** An [*http.Response]; its body may be wrapper number [n] of the monitor. *)
Record HTTPResponse := mkHTTPResponse {
  hr_StatusCode : Z;
  hr_Header : Header;
  hr_Body : string;
  hr_wrapper : option nat;
  hr_url : string (* of its request *)
}.

Definition addResponse (m : monitor) (rsp : HTTPResponse) : monitor * HTTPResponse :=
  (m ++ [mk_wrapper (hr_url rsp) false],
   mkHTTPResponse (hr_StatusCode rsp) (hr_Header rsp) (hr_Body rsp) (Some (length m)) (hr_url rsp)).

(** [rsp.Body.Close()]. *)
Definition close_body (m : monitor) (rsp : HTTPResponse) : monitor :=
  match hr_wrapper rsp with
  | None => m
  | Some n => alter (λ w, mk_wrapper (wr_url w) true) n m
  end.

Definition getResponsesWithOpenBodies (m : monitor) : list wrapper :=
  filter (λ w, wr_closed w = false) m.

(** The monitors are shared objects: they live in the state of the handlers. *)
Class HasMonitors (S : Type) := {
  get_monitors : S → gmap loc monitor;
  set_monitors : gmap loc monitor → S → S;
  get_set_monitors : ∀ m s, get_monitors (set_monitors m s) = m
}.

(** The error that names the URLs of the requests whose bodies are open. *)
Definition unclosed_response (open : list wrapper) : error := ErrOpenBodies (wr_url <$> open).

Section monitors.
Context {S : Type} `{!HasMonitors S}.

Definition AddResponseBodyMonitorToContext (ctx : Context) (s : S) : Context * S :=
  let l := fresh (dom (get_monitors s)) in
  (WithValue ctx KBodyMonitor l,
   set_monitors (<[l := newUnclosedResponseBodyMonitor]> (get_monitors s)) s).

Definition monitor_of (ctx : Context) (s : S) : option (loc * monitor) :=
  l ← ctx_Value ctx KBodyMonitor; m ← get_monitors s !! l; Some (l, m).

Definition AddResponseToMonitor (ctx : Context) (resp : HTTPResponse) (s : S) : S * HTTPResponse :=
  match monitor_of ctx s with
  | Some (l, m) =>
      let '(m', resp') := addResponse m resp in
      (set_monitors (<[l := m']> (get_monitors s)) s, resp')
  | None => (s, resp)
  end.

Definition CheckForUnclosedResponses (ctx : Context) (s : S) : res () :=
  match monitor_of ctx s with
  | Some (_, m) =>
      let open := getResponsesWithOpenBodies m in
      if bool_decide (0 < length open)%nat then Panic (PanicError (unclosed_response open)) else Ok ()
  | None => Ok ()
  end.
End monitors.

(** ** The payload logger (requestlogger.go) *)

Record httpData := mk_httpData { hd_body : string; hd_header : Header }.

(** A [*requestLogger], or the [nopLogger]. *)
Record requestLogger := mk_requestLogger {
  rl_req : httpData;
  rl_resp : httpData;
  rl_flushed : bool;
  rl_logged : list (httpData * httpData) (* what has been logged: request, response *)
}.

Definition FlushLog (r : requestLogger) : requestLogger :=
  if rl_flushed r then r
  else mk_requestLogger (rl_req r) (rl_resp r) true (rl_logged r ++ [(rl_req r, rl_resp r)]).

Definition NewRequestLogger (ctx : Context) (req : Request) : option requestLogger :=
  match GetDefaultConfig ctx with
  | Some cfg =>
      if log_LogPayload (lib_Log (cfg_Library cfg)) then
        let body := if bool_decide (req_Method req ≠ "GET") then req_Body req else "" in
        Some (mk_requestLogger (mk_httpData body (req_Header req)) (mk_httpData "" ∅) false [])
      else None
  | None => None
  end.

(** [LogResponse] reads the whole body, closes it, and puts the bytes back behind
    a reader that has nothing to close. *)
Definition LogResponse (m : monitor) (r : requestLogger) (resp : option HTTPResponse) :
    monitor * requestLogger * option HTTPResponse :=
  match resp with
  | None => (m, FlushLog r, None)
  | Some rsp =>
      (close_body m rsp,
       FlushLog (mk_requestLogger (rl_req r)
         (mk_httpData (hd_body (rl_resp r) +:+ hr_Body rsp) (hr_Header rsp)) (rl_flushed r) (rl_logged r)),
       Some (mkHTTPResponse (hr_StatusCode rsp) (hr_Header rsp) (hr_Body rsp) None (hr_url rsp)))
  end.

(** ** The logging round tripper (roundtripper.go) *)

Section roundtrip.
Context {S : Type} `{!HasMonitors S}.

(** A [http.RoundTripper]: a response, or an error. *)
Definition RoundTripper := Request → S → S * res HTTPResponse.

Definition log_response (ctx : Context) (reqLogger : option requestLogger) (resp : option HTTPResponse)
    (s : S) : S * option HTTPResponse :=
  match reqLogger with
  | None => (s, resp)
  | Some r =>
    match monitor_of ctx s with
    | Some (l, m) =>
        let '(m', _, resp') := LogResponse m r resp in
        (set_monitors (<[l := m']> (get_monitors s)) s, resp')
    | None => let '(_, _, resp') := LogResponse [] r resp in (s, resp')
    end
  end.

Definition loggingRoundtripper_RoundTrip (ctx : Context) (base : RoundTripper) : RoundTripper := λ req s,
  let reqLogger := NewRequestLogger ctx req in
  match base req s with
  | (s, Ok resp) =>
      let '(s, resp) := AddResponseToMonitor (req_ctx req) resp s in
      let '(s, resp') := log_response (req_ctx req) reqLogger (Some resp) s in
      (s, Ok (default resp resp'))
  | (s, Err err) => ((log_response (req_ctx req) reqLogger None s).1, Err err)
  | (s, Panic p) => ((log_response (req_ctx req) reqLogger None s).1, Panic p)
  end.

(** [tempRoundtripper] finds the logger in the context of the request it sends. *)
Definition tempRoundtripper_RoundTrip (base : RoundTripper) : RoundTripper := λ req,
  loggingRoundtripper_RoundTrip (req_ctx req) base req.

(** ** The middleware *)

(** A function's deferred calls run last to first, also when it panics, and a
    panic of a deferred call replaces the one under way. *)
Definition deferred {A} (body : res A) (d : res ()) : res A :=
  match d with Panic p => Panic p | _ => body end.

Definition CoreRequestContextMiddleware : Middleware S := λ next r s w,
  let '(ctx, s) := AddResponseBodyMonitorToContext (req_ctx r) s in
  let '(s, w, result) := next (WithContext ctx r) s w in
  (s, w, deferred result (CheckForUnclosedResponses ctx s)).
End roundtrip.

(** ** Headers through the context *)

(** The values of the entries whose key has canonical form [k], in order. *)
Definition values_under (k : string) (l : list (string * list string)) : list string :=
  l ≫= λ e, if bool_decide (CanonicalHeaderKey e.1 = k) then e.2 else [].

Definition append_values (o : option (list string)) (vs : list string) : option (list string) :=
  match vs with [] => o | _ => Some (default [] o ++ vs) end.

Lemma add_values_lookup h e k :
  add_values h e !! k =
  append_values (h !! k) (if bool_decide (CanonicalHeaderKey e.1 = k) then e.2 else []).
Proof.
  unfold add_values. destruct e as [name vs]. cbn. revert h. induction vs as [|v vs IH]; intros h; cbn.
  { by case_bool_decide. }
  rewrite IH. unfold header_add. case_bool_decide as Hk.
  - rewrite Hk lookup_insert_eq. destruct vs; cbn; [done|]. by rewrite -app_assoc.
  - by rewrite lookup_insert_ne.
Qed.

Lemma append_values_app o vs vs' :
  append_values (append_values o vs) vs' = append_values o (vs ++ vs').
Proof. destruct vs, vs'; cbn; rewrite ?app_nil_r //. by rewrite -app_assoc. Qed.

Lemma fold_add_values_lookup l h k :
  foldl add_values h l !! k = append_values (h !! k) (values_under k l).
Proof.
  revert h. induction l as [|e l IH]; intros h; [done|]. cbn [foldl].
  by rewrite IH add_values_lookup append_values_app.
Qed.

Lemma values_under_nil k l :
  Forall (λ e : string * list string, CanonicalHeaderKey e.1 ≠ k) l → values_under k l = [].
Proof.
  unfold values_under. induction 1 as [|e l He _ IH]; [done|].
  rewrite bind_cons IH. cbn beta. by rewrite bool_decide_false.
Qed.

Lemma values_under_In (l : list (string * list string)) k vs :
  NoDup l.*1 → Forall (λ e, CanonicalHeaderKey e.1 = e.1) l → (k, vs) ∈ l → values_under k l = vs.
Proof.
  intros Hnd Hc Hin. induction l as [|[k' vs'] l IH]; [by apply elem_of_nil in Hin|].
  rewrite fmap_cons list.NoDup_cons in Hnd. destruct Hnd as [Hni Hnd].
  apply list.Forall_cons in Hc as [Hk' Hc]. cbn in Hk'.
  change (values_under k ((k', vs') :: l)) with
    ((if bool_decide (CanonicalHeaderKey k' = k) then vs' else []) ++ values_under k l). rewrite Hk'.
  apply elem_of_cons in Hin as [[= <- <-]|Hin].
  - rewrite bool_decide_true // values_under_nil ?app_nil_r //.
    apply list.Forall_forall. intros e He Heq. rewrite list.Forall_forall in Hc. rewrite Hc // in Heq.
    apply Hni. cbn. rewrite -Heq. by apply list_elem_of_fmap_2.
  - rewrite bool_decide_false; [|by apply IH]. intros ->.
    apply Hni, list_elem_of_fmap. by exists (k, vs).
Qed.

(** The header put in the context comes back with canonical keys only, whatever
    order the map is walked in; a header as the server builds it, with canonical
    keys and at least one value for each, comes back unchanged. *)
Theorem RequestHeader_roundtrip range_header ctx header :
  (∀ h, range_header h ≡ₚ map_to_list h) →
  ∃ h', RequestHeaderFromContext (RequestHeaderToContext range_header ctx (Some header)) = Some h' ∧
    map_Forall (λ k _, CanonicalHeaderKey k = k) h' ∧
    (map_Forall (λ k vs, CanonicalHeaderKey k = k ∧ vs ≠ []) header → h' = header).
Proof.
  intros Hrange. unfold RequestHeaderFromContext, RequestHeaderToContext.
  rewrite WithValue_same. cbn [fmap option_fmap option_map]. eexists. split; [done|].
  unfold canonicalized. split.
  - intros k vs. rewrite fold_add_values_lookup lookup_empty.
    destruct (decide (CanonicalHeaderKey k = k)) as [|Hne]; [done|]. intros Hk. exfalso.
    rewrite values_under_nil in Hk; [|done]. apply list.Forall_forall. intros e _ Heq.
    destruct Hne. by rewrite -Heq CanonicalHeaderKey_idemp.
  - intros Hall. apply map_eq. intros k. rewrite fold_add_values_lookup lookup_empty.
    assert (NoDup (range_header header).*1) as Hnd.
    { rewrite Hrange. apply NoDup_fst_map_to_list. }
    assert (Forall (λ e, CanonicalHeaderKey e.1 = e.1) (range_header header)) as Hc.
    { rewrite Hrange. apply list.Forall_forall. intros [k' vs] Hin%elem_of_map_to_list.
      apply (Hall _ _ Hin). }
    destruct (header !! k) as [vs|] eqn:Hk.
    + rewrite (values_under_In _ k vs) //.
      { rewrite Hrange. by apply elem_of_map_to_list. }
      destruct (Hall _ _ Hk) as [_ ?]. by destruct vs.
    + rewrite values_under_nil //. apply list.Forall_forall.
      intros [k' vs] He Heq. rewrite list.Forall_forall in Hc. rewrite Hc // in Heq. cbn in Heq. subst k'.
      rewrite Hrange in He. apply elem_of_map_to_list in He. congruence.
Qed.

Lemma RequestHeader_roundtrip_witness :
  let header : Header := {["Content-Type" := ["text/plain"]]} in
  ∃ h', RequestHeaderFromContext (RequestHeaderToContext map_to_list Background (Some header)) = Some h' ∧
        h' = header.
Proof.
  destruct (RequestHeader_roundtrip map_to_list Background {["Content-Type" := ["text/plain"]]}) as (h'&E&_&H).
  { intros h. reflexivity. }
  exists h'. split; [exact E|]. apply H. apply (bool_decide_eq_true_1 _). vm_compute. reflexivity.
Defined.

(** ** The response header and status *)

(** Two contexts share the object when they have the same pointer. *)
Definition shares (ctx ctx' : Context) : Prop :=
  ctx_Value ctx KRespHeaderAndStatus = ctx_Value ctx' KRespHeaderAndStatus.

(** What a handler may do to the response through its context. *)
Inductive resp_update :=
| AppendHeader (key val : string)
| SetStatus (status : Z).

Definition apply_update (ctx : Context) (u : resp_update) (h : resp_heap) : resp_heap * res () :=
  match u with
  | AppendHeader key val => AppendToResponseHeader ctx key val h
  | SetStatus status => UpdateResponseStatus ctx status h
  end.

Definition update_pure (o : Header * Z) (u : resp_update) : Header * Z :=
  match u with
  | AppendHeader key val => (header_add o.1 key val, o.2)
  | SetStatus status => (o.1, status)
  end.

Lemma apply_update_spec ctx u h l hdr st :
  ctx_Value ctx KRespHeaderAndStatus = Some l → h !! l = Some (mk_respHeaderAndStatus (Some hdr) st) →
  apply_update ctx u h =
    (<[l := mk_respHeaderAndStatus (Some (update_pure (hdr, st) u).1) (update_pure (hdr, st) u).2]> h, Ok ()).
Proof.
  intros Hl Hh. unfold apply_update, AppendToResponseHeader, UpdateResponseStatus,
    getRespHeaderAndStatusContext. rewrite Hl. cbn. rewrite Hh. by destruct u.
Qed.

(** The updates one handler makes, each through a context of its own. *)
Fixpoint apply_updates (us : list (Context * resp_update)) (h : resp_heap) : resp_heap :=
  match us with
  | [] => h
  | (ctx, u) :: us => apply_updates us (apply_update ctx u h).1
  end.

(** What handlers append to the response header and set as its status, through
    any context derived from the provisioned one, is what the provisioned context
    gives back, in the order it happened: headers accumulate and the last status
    wins. Objects of other requests are untouched. *)
Theorem response_updates_visible ctx hdr st h us :
  let '(ctx', h') := RespHeaderAndStatusToContext ctx (Some hdr) st h in
  Forall (λ u, shares u.1 ctx') us →
  RespHeaderAndStatusFromContext ctx' (apply_updates us h') =
    (Some (foldl update_pure (hdr, st) us.*2).1, (foldl update_pure (hdr, st) us.*2).2) ∧
  (∀ l, l ∈ dom h → apply_updates us h' !! l = h !! l).
Proof.
  unfold RespHeaderAndStatusToContext. cbn zeta. set (l := fresh (dom h)).
  set (ctx' := WithValue ctx KRespHeaderAndStatus l). intros Hall.
  assert (ctx_Value ctx' KRespHeaderAndStatus = Some l) as Hl by apply WithValue_same.
  assert (∀ us h0 o, Forall (λ u, shares u.1 ctx') us →
    h0 !! l = Some (mk_respHeaderAndStatus (Some o.1) o.2) →
    apply_updates us h0 = <[l := mk_respHeaderAndStatus (Some (foldl update_pure o us.*2).1)
                                   (foldl update_pure o us.*2).2]> h0) as Hrun.
  { clear us Hall. induction us as [|[ctx0 u] us IH]; intros h0 o Hsh Ho; cbn [apply_updates].
    { cbn. by rewrite insert_id. }
    apply list.Forall_cons in Hsh as [Hs Hsh]. cbn in Hs. unfold shares in Hs. rewrite Hl in Hs.
    rewrite (apply_update_spec _ _ _ l o.1 o.2) //. cbn [fst]. destruct o as [o1 o2].
    rewrite (IH _ (update_pure (o1, o2) u)) //; [by rewrite lookup_insert_eq|].
    by rewrite insert_insert_eq. }
  rewrite (Hrun us _ (hdr, st) Hall); [by rewrite lookup_insert_eq|]. split.
  - unfold RespHeaderAndStatusFromContext, getRespHeaderAndStatusContext. rewrite Hl. cbn.
    by rewrite lookup_insert_eq.
  - intros l' Hl'. assert (l ≠ l') by (intros <-; by apply (is_fresh (dom h))).
    by rewrite !lookup_insert_ne.
Qed.

Lemma response_updates_visible_witness :
  let '(ctx', h') := RespHeaderAndStatusToContext Background (Some ∅) 200 ∅ in
  RespHeaderAndStatusFromContext ctx'
    (apply_updates [(ctx', AppendHeader "x-a" "1"); (ctx', SetStatus 201); (ctx', AppendHeader "X-A" "2")] h') =
    (Some {["X-A" := ["1"; "2"]]}, 201%Z).
Proof.
  destruct (RespHeaderAndStatusToContext Background (Some ∅) 200 ∅) as [ctx' h'] eqn:E.
  pose proof (response_updates_visible Background ∅ 200 ∅
    [(ctx', AppendHeader "x-a" "1"); (ctx', SetStatus 201); (ctx', AppendHeader "X-A" "2")]) as H.
  rewrite E in H. destruct H as [H _]; [repeat constructor|]. exact H.
Defined.

(** ** Trace ids *)

(** Behind the middleware a request has one trace id, the same at every read:
    the incoming header's when it is a UUID, and otherwise a new one. *)
Theorem TraceabilityMiddleware_id {S} uuid_Parse uuid_New (next : Handler S) r s w :
  let incoming := uuid_Parse (header_get (req_Header r) (getIncomingHeaderForID (req_ctx r))) in
  ∃ r', TraceabilityMiddleware uuid_Parse uuid_New next r s w = next r' s w ∧
    req_Header r' = req_Header r ∧
    (∀ other_uuid, TryGetTraceIDFromContext other_uuid (req_ctx r') =
       (default uuid_New incoming, bool_decide (is_Some incoming))) ∧
    (∀ k, k ≠ KTraceability → ctx_Value (req_ctx r') k = ctx_Value (req_ctx r) k).
Proof.
  cbn zeta. unfold TraceabilityMiddleware, AddTraceIDToContext, TryGetTraceIDFromContext.
  destruct (uuid_Parse _) as [id|]; (eexists; split; [done|]); cbn [req_ctx WithContext req_Header];
    (split; [done|]); (split; [intros; by rewrite WithValue_same|intros; by rewrite WithValue_other]).
Qed.

(** ** The monitor of response bodies *)

Inductive body_action :=
| Obtain (rsp : HTTPResponse)
| CloseBody (n : nat). (* the [n]th body obtained *)

Definition body_step (m : monitor) (a : body_action) : monitor :=
  match a with
  | Obtain rsp => (addResponse m rsp).1
  | CloseBody n => alter (λ w, mk_wrapper (wr_url w) true) n m
  end.

Definition is_obtain (a : body_action) : bool := match a with Obtain _ => true | _ => false end.

(** Body [n] was closed after it was obtained. *)
Fixpoint closed_after (obtained : nat) (l : list body_action) (n : nat) : Prop :=
  match l with
  | [] => False
  | Obtain _ :: l => closed_after (S obtained) l n
  | CloseBody k :: l => (k = n ∧ n < obtained)%nat ∨ closed_after obtained l n
  end.

Lemma run_bodies l m n w :
  foldl body_step m l !! n = Some w →
  (wr_closed w = true ↔
   closed_after (length m) l n ∨ ∃ w0, m !! n = Some w0 ∧ wr_closed w0 = true).
Proof.
  revert m. induction l as [|a l IH]; intros m Hn; cbn [foldl closed_after] in *.
  - split; [by eauto|]. intros [[]|(?&?&?)]. by simplify_eq.
  - destruct a as [rsp|k]; cbn [body_step addResponse fst] in Hn; rewrite (IH _ Hn).
    + rewrite length_app Nat.add_1_r. f_equiv. split; intros (w0&H0&Hc); exists w0; (split; [|done]).
      * apply lookup_app_Some in H0 as [?|[_ H0]]; [done|].
        apply list_lookup_singleton_Some in H0 as [_ <-]. done.
      * by apply lookup_app_l_Some.
    + rewrite length_alter. split.
      * intros [?|(w0&H0&Hc)]; [by auto|]. destruct (decide (k = n)) as [->|].
        -- left. left. split; [done|]. apply lookup_lt_Some in H0. by rewrite length_alter in H0.
        -- rewrite list_lookup_alter_ne // in H0. eauto.
      * intros [[[-> Hlt]|?]|(w0&H0&Hc)]; [|by auto|].
        -- right. destruct (lookup_lt_is_Some_2 m n Hlt) as [w0 H0].
           exists (mk_wrapper (wr_url w0) true). by rewrite list_lookup_alter_eq H0.
        -- right. destruct (decide (k = n)) as [->|].
           ++ exists (mk_wrapper (wr_url w0) true). by rewrite list_lookup_alter_eq H0.
           ++ exists w0. by rewrite list_lookup_alter_ne.
Qed.

Lemma run_bodies_length l m :
  length (foldl body_step m l) = (length m + length (filter is_obtain l))%nat.
Proof.
  revert m. induction l as [|a l IH]; intros m; [cbn; lia|]. cbn [foldl]. rewrite IH filter_cons.
  case_decide as Ha; destruct a; try (by cbn in Ha); cbn; rewrite ?length_app ?length_alter; cbn; lia.
Qed.

(** The monitor finds an open body exactly when some response obtained during the
    request was never closed after it was obtained. *)
Theorem open_bodies_spec l :
  getResponsesWithOpenBodies (foldl body_step newUnclosedResponseBodyMonitor l) = [] ↔
  ∀ n, (n < length (filter is_obtain l))%nat → closed_after 0 l n.
Proof.
  unfold getResponsesWithOpenBodies. rewrite filter_is_nil list.Forall_lookup. split.
  - intros H n Hn. assert (n < length (foldl body_step [] l))%nat as Hlt by (rewrite run_bodies_length; done).
    apply lookup_lt_is_Some in Hlt as [w Hw]. specialize (H _ _ Hw).
    apply (run_bodies _ _ _ _) in Hw as [[Hc|(?&?&_)] _]; [by destruct (wr_closed w)|done|done].
  - intros H n w Hw. assert (n < length (filter is_obtain l))%nat as Hn.
    { apply lookup_lt_Some in Hw. by rewrite run_bodies_length in Hw. }
    apply H in Hn. apply run_bodies in Hw as [_ Hc]. rewrite Hc; auto.
Qed.

Section middleware_properties.
Context {S : Type} `{!HasMonitors S}.
Implicit Types (next : Handler S) (r : Request) (s : S) (w : RW).

(** The middleware gives each request a monitor of its own, empty, under a
    context that otherwise keeps its values, and turns the request into a panic
    exactly when, after the handler returned or panicked, a body is still open. *)
Theorem CoreRequestContextMiddleware_spec next r s w :
  ∃ l r' s0, l ∉ dom (get_monitors s) ∧ get_monitors s0 = <[l := []]> (get_monitors s) ∧
    ctx_Value (req_ctx r') KBodyMonitor = Some l ∧
    (∀ k, k ≠ KBodyMonitor → ctx_Value (req_ctx r') k = ctx_Value (req_ctx r) k) ∧
    let '(s', w', result) := next r' s0 w in
    let open := getResponsesWithOpenBodies (default [] (get_monitors s' !! l)) in
    CoreRequestContextMiddleware next r s w =
      (s', w', if bool_decide (open = []) then result else Panic (PanicError (unclosed_response open))).
Proof.
  set (l := fresh (dom (get_monitors s))).
  exists l, (WithContext (WithValue (req_ctx r) KBodyMonitor l) r),
    (set_monitors (<[l := []]> (get_monitors s)) s).
  split; [apply is_fresh|]. split; [apply get_set_monitors|]. split; [apply WithValue_same|].
  split; [intros; by apply WithValue_other|].
  unfold CoreRequestContextMiddleware, AddResponseBodyMonitorToContext, newUnclosedResponseBodyMonitor.
  cbn zeta. change (fresh (dom (get_monitors s))) with l. clearbody l. cbn iota beta. destruct (next _ _ _) as [[s' w'] result]. f_equal.
  unfold CheckForUnclosedResponses, monitor_of. rewrite WithValue_same. cbn -[getResponsesWithOpenBodies].
  destruct (get_monitors s' !! l) as [m|]; cbn -[getResponsesWithOpenBodies]; [|done].
  destruct (getResponsesWithOpenBodies m); [done|].
  rewrite bool_decide_true; [cbn; lia|]. done.
Qed.

(** The logging round tripper gives the caller the response it got, status,
    headers and body unchanged; the response is under the monitor, unless
    payloads are logged: then its body has been read and closed already, and
    closing it is no longer the caller's business. *)
Theorem loggingRoundtripper_RoundTrip_spec ctx (base : RoundTripper) req s l m s1 resp m1 :
  ctx_Value (req_ctx req) KBodyMonitor = Some l →
  get_monitors s !! l = Some m →
  base req s = (s1, Ok resp) → get_monitors s1 !! l = Some m1 →
  ∃ s2 resp', loggingRoundtripper_RoundTrip ctx base req s = (s2, Ok resp') ∧
    hr_StatusCode resp' = hr_StatusCode resp ∧ hr_Header resp' = hr_Header resp ∧
    hr_Body resp' = hr_Body resp ∧
    match NewRequestLogger ctx req with
    | None => hr_wrapper resp' = Some (length m1) ∧
        get_monitors s2 !! l = Some (m1 ++ [mk_wrapper (hr_url resp) false])
    | Some _ => hr_wrapper resp' = None ∧
        get_monitors s2 !! l = Some (m1 ++ [mk_wrapper (hr_url resp) true])
    end.
Proof.
  intros Hl Hm Hbase Hm1. unfold loggingRoundtripper_RoundTrip, AddResponseToMonitor, monitor_of.
  rewrite Hbase Hl. cbn. rewrite Hm1. cbn. unfold log_response, monitor_of.
  destruct (NewRequestLogger ctx req) as [rl|].
  - rewrite Hl. cbn. rewrite get_set_monitors lookup_insert_eq. cbn. do 2 eexists. split; [done|].
    cbn. split_and!; try done. rewrite get_set_monitors lookup_insert_eq. f_equal.
    by rewrite alter_app_r_alt // Nat.sub_diag.
  - do 2 eexists. split; [done|]. cbn. split_and!; try done. by rewrite get_set_monitors lookup_insert_eq.
Qed.
End middleware_properties.

(** A logger's payloads are logged once, whatever is called on it. *)
Inductive logger_call := CallLogResponse (resp : option HTTPResponse) | CallFlushLog.
Definition logger_step (r : requestLogger) (c : logger_call) : requestLogger :=
  match c with
  | CallLogResponse resp => (LogResponse [] r resp).1.2
  | CallFlushLog => FlushLog r
  end.

Lemma logger_logs_once ctx req l calls :
  NewRequestLogger ctx req = Some l →
  length (rl_logged (foldl logger_step l calls)) = (if bool_decide (calls = []) then 0 else 1)%nat.
Proof.
  intros Hnew. assert (rl_logged l = [] ∧ rl_flushed l = false) as [Hl Hf].
  { unfold NewRequestLogger in Hnew. by repeat case_match; simplify_eq. }
  assert (∀ r c, rl_flushed r = true → rl_flushed (logger_step r c) = true ∧
    rl_logged (logger_step r c) = rl_logged r) as Hdone.
  { intros r [[resp|]|] Hr; cbn; unfold FlushLog; cbn; by rewrite Hr. }
  assert (∀ cs r, rl_flushed r = true → rl_logged (foldl logger_step r cs) = rl_logged r) as Hdones.
  { induction cs as [|c cs IH]; intros r Hr; [done|]. cbn. destruct (Hdone r c Hr). by rewrite IH. }
  destruct calls as [|c calls]; [by rewrite bool_decide_true // Hl|]. rewrite bool_decide_false //.
  cbn [foldl]. rewrite Hdones; destruct c as [[resp|]|]; cbn; unfold FlushLog; cbn; rewrite Hf //= Hl //.
Qed.

(** The state is just the monitors. *)
Module MonitorExample.
#[export, refine] Instance monitors : HasMonitors (gmap loc monitor) :=
  {| get_monitors := λ s, s; set_monitors := λ m _, m |}.
Proof. done. Defined.
Definition ctx : Context := WithValue Background KBodyMonitor 1%positive.
Definition req : Request := mkRequest ctx "GET" "http://backend/" ∅ "".
Definition resp : HTTPResponse := mkHTTPResponse 200 ∅ "hello" None "http://backend/".
Definition base : Request → gmap loc monitor → gmap loc monitor * res HTTPResponse := λ _ s, (s, Ok resp).
End MonitorExample.
#[local] Existing Instance MonitorExample.monitors.

Lemma loggingRoundtripper_RoundTrip_spec_witness :
  ∃ (s2 : gmap loc monitor) resp',
    loggingRoundtripper_RoundTrip Background MonitorExample.base MonitorExample.req {[1%positive := []]} =
      (s2, Ok resp') ∧
    hr_Body resp' = "hello" ∧ s2 !! 1%positive = Some [mk_wrapper "http://backend/" false].
Proof.
  assert (({[1%positive := []]} : gmap loc monitor) !! 1%positive = Some []) as Hl by reflexivity.
  destruct (@loggingRoundtripper_RoundTrip_spec _ MonitorExample.monitors Background MonitorExample.base MonitorExample.req
    {[1%positive := []]} 1%positive [] {[1%positive := []]} MonitorExample.resp [] eq_refl Hl eq_refl Hl)
    as (s2&resp'&E&_&_&Hb&_&Hm).
  exists s2, resp'. split; [exact E|]. split; [exact Hb|exact Hm].
Defined.
