(* ===== verification/AuthExpr.v ===== *)
(** * Authorization expressions: src/authexpr

    The expression tree the parser fills, its validation and its evaluation
    against the scopes of a token. The parser itself (participle) is third
    party: it is the parameter [ParseString], of which the code relies on the
    grammar written in the struct tags. *)

From S2P Require Export Go.

(** ** Errors (errors.go) *)

Definition ConfigFailed (msg : string) : error :=
  ErrAuthExpr ("configuration failure: " +:+ msg) None.
Definition ParseFailed (msg : string) : error :=
  ErrAuthExpr ("expression parse error: " +:+ msg) None.
Definition ValidationFailed (msg : string) : error :=
  ErrAuthExpr ("expression is invalid: " +:+ msg) None.
Definition EvalFailed (msg : string) : error :=
  ErrAuthExpr ("evaluation failure: " +:+ msg) None.
Definition WithCause (e cause : error) : error :=
  match e with
  | ErrAuthExpr msg _ => ErrAuthExpr msg (Some cause)
  | e => e (* the method exists on authexpr.Error only *)
  end.

(** ** The expression tree (expr.go) *)

Record Literal := mkLiteral { Literal_String : option string }.
Record Atom := mkAtom { Atom_Name : string; Atom_Args : list Literal }.

Inductive Expr : Type :=
| mkExpr (e_OpExpr : option OpExpr) (e_AtomExpr : option Atom)
with OpExpr : Type :=
| mkOpExpr (op_Name : string) (op_Args : list Expr).

Definition EvaluationContext := string → res bool. (* JWTHasScope *)

Definition invariant_violated : panicval :=
  PanicString "authexpr invariant violated: Expr must be either OpExpr or AtomExpr".

Definition Literal_Validate (l : Literal) : res () := Ok ().

Definition Atom_Validate (a : Atom) : res () :=
  if bool_decide (Atom_Name a = "jwtHasScope") then
    match Atom_Args a with
    | [mkLiteral (Some _)] => forM_res Literal_Validate (Atom_Args a)
    | _ => Err (ValidationFailed "jwtHasScope(...) Atom must be called with exactly one string literal argument")
    end
  else Err (ValidationFailed ("undefined Atom for name: " +:+ Atom_Name a)).

Fixpoint Expr_Validate (e : Expr) : res () :=
  match e with
  | mkExpr (Some o) None => OpExpr_Validate o
  | mkExpr None (Some a) => Atom_Validate a
  | mkExpr _ _ => Panic invariant_violated
  end
with OpExpr_Validate (o : OpExpr) : res () :=
  match o with
  | mkOpExpr name args =>
      if bool_decide (name = "not") then
        if bool_decide (length args ≠ 1) then
          Err (ValidationFailed "not(...) OpExpr must be called with exactly one argument")
        else forM_res Expr_Validate args
      else if bool_decide (name = "all" ∨ name = "any") then
        forM_res Expr_Validate args
      else Err (ValidationFailed ("undefined OpExpr for name: " +:+ name))
  end.

Definition Atom_Evaluate (ctx : EvaluationContext) (a : Atom) : res bool :=
  if bool_decide (Atom_Name a = "jwtHasScope") then
    match Atom_Args a with
    | [] => Panic index_out_of_range
    | l :: _ => s ← deref (Literal_String l); ctx s
    end
  else Err (ValidationFailed ("undefined Atom for name: " +:+ Atom_Name a)).

(** The switch on the operator, once every argument has a value. *)
Definition apply_op (name : string) (values : list bool) : res bool :=
  if bool_decide (name = "not") then
    match values with [] => Panic index_out_of_range | v :: _ => Ok (negb v) end
  else if bool_decide (name = "any") then Ok (range_any id values)
  else if bool_decide (name = "all") then Ok (negb (range_any negb values))
  else Err (ValidationFailed ("undefined OpExpr for name: " +:+ name)).

Fixpoint Expr_Evaluate (ctx : EvaluationContext) (e : Expr) : res bool :=
  match e with
  | mkExpr (Some o) _ => OpExpr_Evaluate ctx o
  | mkExpr None (Some a) => Atom_Evaluate ctx a
  | mkExpr None None => Panic nil_dereference
  end
with OpExpr_Evaluate (ctx : EvaluationContext) (o : OpExpr) : res bool :=
  match o with
  | mkOpExpr name args =>
      values ← mapM_res (Expr_Evaluate ctx) args;
      apply_op name values
  end.

Definition CompileExpression (ParseString : string → error + Expr) (expression : string) : res Expr :=
  match ParseString expression with
  | inl err => Err (WithCause (ParseFailed "failed to parse auth expression") err)
  | inr root => _ ← Expr_Validate root; Ok root
  end.

(** ** Standard scope lookup (eval_context.go) *)

Definition MakeStandardJWTHasScope (claims : Claims) : EvaluationContext := λ queryScope,
  match claims !! "scope" with
  | Some (VString scopeString) =>
      Ok (range_any (λ s, bool_decide (s = queryScope)) (Split " " scopeString))
  | _ => Ok false
  end.

(** ** Induction over the mutual tree *)

Section Expr_induction.
Context (P : Expr → Prop) (Q : OpExpr → Prop).
Hypothesis Hboth : ∀ o a, Q o → P (mkExpr (Some o) (Some a)).
Hypothesis Hop : ∀ o, Q o → P (mkExpr (Some o) None).
Hypothesis Hatom : ∀ a, P (mkExpr None (Some a)).
Hypothesis Hnone : P (mkExpr None None).
Hypothesis Hargs : ∀ name args, Forall P args → Q (mkOpExpr name args).

Fixpoint Expr_nested_ind (e : Expr) : P e :=
  match e with
  | mkExpr (Some o) (Some a) => Hboth o a (OpExpr_nested_ind o)
  | mkExpr (Some o) None => Hop o (OpExpr_nested_ind o)
  | mkExpr None (Some a) => Hatom a
  | mkExpr None None => Hnone
  end
with OpExpr_nested_ind (o : OpExpr) : Q o :=
  match o with
  | mkOpExpr name args =>
      Hargs name args
        ((fix go (l : list Expr) : Forall P l :=
            match l with
            | [] => Forall_nil _
            | x :: l => Forall_cons _ x l (Expr_nested_ind x) (go l)
            end) args)
  end.
End Expr_induction.

(** ** Specification *)

(** A well-formed expression: exactly what the language defines. *)
Inductive wf_expr : Expr → Prop :=
| wf_scope s : wf_expr (mkExpr None (Some (mkAtom "jwtHasScope" [mkLiteral (Some s)])))
| wf_not e : wf_expr e → wf_expr (mkExpr (Some (mkOpExpr "not" [e])) None)
| wf_all es : Forall wf_expr es → wf_expr (mkExpr (Some (mkOpExpr "all" es)) None)
| wf_any es : Forall wf_expr es → wf_expr (mkExpr (Some (mkOpExpr "any" es)) None).

(** The meaning of an expression for a set of granted scopes. *)
Section holds.
Context (granted : string → Prop).
Fixpoint holds (e : Expr) : Prop :=
  match e with
  | mkExpr (Some (mkOpExpr name args)) _ =>
      if bool_decide (name = "not") then
        match args with [] => False | a :: _ => ¬ holds a end
      else if bool_decide (name = "any") then
        (fix exists_arg l := match l with [] => False | a :: l => holds a ∨ exists_arg l end) args
      else if bool_decide (name = "all") then
        (fix all_args l := match l with [] => True | a :: l => holds a ∧ all_args l end) args
      else False
  | mkExpr None (Some (mkAtom _ [mkLiteral (Some s)])) => granted s
  | mkExpr None _ => False
  end.
End holds.

(** The claims carry a scope: their claim scope is a string of words between single
    spaces, as RFC 8693 has it, and the scope is one of the words. *)
Definition carries_scope (claims : Claims) (q : string) : Prop :=
  ∃ words, words ≠ [] ∧ Forall (λ w, no_byte " " w = true) words ∧
    claims !! "scope" = Some (VString (Join words " ")) ∧ q ∈ words.

(** The scope queries of an expression, from left to right. *)
Fixpoint scopes (e : Expr) : list string :=
  match e with
  | mkExpr (Some (mkOpExpr _ args)) _ =>
      (fix go l := match l with [] => [] | a :: l => scopes a ++ go l end) args
  | mkExpr None (Some a) => match Atom_Args a with mkLiteral (Some s) :: _ => [s] | _ => [] end
  | mkExpr None None => []
  end.

(** ** Lemmas *)

Lemma wf_validate e : wf_expr e → Expr_Validate e = Ok ().
Proof.
  revert e. fix IH 2. intros e [s|e' He|es Hes|es Hes]; cbn.
  - done.
  - by rewrite (IH _ He).
  - apply forM_res_Ok. induction Hes; constructor; auto.
  - apply forM_res_Ok. induction Hes; constructor; auto.
Qed.

Lemma validate_args args :
  Forall (λ e, Expr_Validate e = Ok () → wf_expr e) args →
  forM_res Expr_Validate args = Ok () → Forall wf_expr args.
Proof.
  intros Hargs Hok%forM_res_Ok. induction Hargs; [constructor|].
  apply list.Forall_cons in Hok as [??]. constructor; auto.
Qed.

Lemma validate_wf e : Expr_Validate e = Ok () → wf_expr e.
Proof.
  revert e. refine (Expr_nested_ind (λ e, Expr_Validate e = Ok () → wf_expr e)
    (λ o, OpExpr_Validate o = Ok () → wf_expr (mkExpr (Some o) None)) _ _ _ _ _); cbn; try done.
  - intros [name args]. unfold Atom_Validate. cbn. intros H.
    repeat case_match; simplify_eq/=. case_bool_decide; simplify_eq/=. constructor.
  - intros name args Hargs H. repeat case_bool_decide; simplify_eq/=.
    + destruct args as [|e [|??]]; simplify_eq/=; try lia.
      apply (validate_args [e]) in H; [|done]. constructor. by inversion H.
    + destruct_or!; subst; constructor; by apply validate_args.
Qed.

(** Validation accepts exactly the well-formed expressions. *)
Lemma Expr_Validate_wf e : Expr_Validate e = Ok () ↔ wf_expr e.
Proof. split; auto using validate_wf, wf_validate. Qed.

Lemma CompileExpression_wf ParseString s e :
  CompileExpression ParseString s = Ok e → wf_expr e.
Proof.
  unfold CompileExpression. destruct (ParseString s); [done|].
  intros ([]&?&[= <-])%res_bind_Ok. by apply validate_wf.
Qed.

(** Evaluation asks for every scope of the expression, in order, and then
    combines the answers. *)
Lemma evaluate_args es :
  Forall (λ e, ∃ F, ∀ ctx, Expr_Evaluate ctx e = F <$> mapM_res ctx (scopes e)) es →
  ∃ G, ∀ ctx, mapM_res (Expr_Evaluate ctx) es =
    G <$> mapM_res ctx ((fix go l := match l with [] => [] | a :: l => scopes a ++ go l end) es).
Proof.
  induction 1 as [|e es [F HF] _ [G HG]].
  - by exists (λ _, []).
  - exists (λ bs, F (take (length (scopes e)) bs) :: G (drop (length (scopes e)) bs)).
    intros ctx. cbn [mapM_res]. rewrite HF HG mapM_res_app.
    destruct (mapM_res ctx (scopes e)) as [k1| |] eqn:E; [|done..].
    apply mapM_res_length in E. cbn.
    destruct (mapM_res ctx _) as [k2| |]; [|done..]. cbn.
    by rewrite -E take_app_length drop_app_length.
Qed.

Lemma evaluate_scopes e :
  wf_expr e → ∃ F, ∀ ctx, Expr_Evaluate ctx e = F <$> mapM_res ctx (scopes e).
Proof.
  revert e. fix IH 2. intros e [s|e' He|es Hes|es Hes].
  - exists (λ bs, match bs with b :: _ => b | [] => false end).
    intros ctx. cbn. unfold Atom_Evaluate. cbn. by destruct (ctx s).
  - destruct (IH _ He) as [F HF]. exists (λ bs, negb (F bs)). intros ctx. cbn.
    rewrite HF app_nil_r. by destruct (mapM_res ctx _).
  - destruct (evaluate_args es) as [G HG].
    { induction Hes; constructor; auto. }
    exists (λ bs, negb (range_any negb (G bs))). intros ctx. cbn [Expr_Evaluate OpExpr_Evaluate].
    rewrite HG. by destruct (mapM_res ctx _).
  - destruct (evaluate_args es) as [G HG].
    { induction Hes; constructor; auto. }
    exists (λ bs, range_any id (G bs)). intros ctx. cbn [Expr_Evaluate OpExpr_Evaluate].
    rewrite HG. by destruct (mapM_res ctx _).
Qed.

(** The grammar of the parser builds nodes with exactly one alternative. *)
Fixpoint one_alternative (e : Expr) : bool :=
  match e with
  | mkExpr (Some (mkOpExpr _ args)) None =>
      (fix go l := match l with [] => true | a :: l => one_alternative a && go l end) args
  | mkExpr None (Some _) => true
  | _ => false
  end.

Lemma forM_res_no_panic {A} (f : A → res ()) l :
  Forall (λ x, is_panic (f x) = false) l → is_panic (forM_res f l) = false.
Proof. induction 1 as [|x l Hx _ IH]; [done|]. cbn. by destruct (f x). Qed.

Lemma validate_no_panic e : one_alternative e = true → is_panic (Expr_Validate e) = false.
Proof.
  revert e. refine (Expr_nested_ind
    (λ e, one_alternative e = true → is_panic (Expr_Validate e) = false)
    (λ o, one_alternative (mkExpr (Some o) None) = true → is_panic (OpExpr_Validate o) = false)
    _ _ _ _ _); try done.
  - intros o a _ ?. by destruct o.
  - intros [name args] _. cbn. unfold Atom_Validate. by repeat case_match.
  - intros name args Hargs H.
    assert (is_panic (forM_res Expr_Validate args) = false).
    { apply forM_res_no_panic. revert H. cbn. induction Hargs as [|e es He _ IH]; [constructor|].
      intros [??]%andb_true_iff. constructor; auto. }
    cbn. by repeat case_match.
Qed.

Section total_context.
Context (has : string → bool).
Let ctx : EvaluationContext := λ s, Ok (has s).
Let granted s := has s = true.

Lemma evaluate_holds_args es :
  Forall (λ e, ∃ b, Expr_Evaluate ctx e = Ok b ∧ (b = true ↔ holds granted e)) es →
  ∃ bs, mapM_res (Expr_Evaluate ctx) es = Ok bs ∧
    Forall2 (λ e b, b = true ↔ holds granted e) es bs.
Proof.
  induction 1 as [|e es (b&Hb&?) _ (bs&Hbs&?)]; [by exists []|].
  exists (b :: bs). cbn. rewrite Hb Hbs. auto.
Qed.

Lemma evaluate_holds e :
  wf_expr e → ∃ b, Expr_Evaluate ctx e = Ok b ∧ (b = true ↔ holds granted e).
Proof.
  revert e. fix IH 2. intros e [s|e' He|es Hes|es Hes].
  - exists (has s). by split.
  - destruct (IH _ He) as (b&Hb&Hiff). exists (negb b). cbn. rewrite Hb. cbn.
    split; [done|]. destruct b; naive_solver.
  - destruct (evaluate_holds_args es) as (bs&Hbs&Hall).
    { induction Hes; constructor; auto. }
    eexists. cbn [Expr_Evaluate OpExpr_Evaluate]. rewrite Hbs. split; [done|].
    clear -Hall. cbn. induction Hall as [|e b es bs Hb _ IHs]; [done|].
    cbn. destruct b; naive_solver.
  - destruct (evaluate_holds_args es) as (bs&Hbs&Hall).
    { induction Hes; constructor; auto. }
    eexists. cbn [Expr_Evaluate OpExpr_Evaluate]. rewrite Hbs. split; [done|].
    clear -Hall. cbn. induction Hall as [|e b es bs Hb _ IHs]; [done|].
    cbn. destruct b; naive_solver.
Qed.
End total_context.

(** The standard scope lookup never fails, and grants a scope
    exactly when the scope claim is a string made of words separated by
    single spaces, one of which is that scope. *)
Lemma MakeStandardJWTHasScope_spec (claims : Claims) q :
  ∃ b, MakeStandardJWTHasScope claims q = Ok b ∧ (b = true ↔ carries_scope claims q).
Proof.
  unfold MakeStandardJWTHasScope, carries_scope.
  destruct (claims !! "scope") as [[| | | |s| | |]|]; cycle 4.
  all: try (exists false; split; [done|]; split; [done|]; by intros (?&?&?&?&?)).
  eexists; split; [done|]. rewrite range_any_true. split.
  - intros (w&Hw&->%bool_decide_eq_true). exists (Split " " s).
    rewrite Join_Split. split_and!; auto using Split_not_nil, Split_words_no_sep.
  - intros (words&?&?&[= ->]&Hq). exists q. rewrite Split_Join //.
    by rewrite bool_decide_true.
Qed.

(** The standard context, as a total test. *)
Definition scope_granted (claims : Claims) (q : string) : bool :=
  match MakeStandardJWTHasScope claims q with Ok b => b | _ => false end.

Lemma MakeStandardJWTHasScope_granted claims q :
  MakeStandardJWTHasScope claims q = Ok (scope_granted claims q).
Proof. unfold scope_granted, MakeStandardJWTHasScope. by repeat case_match; simplify_eq. Qed.

Lemma scope_granted_carries claims q : scope_granted claims q = true ↔ carries_scope claims q.
Proof.
  destruct (MakeStandardJWTHasScope_spec claims q) as (b&Hb&Hiff). unfold scope_granted. by rewrite Hb.
Qed.

(** The meaning depends on which scopes are granted only. *)
Lemma holds_ext (P Q : string → Prop) e : (∀ s, P s ↔ Q s) → holds P e ↔ holds Q e.
Proof.
  intros Hpq. revert e. refine (Expr_nested_ind (λ e, holds P e ↔ holds Q e)
    (λ o, ∀ a, holds P (mkExpr (Some o) a) ↔ holds Q (mkExpr (Some o) a)) _ _ _ _ _); try done.
  - intros [name args]. cbn. repeat case_match; try done; apply Hpq.
  - intros name args Hargs a. cbn. repeat case_bool_decide.
    + destruct Hargs as [|e es He _]; [done|]. by rewrite He.
    + induction Hargs as [|e es He _ IH]; [done|]. by rewrite He IH.
    + induction Hargs as [|e es He _ IH]; [done|]. by rewrite He IH.
    + done.
Qed.

Lemma evaluate_standard claims e :
  wf_expr e →
  ∃ b, Expr_Evaluate (MakeStandardJWTHasScope claims) e = Ok b ∧
       (b = true ↔ holds (λ q, scope_granted claims q = true) e).
Proof.
  intros He. destruct (evaluate_holds (scope_granted claims) e He) as (b&Hb&Hiff).
  exists b. split; [|done]. rewrite -Hb. destruct (evaluate_scopes e He) as [F HF].
  rewrite !HF. f_equal. apply mapM_res_ext, MakeStandardJWTHasScope_granted.
Qed.

(** ** Properties *)

(** C12. A compiled expression means what the language says: whatever the parser
    produced, if [CompileExpression] accepts it, then evaluating it over the claims of a
    token with [MakeStandardJWTHasScope], as the default rule does, returns a boolean and
    no error, and it is true exactly when the expression holds of the scopes that the
    claims carry ([any] some argument, [all] every argument, [not] the negation of its
    only one). A scope is carried as a whole word of the claim scope, which is a string
    of words between single spaces. *)
Theorem CompileExpression_sound ParseString s e (claims : Claims) :
  CompileExpression ParseString s = Ok e →
  ∃ b, Expr_Evaluate (MakeStandardJWTHasScope claims) e = Ok b ∧
       (b = true ↔ holds (carries_scope claims) e).
Proof.
  intros He%CompileExpression_wf. destruct (evaluate_standard claims e He) as (b&Hb&Hiff).
  exists b. split; [done|]. rewrite Hiff. apply holds_ext, scope_granted_carries.
Qed.

Definition scope_atom (s : string) : Expr :=
  mkExpr None (Some (mkAtom "jwtHasScope" [mkLiteral (Some s)])).
Definition op_expr (name : string) (args : list Expr) : Expr :=
  mkExpr (Some (mkOpExpr name args)) None.
Definition example_expr : Expr :=
  op_expr "any" [scope_atom "admin"; op_expr "all" [scope_atom "read"; op_expr "not" [scope_atom "guest"]]].
Definition example_parser (s : string) : error + Expr :=
  if bool_decide (s = "example") then inr example_expr else inl (ErrText "syntax error").

Definition example_claims : Claims := {[ "scope" := VString "readers guest read" ]}.
Lemma CompileExpression_sound_witness :
  CompileExpression example_parser "example" = Ok example_expr ∧
  Expr_Evaluate (MakeStandardJWTHasScope example_claims) example_expr = Ok false ∧
  ¬ holds (carries_scope example_claims) example_expr.
Proof.
  assert (CompileExpression example_parser "example" = Ok example_expr) as Hc by (vm_compute; reflexivity).
  destruct (CompileExpression_sound example_parser "example" example_expr example_claims Hc) as (b&Hb&Hiff).
  assert (Expr_Evaluate (MakeStandardJWTHasScope example_claims) example_expr = Ok false) as Hf
    by (vm_compute; reflexivity).
  split; [exact Hc|]. split; [exact Hf|]. intros Hh%Hiff. congruence.
Defined.

(** [Validate] accepts exactly the well-formed expressions: known operator
    and atom names, [not] with one argument, [jwtHasScope] with one string
    literal; and on any tree where each node is either an operator or an atom
    it returns an error, never panics. *)
Theorem Expr_Validate_spec e :
  (Expr_Validate e = Ok () ↔ wf_expr e) ∧
  (one_alternative e = true → is_panic (Expr_Validate e) = false).
Proof. split; [apply Expr_Validate_wf|apply validate_no_panic]. Qed.

Lemma Expr_Validate_spec_witness :
  one_alternative (op_expr "nand" [example_expr]) = true ∧
  is_panic (Expr_Validate (op_expr "nand" [example_expr])) = false.
Proof.
  split; [vm_compute; reflexivity|].
  apply (proj2 (Expr_Validate_spec (op_expr "nand" [example_expr]))). vm_compute. reflexivity.
Defined.

(** Evaluation has no short circuit: on a valid expression it asks for all
    of its scopes from left to right, and fails with the error of the first
    query that fails (or panics with it) even when the arguments already
    decide the value, and in no other way. *)
Theorem Evaluate_queries_every_scope e (ctx : EvaluationContext) :
  wf_expr e →
  (∀ err, Expr_Evaluate ctx e = Err err ↔ mapM_res ctx (scopes e) = Err err) ∧
  (∀ p, Expr_Evaluate ctx e = Panic p ↔ mapM_res ctx (scopes e) = Panic p).
Proof.
  intros [F HF]%evaluate_scopes. rewrite HF.
  split; intros ?; [apply res_fmap_Err|apply res_fmap_Panic].
Qed.

Lemma Evaluate_queries_every_scope_witness :
  wf_expr (op_expr "any" [scope_atom "a"; scope_atom "b"]) ∧
  let ctx s := if bool_decide (s = "b") then Err (ErrText "no claims") else Ok true in
  Expr_Evaluate ctx (op_expr "any" [scope_atom "a"; scope_atom "b"]) = Err (ErrText "no claims").
Proof.
  assert (wf_expr (op_expr "any" [scope_atom "a"; scope_atom "b"])) as H.
  { apply Expr_Validate_wf. vm_compute. reflexivity. }
  split; [exact H|]. intros ctx.
  apply (proj1 (Evaluate_queries_every_scope _ ctx H)). vm_compute. reflexivity.
Defined.
