(* ===== verification/AuthGrammar.v ===== *)
(** * The grammar of authorization expressions: the struct tags and [Repr] of
    src/authexpr/expr.go

    The tags of [Expr], [OpExpr], [Atom] and [Literal] are a grammar over the tokens
    of the parser library. It is here as it is written there, with a recursive-descent
    parser as its reference, and the printer [Repr]. The library's lexer is a parameter,
    with the class [Lexer] for what [Repr] relies on: the part of Go's tokens that it
    writes, which [AuthGrammarExample.example_lex] reads. *)

From S2P Require Export AuthExpr.

(** ** Tokens and the grammar of the tags *)

Inductive token := TIdent (name : string) | TString (s : string) | TOpen | TComma | TClose.

(** The optional comma before a closing parenthesis. *)
Definition trailing (comma : list token) : Prop := comma = [] ∨ comma = [TComma].

(** [@@ ("," @@)*] of literals, each a token of its own. *)
Inductive g_literals : list token → list Literal → Prop :=
| G_lit s : g_literals [TString s] [mkLiteral (Some s)]
| G_lits s ts ls : g_literals ts ls → g_literals (TString s :: TComma :: ts) (mkLiteral (Some s) :: ls).

Inductive g_atom : list token → Atom → Prop :=
| G_no_args name comma : trailing comma →
    g_atom (TIdent name :: TOpen :: comma ++ [TClose]) (mkAtom name [])
| G_args name ts ls comma : g_literals ts ls → trailing comma →
    g_atom (TIdent name :: TOpen :: ts ++ comma ++ [TClose]) (mkAtom name ls).

Inductive g_expr : list token → Expr → Prop :=
| G_op ts o : g_op ts o → g_expr ts (mkExpr (Some o) None)
| G_atom ts a : g_atom ts a → g_expr ts (mkExpr None (Some a))
with g_op : list token → OpExpr → Prop :=
| G_opexpr name ts args comma : g_exprs ts args → trailing comma →
    g_op (TIdent name :: TOpen :: ts ++ comma ++ [TClose]) (mkOpExpr name args)
with g_exprs : list token → list Expr → Prop :=
| G_one ts e : g_expr ts e → g_exprs ts [e]
| G_more ts e ts' es : g_expr ts e → g_exprs ts' es → g_exprs (ts ++ TComma :: ts') (e :: es).

Scheme g_expr_mut := Induction for g_expr Sort Prop
with g_op_mut := Induction for g_op Sort Prop
with g_exprs_mut := Induction for g_exprs Sort Prop.
Combined Scheme g_mutind from g_expr_mut, g_op_mut, g_exprs_mut.

(** ** A reference parser

    Which of the two kinds an expression is shows at the token after its parenthesis. *)

(** What ends the arguments. *)
Definition parse_close (ts : list token) : option (list token) :=
  match ts with
  | TClose :: rest => Some rest
  | TComma :: TClose :: rest => Some rest
  | _ => None
  end.

Fixpoint parse_more_literals (ts : list token) : option (list Literal * list token) :=
  match ts with
  | TComma :: TString s :: ts =>
      '(ls, rest) ← parse_more_literals ts; Some (mkLiteral (Some s) :: ls, rest)
  | _ => rest ← parse_close ts; Some ([], rest)
  end.

Definition parse_atom_args (ts : list token) : option (list Literal * list token) :=
  match ts with
  | TString s :: ts => '(ls, rest) ← parse_more_literals ts; Some (mkLiteral (Some s) :: ls, rest)
  | _ => rest ← parse_close ts; Some ([], rest)
  end.

Fixpoint parse_expr (fuel : nat) (ts : list token) : option (Expr * list token) :=
  match fuel, ts with
  | S fuel, TIdent name :: TOpen :: ts =>
      match ts with
      | TIdent _ :: _ => '(args, rest) ← parse_exprs fuel ts; Some (mkExpr (Some (mkOpExpr name args)) None, rest)
      | _ => '(args, rest) ← parse_atom_args ts; Some (mkExpr None (Some (mkAtom name args)), rest)
      end
  | _, _ => None
  end
with parse_exprs (fuel : nat) (ts : list token) : option (list Expr * list token) :=
  match fuel with
  | O => None
  | S fuel =>
      '(e, rest) ← parse_expr fuel ts;
      match rest with
      | TComma :: TIdent name :: rest =>
          '(es, rest) ← parse_exprs fuel (TIdent name :: rest); Some (e :: es, rest)
      | _ => rest ← parse_close rest; Some ([e], rest)
      end
  end.

(** A whole text: one unit of fuel for each token is enough. *)
Definition parse (ts : list token) : option Expr :=
  match parse_expr (length ts) ts with Some (e, []) => Some e | _ => None end.

(** ** Printing

    [strconv.Quote]; which runes outside ASCII are printable is a table of package
    unicode. *)
Section repr.
Context (IsPrint : N → bool).

Definition hex_digit (n : N) : ascii := ascii_of_N (if (n <? 10)%N then 48 + n else 87 + n)%N.
Fixpoint hex (digits : nat) (n : N) : string :=
  match digits with O => "" | S d => hex d (n / 16) +:+ String (hex_digit (n mod 16)) "" end.

Definition backslash : ascii := "092"%char.
Definition dquote : ascii := "034"%char.

Definition quote_ascii (c : ascii) : string :=
  let n := byte_N c in
  if bool_decide (c = dquote ∨ c = backslash) then String backslash (String c "")
  else if ((32 <=? n) && (n <=? 126))%N then String c ""
  else String backslash match n with
    | 7 => "a" | 8 => "b" | 12 => "f" | 10 => "n" | 13 => "r" | 9 => "t" | 11 => "v"
    | n => "x" +:+ hex 2 n
    end%N.

(** A byte that begins no rune. *)
Definition quote_byte (c : ascii) : string := String backslash ("x" +:+ hex 2 (byte_N c)).

Definition quote_rune (r : N) (bytes : string) : string :=
  if IsPrint r then bytes
  else if (r <? 65536)%N then String backslash ("u" +:+ hex 4 r) else String backslash ("U" +:+ hex 8 r).

(** The encodings of [utf8.DecodeRuneInString]; the shortest form only, no surrogates. *)
Definition continuation (c : ascii) : bool := byte_between "128" "191" c.
Definition rune2 (c c1 : ascii) : option N :=
  if byte_between "194" "223" c && continuation c1
  then Some ((byte_N c - 192) * 64 + (byte_N c1 - 128))%N else None.
Definition rune3 (c c1 c2 : ascii) : option N :=
  let lo := if bool_decide (c = "224"%char) then "160"%char else "128"%char in
  let hi := if bool_decide (c = "237"%char) then "159"%char else "191"%char in
  if byte_between "224" "239" c && byte_between lo hi c1 && continuation c2
  then Some ((byte_N c - 224) * 4096 + (byte_N c1 - 128) * 64 + (byte_N c2 - 128))%N else None.
Definition rune4 (c c1 c2 c3 : ascii) : option N :=
  let lo := if bool_decide (c = "240"%char) then "144"%char else "128"%char in
  let hi := if bool_decide (c = "244"%char) then "143"%char else "191"%char in
  if byte_between "240" "244" c && byte_between lo hi c1 && continuation c2 && continuation c3
  then Some ((byte_N c - 240) * 262144 + (byte_N c1 - 128) * 4096 + (byte_N c2 - 128) * 64 + (byte_N c3 - 128))%N
  else None.

Fixpoint quote_bytes (s : string) : string :=
  match s with
  | "" => ""
  | String c s =>
      if is_ascii c then quote_ascii c +:+ quote_bytes s
      else match s with
      | String c1 s1 =>
          match rune2 c c1 with
          | Some r => quote_rune r (String c (String c1 "")) +:+ quote_bytes s1
          | None =>
              match s1 with
              | String c2 s2 =>
                  match rune3 c c1 c2 with
                  | Some r => quote_rune r (String c (String c1 (String c2 ""))) +:+ quote_bytes s2
                  | None =>
                      match s2 with
                      | String c3 s3 =>
                          match rune4 c c1 c2 c3 with
                          | Some r => quote_rune r (String c (String c1 (String c2 (String c3 "")))) +:+ quote_bytes s3
                          | None => quote_byte c +:+ quote_bytes s
                          end
                      | "" => quote_byte c +:+ quote_bytes s
                      end
                  end
              | "" => quote_byte c +:+ quote_bytes s
              end
          end
      | "" => quote_byte c
      end
  end.

Definition Quote (s : string) : string := String dquote (quote_bytes s +:+ String dquote "").

Definition Literal_Repr (l : Literal) : res string := s ← deref (Literal_String l); Ok (Quote s).

Definition Atom_Repr (a : Atom) : res string :=
  reprArgs ← mapM_res Literal_Repr (Atom_Args a);
  Ok (Atom_Name a +:+ "(" +:+ Join reprArgs "," +:+ ")").

Fixpoint Expr_Repr (e : Expr) : res string :=
  match e with
  | mkExpr (Some o) None => OpExpr_Repr o
  | mkExpr None (Some a) => Atom_Repr a
  | mkExpr _ _ => Panic invariant_violated
  end
with OpExpr_Repr (o : OpExpr) : res string :=
  match o with
  | mkOpExpr name args =>
      reprArgs ← mapM_res Expr_Repr args;
      Ok (name +:+ "(" +:+ Join reprArgs "," +:+ ")")
  end.

(** The text of a token. *)
Definition token_text (t : token) : string :=
  match t with
  | TIdent name => name
  | TString s => Quote s
  | TOpen => "("
  | TComma => ","
  | TClose => ")"
  end.
Definition text (ts : list token) : string := foldr (λ t s, token_text t +:+ s) "" ts.
End repr.

(** The tokens that are printed. *)
Fixpoint separated (l : list (list token)) : list token :=
  match l with [] => [] | [ts] => ts | ts :: l => ts ++ TComma :: separated l end.
Definition literal_tokens (l : Literal) : list token :=
  match Literal_String l with Some s => [TString s] | None => [] end.
Definition atom_tokens (a : Atom) : list token :=
  TIdent (Atom_Name a) :: TOpen :: separated (literal_tokens <$> Atom_Args a) ++ [TClose].
Fixpoint expr_tokens (e : Expr) : list token :=
  match e with
  | mkExpr (Some (mkOpExpr name args)) _ => TIdent name :: TOpen :: separated (expr_tokens <$> args) ++ [TClose]
  | mkExpr None (Some a) => atom_tokens a
  | mkExpr None None => []
  end.

(** ** Spellings

    The library reads a text as the tokens of Go source (package text/scanner) and
    unquotes its strings; what follows is the part of that syntax that [Repr] writes. *)

(** [utf8.EncodeRune]. *)
Definition EncodeRune (r : N) : string :=
  let tail n := String (ascii_of_N (128 + n mod 64)) in
  if (r <? 128)%N then String (ascii_of_N r) ""
  else if (r <? 2048)%N then String (ascii_of_N (192 + r / 64)) (tail r "")
  else if (r <? 65536)%N then String (ascii_of_N (224 + r / 4096)) (tail (r / 64)%N (tail r ""))
  else String (ascii_of_N (240 + r / 262144)) (tail (r / 4096)%N (tail (r / 64)%N (tail r ""))).

(** A code point that is not half of a surrogate pair. *)
Definition valid_rune (r : N) : Prop := (r < 55296 ∨ 57344 ≤ r < 1114112)%N.

Definition hex_value (c : ascii) : option N :=
  if is_digit c then Some (byte_N c - 48)%N
  else if byte_between "a" "f" c then Some (byte_N c - 87)%N
  else if byte_between "A" "F" c then Some (byte_N c - 55)%N
  else None.
Fixpoint hex_number (acc : N) (s : string) : option N :=
  match s with "" => Some acc | String c s => d ← hex_value c; hex_number (acc * 16 + d) s end.

(** The escapes of one letter. *)
Definition escaped (e : ascii) : option ascii :=
  match byte_N e with
  | 97 => Some "007" | 98 => Some "008" | 102 => Some "012" | 110 => Some "010"
  | 114 => Some "013" | 116 => Some "009" | 118 => Some "011"
  | 34 => Some dquote | 92 => Some backslash
  | _ => None
  end%char%N.

(** What stands between the quotes of an interpreted string literal, and the bytes that
    it denotes. *)
Inductive interpreted : string → string → Prop :=
| I_end : interpreted "" ""
| I_ascii c body s :
    (32 ≤ byte_N c < 127)%N → c ≠ dquote → c ≠ backslash →
    interpreted body s → interpreted (String c body) (String c s)
| I_rune r body s :
    (128 ≤ r)%N → valid_rune r →
    interpreted body s → interpreted (EncodeRune r +:+ body) (EncodeRune r +:+ s)
| I_letter e c body s :
    escaped e = Some c →
    interpreted body s → interpreted (String backslash (String e body)) (String c s)
| I_byte h n body s :
    String.length h = 2 → hex_number 0 h = Some n →
    interpreted body s → interpreted (String backslash (String "x" (h +:+ body))) (String (ascii_of_N n) s)
| I_u h n body s :
    String.length h = 4 → hex_number 0 h = Some n → valid_rune n →
    interpreted body s → interpreted (String backslash (String "u" (h +:+ body))) (EncodeRune n +:+ s)
| I_U h n body s :
    String.length h = 8 → hex_number 0 h = Some n → valid_rune n →
    interpreted body s → interpreted (String backslash (String "U" (h +:+ body))) (EncodeRune n +:+ s).

(** Which names are identifiers depends on the letters and digits of package unicode. *)
Inductive spelling (identifier : string → bool) : token → string → Prop :=
| S_ident name : identifier name = true → spelling identifier (TIdent name) name
| S_string body s : interpreted body s →
    spelling identifier (TString s) (String dquote (body +:+ String dquote ""))
| S_open : spelling identifier TOpen "("
| S_comma : spelling identifier TComma ","
| S_close : spelling identifier TClose ")".

(** No two identifiers follow each other, which would be read as one. *)
Fixpoint apart (ts : list token) : Prop :=
  match ts with
  | TIdent _ :: (TIdent _ :: _) => False
  | _ :: ts => apart ts
  | [] => True
  end.

(** What [Repr] relies on of the library's lexer: identifiers are identifiers, and a text
    that spells tokens is read as these tokens. *)
Class Lexer (identifier : string → bool) (lex : string → error + list token) := {
  lex_identifiers s ts name : lex s = inr ts → TIdent name ∈ ts → identifier name = true;
  lex_spelling ts words : Forall2 (spelling identifier) ts words → apart ts → lex (foldr String.append "" words) = inr ts
}.

(** [exprParser.ParseString]: the lexer, and the grammar of the tags. *)
Definition ParseString (lex : string → error + list token) (unexpected : list token → error)
    (s : string) : error + Expr :=
  match lex s with
  | inl err => inl err
  | inr ts => match parse ts with Some e => inr e | None => inl (unexpected ts) end
  end.

(** * Lemmas *)

Lemma close_trailing comma rest : trailing comma → parse_close (comma ++ TClose :: rest) = Some rest.
Proof. by intros [-> | ->]. Qed.

Lemma parse_close_sound ts rest :
  parse_close ts = Some rest → ∃ comma, trailing comma ∧ ts = comma ++ TClose :: rest.
Proof.
  destruct ts as [|[] ts]; cbn; try done.
  - destruct ts as [|[] ts]; cbn; try done. intros [= ->]. exists [TComma]. split; [by right|done].
  - intros [= ->]. exists []. split; [by left|done].
Qed.

Lemma more_literals_close comma rest :
  trailing comma → parse_more_literals (comma ++ TClose :: rest) = Some ([], rest).
Proof. by intros [-> | ->]. Qed.

Lemma literals_complete ts ls comma rest :
  g_literals ts ls → trailing comma →
  parse_more_literals (TComma :: ts ++ comma ++ TClose :: rest) = Some (ls, rest) ∧
  parse_atom_args (ts ++ comma ++ TClose :: rest) = Some (ls, rest).
Proof.
  intros Hls Hc. induction Hls as [s|s ts ls _ [IH _]].
  - cbn -[parse_more_literals]. cbn [parse_more_literals]. by rewrite more_literals_close.
  - split.
    + change (parse_more_literals (TComma :: (TString s :: TComma :: ts) ++ comma ++ TClose :: rest))
        with ('(ls, rest) ← parse_more_literals (TComma :: ts ++ comma ++ TClose :: rest);
              Some (mkLiteral (Some s) :: ls, rest)). by rewrite IH.
    + change (parse_atom_args ((TString s :: TComma :: ts) ++ comma ++ TClose :: rest))
        with ('(ls, rest) ← parse_more_literals (TComma :: ts ++ comma ++ TClose :: rest);
              Some (mkLiteral (Some s) :: ls, rest)). by rewrite IH.
Qed.

Lemma more_literals_sound ts ls rest :
  parse_more_literals ts = Some (ls, rest) →
  ∃ comma, trailing comma ∧
    ((ls = [] ∧ ts = comma ++ TClose :: rest) ∨
     ∃ ts', g_literals ts' ls ∧ ts = TComma :: ts' ++ comma ++ TClose :: rest).
Proof.
  revert ls rest. induction ts as [ts IH] using (induction_ltof1 _ length). intros ls rest Hp.
  destruct ts as [|t ts]; [done|].
  assert (∀ o, o = (r ← parse_close (t :: ts); Some ([], r)) → o = Some (ls, rest) →
    ∃ comma, trailing comma ∧ ((ls = [] ∧ t :: ts = comma ++ TClose :: rest) ∨
     ∃ ts', g_literals ts' ls ∧ t :: ts = TComma :: ts' ++ comma ++ TClose :: rest)) as Hclose.
  { intros o -> (r&Hr&[= <- <-])%bind_Some. destruct (parse_close_sound _ _ Hr) as (comma&Hc&E).
    exists comma. split; [done|]. by left. }
  destruct t; try (by eapply Hclose; [|exact Hp]).
  destruct ts as [|[] ts]; try (by eapply Hclose; [|exact Hp]).
  change (('(ls, rest) ← parse_more_literals ts; Some (mkLiteral (Some s) :: ls, rest)) = Some (ls, rest)) in Hp.
  apply bind_Some in Hp as ([ls' rest']&Hp&[= <- <-]).
  destruct (IH ts ltac:(unfold ltof; cbn; lia) _ _ Hp) as (comma&Hc&[[-> ->]|(ts'&Hg&->)]); exists comma; (split; [done|]); right.
  - exists [TString s]. split; [constructor|done].
  - exists (TString s :: TComma :: ts'). split; [by constructor|done].
Qed.

Lemma atom_args_sound ts ls rest name :
  parse_atom_args ts = Some (ls, rest) →
  ∃ ts', ts = ts' ++ rest ∧ g_atom (TIdent name :: TOpen :: ts') (mkAtom name ls).
Proof.
  intros Hp. assert ((∃ s ts1, ts = TString s :: ts1) ∨ (r ← parse_close ts; Some ([], r)) = Some (ls, rest))
    as [(s&ts1&->)|Hc].
  { destruct ts as [|[] ts]; try (by right). left. by eexists _, _. }
  - apply bind_Some in Hp as ([ls' rest']&Hp&[= <- <-]).
    destruct (more_literals_sound _ _ _ Hp) as (comma&Hc&[[-> ->]|(ts'&Hg&->)]).
    + exists ([TString s] ++ comma ++ [TClose]). rewrite -!app_assoc. split; [done|].
      apply (G_args name [TString s]); [constructor|done].
    + exists ((TString s :: TComma :: ts') ++ comma ++ [TClose]). rewrite -!app_assoc. split; [done|].
      apply (G_args name (TString s :: TComma :: ts')); [by constructor|done].
  - apply bind_Some in Hc as (r&Hr&[= <- <-]). destruct (parse_close_sound _ _ Hr) as (comma&Hc&->).
    exists (comma ++ [TClose]). rewrite -app_assoc. split; [done|]. by constructor.
Qed.

Lemma expr_starts ts e : g_expr ts e → ∃ name ts', ts = TIdent name :: TOpen :: ts'.
Proof. intros [? ? []|? ? []]; by eexists _, _. Qed.

Lemma exprs_start ts es : g_exprs ts es → ∃ name ts', ts = TIdent name :: TOpen :: ts'.
Proof.
  intros [? ? (name&ts'&->)%expr_starts|? ? ? ? (name&ts'&->)%expr_starts _]; by eexists _, _.
Qed.

Lemma complete :
  (∀ ts e, g_expr ts e → ∀ fuel rest, (length ts ≤ fuel)%nat → parse_expr fuel (ts ++ rest) = Some (e, rest)) ∧
  (∀ ts o, g_op ts o → ∀ fuel rest, (length ts ≤ fuel)%nat →
     parse_expr fuel (ts ++ rest) = Some (mkExpr (Some o) None, rest)) ∧
  (∀ ts es, g_exprs ts es → ∀ fuel comma rest, (length ts < fuel)%nat → trailing comma →
     parse_exprs fuel (ts ++ comma ++ TClose :: rest) = Some (es, rest)).
Proof.
  apply g_mutind.
  - by intros ts o _ IH fuel rest Hf; apply IH.
  - intros ts a Ha fuel rest Hf. destruct fuel as [|fuel]; [by destruct Ha; cbn in Hf; lia|].
    destruct Ha as [name comma Hc|name ts ls comma Hls Hc].
    + by destruct Hc as [-> | ->].
    + assert (∃ s ts', ts = TString s :: ts') as (s&ts'&E) by (destruct Hls; by eexists _, _).
      pose proof (proj2 (literals_complete ts ls comma rest Hls Hc)) as Hp. subst ts.
      cbn [app] in *. rewrite -!app_assoc. cbn -[parse_atom_args] in Hp |- *. by rewrite Hp.
  - intros name ts args comma Hargs IH Hc fuel rest Hf. destruct (exprs_start _ _ Hargs) as (n&ts'&->).
    cbn [length app] in Hf. destruct fuel as [|fuel]; [lia|]. rewrite !length_app in Hf.
    specialize (IH fuel comma rest). cbn [app] in *. rewrite -!app_assoc.
    cbn -[parse_exprs] in IH |- *. rewrite IH //=. cbn in Hf. lia.
  - intros ts e He IH fuel comma rest Hf Hc. destruct fuel as [|fuel]; [lia|]. cbn [parse_exprs].
    rewrite (IH fuel _ ltac:(lia)). cbn. by destruct Hc as [-> | ->].
  - intros ts e ts' es He IHe Hes IHes fuel comma rest Hf Hc. destruct fuel as [|fuel]; [lia|].
    rewrite length_app in Hf. cbn [length] in Hf. cbn [parse_exprs].
    rewrite -app_assoc (IHe fuel _ ltac:(lia)). destruct (exprs_start _ _ Hes) as (n&ts1&->). cbn [app] in *.
    specialize (IHes fuel comma rest). cbn -[parse_exprs] in Hf, IHes |- *. by rewrite (IHes ltac:(lia) Hc).
Qed.

Lemma sound fuel :
  (∀ ts e rest, parse_expr fuel ts = Some (e, rest) → ∃ ts', ts = ts' ++ rest ∧ g_expr ts' e) ∧
  (∀ ts es rest, parse_exprs fuel ts = Some (es, rest) →
     ∃ ts' comma, ts = ts' ++ comma ++ TClose :: rest ∧ g_exprs ts' es ∧ trailing comma).
Proof.
  induction fuel as [|fuel [IHe IHes]]; [done|]. split.
  - intros [|[name| | | |] [|[] ts]] e rest Hp; try done. cbn -[parse_atom_args] in Hp.
    assert ((∃ args, parse_exprs fuel ts = Some (args, rest) ∧ e = mkExpr (Some (mkOpExpr name args)) None) ∨
            ∃ args, parse_atom_args ts = Some (args, rest) ∧ e = mkExpr None (Some (mkAtom name args)))
      as [(args&Ha&->)|(args&Ha&->)].
    { destruct ts as [|[] ts]; apply bind_Some in Hp as ([args r]&Hp&[= <- <-]); eauto. }
    + destruct (IHes _ _ _ Ha) as (ts'&comma&->&Hg&Hc). exists (TIdent name :: TOpen :: ts' ++ comma ++ [TClose]).
      cbn. rewrite -!app_assoc. split; [done|]. by constructor; constructor.
    + destruct (atom_args_sound ts args rest name Ha) as (ts'&->&Hg).
      exists (TIdent name :: TOpen :: ts'). split; [done|]. by constructor.
  - intros ts es rest Hp. cbn in Hp. apply bind_Some in Hp as ([e r]&He&Hp).
    destruct (IHe _ _ _ He) as (ts1&->&Hg).
    assert ((∃ name r' es', r = TComma :: TIdent name :: r' ∧
               parse_exprs fuel (TIdent name :: r') = Some (es', rest) ∧ es = e :: es') ∨
            parse_close r = Some rest ∧ es = [e]) as [(name&r'&es'&->&Hes&->)|[Hr ->]].
    { destruct r as [|[] [|[] r]]; try (apply bind_Some in Hp as (r'&Hr&[= <- <-]); by right).
      apply bind_Some in Hp as ([es' r']&Hp&[= <- <-]). left. by eexists _, _, _. }
    + destruct (IHes _ _ _ Hes) as (ts2&comma&E&Hgs&Hc). exists (ts1 ++ TComma :: ts2), comma.
      rewrite -app_assoc /= -E. split; [done|]. split; [by constructor|done].
    + destruct (parse_close_sound _ _ Hr) as (comma&Hc&->). exists ts1, comma. split; [done|]. by split; [constructor|].
Qed.

(** The parser decides the grammar. *)
Lemma parse_grammar ts e : parse ts = Some e ↔ g_expr ts e.
Proof.
  unfold parse. split.
  - destruct (parse_expr (length ts) ts) as [[e' [|]]|] eqn:E; [|done..]. intros [= ->].
    destruct (proj1 (sound _) _ _ _ E) as (ts'&->&Hg). by rewrite app_nil_r.
  - intros Hg. pose proof (proj1 complete ts e Hg (length ts) [] ltac:(lia)) as Hp.
    rewrite app_nil_r in Hp. by rewrite Hp.
Qed.

(** ** What is printed *)

Lemma str_app_assoc (a b c : string) : (a +:+ b) +:+ c = a +:+ (b +:+ c).
Proof. induction a as [|x a IH]; cbn; [done|]. by rewrite IH. Qed.
Lemma str_app_nil_r (a : string) : a +:+ "" = a.
Proof. induction a as [|x a IH]; cbn; [done|]. by rewrite IH. Qed.

Section printing.
Context (IsPrint : N → bool).
Notation text := (text IsPrint).

Lemma text_app ts ts' : text (ts ++ ts') = text ts +:+ text ts'.
Proof. induction ts as [|t ts IH]; [done|]. cbn [app AuthGrammar.text foldr].
  rewrite str_app_assoc. f_equal. exact IH. Qed.

Lemma text_separated (tss : list (list token)) : text (separated tss) = Join (text <$> tss) ",".
Proof.
  induction tss as [|ts [|ts' tss] IH]; [done|done|].
  change (separated (ts :: ts' :: tss)) with (ts ++ TComma :: separated (ts' :: tss)).
  rewrite text_app. change (text (TComma :: separated (ts' :: tss))) with (String "," (text (separated (ts' :: tss)))).
  by rewrite IH.
Qed.

Lemma text_call name tss :
  text (TIdent name :: TOpen :: separated tss ++ [TClose]) = name +:+ "(" +:+ Join (text <$> tss) "," +:+ ")".
Proof.
  change (text (TIdent name :: TOpen :: separated tss ++ [TClose]))
    with (name +:+ "(" +:+ text (separated tss ++ [TClose])). by rewrite text_app text_separated.
Qed.

Lemma literals_Repr ts ls :
  g_literals ts ls → mapM_res (Literal_Repr IsPrint) ls = Ok (text <$> (literal_tokens <$> ls)).
Proof.
  induction 1 as [s|s ts ls _ IH]; cbn; [by rewrite str_app_nil_r|]. rewrite IH /=. by rewrite str_app_nil_r.
Qed.

Lemma atom_Repr ts a : g_atom ts a → Atom_Repr IsPrint a = Ok (text (atom_tokens a)).
Proof.
  intros [name comma _|name ts' ls comma Hls _]; [done|]. unfold Atom_Repr. cbn [Atom_Args Atom_Name].
  rewrite (literals_Repr _ _ Hls). cbn [mbind res_bind]. unfold atom_tokens. cbn [Atom_Args Atom_Name].
  by rewrite text_call.
Qed.

Lemma grammar_Repr :
  (∀ ts e, g_expr ts e → Expr_Repr IsPrint e = Ok (text (expr_tokens e))) ∧
  (∀ ts o, g_op ts o → OpExpr_Repr IsPrint o = Ok (text (expr_tokens (mkExpr (Some o) None)))) ∧
  (∀ ts es, g_exprs ts es → mapM_res (Expr_Repr IsPrint) es = Ok (text <$> (expr_tokens <$> es))).
Proof.
  apply g_mutind.
  - done.
  - intros ts a Ha. exact (atom_Repr ts a Ha).
  - intros name ts args comma _ IH _. cbn [OpExpr_Repr expr_tokens]. rewrite IH text_call. done.
  - intros ts e _ IH. cbn. by rewrite IH.
  - intros ts e ts' es _ IHe _ IHes. cbn. by rewrite IHe /= IHes.
Qed.
End printing.

(** ** What is printed is read back *)

#[local] Hint Rewrite N.leb_le N.ltb_lt N.ltb_ge : boolprop.

(** Digits of runes. *)
Ltac encoded := zify; Z.to_euclidean_division_equations; lia.

Lemma EncodeRune_high r : (128 ≤ r)%N → valid_rune r → str_forall (λ c, negb (is_ascii c)) (EncodeRune r) = true.
Proof.
  intros Hr Hv. assert (∀ n, (128 ≤ n < 256)%N → is_ascii (ascii_of_N n) = false) as Hn.
  { intros n ?. unfold is_ascii, byte_N. rewrite N_ascii_embedding; [lia|]. apply N.ltb_ge. lia. }
  unfold EncodeRune, valid_rune in *. rewrite (proj2 (N.ltb_ge r 128)) //.
  destruct (N.ltb_spec r 2048), (N.ltb_spec r 65536); try lia; cbn; rewrite !Hn //; encoded.
Qed.

Lemma hex_length d n : String.length (hex d n) = d.
Proof. revert n. induction d as [|d IH]; intros n; cbn; [done|]. rewrite str_length_append IH /=. lia. Qed.

Lemma hex_value_digit k : (k < 16)%N → hex_value (hex_digit k) = Some k.
Proof.
  intros Hk. assert (k ∈ N.of_nat <$> seq 0 16) as Hin.
  { apply list_elem_of_fmap. exists (N.to_nat k). split; [lia|]. apply elem_of_seq. lia. }
  cbn in Hin. repeat (apply elem_of_cons in Hin as [->|Hin]; [reflexivity|]). by apply elem_of_nil in Hin.
Qed.

Lemma hex_number_hex d n acc t :
  (n < 16 ^ N.of_nat d)%N → hex_number acc (hex d n +:+ t) = hex_number (acc * 16 ^ N.of_nat d + n)%N t.
Proof.
  revert n acc t. induction d as [|d IH]; intros n acc t Hn.
  - cbn in Hn |- *. f_equal. lia.
  - rewrite Nat2N.inj_succ N.pow_succ_r' in Hn |- *. cbn [hex]. rewrite str_app_assoc IH.
    + apply N.Div0.div_lt_upper_bound. lia.
    + cbn -[hex_value hex_digit]. rewrite hex_value_digit; [apply N.mod_lt; lia|]. cbn.
      f_equal. pose proof (N.div_mod n 16 ltac:(lia)). lia.
Qed.

Lemma hex_number_of d n : (n < 16 ^ N.of_nat d)%N → hex_number 0 (hex d n) = Some n.
Proof.
  intros Hn. rewrite -(str_app_nil_r (hex d n)) hex_number_hex //.
Qed.

Lemma byte_bound c : (byte_N c < 256)%N.
Proof. apply N_ascii_bounded. Qed.
Lemma byte_back c : ascii_of_N (byte_N c) = c.
Proof. apply ascii_N_embedding. Qed.

Lemma quote_byte_interpreted c body s :
  interpreted body s → interpreted (quote_byte c +:+ body) (String c s).
Proof.
  intros H. pose proof (byte_bound c). unfold quote_byte. cbn -[hex].
  rewrite -{2}(byte_back c). apply I_byte; [apply hex_length|by apply hex_number_of|done].
Qed.

Lemma quote_ascii_cases c :
  is_ascii c = true →
  (∃ e, quote_ascii c = String backslash (String e "") ∧ escaped e = Some c) ∨
  (quote_ascii c = String c "" ∧ (32 ≤ byte_N c < 127)%N ∧ c ≠ dquote ∧ c ≠ backslash) ∨
  quote_ascii c = quote_byte c.
Proof.
  intros Hc. unfold quote_ascii. case_bool_decide as Hq.
  { left. exists c. split; [done|]. by destruct Hq as [-> | ->]. }
  destruct ((32 <=? byte_N c)%N && (byte_N c <=? 126)%N) eqn:Hr.
  { right. left. boolprop. split; [done|]. split; [lia|]. naive_solver. }
  clear Hq Hr. destruct c as [[] [] [] [] [] [] [] []]; try done;
    (right; right; reflexivity) || (left; eexists; split; reflexivity).
Qed.

Lemma quote_ascii_interpreted c body s :
  is_ascii c = true → interpreted body s → interpreted (quote_ascii c +:+ body) (String c s).
Proof.
  intros [(e&->&He)|[(->&?&?&?)| ->]]%quote_ascii_cases Hb; cbn [String.append].
  - by apply I_letter.
  - by apply I_ascii.
  - by apply quote_byte_interpreted.
Qed.

Lemma byte_is n c : n = byte_N c → ascii_of_N n = c.
Proof. intros ->. apply byte_back. Qed.

Lemma byte_N_if c k d d' :
  byte_N (if bool_decide (c = k) then d else d') = (if (byte_N c =? byte_N k)%N then byte_N d else byte_N d').
Proof.
  case_bool_decide as Hc; [by rewrite Hc N.eqb_refl|]. destruct (N.eqb_spec (byte_N c) (byte_N k)) as [E|]; [|done].
  apply (f_equal ascii_of_N) in E. by rewrite !byte_back in E.
Qed.

(** The bounds of the bytes of a rune, as numbers. *)
Ltac rune_bounds :=
  unfold rune2, rune3, rune4, continuation, byte_between; rewrite ?byte_N_if;
  change (byte_N "194") with 194%N; change (byte_N "223") with 223%N;
  change (byte_N "128") with 128%N; change (byte_N "191") with 191%N;
  change (byte_N "224") with 224%N; change (byte_N "239") with 239%N;
  change (byte_N "160") with 160%N; change (byte_N "237") with 237%N; change (byte_N "159") with 159%N;
  change (byte_N "240") with 240%N; change (byte_N "244") with 244%N;
  change (byte_N "144") with 144%N; change (byte_N "143") with 143%N;
  let E := fresh "Hbounds" in case_match eqn:E; [|done]; boolprop;
  repeat match type of E with context [N.eqb ?a ?b] => destruct (N.eqb_spec a b) end; try lia;
  intros [= <-]; unfold EncodeRune, valid_rune.

Lemma rune2_encode c c1 r :
  rune2 c c1 = Some r → EncodeRune r = String c (String c1 "") ∧ (128 ≤ r)%N ∧ valid_rune r.
Proof.
  rune_bounds. rewrite (proj2 (N.ltb_ge _ 128)); [lia|]. rewrite (proj2 (N.ltb_lt _ 2048)); [lia|].
  split; [|lia]. rewrite (byte_is _ c); [encoded|]. by rewrite (byte_is _ c1); [encoded|].
Qed.

Lemma rune3_encode c c1 c2 r :
  rune3 c c1 c2 = Some r → EncodeRune r = String c (String c1 (String c2 "")) ∧ (128 ≤ r)%N ∧ valid_rune r.
Proof.
  rune_bounds; rewrite (proj2 (N.ltb_ge _ 128)); [lia| |lia| |lia|];
    (rewrite (proj2 (N.ltb_ge _ 2048)); [lia|]); (rewrite (proj2 (N.ltb_lt _ 65536)); [lia|]); (split; [|lia]);
    (rewrite (byte_is _ c); [encoded|]); (rewrite (byte_is _ c1); [encoded|]); by rewrite (byte_is _ c2); [encoded|].
Qed.

Lemma rune4_encode c c1 c2 c3 r :
  rune4 c c1 c2 c3 = Some r →
  EncodeRune r = String c (String c1 (String c2 (String c3 ""))) ∧ (128 ≤ r)%N ∧ valid_rune r.
Proof.
  rune_bounds; rewrite (proj2 (N.ltb_ge _ 128)); [lia| |lia| |lia|];
    (rewrite (proj2 (N.ltb_ge _ 2048)); [lia|]); (rewrite (proj2 (N.ltb_ge _ 65536)); [lia|]); (split; [|lia]);
    (rewrite (byte_is _ c); [encoded|]); (rewrite (byte_is _ c1); [encoded|]);
    (rewrite (byte_is _ c2); [encoded|]); by rewrite (byte_is _ c3); [encoded|].
Qed.

Section quoting.
Context (IsPrint : N → bool).

Lemma quote_rune_interpreted r bytes body s :
  EncodeRune r = bytes ∧ (128 ≤ r)%N ∧ valid_rune r →
  interpreted body s → interpreted (quote_rune IsPrint r bytes +:+ body) (bytes +:+ s).
Proof.
  intros (<-&Hr&Hv) H. unfold quote_rune. case_match; [by apply I_rune|].
  case_match eqn:E; boolprop; cbn -[hex].
  - apply I_u; [apply hex_length|by apply hex_number_of|done..].
  - apply I_U; [apply hex_length| |done..]. apply hex_number_of. unfold valid_rune in Hv. cbn. lia.
Qed.

(** Every sequence of bytes is quoted, whether it is UTF-8 or not. *)
Lemma quote_bytes_interpreted s : interpreted (quote_bytes IsPrint s) s.
Proof.
  induction s as [s IH] using (induction_ltof1 _ String.length).
  assert (∀ t, (String.length t < String.length s)%nat → interpreted (quote_bytes IsPrint t) t) as Ht by exact IH.
  clear IH. destruct s as [|c s]; [constructor|]. cbn -[quote_ascii quote_byte quote_rune].
  case_match eqn:Ec; [by apply quote_ascii_interpreted, Ht; [done|cbn; lia]|].
  assert (interpreted (quote_byte c +:+ quote_bytes IsPrint s) (String c s)) as Hc.
  { apply quote_byte_interpreted, Ht. cbn. lia. }
  destruct s as [|c1 s]; [by rewrite -(str_app_nil_r (quote_byte c))|].
  destruct (rune2 c c1) eqn:E2.
  { apply (quote_rune_interpreted _ (String c (String c1 "")) _ s); [by apply rune2_encode|]. apply Ht. cbn. lia. }
  destruct s as [|c2 s]; [exact Hc|].
  destruct (rune3 c c1 c2) eqn:E3.
  { apply (quote_rune_interpreted _ (String c (String c1 (String c2 ""))) _ s); [by apply rune3_encode|]. apply Ht. cbn. lia. }
  destruct s as [|c3 s]; [exact Hc|].
  destruct (rune4 c c1 c2 c3) eqn:E4.
  { apply (quote_rune_interpreted _ (String c (String c1 (String c2 (String c3 "")))) _ s); [by apply rune4_encode|]. apply Ht. cbn. lia. }
  exact Hc.
Qed.
End quoting.

Lemma literals_tokens ts ls : g_literals ts ls → g_literals (separated (literal_tokens <$> ls)) ls.
Proof.
  induction 1 as [s|s ts ls H IH]; [constructor|]. destruct H; cbn in *; by constructor.
Qed.

Lemma grammar_tokens :
  (∀ ts e, g_expr ts e → g_expr (expr_tokens e) e) ∧
  (∀ ts o, g_op ts o → g_op (expr_tokens (mkExpr (Some o) None)) o) ∧
  (∀ ts es, g_exprs ts es → g_exprs (separated (expr_tokens <$> es)) es).
Proof.
  assert (trailing []) as Ht by by left. apply g_mutind.
  - intros ts o _ IH. by constructor.
  - intros ts a Ha. constructor. destruct Ha as [name comma _|name ts ls comma Hls _].
    + exact (G_no_args name [] Ht).
    + exact (G_args name _ ls [] (literals_tokens ts ls Hls) Ht).
  - intros name ts args comma _ IH _. exact (G_opexpr name _ args [] IH Ht).
  - intros ts e _ IH. by constructor.
  - intros ts e ts' es _ IHe Hes IHes. destruct Hes; cbn in *; by constructor.
Qed.

(** ** The printed text spells the printed tokens *)

Lemma separated_elem t tss : t ∈ separated tss → t = TComma ∨ ∃ ts, ts ∈ tss ∧ t ∈ ts.
Proof.
  induction tss as [|ts [|ts' tss] IH]; [by intros ?%elem_of_nil| |].
  - intros Ht. right. exists ts. split; [by left|done].
  - change (separated (ts :: ts' :: tss)) with (ts ++ TComma :: separated (ts' :: tss)).
    intros [Ht|[->|Ht]%elem_of_cons]%elem_of_app; [|by left|].
    + right. exists ts. split; [by left|done].
    + destruct (IH Ht) as [->|(ts0&H1&H2)]; [by left|]. right. exists ts0. split; [by right|done].
Qed.

Lemma literal_no_ident n ls : TIdent n ∉ separated (literal_tokens <$> ls).
Proof.
  intros [?|(ts&(l&->&_)%list_elem_of_fmap&Ht)]%separated_elem; [done|].
  unfold literal_tokens in Ht. destruct (Literal_String l); [|by apply elem_of_nil in Ht].
  by apply list_elem_of_singleton in Ht.
Qed.

(** Printing brings in no identifier that was not read. *)
Lemma grammar_idents n :
  (∀ ts e, g_expr ts e → TIdent n ∈ expr_tokens e → TIdent n ∈ ts) ∧
  (∀ ts o, g_op ts o → TIdent n ∈ expr_tokens (mkExpr (Some o) None) → TIdent n ∈ ts) ∧
  (∀ ts es, g_exprs ts es → ∀ ts', ts' ∈ expr_tokens <$> es → TIdent n ∈ ts' → TIdent n ∈ ts).
Proof.
  apply g_mutind.
  - done.
  - intros ts a Ha Hn. assert (n = Atom_Name a) as ->.
    { apply elem_of_cons in Hn as [[= ->]|[?|[Hn|Hn]%elem_of_app]%elem_of_cons]; [done..| |].
      - by apply literal_no_ident in Hn.
      - by apply list_elem_of_singleton in Hn. }
    destruct Ha; by left.
  - intros name ts args comma _ IH _ [[= ->]|[?|[Hn|Hn]%elem_of_app]%elem_of_cons]%elem_of_cons; [by left|done| |].
    + apply separated_elem in Hn as [?|(ts'&H1&H2)]; [done|]. right. right.
      apply elem_of_app. left. by eapply IH.
    + by apply list_elem_of_singleton in Hn.
  - intros ts e _ IH ts' ->%list_elem_of_singleton. exact IH.
  - intros ts e ts' es _ IHe _ IHes ts0 [->|H]%elem_of_cons Hn; apply elem_of_app; [by left; apply IHe|].
    right. right. by eapply IHes.
Qed.

Lemma literals_apart ts ls rest : g_literals ts ls → apart rest → apart (ts ++ rest).
Proof. intros H ?. by induction H. Qed.

(** An identifier is followed by a parenthesis. *)
Lemma grammar_apart :
  (∀ ts e, g_expr ts e → ∀ rest, apart rest → apart (ts ++ rest)) ∧
  (∀ ts o, g_op ts o → ∀ rest, apart rest → apart (ts ++ rest)) ∧
  (∀ ts es, g_exprs ts es → ∀ rest, apart rest → apart (ts ++ rest)).
Proof.
  assert (∀ comma rest, trailing comma → apart rest → apart ((comma ++ [TClose]) ++ rest)) as Hc.
  { by intros comma rest [-> | ->]. }
  apply g_mutind; try done.
  - intros ts a [name comma ?|name ts' ls comma Hls ?] rest Hr; cbn; [by apply Hc|].
    rewrite -app_assoc. eapply literals_apart; [done|]. by apply Hc.
  - intros name ts args comma _ IH ? rest Hr. cbn. rewrite -app_assoc. apply IH. by apply Hc.
  - intros ts e ts' es _ IHe _ IHes rest Hr. rewrite -app_assoc. apply IHe. cbn. by apply IHes.
Qed.

Lemma text_words IsPrint ts : text IsPrint ts = foldr String.append "" (token_text IsPrint <$> ts).
Proof. induction ts as [|t ts IH]; [done|]. cbn [text foldr fmap list_fmap]. by rewrite -IH. Qed.

Lemma token_spelling IsPrint identifier t :
  (∀ n, t = TIdent n → identifier n = true) → spelling identifier t (token_text IsPrint t).
Proof.
  intros Hn. destruct t; constructor; auto. apply quote_bytes_interpreted.
Qed.

(** * Properties *)


(** C40. Whatever text is parsed as an expression, [Repr] prints the expression and does
    not panic, whatever its operators and atoms are named and whatever bytes its strings
    hold; the text that it prints is parsed as the same expression, and so is compiled
    with the same result. The lexer is the library's: it gives identifiers as
    identifiers, and reads a text that spells tokens as these tokens, a string being
    spelled with the escapes of Go. Which runes [strconv.Quote] takes for printable does
    not matter. *)
Theorem Repr_roundtrip IsPrint identifier lex unexpected s e :
  Lexer identifier lex →
  ParseString lex unexpected s = inr e →
  ∃ s', Expr_Repr IsPrint e = Ok s' ∧
    ParseString lex unexpected s' = inr e ∧
    CompileExpression (ParseString lex unexpected) s' = CompileExpression (ParseString lex unexpected) s.
Proof.
  intros Hlex Hs. assert (∃ ts, lex s = inr ts ∧ g_expr ts e) as (ts&Hts&Hg).
  { unfold ParseString in Hs. destruct (lex s) as [|ts]; [done|]. exists ts. split; [done|].
    apply parse_grammar. by destruct (parse ts) as [e'|]; [injection Hs as ->|]. }
  pose proof (proj1 grammar_tokens _ _ Hg) as Hprinted.
  exists (text IsPrint (expr_tokens e)). split; [by eapply grammar_Repr|].
  assert (ParseString lex unexpected (text IsPrint (expr_tokens e)) = inr e) as Hback.
  { unfold ParseString. rewrite text_words (lex_spelling (expr_tokens e)).
    - apply Forall2_fmap_r, Forall_Forall2_diag, list.Forall_forall. intros t Ht. apply token_spelling.
      intros n ->. apply (lex_identifiers s ts n Hts). by apply (proj1 (grammar_idents n) _ _ Hg).
    - rewrite -(app_nil_r (expr_tokens e)). by apply (proj1 grammar_apart _ _ Hprinted).
    - apply parse_grammar in Hprinted. by rewrite Hprinted. }
  split; [done|]. unfold CompileExpression. by rewrite Hs Hback.
Qed.

(** ** A lexer, and the examples of expr_test.go *)

Module AuthGrammarExample.
Definition foo : list token := [TIdent "jwtHasScope"; TOpen; TString "foo"; TClose].
Definition foo_comma : list token := [TIdent "jwtHasScope"; TOpen; TString "foo"; TComma; TClose].
Definition any (ts : list token) : list token := TIdent "any" :: TOpen :: ts ++ [TComma; TClose].
Definition ascii_print (r : N) : bool := false.
Example trailing_commas : parse (any foo_comma) = parse ([TIdent "any"; TOpen] ++ foo ++ [TClose]).
Proof. reflexivity. Qed.
Example two_commas : parse [TIdent "f"; TOpen; TComma; TComma; TClose] = None.
Proof. reflexivity. Qed.
Example quoted : Quote ascii_print (String "010" (String "195" (String "169" (String "255" (String dquote ""))))) =
  String dquote ("\n\u00e9\xff\" +:+ String dquote (String dquote "")).
Proof. reflexivity. Qed.

(** The letters of ASCII only. *)
Definition letter (c : ascii) : bool := is_lower c || is_upper c || bool_decide (c = "_"%char).
Definition ident_byte (c : ascii) : bool := letter c || is_digit c.
Definition identifier (name : string) : bool :=
  match name with "" => false | String c s => letter c && str_forall ident_byte s end.

Fixpoint span (s : string) : string * string :=
  match s with
  | "" => ("", "")
  | String c t => if ident_byte c then let '(w, rest) := span t in (String c w, rest) else ("", s)
  end.

(** The bytes of an escape, its name and digits, with what follows. *)
Definition numbered (digits : nat) (s : string) : option N :=
  if (String.length s <? digits)%nat then None else hex_number 0 (str_take digits s).
Definition escape (e : ascii) (s : string) : option (nat * string) :=
  if bool_decide (e = "x"%char) then n ← numbered 2 s; Some (2, String (ascii_of_N n) "")
  else if bool_decide (e = "u"%char) then n ← numbered 4 s; Some (4, EncodeRune n)
  else if bool_decide (e = "U"%char) then n ← numbered 8 s; Some (8, EncodeRune n)
  else c ← escaped e; Some (0, String c "").

(** After the opening quote, up to the closing one. *)
Fixpoint unquote (fuel : nat) (s : string) : option (string * string) :=
  match fuel, s with
  | S fuel, String c s =>
      if bool_decide (c = dquote) then Some ("", s)
      else if bool_decide (c = backslash) then
        match s with
        | String e s =>
            '(n, v) ← escape e s; '(w, rest) ← unquote fuel (str_drop n s); Some (v +:+ w, rest)
        | "" => None
        end
      else '(w, rest) ← unquote fuel s; Some (String c w, rest)
  | _, _ => None
  end.

(** Every token has a byte: one unit of fuel for each byte is enough. *)
Fixpoint scan (fuel : nat) (s : string) : option (list token) :=
  match fuel, s with
  | _, "" => Some []
  | S fuel, String c s =>
      if bool_decide (c = "("%char) then cons TOpen <$> scan fuel s
      else if bool_decide (c = ","%char) then cons TComma <$> scan fuel s
      else if bool_decide (c = ")"%char) then cons TClose <$> scan fuel s
      else if bool_decide (c = " "%char) then scan fuel s
      else if bool_decide (c = dquote) then '(v, s) ← unquote (String.length s) s; cons (TString v) <$> scan fuel s
      else if letter c then let '(w, s) := span s in cons (TIdent (String c w)) <$> scan fuel s
      else None
  | O, String _ _ => None
  end.
Definition example_lex (s : string) : error + list token :=
  match scan (String.length s) s with Some ts => inr ts | None => inl (ErrText "unexpected character") end.
End AuthGrammarExample.
Import AuthGrammarExample.

Lemma span_word w rest :
  str_forall ident_byte w = true → match rest with "" => True | String c _ => ident_byte c = false end →
  span (w +:+ rest) = (w, rest).
Proof.
  intros Hw Hr. induction w as [|c w IH]; cbn in *.
  - destruct rest as [|c rest]; cbn; [done|by rewrite Hr].
  - apply andb_true_iff in Hw as [Hc Hw]. by rewrite Hc (IH Hw).
Qed.

Lemma span_ident s w rest : span s = (w, rest) → str_forall ident_byte w = true.
Proof.
  revert w rest. induction s as [|c s IH]; intros w rest; cbn; [by intros [= <- _]|].
  destruct (ident_byte c) eqn:Hc; [|by intros [= <- _]]. destruct (span s) as [w' r] eqn:E.
  intros [= <- _]. cbn. by rewrite Hc (IH w' r).
Qed.

Lemma unquote_high w rest fuel v r :
  str_forall (λ c, negb (is_ascii c)) w = true → unquote fuel rest = Some (v, r) →
  unquote (String.length w + fuel) (w +:+ rest) = Some (w +:+ v, r).
Proof.
  intros Hw Hr. induction w as [|c w IH]; cbn [String.append str_forall] in *; [done|].
  apply andb_true_iff in Hw as [Hc Hw]. specialize (IH Hw).
  assert (c ≠ dquote ∧ c ≠ backslash) as [Hq Hb] by (split; intros ->; done).
  cbn. by rewrite !bool_decide_false // IH.
Qed.

Lemma numbered_digits k h n rest :
  String.length h = k → hex_number 0 h = Some n →
  numbered k (h +:+ rest) = Some n ∧ str_drop k (h +:+ rest) = rest.
Proof.
  intros <- Hn. unfold numbered. rewrite str_length_append (proj2 (Nat.ltb_ge _ _)); [lia|].
  assert (str_take (String.length h) (h +:+ rest) = h ∧ str_drop (String.length h) (h +:+ rest) = rest) as [-> ->]
    by (clear Hn; induction h as [|c h [IH1 IH2]]; cbn; [by destruct rest|by rewrite IH1 IH2]).
  done.
Qed.

Lemma unquote_escape e n v body rest fuel s r :
  escape e rest = Some (n, v) → str_drop n rest = body → unquote fuel body = Some (s, r) →
  unquote (S fuel) (String backslash (String e rest)) = Some (v +:+ s, r).
Proof. intros He <- Hu. cbn -[escape]. by rewrite He /= Hu. Qed.

Lemma escape_letter e c rest : escaped e = Some c → escape e rest = Some (0, String c "").
Proof. intros He. destruct e as [[] [] [] [] [] [] [] []]; try done; injection He as <-; done. Qed.

Lemma unquote_interpreted body s fuel rest :
  interpreted body s → (String.length body < fuel)%nat →
  unquote fuel (body +:+ String dquote rest) = Some (s, rest).
Proof.
  intros H. revert fuel. induction H as [|c body s _ Hq Hb _ IH|r body s Hr Hv _ IH|e c body s He _ IH
    |h n body s Hl Hn _ IH|h n body s Hl Hn _ _ IH|h n body s Hl Hn _ _ IH]; intros [|fuel] Hf; try lia; cbn in Hf.
  - done.
  - cbn. rewrite !bool_decide_false // IH //. lia.
  - rewrite str_length_append in Hf. rewrite str_app_assoc.
    replace (S fuel) with (String.length (EncodeRune r) + (S fuel - String.length (EncodeRune r)))%nat by lia.
    apply unquote_high; [by apply EncodeRune_high|]. apply IH. lia.
  - apply (unquote_escape e 0 (String c "") (body +:+ String dquote rest)); [by apply escape_letter|done|].
    apply IH. lia.
  - rewrite str_length_append in Hf. destruct (numbered_digits 2 h n (body +:+ String dquote rest) Hl Hn) as [H1 H2].
    cbn [String.append]. rewrite str_app_assoc.
    apply (unquote_escape "x" 2 (String (ascii_of_N n) "") (body +:+ String dquote rest)); [|done|apply IH; lia].
    change ((n ← numbered 2 (h +:+ body +:+ String dquote rest); Some (2, String (ascii_of_N n) "")) = Some (2, String (ascii_of_N n) "")).
    by rewrite H1.
  - rewrite str_length_append in Hf. destruct (numbered_digits 4 h n (body +:+ String dquote rest) Hl Hn) as [H1 H2].
    cbn [String.append]. rewrite str_app_assoc.
    apply (unquote_escape "u" 4 (EncodeRune n) (body +:+ String dquote rest)); [|done|apply IH; lia].
    change ((n ← numbered 4 (h +:+ body +:+ String dquote rest); Some (4, EncodeRune n)) = Some (4, EncodeRune n)). by rewrite H1.
  - rewrite str_length_append in Hf. destruct (numbered_digits 8 h n (body +:+ String dquote rest) Hl Hn) as [H1 H2].
    cbn [String.append]. rewrite str_app_assoc.
    apply (unquote_escape "U" 8 (EncodeRune n) (body +:+ String dquote rest)); [|done|apply IH; lia].
    change ((n ← numbered 8 (h +:+ body +:+ String dquote rest); Some (8, EncodeRune n)) = Some (8, EncodeRune n)). by rewrite H1.
Qed.

(** A text with a token in front. *)
Lemma scan_token t word rest ts fuel :
  spelling identifier t word →
  (∀ n, t = TIdent n → match rest with "" => True | String c _ => ident_byte c = false end) →
  (∀ f, (String.length rest ≤ f)%nat → scan f rest = Some ts) →
  (String.length (word +:+ rest) ≤ fuel)%nat → scan fuel (word +:+ rest) = Some (t :: ts).
Proof.
  intros Hw Hn Hs Hf. rewrite str_length_append in Hf.
  destruct Hw as [name Hi|body s Hb| | |]; cbn in Hf; (destruct fuel as [|fuel]; [try lia|]).
  - destruct name; [done|cbn in Hf; lia].
  - destruct name as [|c w]; [done|]. cbn in Hi, Hf. apply andb_true_iff in Hi as [Hc Hi].
    assert (c ≠ "("%char ∧ c ≠ ","%char ∧ c ≠ ")"%char ∧ c ≠ " "%char ∧ c ≠ dquote) as (?&?&?&?&?)
      by (split_and!; intros ->; done).
    cbn. rewrite !bool_decide_false // Hc (span_word w rest Hi (Hn _ eq_refl)) Hs //. lia.
  - rewrite str_length_append in Hf. cbn -[unquote]. rewrite !str_app_assoc. cbn [String.append].
    rewrite (unquote_interpreted body s _ rest Hb); [rewrite str_length_append; cbn; lia|].
    cbn. rewrite Hs //. lia.
  - cbn. rewrite Hs //. lia.
  - cbn. rewrite Hs //. lia.
  - cbn. rewrite Hs //. lia.
Qed.

Lemma spelling_start t word rest :
  spelling identifier t word → (∀ n, t ≠ TIdent n) →
  match word +:+ rest with "" => True | String c _ => ident_byte c = false end.
Proof. intros Hw Hn. destruct Hw; try done. by edestruct Hn. Qed.

Lemma scan_spelling ts words :
  Forall2 (spelling identifier) ts words → apart ts →
  ∀ fuel, (String.length (foldr String.append "" words) ≤ fuel)%nat →
  scan fuel (foldr String.append "" words) = Some ts.
Proof.
  induction 1 as [|t w ts words Hw Hws IH]; intros Ha fuel Hf; [by destruct fuel|]. cbn [foldr] in *.
  apply scan_token; [done| |apply IH; by destruct t, ts as [|[] ts]|done].
  intros n ->. destruct Hws as [|t' w' ts words Hw' Hws]; [done|]. cbn [foldr].
  by apply (spelling_start t'); [|intros n' ->].
Qed.

Lemma scan_identifiers fuel s ts n : scan fuel s = Some ts → TIdent n ∈ ts → identifier n = true.
Proof.
  revert s ts. induction fuel as [|fuel IH]; intros [|c s] ts; cbn; [by intros [= <-] ?%elem_of_nil|done|by intros [= <-] ?%elem_of_nil|].
  assert (∀ t s' o, o = cons t <$> scan fuel s' → o = Some ts →
    (∀ n', t = TIdent n' → identifier n' = true) → TIdent n ∈ ts → identifier n = true) as Hcons.
  { intros t s' o -> (ts'&Hts&->)%fmap_Some Ht [<-|Hin]%elem_of_cons; [by apply Ht|by eapply IH]. }
  repeat case_bool_decide; try (by intros; eapply Hcons); [by apply IH| |].
  - intros ([v s']&_&Hs)%bind_Some. by eapply Hcons.
  - case_match eqn:Hc; [|done]. destruct (span s) as [w s'] eqn:E. intros Hs. eapply Hcons; [done..|].
    intros n' [= <-]. cbn. by rewrite Hc (span_ident s w s').
Qed.

Lemma example_Lexer : Lexer identifier example_lex.
Proof.
  split; unfold example_lex.
  - intros s ts name Hs. destruct (scan _ s) as [ts'|] eqn:E; [|done]. injection Hs as ->. by eapply scan_identifiers.
  - intros ts words Hw Ha. by rewrite (scan_spelling ts words).
Qed.

(** What follows the word test is a quote, an e with an accent and a byte that is no rune. *)
Definition example_text : string :=
  "any( jwtHasScope(" +:+ String dquote ("test\" +:+ String dquote (String "195" (String "169" ("ÿ" +:+ String dquote ", ), )")))).
Lemma Repr_roundtrip_witness :
  ∃ e s', ParseString example_lex (λ _, ErrText "unexpected token") example_text = inr e ∧
    Expr_Repr ascii_print e = Ok s' ∧ s' ≠ example_text ∧
    ParseString example_lex (λ _, ErrText "unexpected token") s' = inr e.
Proof.
  destruct (ParseString example_lex (λ _, ErrText "unexpected token") example_text) as [|e] eqn:E;
    [vm_compute in E; discriminate E|].
  destruct (Repr_roundtrip ascii_print identifier example_lex (λ _, ErrText "unexpected token") example_text e
    example_Lexer E) as (s'&Hs&Hp&_).
  exists e, s'. split; [reflexivity|]. split; [exact Hs|]. split; [|exact Hp].
  vm_compute in E. injection E as <-. vm_compute in Hs. injection Hs as <-. vm_compute. discriminate.
Defined.

