(* ===== verification/JwtAuth.v ===== *)
(** * JWT authentication: src/jwtauth

    Errors and their HTTP statuses, claims in the context, the standard
    authenticator with one verifier per issuer, and the remote verifier with its
    cache of the issuer's key set. The JOSE library and the HTTP client are
    parameters. *)

From Stdlib Require Import Floats.SpecFloat.
From stdpp Require Import pretty.
From S2P Require Export Context.

(** ** errors.go *)

Definition AuthErrCodeUnknown : Z := 0.
Definition AuthErrCodeInvalidJWT : Z := 1.
Definition AuthErrCodeUntrustedSource : Z := 2.
Definition AuthErrCodeBadSignature : Z := 3.
Definition AuthErrCodeInsufficientPermissions : Z := 4.

Definition errHTTPCodeMap : gmap Z Z := list_to_map [
  (AuthErrCodeUnknown, StatusInternalServerError);
  (AuthErrCodeInvalidJWT, StatusUnauthorized);
  (AuthErrCodeUntrustedSource, StatusForbidden);
  (AuthErrCodeBadSignature, StatusForbidden);
  (AuthErrCodeInsufficientPermissions, StatusForbidden)].

(** [(e *AuthError) HTTPStatus()], as a function of [e.Code]. *)
Definition AuthError_HTTPStatus (code : Z) : Z :=
  match errHTTPCodeMap !! code with
  | Some c => c
  | None => StatusInternalServerError
  end.

(** ** claims.go *)

(** [clone]: encode as JSON, decode again. The encoder refuses functions,
    channels and floats without a decimal form; the decoder turns every number
    into a [float64] (a number beyond its range is an error) and leaves the rest as it was (claims come from a JSON
    decoder, so their strings are valid UTF-8). *)
Definition float_of_int (z : Z) : spec_float := binary_normalize 53 1024 z 0 false.

Fixpoint clone_value (v : value) : option value :=
  match v with
  | VNil => Some VNil
  | VBool b => Some (VBool b)
  | VInt z => if float_encodable (float_of_int z) then Some (VFloat (float_of_int z)) else None
  | VFloat f => if float_encodable f then Some (VFloat f) else None
  | VString s => Some (VString s)
  | VSlice l =>
      VSlice <$> (fix go l := match l with
        | [] => Some []
        | v :: l => v' ← clone_value v; l' ← go l; Some (v' :: l')
        end) l
  | VMap m =>
      VMap <$> (fix go m := match m with
        | [] => Some []
        | (k, v) :: m => v' ← clone_value v; m' ← go m; Some ((k, v') :: m')
        end) m
  | VFunc => None
  end.

Definition clone (c : Claims) : res Claims :=
  if bool_decide (map_Forall (λ _ v, is_Some (clone_value v)) c)
  then Ok (omap clone_value c)
  else Panic (PanicString "cannot copy Claims").

Definition AddClaimsToContext (ctx : Context) (c : Claims) : res Context :=
  c' ← clone c; Ok (WithValue ctx KClaims c').

Definition GetClaimsFromContext (ctx : Context) : res (Claims * bool) :=
  match ctx_Value ctx KClaims with
  | None => Ok (∅, false)
  | Some claims => c ← clone claims; Ok (c, true)
  end.

(** ** authorize.go *)

Definition Authoriser := Claims → res ().

(** ** The JOSE library (go-jose): third party *)

Class Jose := {
  Token : Type;
  StdClaims : Type;
  JWK : Type;
  KeySet : Type;
  ParseSigned : string → error + Token;
  UnsafeClaimsWithoutVerification : Token → error + StdClaims;
  UnsafeMapClaims : Token → error + Claims;
  ValidateWithLeeway : StdClaims → Z → Z → option error; (* time, leeway *)
  Issuer : StdClaims → string;
  HeaderKeyIDs : Token → list string;
  TokenClaims : Token → JWK → error + Claims; (* verifies the signature *)
  KeySet_Key : KeySet → string → list JWK;
  UnmarshalKeySet : string → error + KeySet
}.

(** ** authenticate.go *)

(** The interface [Verifier]. A verifier may keep state behind its pointer:
    [Verify] returns the state it leaves. [Env] is what it reads of the
    world during the call. *)
Class Verifier `{Jose} (V Env : Type) := {
  Verify : Env → V → Token → V * res Claims
}.

(** The interface [Authenticator], likewise. *)
Class Authenticator (A Env : Type) := {
  Authenticate : Env → A → string → A * res Claims
}.

Definition sum_res {A} (f : error → error) (x : error + A) : res A :=
  match x with inl e => Err (f e) | inr a => Ok a end.

Section authenticate.
Context `{Jose} {V Env : Type} `{!Verifier V Env} (time_Now : Env → Z).

Record StdAuthenticator := mkStdAuthenticator { Verifiers : gmap string V }.

Definition StdAuthenticator_Authenticate (env : Env) (a : StdAuthenticator) (raw : string) :
    StdAuthenticator * res Claims :=
  match ParseSigned raw with
  | inl err => (a, Err (ErrAuth AuthErrCodeInvalidJWT (ErrWrap "jwt parse error" err)))
  | inr token =>
    match UnsafeClaimsWithoutVerification token with
    | inl err => (a, Err (ErrAuth AuthErrCodeUnknown (ErrWrap "jwt verify error" err)))
    | inr insecureClaims =>
      match ValidateWithLeeway insecureClaims (time_Now env) Second with
      | Some err => (a, Err (ErrAuth AuthErrCodeInvalidJWT err))
      | None =>
        match Verifiers a !! Issuer insecureClaims with
        | None =>
            (a, Err (ErrAuth AuthErrCodeUntrustedSource
                       (ErrText ("issuer not registered: " +:+ Issuer insecureClaims))))
        | Some verifier =>
            let '(verifier', r) := Verify env verifier token in
            (mkStdAuthenticator (<[Issuer insecureClaims := verifier']> (Verifiers a)), r)
        end
      end
    end
  end.

#[export] Instance StdAuthenticator_Authenticator : Authenticator StdAuthenticator Env :=
  {| Authenticate := StdAuthenticator_Authenticate |}.

(** [InsecureAuthenticator]: no signature check, for tests. *)
Definition InsecureAuthenticator_Authenticate (env : Env) (i : ()) (raw : string) : () * res Claims :=
  match ParseSigned raw with
  | inl err => ((), Err (ErrAuth AuthErrCodeInvalidJWT (ErrWrap "jwt parse error" err)))
  | inr token =>
    match UnsafeMapClaims token with
    | inl err => ((), Err (ErrAuth AuthErrCodeUnknown (ErrWrap "jwt verify error" err)))
    | inr insecureClaims => ((), Ok insecureClaims)
    end
  end.
End authenticate.
Arguments StdAuthenticator V : clear implicits.
Arguments mkStdAuthenticator {V} _.
Arguments Verifiers {V} _.

(** ** remote.go *)

(** The answer of [client.Get(url)]: a transport error, or a status and a body
    that is read completely or fails. *)
Inductive FetchResult :=
| FetchError (err : error)
| FetchResponse (status : Z) (body : error + string).

(** What one call reads of the world: the time at the expiry check, the
    response if the key set is fetched, and the time when it has been read. *)
Record RemoteEnv := mkRemoteEnv {
  re_now : Z;
  re_fetch : string → FetchResult;
  re_put_time : Z
}.

(** [time.Since] saturates; the zero [time.Time] is instant 0. *)
Definition time_Since (now t : Z) : Z := Z.max minInt64 (Z.min maxInt64 (now - t)).

Section remote.
Context `{Jose}.

Record jwksCache := mkJwksCache {
  jk_cache : option KeySet;
  jk_ttl : Z;
  jk_setTime : Z
}.

Record RemoteJWKSIssuer := mkRemoteJWKSIssuer {
  rj_url : string;
  rj_cache : jwksCache
}.

Definition jwksCache_getKey (c : jwksCache) (now : Z) (kid : string) : res (list JWK) :=
  if bool_decide (jk_ttl c < time_Since now (jk_setTime c))%Z then Err (ErrText "Cache expired")
  else ks ← deref (jk_cache c); Ok (KeySet_Key ks kid).

Definition jwksCache_Put (c : jwksCache) (jwks : KeySet) (now : Z) : jwksCache :=
  mkJwksCache (Some jwks) (jk_ttl c) now.

(** [refreshCache]: the cache changes only when everything succeeded. *)
Definition refreshCache (env : RemoteEnv) (r : RemoteJWKSIssuer) : RemoteJWKSIssuer * res KeySet :=
  match re_fetch env (rj_url r) with
  | FetchError err => (r, Err err)
  | FetchResponse status body =>
    if bool_decide (status ≠ StatusOK) then
      (r, Err (ErrText ("jwks fetch error: Received status " +:+ pretty status +:+ " from issuer")))
    else
      match body with
      | inl err => (r, Err (ErrWrap "Error reading jwks response" err))
      | inr body =>
        match UnmarshalKeySet body with
        | inl err => (r, Err err)
        | inr newjwks =>
            (mkRemoteJWKSIssuer (rj_url r) (jwksCache_Put (rj_cache r) newjwks (re_put_time env)),
             Ok newjwks)
        end
      end
  end.

(** The second half of [Verify], once the keys for the key id are known. *)
Definition verify_with (keys : list JWK) (token : Token) : res Claims :=
  match keys with
  | [] => Err (ErrAuth AuthErrCodeUntrustedSource (ErrText "No mathing key id for incoming jwt"))
  | key :: _ =>
    sum_res (λ err, ErrAuth AuthErrCodeBadSignature (ErrWrap "jwt verify error" err))
      (TokenClaims token key)
  end.

Definition RemoteJWKSIssuer_Verify (env : RemoteEnv) (r : RemoteJWKSIssuer) (token : Token) :
    RemoteJWKSIssuer * res Claims :=
  match HeaderKeyIDs token with
  | [kid] =>
    match jwksCache_getKey (rj_cache r) (re_now env) kid with
    | Panic p => (r, Panic p)
    | Ok keys => (r, verify_with keys token)
    | Err _ =>
      match refreshCache env r with
      | (r', Panic p) => (r', Panic p)
      | (r', Err err) =>
          (r', Err (ErrAuth AuthErrCodeUnknown (ErrWrap "Unable to refresh jwks" err)))
      | (r', Ok jwks) => (r', verify_with (KeySet_Key jwks kid) token)
      end
    end
  | _ => (r, Err (ErrAuth AuthErrCodeInvalidJWT (ErrText "Token must have one header")))
  end.

#[export] Instance RemoteJWKSIssuer_Verifier : Verifier RemoteJWKSIssuer RemoteEnv :=
  {| Verify := RemoteJWKSIssuer_Verify |}.

(** [NewRemoteJWKSIssuer]; [url_Parse] is [net/url.Parse], of which only the
    error matters. A failure of the first fetch is only logged. *)
Definition NewRemoteJWKSIssuer (url_Parse : string → option error) (env : RemoteEnv)
    (issuer issuerURL : string) (cacheTTL cacheRefresh : Z) : res RemoteJWKSIssuer :=
  match url_Parse issuerURL with
  | Some err => Err err
  | None =>
    if bool_decide (cacheTTL = 0)%Z then Err (ErrText "Must have a non-zero cache ttl")
    else
      let r := mkRemoteJWKSIssuer issuerURL (mkJwksCache None cacheTTL 0) in
      Ok (refreshCache env r).1
  end.

(** The body of the background loop that [NewRemoteJWKSIssuer] starts when
    [cacheRefresh > 0]. *)
Definition background_refresh (env : RemoteEnv) (r : RemoteJWKSIssuer) : RemoteJWKSIssuer :=
  (refreshCache env r).1.

(** ** config.go *)

Definition VerifierFromIssuerConfig (url_Parse : string → option error) (env : RemoteEnv)
    (i : IssuerConfig) : res RemoteJWKSIssuer :=
  if bool_decide (ic_JWKSURL i ≠ "") then
    NewRemoteJWKSIssuer url_Parse env (ic_Name i) (ic_JWKSURL i) (ic_CacheTTL i) (ic_CacheRefresh i)
  else Err (ErrText "jwtauth.Config: Can only have one of SharedSecret, PublicKey or JWKSURL set").

(** The loop of [AuthFromConfig] over [c.Issuers], with the map built so far.
    [env] gives what the construction of each issuer's verifier reads. *)
Fixpoint add_verifiers (url_Parse : string → option error) (env : string → RemoteEnv)
    (issuers : list IssuerConfig) (verifiers : gmap string RemoteJWKSIssuer) :
    res (gmap string RemoteJWKSIssuer) :=
  match issuers with
  | [] => Ok verifiers
  | ic :: issuers =>
    if bool_decide (ic_Name ic = "") then
      Err (ErrText "AuthConfig: Issuer must have a name")
    else if bool_decide (is_Some (verifiers !! ic_Name ic)) then
      Err (ErrText "AuthConfig: Issuer names are not unique")
    else
      match VerifierFromIssuerConfig url_Parse (env (ic_Name ic)) ic with
      | Panic p => Panic p
      | Err err =>
          Err (ErrWrap ("AuthConfig: Error creating verifier for issuer " +:+ ic_Name ic) err)
      | Ok v => add_verifiers url_Parse env issuers (<[ic_Name ic := v]> verifiers)
      end
  end.

Definition AuthFromConfig (url_Parse : string → option error) (env : string → RemoteEnv)
    (c : option JwtConfig) : res (StdAuthenticator RemoteJWKSIssuer) :=
  match c with
  | None => Err (ErrText "AuthConfig: Config must not be nil")
  | Some c =>
      verifiers ← add_verifiers url_Parse env (jc_Issuers c) ∅;
      Ok (mkStdAuthenticator verifiers)
  end.
End remote.

(** ** Claims in the context *)

Lemma clone_value_idemp v v' : clone_value v = Some v' → clone_value v' = Some v'.
Proof.
  revert v'. induction v as [| |z|f| |l IH|m IH|] using value_nested_ind; cbn; intros v' Hv; simplify_eq/=.
  1,2,5: done.
  - case_match eqn:E; simplify_eq/=. by rewrite E.
  - case_match eqn:E; simplify_eq/=. by rewrite E.
  - apply fmap_Some in Hv as (l'&Hl&->). cbn. apply fmap_Some. exists l'. split; [|done].
    revert l' Hl. induction IH as [|v l Hv _ IH]; intros l' Hl; cbn in Hl; simplify_eq/=; [done|].
    apply bind_Some in Hl as (v'&?&Hl). apply bind_Some in Hl as (l''&?&[= <-]).
    rewrite (Hv _ H). cbn. by rewrite (IH _ H0).
  - apply fmap_Some in Hv as (l'&Hl&->). cbn. apply fmap_Some. exists l'. split; [|done].
    revert l' Hl. induction IH as [|[k v] m Hv _ IH]; intros l' Hl; cbn in Hl; simplify_eq/=; [done|].
    apply bind_Some in Hl as (v'&?&Hl). apply bind_Some in Hl as (l''&?&[= <-]).
    cbn in Hv. rewrite (Hv _ H). cbn. by rewrite (IH _ H0).
Qed.

Lemma clone_Ok c c' : clone c = Ok c' ↔ (∀ k, clone_value <$> c !! k = Some <$> c' !! k).
Proof.
  unfold clone. case_bool_decide as Hall; split.
  - intros [= <-] k. rewrite lookup_omap. destruct (c !! k) as [v|] eqn:E; [|done].
    cbn. by destruct (Hall _ _ E) as [v' ->].
  - intros Hk. f_equal. apply map_eq. intros k. specialize (Hk k). rewrite lookup_omap.
    destruct (c !! k), (c' !! k); simplify_eq/=; done.
  - done.
  - intros Hk. destruct Hall. intros k v Hv. specialize (Hk k). rewrite Hv in Hk.
    destruct (c' !! k); simplify_eq/=. eauto.
Qed.

Lemma clone_idemp c c' : clone c = Ok c' → clone c' = Ok c'.
Proof.
  rewrite !clone_Ok. intros Hk k. specialize (Hk k).
  destruct (c !! k), (c' !! k) eqn:E; simplify_eq/=; [|done].
  f_equal. by eapply clone_value_idemp.
Qed.

(** Values as a JSON decoder builds them. *)
Fixpoint json_value (v : value) : bool :=
  match v with
  | VNil | VBool _ | VString _ => true
  | VFloat f => float_encodable f
  | VInt _ | VFunc => false
  | VSlice l => (fix go l := match l with [] => true | v :: l => json_value v && go l end) l
  | VMap m => (fix go m := match m with [] => true | (_, v) :: m => json_value v && go m end) m
  end.

Lemma clone_json_value v : json_value v = true → clone_value v = Some v.
Proof.
  induction v as [| |z|f| |l IH|m IH|] using value_nested_ind; cbn; intros Hv; try done.
  - by rewrite Hv.
  - apply fmap_Some. exists l. split; [|done]. induction IH as [|v l Hi _ IH]; [done|].
    apply andb_true_iff in Hv as [??]. rewrite Hi //. cbn. by rewrite IH.
  - apply fmap_Some. exists m. split; [|done]. induction IH as [|[k v] m Hi _ IH]; [done|].
    apply andb_true_iff in Hv as [??]. cbn in Hi. rewrite Hi //. cbn. by rewrite IH.
Qed.

Lemma clone_json c : map_Forall (λ _ v, json_value v = true) c → clone c = Ok c.
Proof.
  intros Hc. apply clone_Ok. intros k. destruct (c !! k) eqn:E; [|done].
  cbn. f_equal. by eapply clone_json_value, Hc.
Qed.

(** Claims put in a context are read back as they were put, up to the copy
    through JSON, which is the identity on claims that come from a JSON decoder;
    other values of the context are kept, and reading never panics. *)
Theorem Claims_context_roundtrip ctx c ctx' :
  AddClaimsToContext ctx c = Ok ctx' →
  (∃ c', clone c = Ok c' ∧ GetClaimsFromContext ctx' = Ok (c', true)) ∧
  (map_Forall (λ _ v, json_value v = true) c → GetClaimsFromContext ctx' = Ok (c, true)) ∧
  (∀ k, k ≠ KClaims → ctx_Value ctx' k = ctx_Value ctx k).
Proof.
  unfold AddClaimsToContext, GetClaimsFromContext.
  intros (c'&Hc&[= <-])%res_bind_Ok. rewrite WithValue_same.
  rewrite (clone_idemp _ _ Hc). split_and!; [by eauto| |].
  - intros Hj%clone_json. rewrite Hc in Hj. by injection Hj as ->.
  - intros k Hk. by rewrite WithValue_other.
Qed.

Definition example_claims : Claims :=
  <["sub" := VString "alice"]> (<["scope" := VString "read write"]> ∅).

Lemma Claims_context_roundtrip_witness :
  AddClaimsToContext Background example_claims = Ok (WithValue Background KClaims example_claims) ∧
  GetClaimsFromContext (WithValue Background KClaims example_claims) = Ok (example_claims, true).
Proof.
  assert (AddClaimsToContext Background example_claims =
    Ok (WithValue Background KClaims example_claims)) as H by (by_vm).
  split; [exact H|].
  apply (proj1 (proj2 (Claims_context_roundtrip _ _ _ H))).
  apply (bool_decide_eq_true_1 _). by_vm.
Defined.

(** ** The standard authenticator *)

Section authenticator_properties.
Context `{Jose} {V Env : Type} `{!Verifier V Env} (time_Now : Env → Z).

Lemma StdAuthenticator_Ok_inv env (a a' : StdAuthenticator V) raw c :
  StdAuthenticator_Authenticate time_Now env a raw = (a', Ok c) →
  ∃ token sc v v',
    ParseSigned raw = inr token ∧
    UnsafeClaimsWithoutVerification token = inr sc ∧
    ValidateWithLeeway sc (time_Now env) Second = None ∧
    Verifiers a !! Issuer sc = Some v ∧
    Verify env v token = (v', Ok c) ∧
    a' = mkStdAuthenticator (<[Issuer sc := v']> (Verifiers a)).
Proof.
  unfold StdAuthenticator_Authenticate. intros Ha.
  destruct (ParseSigned raw) as [|token]; [done|].
  destruct (UnsafeClaimsWithoutVerification token) as [|sc] eqn:?; [done|].
  destruct (ValidateWithLeeway _ _ _) eqn:?; [done|].
  destruct (Verifiers a !! Issuer sc) as [v|] eqn:?; [|done].
  destruct (Verify env v token) as [v' r] eqn:?; simplify_eq/=. eauto 15.
Qed.

(** A call changes at most the verifier it asks. *)
Lemma StdAuthenticator_state env (a : StdAuthenticator V) raw :
  (StdAuthenticator_Authenticate time_Now env a raw).1 = a ∨
  ∃ iss v token, Verifiers a !! iss = Some v ∧
    (StdAuthenticator_Authenticate time_Now env a raw).1 =
      mkStdAuthenticator (<[iss := (Verify env v token).1]> (Verifiers a)).
Proof.
  unfold StdAuthenticator_Authenticate.
  destruct (ParseSigned raw) as [|token]; [by left|].
  destruct (UnsafeClaimsWithoutVerification token) as [|sc]; [by left|].
  destruct (ValidateWithLeeway _ _ _); [by left|].
  destruct (Verifiers a !! Issuer sc) as [v|] eqn:Hv; [|by left].
  right. exists (Issuer sc), v, token. split; [done|]. by destruct (Verify env v token).
Qed.

(** [StdAuthenticator.Authenticate] returns claims only for a token that
    parses, is valid now within a second of leeway, names a registered issuer,
    and that this issuer's verifier accepts with those claims; it then updates
    no other verifier. *)
Theorem StdAuthenticator_accepts env (a a' : StdAuthenticator V) raw c :
  StdAuthenticator_Authenticate time_Now env a raw = (a', Ok c) ↔
  ∃ token sc v v',
    ParseSigned raw = inr token ∧
    UnsafeClaimsWithoutVerification token = inr sc ∧
    ValidateWithLeeway sc (time_Now env) Second = None ∧
    Verifiers a !! Issuer sc = Some v ∧
    Verify env v token = (v', Ok c) ∧
    a' = mkStdAuthenticator (<[Issuer sc := v']> (Verifiers a)).
Proof.
  unfold StdAuthenticator_Authenticate.
  split.
  - apply StdAuthenticator_Ok_inv.
  - intros (token&sc&v&v'&->&->&->&->&->&->). done.
Qed.

(** The verifier's own error is passed on unwrapped; every other rejection is
    an [AuthError] that leaves the verifiers alone. *)
Lemma StdAuthenticator_rejects env (a a' : StdAuthenticator V) raw e :
  StdAuthenticator_Authenticate time_Now env a raw = (a', Err e) →
  (a' = a ∧ ∃ code cause, e = ErrAuth code cause ∧
     code ∈ [AuthErrCodeInvalidJWT; AuthErrCodeUnknown; AuthErrCodeUntrustedSource]) ∨
  ∃ token sc v v', ParseSigned raw = inr token ∧
    UnsafeClaimsWithoutVerification token = inr sc ∧
    Verifiers a !! Issuer sc = Some v ∧ Verify env v token = (v', Err e).
Proof.
  unfold StdAuthenticator_Authenticate. intros Hr.
  destruct (ParseSigned raw) as [|token] eqn:?; simplify_eq/=.
  { left. split; [done|]. do 2 eexists. split; [done|]. set_solver. }
  destruct (UnsafeClaimsWithoutVerification token) as [|sc] eqn:?; simplify_eq/=.
  { left. split; [done|]. do 2 eexists. split; [done|]. set_solver. }
  destruct (ValidateWithLeeway _ _ _) eqn:?; simplify_eq/=.
  { left. split; [done|]. do 2 eexists. split; [done|]. set_solver. }
  destruct (Verifiers a !! Issuer sc) as [v|] eqn:?; simplify_eq/=.
  - destruct (Verify env v token) as [v' r] eqn:?; simplify_eq. right. eauto 10.
  - left. split; [done|]. do 2 eexists. split; [done|]. set_solver.
Qed.
End authenticator_properties.

(** ** The remote verifier *)

Section remote_properties.
Context `{Jose}.
Implicit Types (r : RemoteJWKSIssuer) (env : RemoteEnv).

(** [env] answers a request for [url] with status 200 and a body that decodes
    to the key set [ks]. *)
Definition serves env (url : string) (ks : KeySet) : Prop :=
  ∃ body, re_fetch env url = FetchResponse StatusOK (inr body) ∧ UnmarshalKeySet body = inr ks.

Lemma refreshCache_spec env r :
  (∃ ks, serves env (rj_url r) ks ∧
     refreshCache env r =
       (mkRemoteJWKSIssuer (rj_url r) (jwksCache_Put (rj_cache r) ks (re_put_time env)), Ok ks)) ∨
  ((∀ ks, ¬ serves env (rj_url r) ks) ∧ ∃ e, refreshCache env r = (r, Err e)).
Proof.
  unfold refreshCache, serves. destruct (re_fetch env (rj_url r)) as [e|status body] eqn:E.
  { right. split; [|eauto]. intros ks (?&?&?). congruence. }
  case_bool_decide as Hs.
  { right. split; [|eauto]. intros ks (?&?&?). congruence. }
  subst status. destruct body as [e|body].
  { right. split; [|eauto]. intros ks (?&?&?). congruence. }
  destruct (UnmarshalKeySet body) as [e|ks] eqn:?.
  - right. split; [|eauto]. intros ks (?&?&?). congruence.
  - left. eauto 10.
Qed.

(** The life of a verifier: built by [NewRemoteJWKSIssuer], then any sequence
    of calls of [Verify] and turns of the background loop, each reading a
    world that satisfies [W]. *)
Inductive reachable (W : RemoteEnv → Prop) (url : string) (ttl : Z) : RemoteJWKSIssuer → Prop :=
| reach_new parse env issuer refresh r :
    W env → NewRemoteJWKSIssuer parse env issuer url ttl refresh = Ok r → reachable W url ttl r
| reach_background env r :
    reachable W url ttl r → W env → reachable W url ttl (background_refresh env r)
| reach_verify env r token :
    reachable W url ttl r → W env → reachable W url ttl (RemoteJWKSIssuer_Verify env r token).1.

(** The invariant: the cache is empty and unset, or holds a key set the issuer
    served, with the time it was read. *)
Definition cache_inv (W : RemoteEnv → Prop) (url : string) (ttl : Z) r : Prop :=
  rj_url r = url ∧ jk_ttl (rj_cache r) = ttl ∧ ttl ≠ 0%Z ∧
  match jk_cache (rj_cache r) with
  | None => jk_setTime (rj_cache r) = 0%Z
  | Some ks => ∃ env, W env ∧ serves env url ks ∧ jk_setTime (rj_cache r) = re_put_time env
  end.

Lemma refresh_inv W url ttl env r :
  cache_inv W url ttl r → W env → cache_inv W url ttl (refreshCache env r).1.
Proof.
  intros (?&?&?&?) ?. destruct (refreshCache_spec env r) as [(ks&?&->)|(_&?&->)]; cbn.
  - unfold cache_inv. cbn. subst. split_and!; eauto.
  - by split_and!.
Qed.

Lemma Verify_state env r token :
  (RemoteJWKSIssuer_Verify env r token).1 = r ∨
  (RemoteJWKSIssuer_Verify env r token).1 = (refreshCache env r).1.
Proof.
  unfold RemoteJWKSIssuer_Verify.
  destruct (HeaderKeyIDs token) as [|kid [|??]]; cbn; [by left| |by left].
  destruct (jwksCache_getKey _ _ _); cbn; [by left| |by left].
  destruct (refreshCache env r) as [r' []]; cbn; by right.
Qed.

Lemma reachable_inv W url ttl r : reachable W url ttl r → cache_inv W url ttl r.
Proof.
  induction 1 as [parse env issuer refresh r HW Hnew|env r _ IH HW|env r token _ IH HW].
  - unfold NewRemoteJWKSIssuer in Hnew. destruct (parse url); [done|].
    case_bool_decide; simplify_eq/=. apply refresh_inv; [|done]. by split_and!.
  - by apply refresh_inv.
  - destruct (Verify_state env r token) as [->| ->]; [done|]. by apply refresh_inv.
Qed.

(** The clock reads a date at which [time.Since] of the zero time saturates
    (any date after the year 293). *)
Definition modern_clock env : Prop := (maxInt64 ≤ re_now env)%Z.

Lemma getKey_reachable W url ttl env r kid :
  cache_inv W url ttl r → (ttl < maxInt64)%Z → modern_clock env →
  (∃ e, jwksCache_getKey (rj_cache r) (re_now env) kid = Err e) ∨
  ∃ ks env', jwksCache_getKey (rj_cache r) (re_now env) kid = Ok (KeySet_Key ks kid) ∧
    W env' ∧ serves env' url ks ∧ (time_Since (re_now env) (re_put_time env') ≤ ttl)%Z.
Proof.
  unfold jwksCache_getKey, modern_clock. intros (_&->&_&Hcache) Httl Hnow.
  case_bool_decide as Hexp; [eauto|]. right.
  destruct (jk_cache (rj_cache r)) as [ks|].
  - destruct Hcache as (env'&?&?&Ht). rewrite Ht in Hexp. exists ks, env'.
    split_and!; [done..|lia].
  - rewrite Hcache in Hexp. unfold time_Since, minInt64, maxInt64 in *. lia.
Qed.

Lemma Verify_accepts W url ttl env r r' token c :
  cache_inv W url ttl r → W env → (ttl < maxInt64)%Z → modern_clock env →
  RemoteJWKSIssuer_Verify env r token = (r', Ok c) →
  ∃ kid ks key env',
    HeaderKeyIDs token = [kid] ∧ W env' ∧ serves env' url ks ∧
    (env' = env ∨ (time_Since (re_now env) (re_put_time env') ≤ ttl)%Z) ∧
    head (KeySet_Key ks kid) = Some key ∧ TokenClaims token key = inr c.
Proof.
  intros Hinv HW Httl Hnow. unfold RemoteJWKSIssuer_Verify.
  destruct (HeaderKeyIDs token) as [|kid [|??]]; try done.
  assert (∀ keys, verify_with keys token = Ok c →
    ∃ key, head keys = Some key ∧ TokenClaims token key = inr c) as Hwith.
  { intros [|key keys]; [done|]. cbn. intros Hk. exists key. split; [done|].
    by destruct (TokenClaims token key); simplify_eq/=. }
  destruct (getKey_reachable W url ttl env r kid) as [[e ->]|(ks&env'&->&?&?&?)]; [done..| |].
  - assert (rj_url r = url) as Hurl by apply Hinv.
    destruct (refreshCache_spec env r) as [(ks&?&->)|(_&?&->)]; [|done].
    intros [= _ (key&?&?)%Hwith]. subst url. exists kid, ks, key, env. auto 10.
  - intros [= _ (key&?&?)%Hwith]. exists kid, ks, key, env'. auto 10.
Qed.

Lemma Verify_inv W url ttl env r token :
  cache_inv W url ttl r → W env → cache_inv W url ttl (RemoteJWKSIssuer_Verify env r token).1.
Proof. intros. destruct (Verify_state env r token) as [->| ->]; [done|]. by apply refresh_inv. Qed.

(** C4. Whatever calls and background refreshes came before, [Verify] returns
    claims only if the token has one header, and the signature verifies, with
    those claims, against the first key with that key id in a key set that the
    issuer itself served: one read at most a time to live ago, or the one
    fetched by this very call. *)
Theorem RemoteJWKSIssuer_Verify_sound W url ttl env r r' token c :
  reachable W url ttl r → W env → (ttl < maxInt64)%Z → modern_clock env →
  RemoteJWKSIssuer_Verify env r token = (r', Ok c) →
  ∃ kid ks key env',
    HeaderKeyIDs token = [kid] ∧ W env' ∧ serves env' url ks ∧
    (env' = env ∨ (time_Since (re_now env) (re_put_time env') ≤ ttl)%Z) ∧
    head (KeySet_Key ks kid) = Some key ∧ TokenClaims token key = inr c.
Proof. intros Hinv%reachable_inv. by apply Verify_accepts. Qed.

(** The verifier never dereferences its missing key set: after any history
    [Verify] does not panic, even when every fetch so far has failed, and every
    error it returns is an [AuthError] (so it has an HTTP status: 401 for a
    token without exactly one header, 500 when the keys cannot be fetched, 403
    for an unknown key or a bad signature). *)
Theorem RemoteJWKSIssuer_Verify_errors W url ttl env r token :
  reachable W url ttl r → (ttl < maxInt64)%Z → modern_clock env →
  match (RemoteJWKSIssuer_Verify env r token).2 with
  | Panic _ => False
  | Err e => ∃ code cause, e = ErrAuth code cause ∧
      AuthError_HTTPStatus code =
        (if bool_decide (length (HeaderKeyIDs token) ≠ 1) then StatusUnauthorized
         else if bool_decide (code = AuthErrCodeUnknown) then StatusInternalServerError
         else StatusForbidden)
  | Ok _ => True
  end.
Proof.
  intros Hinv%reachable_inv Httl Hnow. unfold RemoteJWKSIssuer_Verify.
  destruct (HeaderKeyIDs token) as [|kid [|??]]; [cbn; eauto 10| |cbn; eauto 10].
  assert (∀ keys, match verify_with keys token with Panic _ => False | Ok _ => True
    | Err e => ∃ code cause, e = ErrAuth code cause ∧
        AuthError_HTTPStatus code = (if bool_decide (code = AuthErrCodeUnknown)
          then StatusInternalServerError else StatusForbidden) end) as Hwith.
  { intros [|key keys]; cbn; [by eauto 10|]. destruct (TokenClaims token key); cbn; eauto 10. }
  cbn [length]. rewrite (bool_decide_false (1 ≠ 1)%nat); [by intros []|].
  destruct (getKey_reachable W url ttl env r kid) as [[e ->]|(ks&env'&->&?&?&?)]; [done..| |apply Hwith].
  destruct (refreshCache_spec env r) as [(ks&?&->)|(_&?&->)]; [apply Hwith|].
  cbn. eauto 10.
Qed.

(** A key id that an unexpired cache does not know is rejected as untrusted
    without asking the issuer: a rotated key is accepted only after the cache
    expires or the background loop runs. *)
Theorem Verify_unknown_key_not_fetched env r token kid ks :
  HeaderKeyIDs token = [kid] → jk_cache (rj_cache r) = Some ks → KeySet_Key ks kid = [] →
  (time_Since (re_now env) (jk_setTime (rj_cache r)) ≤ jk_ttl (rj_cache r))%Z →
  ∃ cause, RemoteJWKSIssuer_Verify env r token =
    (r, Err (ErrAuth AuthErrCodeUntrustedSource cause)).
Proof.
  intros Hk Hc Hks Hfresh. unfold RemoteJWKSIssuer_Verify, jwksCache_getKey.
  rewrite Hk bool_decide_false; [lia|]. rewrite Hc. cbn. rewrite Hks. cbn. eauto.
Qed.
End remote_properties.

(** ** Construction from configuration *)

Section config_properties.
Context `{Jose} (url_Parse : string → option error) (env : string → RemoteEnv).

Lemma add_verifiers_Ok issuers vs vs' :
  add_verifiers url_Parse env issuers vs = Ok vs' ↔
  Forall (λ ic, ic_Name ic ≠ "") issuers ∧
  NoDup (ic_Name <$> issuers) ∧
  Forall (λ ic, vs !! ic_Name ic = None) issuers ∧
  Forall (λ ic, ∃ v, VerifierFromIssuerConfig url_Parse (env (ic_Name ic)) ic = Ok v ∧
                     vs' !! ic_Name ic = Some v) issuers ∧
  (∀ n, n ∉ ic_Name <$> issuers → vs' !! n = vs !! n).
Proof.
  revert vs. induction issuers as [|ic issuers IH]; intros vs.
  { cbn. split.
    - intros [= ->]. split_and!; by constructor.
    - intros (_&_&_&_&Hn). f_equal. apply map_eq. intros n. symmetry. apply Hn. set_solver. }
  cbn [add_verifiers]. rewrite !list.Forall_cons fmap_cons list.NoDup_cons. case_bool_decide as Hname.
  { split; [done|]. naive_solver. }
  case_bool_decide as Hfresh.
  { split; [done|]. intros (?&?&[Hnone ?]&?). rewrite Hnone in Hfresh. by destruct Hfresh. }
  apply eq_None_not_Some in Hfresh.
  destruct (VerifierFromIssuerConfig _ _ ic) as [v|e|p] eqn:Hv; cycle 1.
  { split; [done|]. intros (_&_&_&[(?&?&?) _]&_). done. }
  { split; [done|]. intros (_&_&_&[(?&?&?) _]&_). done. }
  rewrite IH. clear IH. split.
  - intros (Hne&Hnd&Hnone&Hall&Hother).
    assert (ic_Name ic ∉ ic_Name <$> issuers) as Hni.
    { intros (ic'&Heq&Hin)%list_elem_of_fmap. rewrite list.Forall_forall in Hnone.
      specialize (Hnone _ Hin). rewrite -Heq lookup_insert_eq in Hnone. done. }
    split_and!; try done.
    + rewrite !list.Forall_forall in Hnone |- *. intros ic' Hin. specialize (Hnone _ Hin).
      by apply lookup_insert_None in Hnone as [??].
    + exists v. split; [done|]. by rewrite Hother // lookup_insert_eq.
    + intros n Hn. rewrite Hother; [set_solver|]. rewrite lookup_insert_ne //. set_solver.
  - intros ((_&Hne)&[Hni Hnd]&[_ Hnone]&[(v'&[= <-]&Hv') Hall]&Hother).
    split_and!; try done.
    + rewrite !list.Forall_forall in Hnone |- *. intros ic' Hin. apply lookup_insert_None.
      split; [by apply Hnone|]. intros Heq. apply Hni. rewrite Heq. by apply list_elem_of_fmap_2.
    + intros n Hn. destruct (decide (n = ic_Name ic)) as [->|].
      * by rewrite lookup_insert_eq.
      * rewrite lookup_insert_ne //. apply Hother. set_solver.
Qed.

(** [AuthFromConfig] builds an authenticator exactly when every issuer has a
    name, no two share one, and each verifier can be built; the authenticator
    then has one verifier per configured issuer, under its name, and no other. *)
Theorem AuthFromConfig_spec c (a : StdAuthenticator RemoteJWKSIssuer) :
  AuthFromConfig url_Parse env c = Ok a ↔
  ∃ issuers, c = Some (mkJwtConfig issuers) ∧
    Forall (λ ic, ic_Name ic ≠ "") issuers ∧
    NoDup (ic_Name <$> issuers) ∧
    Forall (λ ic, ∃ v, VerifierFromIssuerConfig url_Parse (env (ic_Name ic)) ic = Ok v ∧
                       Verifiers a !! ic_Name ic = Some v) issuers ∧
    (∀ n, n ∉ ic_Name <$> issuers → Verifiers a !! n = None).
Proof.
  unfold AuthFromConfig. split.
  - destruct c as [[issuers]|]; [|done].
    intros (vs&(?&?&?&?&Hn)%add_verifiers_Ok&[= <-])%res_bind_Ok.
    exists issuers. split_and!; done.
  - intros (issuers&->&?&?&?&Hn). apply res_bind_Ok. exists (Verifiers a). split; [|by destruct a].
    apply add_verifiers_Ok. split_and!; try done.
    apply list.Forall_forall. intros. apply lookup_empty.
Qed.

(** A verifier can be built for a URL that parses and a time to live that is not
    zero; its first fetch may fail. *)
Lemma VerifierFromIssuerConfig_Ok e ic v :
  VerifierFromIssuerConfig url_Parse e ic = Ok v ↔
  ic_JWKSURL ic ≠ "" ∧ url_Parse (ic_JWKSURL ic) = None ∧ ic_CacheTTL ic ≠ 0%Z ∧
  v = (refreshCache e (mkRemoteJWKSIssuer (ic_JWKSURL ic) (mkJwksCache None (ic_CacheTTL ic) 0))).1.
Proof.
  unfold VerifierFromIssuerConfig, NewRemoteJWKSIssuer.
  case_bool_decide; [|naive_solver].
  destruct (url_Parse _); [naive_solver|]. case_bool_decide; naive_solver.
Qed.
End config_properties.

(** ** A concrete JOSE library, for examples

    A token is its key id, its issuer and its signer; a key verifies the tokens
    its owner signed. *)
Module Example.
Definition token := (list string * string * string)%type.
#[export] Instance jose : Jose := {|
  Token := token; StdClaims := string; JWK := (string * string);
  KeySet := list (string * string);
  ParseSigned raw :=
    if bool_decide (raw = "alice-token") then inr (["k1"], "idp", "idp-secret")
    else if bool_decide (raw = "forged-token") then inr (["k1"], "idp", "mallory-secret")
    else if bool_decide (raw = "rotated-token") then inr (["k2"], "idp", "idp-secret")
    else inl (ErrText "square/go-jose: compact JWS format must have three parts");
  UnsafeClaimsWithoutVerification t := inr t.1.2;
  UnsafeMapClaims t := inr example_claims;
  ValidateWithLeeway c now leeway := None;
  Issuer c := c;
  HeaderKeyIDs t := t.1.1;
  TokenClaims t k :=
    if bool_decide (t.2 = k.2) then inr example_claims
    else inl (ErrText "square/go-jose: error in cryptographic primitive");
  KeySet_Key ks kid := filter (λ k, k.1 = kid) ks;
  UnmarshalKeySet body :=
    if bool_decide (body = "{keys}") then inr [("k1", "idp-secret")] else inl (ErrText "invalid json")
|}.

(** The issuer answers; a day later it is down. *)
Definition day1 : RemoteEnv :=
  mkRemoteEnv 63000000000000000000 (λ url, FetchResponse 200 (inr "{keys}")) 63000000000000000001.
Definition day2 : RemoteEnv :=
  mkRemoteEnv 63000086400000000000 (λ url, FetchError (ErrText "connection refused")) 63000086400000000000.
Definition W (env : RemoteEnv) : Prop := env = day1 ∨ env = day2.

Definition issuer : IssuerConfig := mkIssuerConfig "idp" "https://idp/jwks" Hour 0.
Definition parse_any (url : string) : option error := None.
Definition cache1 : RemoteJWKSIssuer :=
  mkRemoteJWKSIssuer "https://idp/jwks" (mkJwksCache (Some [("k1", "idp-secret")]) Hour 63000000000000000001).

Lemma cache1_reachable : reachable W "https://idp/jwks" Hour cache1.
Proof. apply (reach_new W _ _ parse_any day1 "idp" 0); [by left|]. by_vm. Defined.

Definition verifiers : StdAuthenticator RemoteJWKSIssuer := mkStdAuthenticator {["idp" := cache1]}.
End Example.
#[local] Existing Instance Example.jose.

Lemma StdAuthenticator_accepts_witness :
  let '(a', r) := StdAuthenticator_Authenticate re_now Example.day1 Example.verifiers "alice-token" in
  r = Ok example_claims ∧
  ∃ token sc v v', ParseSigned "alice-token" = inr token ∧
    UnsafeClaimsWithoutVerification token = inr sc ∧
    ValidateWithLeeway sc (re_now Example.day1) Second = None ∧
    Verifiers Example.verifiers !! Issuer sc = Some v ∧
    Verify Example.day1 v token = (v', Ok example_claims) ∧
    a' = mkStdAuthenticator (<[Issuer sc := v']> (Verifiers Example.verifiers)).
Proof.
  destruct (StdAuthenticator_Authenticate _ _ _ _) as [a' r] eqn:E.
  assert (r = Ok example_claims) as ->.
  { change r with (a', r).2. rewrite -E. vm_cast_no_check (@eq_refl (res Claims) (Ok example_claims)). }
  split; [reflexivity|]. apply (proj1 (StdAuthenticator_accepts _ _ _ _ _ _) E).
Defined.

Lemma RemoteJWKSIssuer_Verify_sound_witness :
  RemoteJWKSIssuer_Verify Example.day1 Example.cache1 (["k1"], "idp", "idp-secret") =
    (Example.cache1, Ok example_claims) ∧
  ∃ kid ks key env', HeaderKeyIDs (["k1"], "idp", "idp-secret") = [kid] ∧ Example.W env' ∧
    serves env' "https://idp/jwks" ks ∧
    (env' = Example.day1 ∨ (time_Since (re_now Example.day1) (re_put_time env') ≤ Hour)%Z) ∧
    head (KeySet_Key ks kid) = Some key ∧
    TokenClaims (["k1"], "idp", "idp-secret") key = inr example_claims.
Proof.
  split; [by_vm|].
  apply (RemoteJWKSIssuer_Verify_sound Example.W _ Hour Example.day1 Example.cache1 Example.cache1).
  - exact Example.cache1_reachable.
  - by left.
  - by_vm.
  - vm_compute. discriminate.
  - by_vm.
Defined.

Lemma RemoteJWKSIssuer_Verify_errors_witness :
  (RemoteJWKSIssuer_Verify Example.day2 Example.cache1 (["k1"], "idp", "idp-secret")).2 =
    Err (ErrAuth AuthErrCodeUnknown (ErrWrap "Unable to refresh jwks" (ErrText "connection refused"))) ∧
  match (RemoteJWKSIssuer_Verify Example.day2 Example.cache1 (["k1"], "idp", "idp-secret")).2 with
  | Panic _ => False
  | Err e => ∃ code cause, e = ErrAuth code cause ∧ AuthError_HTTPStatus code =
      (if bool_decide (length (HeaderKeyIDs (["k1"], "idp", "idp-secret")) ≠ 1) then StatusUnauthorized
       else if bool_decide (code = AuthErrCodeUnknown) then StatusInternalServerError
       else StatusForbidden)
  | Ok _ => True
  end.
Proof.
  split; [by_vm|].
  apply (RemoteJWKSIssuer_Verify_errors Example.W "https://idp/jwks" Hour).
  - exact Example.cache1_reachable.
  - by_vm.
  - vm_compute. discriminate.
Defined.

Lemma Verify_unknown_key_not_fetched_witness :
  ∃ cause, RemoteJWKSIssuer_Verify Example.day1 Example.cache1 (["k2"], "idp", "idp-secret") =
    (Example.cache1, Err (ErrAuth AuthErrCodeUntrustedSource cause)).
Proof.
  apply (Verify_unknown_key_not_fetched Example.day1 Example.cache1 _ "k2" [("k1", "idp-secret")]);
    vm_compute; first [reflexivity | discriminate].
Defined.

Lemma AuthFromConfig_spec_witness :
  AuthFromConfig Example.parse_any (λ _, Example.day1) (Some (mkJwtConfig [Example.issuer])) =
    Ok Example.verifiers ∧
  NoDup (ic_Name <$> [Example.issuer]).
Proof.
  assert (AuthFromConfig Example.parse_any (λ _, Example.day1) (Some (mkJwtConfig [Example.issuer])) =
    Ok Example.verifiers) as E by (vm_cast_no_check (@eq_refl (res (StdAuthenticator RemoteJWKSIssuer)) (Ok Example.verifiers))).
  split; [exact E|].
  apply AuthFromConfig_spec in E. destruct E as (issuers&[= <-]&_&H&_). exact H.
Defined.
