(* ===== verification/KeyCache.v ===== *)
(** * The key cache under concurrency: src/jwtauth/remote.go

    Requests verify tokens concurrently with each other and with the goroutine that
    refreshes the cache. The steps of these goroutines are interleaved here: the
    read-write lock of the cache, the two assignments of [Put], the download of
    keys between them, and the clock. The sequential [RemoteJWKSIssuer_Verify] is
    the specification: each verification gives what it gives on a cache that was
    there, whole, while the verification ran. *)

From S2P Require Export JwtAuth.

Section key_cache.
Context `{Jose}.

(** ** States *)

(** What a refresh is for: a verification, with the cache that it found expired and
    when, or the polling goroutine. *)
Inductive purpose :=
| ForVerify (token : Token) (kid : string) (c : jwksCache) (now : Z)
| ForPoll.

(** Where a goroutine is. *)
Inductive pc :=
| PStart (token : Token)               (* about to call getKey *)
| PReading (token : Token) (kid : string)  (* in getKey, with the read lock *)
| PFetching (p : purpose)               (* in refreshCache, before the answer *)
| PLocking (p : purpose) (f : FetchResult) (ks : KeySet) (* in Put, before the lock *)
| PWriteCache (p : purpose) (f : FetchResult) (ks : KeySet)
| PWriteTime (p : purpose) (f : FetchResult) (ks : KeySet)
| PUnlock (p : purpose) (f : FetchResult) (ks : KeySet)
| PSleep                                (* the polling goroutine, in time.Sleep *)
| PDone (token : Token) (r : res Claims).

(** The cache and its [sync.RWMutex]: how many read it and whether one writes. *)
Record kc_state := mk_kc_state {
  kc_cache : jwksCache;
  kc_readers : nat;
  kc_writer : bool;
  kc_threads : list pc;
  kc_now : Z
}.

(** What a download comes to, before the cache is changed. *)
Definition fetch_result (url : string) (f : FetchResult) : res KeySet :=
  (refreshCache (mkRemoteEnv 0 (λ _, f) 0) (mkRemoteJWKSIssuer url (mkJwksCache None 0 0))).2.

(** How the caller of [refreshCache] goes on. *)
Definition finish (p : purpose) (out : res KeySet) : pc :=
  match p with
  | ForPoll => PSleep
  | ForVerify token kid _ _ =>
      PDone token match out with
                  | Ok jwks => verify_with (KeySet_Key jwks kid) token
                  | Err err => Err (ErrAuth AuthErrCodeUnknown (ErrWrap "Unable to refresh jwks" err))
                  | Panic p => Panic p
                  end
  end.

(** [getKey] under the read lock, and what [Verify] does with it. *)
Definition after_read (c : jwksCache) (now : Z) (token : Token) (kid : string) : pc :=
  match jwksCache_getKey c now kid with
  | Ok keys => PDone token (verify_with keys token)
  | Err _ => PFetching (ForVerify token kid c now)
  | Panic p => PDone token (Panic p)
  end.

(** ** Steps *)

(** [World f]: the issuer, or the network, may answer [f]. *)
Context (url : string) (World : FetchResult → Prop).

(** One step of a goroutine, from the shared state it sees to the one it leaves. *)
Inductive thread_step : (jwksCache * nat * bool * Z) → pc → (jwksCache * nat * bool) → pc → Prop :=
| S_headers c n w now token : (∀ kid, HeaderKeyIDs token ≠ [kid]) →
    thread_step (c, n, w, now) (PStart token) (c, n, w)
      (PDone token (Err (ErrAuth AuthErrCodeInvalidJWT (ErrText "Token must have one header"))))
| S_rlock c n now token kid : HeaderKeyIDs token = [kid] →
    thread_step (c, n, false, now) (PStart token) (c, S n, false) (PReading token kid)
| S_read c n w now token kid :
    thread_step (c, S n, w, now) (PReading token kid) (c, n, w) (after_read c now token kid)
| S_failed c n w now p f : World f → is_ok (fetch_result url f) = false →
    thread_step (c, n, w, now) (PFetching p) (c, n, w) (finish p (fetch_result url f))
| S_fetched c n w now p f ks : World f → fetch_result url f = Ok ks →
    thread_step (c, n, w, now) (PFetching p) (c, n, w) (PLocking p f ks)
| S_lock c now p f ks :
    thread_step (c, 0%nat, false, now) (PLocking p f ks) (c, 0%nat, true) (PWriteCache p f ks)
| S_write_cache c n now p f ks :
    thread_step (c, n, true, now) (PWriteCache p f ks) (mkJwksCache (Some ks) (jk_ttl c) (jk_setTime c), n, true) (PWriteTime p f ks)
| S_write_time c n now p f ks :
    thread_step (c, n, true, now) (PWriteTime p f ks) (mkJwksCache (jk_cache c) (jk_ttl c) now, n, true) (PUnlock p f ks)
| S_unlock c n now p f ks :
    thread_step (c, n, true, now) (PUnlock p f ks) (c, n, false) (finish p (Ok ks))
| S_wake c n w now :
    thread_step (c, n, w, now) PSleep (c, n, w) (PFetching ForPoll).

Inductive kc_step : kc_state → kc_state → Prop :=
| K_thread c n w ts now i p c' n' w' p' :
    ts !! i = Some p → thread_step (c, n, w, now) p (c', n', w') p' →
    kc_step (mk_kc_state c n w ts now) (mk_kc_state c' n' w' (<[i := p']> ts) now)
| K_tick c n w ts now now' : (now ≤ now')%Z →
    kc_step (mk_kc_state c n w ts now) (mk_kc_state c n w ts now')
| K_request c n w ts now token : (* a request comes in *)
    kc_step (mk_kc_state c n w ts now) (mk_kc_state c n w (ts ++ [PStart token]) now).

(** From the cache that [NewRemoteJWKSIssuer] leaves, with or without the polling
    goroutine. *)
Definition kc_initial (c0 : jwksCache) (s : kc_state) : Prop :=
  kc_cache s = c0 ∧ kc_readers s = 0%nat ∧ kc_writer s = false ∧ (kc_threads s = [] ∨ kc_threads s = [PSleep]).
Definition kc_reachable (c0 : jwksCache) (s : kc_state) : Prop := ∃ s0, kc_initial c0 s0 ∧ rtc kc_step s0 s.

(** ** The invariant *)

Definition is_reading (p : pc) : bool := match p with PReading _ _ => true | _ => false end.
Definition is_writing (p : pc) : bool :=
  match p with PWriteCache _ _ _ | PWriteTime _ _ _ | PUnlock _ _ _ => true | _ => false end.
Definition is_torn (p : pc) : bool := match p with PWriteTime _ _ _ => true | _ => false end.

Fixpoint count (f : pc → bool) (ts : list pc) : nat :=
  match ts with [] => 0 | p :: ts => Nat.b2n (f p) + count f ts end.

(** A cache as one [Put], of keys that were served, leaves it; or the first one. *)
Definition whole (c0 c : jwksCache) : Prop :=
  c = c0 ∨ ∃ f ks t, World f ∧ fetch_result url f = Ok ks ∧ c = jwksCache_Put c0 ks t.

(** The caches, and the times, at which a goroutine may have read for a verification. *)
Definition reads := Token → string → jwksCache → Z → Prop.

(** The sequential verification gives this result, on a cache that was read. *)
Definition explained (R : reads) (token : Token) (r : res Claims) : Prop :=
  ∃ c env, (∀ kid, HeaderKeyIDs token = [kid] → R token kid c (re_now env)) ∧ World (re_fetch env url) ∧
    (RemoteJWKSIssuer_Verify env (mkRemoteJWKSIssuer url c) token).2 = r.

(** What goroutine [i] has read in a run from [s0] to [s]: what [s'] holds, a state of
    the run in which [i] has the read lock. *)
Definition read_in (c0 : jwksCache) (s0 s : kc_state) (i : nat) : reads := λ token kid c now,
  ∃ s', rtc kc_step s0 s' ∧ rtc kc_step s' s ∧ kc_threads s' !! i = Some (PReading token kid) ∧
    kc_cache s' = c ∧ kc_now s' = now ∧ whole c0 c.

Definition purpose_ok (R : reads) (p : purpose) : Prop :=
  match p with
  | ForPoll => True
  | ForVerify token kid c now =>
      HeaderKeyIDs token = [kid] ∧ R token kid c now ∧ ∃ e, jwksCache_getKey c now kid = Err e
  end.

Definition pc_ok (R : reads) (p : pc) : Prop :=
  match p with
  | PStart _ | PSleep => True
  | PReading token kid => HeaderKeyIDs token = [kid]
  | PFetching q => purpose_ok R q
  | PLocking q f ks | PWriteCache q f ks | PWriteTime q f ks | PUnlock q f ks =>
      purpose_ok R q ∧ World f ∧ fetch_result url f = Ok ks
  | PDone token r => explained R token r
  end.

Record kc_inv (c0 : jwksCache) (R : nat → reads) (s : kc_state) : Prop := {
  inv_readers : kc_readers s = count is_reading (kc_threads s);
  inv_writer : Nat.b2n (kc_writer s) = count is_writing (kc_threads s);
  inv_exclusive : kc_writer s = true → kc_readers s = 0%nat;
  inv_ttl : jk_ttl (kc_cache s) = jk_ttl c0;
  inv_whole : count is_torn (kc_threads s) = 0%nat → whole c0 (kc_cache s);
  inv_torn : ∀ q f ks, PWriteTime q f ks ∈ kc_threads s → jk_cache (kc_cache s) = Some ks;
  inv_threads : ∀ i p, kc_threads s !! i = Some p → pc_ok (R i) p
}.

(** ** Lemmas *)

Lemma count_insert f ts i p p' :
  ts !! i = Some p → (count f (<[i := p']> ts) + Nat.b2n (f p) = count f ts + Nat.b2n (f p'))%nat.
Proof.
  revert i. induction ts as [|q ts IH]; intros [|i] Hi; simplify_eq/=; [lia|]. specialize (IH _ Hi). lia.
Qed.

Lemma count_app f ts ts' : count f (ts ++ ts') = (count f ts + count f ts')%nat.
Proof. induction ts as [|p ts IH]; cbn; [done|]. rewrite IH. lia. Qed.

Lemma count_lookup f ts i p : ts !! i = Some p → f p = true → (0 < count f ts)%nat.
Proof. revert i. induction ts as [|q ts IH]; intros [|i] Hi Hf; simplify_eq/=; [by rewrite Hf; cbn; lia|]. specialize (IH _ Hi Hf). lia. Qed.

Lemma torn_writing ts : (count is_torn ts ≤ count is_writing ts)%nat.
Proof. induction ts as [|[] ts IH]; cbn; lia. Qed.

Lemma count_two f ts i j p q :
  i ≠ j → ts !! i = Some p → ts !! j = Some q → f p = true → f q = true → (2 ≤ count f ts)%nat.
Proof.
  revert i j. induction ts as [|r ts IH]; intros [|i] [|j] Hij Hi Hj Hp Hq; simplify_eq/=.
  - pose proof (count_lookup f ts j q Hj Hq). rewrite Hp. cbn. lia.
  - pose proof (count_lookup f ts i p Hi Hp). rewrite Hq. cbn. lia.
  - assert (i ≠ j) as Hne by congruence. specialize (IH i j Hne Hi Hj Hp Hq). lia.
Qed.

(** The answer of a download does not depend on the cache nor on the clock. *)
Lemma refresh_result env r :
  (refreshCache env r).2 = fetch_result (rj_url r) (re_fetch env (rj_url r)).
Proof.
  unfold fetch_result, refreshCache. cbn. destruct (re_fetch env (rj_url r)) as [|status body]; [done|].
  case_bool_decide; [done|]. destruct body as [|b]; [done|]. by destruct (UnmarshalKeySet b).
Qed.

Lemma Verify_result env c token :
  (RemoteJWKSIssuer_Verify env (mkRemoteJWKSIssuer url c) token).2 =
  match HeaderKeyIDs token with
  | [kid] =>
    match jwksCache_getKey c (re_now env) kid with
    | Panic p => Panic p
    | Ok keys => verify_with keys token
    | Err _ =>
      match fetch_result url (re_fetch env url) with
      | Panic p => Panic p
      | Err err => Err (ErrAuth AuthErrCodeUnknown (ErrWrap "Unable to refresh jwks" err))
      | Ok jwks => verify_with (KeySet_Key jwks kid) token
      end
    end
  | _ => Err (ErrAuth AuthErrCodeInvalidJWT (ErrText "Token must have one header"))
  end.
Proof.
  unfold RemoteJWKSIssuer_Verify. destruct (HeaderKeyIDs token) as [|kid [|]]; [done| |done]. cbn [rj_cache].
  destruct (jwksCache_getKey c (re_now env) kid); [done| |done].
  pose proof (refresh_result env (mkRemoteJWKSIssuer url c)) as E. cbn [rj_url] in E. rewrite -E.
  by destruct (refreshCache env (mkRemoteJWKSIssuer url c)) as [r' [| |]].
Qed.

Lemma purpose_ok_mono (R R' : reads) p :
  (∀ token kid c now, R token kid c now → R' token kid c now) → purpose_ok R p → purpose_ok R' p.
Proof. destruct p; cbn; naive_solver. Qed.

Lemma pc_ok_mono (R R' : reads) p :
  (∀ token kid c now, R token kid c now → R' token kid c now) → pc_ok R p → pc_ok R' p.
Proof.
  intros HR. pose proof (purpose_ok_mono R R'). destruct p; cbn; try naive_solver.
  intros (c&env&Hc&?&?). exists c, env. naive_solver.
Qed.

Section invariant.
Context (c0 : jwksCache) (f0 : FetchResult).
Hypothesis World_f0 : World f0.

(** The end of a refresh explains the verification that waited for it. *)
Lemma finish_ok R p f :
  purpose_ok R p → World f → pc_ok R (finish p (fetch_result url f)).
Proof.
  destruct p as [token kid c now|]; [|done]. intros (Hk&Hc&e&He) Hf. cbn.
  exists c, (mkRemoteEnv now (λ _, f) 0). split_and!; [|done|].
  { intros kid' Hk'. rewrite Hk in Hk'. by injection Hk' as <-. }
  rewrite Verify_result Hk. cbn [re_now re_fetch]. rewrite He. by destruct (fetch_result url f).
Qed.

Lemma after_read_ok (R : reads) c now token kid :
  R token kid c now → HeaderKeyIDs token = [kid] → pc_ok R (after_read c now token kid).
Proof using World_f0.
  intros Hc Hk. unfold after_read. destruct (jwksCache_getKey c now kid) as [keys|e|p] eqn:E.
  2: { cbn. split_and!; [done..|by exists e]. }
  all: exists c, (mkRemoteEnv now (λ _, f0) 0); split_and!;
    [intros kid' Hk'; rewrite Hk in Hk'; by injection Hk' as <-|done|rewrite Verify_result Hk; cbn [re_now re_fetch]; by rewrite E].
Qed.

(** What a step does to the counts. *)
Lemma finish_counts p out : is_reading (finish p out) = false ∧ is_writing (finish p out) = false ∧ is_torn (finish p out) = false.
Proof. by destruct p. Qed.
Lemma after_read_counts c now token kid :
  is_reading (after_read c now token kid) = false ∧ is_writing (after_read c now token kid) = false ∧ is_torn (after_read c now token kid) = false.
Proof. unfold after_read. by destruct (jwksCache_getKey c now kid). Qed.

(** A goroutine that is torn after a step. *)
Lemma torn_after (ts : list pc) (i : nat) p' q f ks :
  PWriteTime q f ks ∈ <[i := p']> ts → PWriteTime q f ks = p' ∨ ∃ j, j ≠ i ∧ ts !! j = Some (PWriteTime q f ks).
Proof.
  intros [j Hj]%list_elem_of_lookup. apply list_lookup_insert_Some in Hj as [(->&->&_)|[Hne Hj]]; [by left|].
  right. exists j. by split.
Qed.

(** A reader and a writer exclude each other: what is read is whole. *)
Lemma reader_sees_whole R s token kid :
  kc_inv c0 R s → PReading token kid ∈ kc_threads s → whole c0 (kc_cache s).
Proof.
  intros Hinv [i Hi]%list_elem_of_lookup. pose proof (count_lookup is_reading _ i _ Hi eq_refl) as Hc.
  pose proof (inv_readers _ _ _ Hinv) as Hr. pose proof (inv_writer _ _ _ Hinv) as Hw.
  apply (inv_whole _ _ _ Hinv). pose proof (torn_writing (kc_threads s)).
  destruct (kc_writer s) eqn:E; [pose proof (inv_exclusive _ _ _ Hinv E)|cbn in Hw]; lia.
Qed.

(** What has been read stays read; a goroutine with the read lock reads what there is. *)
Definition extends (R R' : nat → reads) (s : kc_state) (i : nat) : Prop :=
  (∀ j token kid c now, R j token kid c now → R' j token kid c now) ∧
  (∀ token kid, kc_threads s !! i = Some (PReading token kid) → whole c0 (kc_cache s) →
    R' i token kid (kc_cache s) (kc_now s)).

Lemma step_pc_ok R R' s i p c' n' w' p' :
  kc_inv c0 R s → extends R R' s i → kc_threads s !! i = Some p →
  thread_step (kc_cache s, kc_readers s, kc_writer s, kc_now s) p (c', n', w') p' → pc_ok (R' i) p'.
Proof using World_f0.
  intros Hinv [HR Hread] Hi Ht. assert (pc_ok (R' i) p) as Hp.
  { eapply pc_ok_mono; [apply HR|]. by apply (inv_threads _ _ _ Hinv). }
  inversion Ht; subst; cbn in *; try done; try tauto.
  - exists c0, (mkRemoteEnv 0 (λ _, f0) 0). split_and!; [naive_solver|done|].
    rewrite Verify_result. destruct (HeaderKeyIDs token) as [|kid [|]]; naive_solver.
  - apply after_read_ok; [|done]. apply Hread; [done|]. eapply reader_sees_whole; [done|]. by eapply list_elem_of_lookup_2.
  - by apply finish_ok.
  - destruct Hp as (?&?&<-). by apply finish_ok.
Qed.

Lemma thread_step_inv R R' c n w ts now i p c' n' w' p' :
  let s := mk_kc_state c n w ts now in
  kc_inv c0 R s → extends R R' s i → ts !! i = Some p → thread_step (c, n, w, now) p (c', n', w') p' →
  kc_inv c0 R' (mk_kc_state c' n' w' (<[i := p']> ts) now).
Proof using World_f0.
  intros s Hinv HR Hi Ht. pose proof (step_pc_ok R R' s i p c' n' w' p' Hinv HR Hi Ht) as Hp'.
  destruct Hinv as [Hr Hw Hx Httl Hwhole Htorn Hok]. subst s. cbn in *.
  pose proof (count_insert is_reading ts i p p' Hi) as Cr. pose proof (count_insert is_writing ts i p p' Hi) as Cw.
  pose proof (count_insert is_torn ts i p p' Hi) as Ct. pose proof (torn_writing ts) as Tw.
  assert (pc_ok (R i) p) as Hp by by apply Hok.
  assert (∀ j q, <[i := p']> ts !! j = Some q → pc_ok (R' j) q) as Hok'.
  { intros j q [(->&->&_)|[_ Hj]]%list_lookup_insert_Some; [done|]. eapply pc_ok_mono; [apply HR|]. by apply Hok. }
  assert (∀ q f ks, PWriteTime q f ks ∈ <[i := p']> ts → is_writing p = true → PWriteTime q f ks = p') as Huniq.
  { intros q f ks [Heq|(j&Hj&Hl)]%torn_after Hwp; [done|].
    pose proof (count_two is_writing ts i j p _ (not_eq_sym Hj) Hi Hl Hwp eq_refl). destruct w; cbn in Hw; lia. }
  assert (∀ q f ks, PWriteTime q f ks ∈ <[i := p']> ts → is_torn p' = false → PWriteTime q f ks ∈ ts) as Hold.
  { intros q f ks [<-|(j&Hj&Hl)]%torn_after Hne; [done|]. by eapply list_elem_of_lookup_2. }
  inversion Ht; subst; constructor; cbn in *; try exact Hok';
    rewrite ?(proj1 (finish_counts _ _)) ?(proj1 (proj2 (finish_counts _ _))) ?(proj2 (proj2 (finish_counts _ _)))
      ?(proj1 (after_read_counts _ _ _ _)) ?(proj1 (proj2 (after_read_counts _ _ _ _))) ?(proj2 (proj2 (after_read_counts _ _ _ _))) in Cr, Cw, Ct; cbn in *;
    try lia; try done;
    try (intros Hz; apply Hwhole; lia);
    try (intros q' f' ks' Hq; apply (Htorn q' f' ks'), Hold; [done|]; first [done|apply finish_counts|apply after_read_counts]).
  - intros Hw'. specialize (Hx Hw'). lia.
  - intros q' f' ks' Hq. specialize (Huniq _ _ _ Hq eq_refl). by injection Huniq as -> -> ->.
  - intros _. right. destruct Hp as (_&Hf&Hks). exists f, ks, now. split_and!; [done..|].
    assert (jk_cache c = Some ks) as -> by (apply (Htorn p0 f ks); by eapply list_elem_of_lookup_2).
    unfold jwksCache_Put. by rewrite Httl.
Qed.

Lemma read_in_extends s0 s s' i : rtc kc_step s0 s → kc_step s s' → extends (read_in c0 s0 s) (read_in c0 s0 s') s i.
Proof.
  intros Hrun Hstep. split.
  - intros j token kid c now (s1&?&?&Hs1). exists s1. split; [done|]. split; [by eapply rtc_r|exact Hs1].
  - intros token kid Hi Hw. exists s. split_and!; [done|by apply rtc_once|done..].
Qed.

Lemma kc_run_inv s0 s : kc_initial c0 s0 → rtc kc_step s0 s → kc_inv c0 (read_in c0 s0 s) s.
Proof using World_f0.
  intros (Hc&Hr&Hw&Ht) Hsteps. pattern s. revert s Hsteps. apply rtc_ind_r.
  { destruct s0 as [c n w ts now]. cbn in *. subst.
    destruct Ht as [-> | ->]; constructor; cbn; try done; try (by left); try set_solver.
    by intros [|[|i]] p [=<-]. }
  intros s s' Hrun Hstep IH. pose proof (λ i, read_in_extends s0 s s' i Hrun Hstep) as HR.
  destruct Hstep as [c n w ts now i p c' n' w' p' Hi Htr|c n w ts now now' _|c n w ts now token].
  - by eapply thread_step_inv.
  - destruct IH as [Ir Iw Ix It Iwh Ito Iok]. constructor; try done.
    intros i p Hi. eapply pc_ok_mono; [apply (HR i)|]. by apply Iok.
  - destruct IH as [Ir Iw Ix It Iwh Ito Iok]. cbn in *. constructor; cbn; rewrite ?count_app /=; try lia; try done.
    + intros Hz. apply Iwh. lia.
    + intros q f ks [?|Hq%list_elem_of_singleton]%elem_of_app; [by eapply Ito|done].
    + intros i p [Hi|[_ Hi]]%lookup_app_Some; [eapply pc_ok_mono; [apply (HR i)|by apply Iok]|].
      by apply list_lookup_singleton_Some in Hi as [_ <-].
Qed.
End invariant.

(** ** What the concurrent cache guarantees *)

Lemma count_pos f ts : (0 < count f ts)%nat → ∃ i p, ts !! i = Some p ∧ f p = true.
Proof.
  induction ts as [|p ts IH]; cbn; [lia|]. destruct (f p) eqn:E; [by exists 0%nat, p|].
  intros (i&q&?&?)%IH. by exists (S i), q.
Qed.

Definition is_locking (p : pc) : bool := match p with PLocking _ _ _ => true | _ => false end.

(** Some goroutine can take a step; a new reader only when no writer waits, since
    [RWMutex] makes readers wait behind a blocked [Lock]. *)
Definition can_step (s : kc_state) : Prop := ∃ j q c' n' w' q', kc_threads s !! j = Some q ∧
  thread_step (kc_cache s, kc_readers s, kc_writer s, kc_now s) q (c', n', w') q' ∧
  (is_reading q' = true → count is_locking (kc_threads s) = 0%nat).

(** A goroutine that holds the lock, either way, goes on. *)
Lemma holder_steps c0 R s i p :
  kc_inv c0 R s → kc_threads s !! i = Some p → is_reading p || is_writing p = true → can_step s.
Proof.
  intros Hinv Hi Hp. pose proof (inv_readers _ _ _ Hinv) as Hr. pose proof (inv_writer _ _ _ Hinv) as Hw.
  assert (is_writing p = true → kc_writer s = true) as Hwr.
  { intros Hp'. pose proof (count_lookup is_writing _ i _ Hi Hp'). destruct (kc_writer s) eqn:E; [done|cbn in Hw; lia]. }
  destruct p as [|token kid| | |q f ks|q f ks|q f ks| |]; try done; try specialize (Hwr eq_refl).
  - pose proof (count_lookup is_reading _ i _ Hi eq_refl). destruct (kc_readers s) as [|n] eqn:E; [lia|].
    eexists i, _, _, _, _, _. rewrite E. split_and!; [done|constructor|].
    rewrite (proj1 (after_read_counts (kc_cache s) (kc_now s) token kid)). discriminate.
  - eexists i, _, _, _, _, _. rewrite Hwr. split_and!; [done|constructor|discriminate].
  - eexists i, _, _, _, _, _. rewrite Hwr. split_and!; [done|constructor|discriminate].
  - eexists i, _, _, _, _, _. rewrite Hwr. split_and!; [done|constructor|].
    rewrite (proj1 (finish_counts q (Ok ks))). discriminate.
Qed.

Lemma writer_steps c0 R s : kc_inv c0 R s → kc_writer s = true → can_step s.
Proof.
  intros Hinv Hw. pose proof (inv_writer _ _ _ Hinv) as Hc. rewrite Hw in Hc. cbn in Hc.
  destruct (count_pos is_writing (kc_threads s)) as (j&q&Hj&Hq); [lia|].
  eapply holder_steps; [done|done|]. rewrite Hq. apply orb_true_r.
Qed.

(** So does one that waits for the lock, or the holder that it waits for. *)
Lemma locking_steps c0 R s i p :
  kc_inv c0 R s → kc_threads s !! i = Some p → is_locking p = true → can_step s.
Proof.
  intros Hinv Hi Hp. destruct p as [| | |q f ks| | | | |]; try done.
  destruct (kc_writer s) eqn:Hw; [by eapply writer_steps|]. destruct (kc_readers s) eqn:Hr.
  - eexists i, _, _, _, _, _. rewrite Hw Hr. split_and!; [done|constructor|discriminate].
  - destruct (count_pos is_reading (kc_threads s)) as (j&q'&Hj&Hq'); [rewrite -(inv_readers _ _ _ Hinv) Hr; lia|].
    eapply holder_steps; [done|done|]. by rewrite Hq'.
Qed.

(** C10. Verification with the shared cache is linearisable: whatever the
    interleaving of any number of requests with each other and with the polling
    goroutine, each verification that is over gave exactly what the sequential
    [Verify] gives at one state of the run, in which that goroutine held the read
    lock, with the clock and the cache of that state (which one [Put] left whole,
    keys and time together) and some answer of the issuer. *)
Theorem Verify_linearizable c0 f0 s0 s i token r :
  World f0 → kc_initial c0 s0 → rtc kc_step s0 s → kc_threads s !! i = Some (PDone token r) →
  explained (read_in c0 s0 s i) token r.
Proof. intros Hf H0 Hrun Hi. exact (inv_threads _ _ _ (kc_run_inv c0 f0 Hf s0 s H0 Hrun) i _ Hi). Qed.

(** C33. Nothing blocks for good: as long as a verification is not over, or the polling
    goroutine waits for the lock, some goroutine can take a step. *)
Theorem key_cache_no_deadlock c0 f0 s i p :
  World f0 → kc_reachable c0 s → kc_threads s !! i = Some p → (∀ token r, p ≠ PDone token r) → can_step s.
Proof.
  intros Hf (s0&H0&Hrun) Hi Hp. pose proof (kc_run_inv c0 f0 Hf s0 s H0 Hrun) as Hinv.
  destruct p as [token|token kid|q|q f ks|q f ks|q f ks|q f ks| |token r].
  2,5,6,7: by eapply holder_steps.
  - assert ((∃ kid, HeaderKeyIDs token = [kid]) ∨ ¬ ∃ kid, HeaderKeyIDs token = [kid]) as [[kid Hk]|Hk].
    { destruct (HeaderKeyIDs token) as [|kid [|]]; [right|left|right]; naive_solver. }
    2: { eexists i, _, _, _, _, _. split_and!; [done|constructor; naive_solver|discriminate]. }
    destruct (kc_writer s) eqn:Hw; [by eapply writer_steps|].
    destruct (count is_locking (kc_threads s)) eqn:Hl.
    2: { destruct (count_pos is_locking (kc_threads s)) as (j&q&Hj&Hq); [lia|]. by eapply locking_steps. }
    eexists i, _, _, _, _, _. rewrite Hw. split_and!; [done|by apply (S_rlock _ _ _ token kid)|done].
  - destruct (fetch_result url f0) as [ks|e|p] eqn:E.
    2,3: assert (is_ok (fetch_result url f0) = false) as Ef by (by rewrite E);
      eexists i, _, _, _, _, _; split_and!; [done|exact (S_failed _ _ _ _ q f0 Hf Ef)|];
      by rewrite (proj1 (finish_counts q _)).
    eexists i, _, _, _, _, _. split_and!; [done|exact (S_fetched _ _ _ _ q f0 ks Hf E)|discriminate].
  - by eapply locking_steps.
  - eexists i, _, _, _, _, _. split_and!; [done|constructor|discriminate].
  - by edestruct Hp.
Qed.
End key_cache.

(** ** A verification that has to refresh an expired cache *)

Module KeyCacheExample.
#[export] Existing Instance Example.jose.
Definition url : string := "https://idp/jwks".
Definition answer : FetchResult := FetchResponse 200 (inr "{keys}").
Definition World (f : FetchResult) : Prop := f = answer.
Definition token : Token := (["k1"], "idp", "idp-secret").
Definition keys : KeySet := [("k1", "idp-secret")].
Definition expired : jwksCache := mkJwksCache None Hour 0.
Definition now : Z := 63000000000000000000.
Definition start : kc_state := mk_kc_state expired 0 false [PSleep] now.
Definition waiting : purpose := ForVerify token "k1" expired now.
Definition at_pc (c : jwksCache) (n : nat) (w : bool) (p : pc) : kc_state := mk_kc_state c n w [PSleep; p] now.
Definition torn : jwksCache := mkJwksCache (Some keys) Hour 0.
Definition fresh : jwksCache := mkJwksCache (Some keys) Hour now.

Lemma step_to c n w p c' n' w' p' :
  thread_step url World (c, n, w, now) p (c', n', w') p' →
  kc_step url World (at_pc c n w p) (at_pc c' n' w' p').
Proof. intros Ht. apply (K_thread url World c n w [PSleep; p] now 1 p c' n' w' p' eq_refl Ht). Qed.

Lemma read_run : rtc (kc_step url World) start (at_pc expired 0 false (PFetching waiting)).
Proof.
  eapply rtc_l; [apply (K_request _ _ _ _ _ _ _ token)|].
  eapply rtc_l; [apply (step_to _ _ _ _ expired 1 false (PReading token "k1")); by constructor|].
  apply rtc_once, step_to. exact (S_read url World expired 0 false now token "k1").
Qed.

Lemma run : rtc (kc_step url World) start (at_pc fresh 0 false (PDone token (Ok example_claims))).
Proof.
  etrans; [exact read_run|].
  eapply rtc_l; [apply (step_to _ _ _ _ expired 0 false (PLocking waiting answer keys)); by constructor|].
  eapply rtc_l; [apply (step_to _ _ _ _ expired 0 true (PWriteCache waiting answer keys)); by constructor|].
  eapply rtc_l; [apply (step_to _ _ _ _ torn 0 true (PWriteTime waiting answer keys)); by constructor|].
  eapply rtc_l; [apply (step_to _ _ _ _ fresh 0 true (PUnlock waiting answer keys)); by constructor|].
  apply rtc_once, step_to. exact (S_unlock url World fresh 0 now waiting answer keys).
Qed.

Lemma start_initial : kc_initial expired start.
Proof. repeat split; by right. Qed.
End KeyCacheExample.
Import KeyCacheExample.

Lemma Verify_linearizable_witness :
  explained url World (read_in url World expired start (at_pc fresh 0 false (PDone token (Ok example_claims))) 1)
    token (Ok example_claims).
Proof.
  by apply (Verify_linearizable url World expired answer start
    (at_pc fresh 0 false (PDone token (Ok example_claims))) 1 token _ eq_refl start_initial run).
Defined.

Lemma key_cache_no_deadlock_witness :
  can_step url World (at_pc expired 0 false (PFetching waiting)).
Proof.
  apply (key_cache_no_deadlock url World expired answer (at_pc expired 0 false (PFetching waiting)) 1
    (PFetching waiting) eq_refl); [|reflexivity|discriminate].
  exists start. split; [exact start_initial|exact read_run].
Defined.
