(* ===== verification/JwtHttp.v ===== *)
(** * JWT authentication of HTTP and gRPC requests: src/jwtauth/jwthttp and jwtgrpc

    The middleware is modelled over any implementation of the [Authenticator]
    interface: it keeps its state in the shared state [S] of the handlers. *)

From S2P Require Export Http JwtAuth.

(** ** Bearer tokens *)

(** [len(val) > 8 && strings.ToLower(val[:7]) == "bearer "], and [val[7:]]. *)
Definition bearer_token (val : string) : option string :=
  if bool_decide (8 < String.length val)%nat && bool_decide (ToLower (str_take 7 val) = "bearer ")
  then Some (str_drop 7 val) else None.

(** ** jwtgrpc/jwtgrpc.go *)

Definition Unauthenticated : Z := 16.
Definition PermissionDenied : Z := 7.
Definition ErrNoAuthHeader : error := ErrStatus Unauthenticated "no authorization header".
Definition ErrParseJWT : error := ErrStatus Unauthenticated "invalid authorization header".
Definition ErrAuthenticationFailed : error := ErrStatus Unauthenticated "authentication failed".
Definition ErrClaimsValidationFailed : error := ErrStatus PermissionDenied "insufficient permissions".

(** Metadata keys are lower case, and [MD.Get] lower-cases the key it is given. *)
Definition GetBearerFromIncomingContext (ctx : Context) : res string :=
  match ctx_Value ctx KIncomingMetadata with
  | None => Err ErrNoAuthHeader
  | Some md =>
    match md !! "authorization" with
    | None | Some [] => Err ErrNoAuthHeader
    | Some (authVal :: _) =>
      if bool_decide (String.length authVal < 7)%nat || negb (bool_decide (ToLower (str_take 7 authVal) = "bearer "))
      then Err ErrParseJWT
      else Ok (str_drop 7 authVal)
    end
  end.

(** ** jwthttp/handlers.go *)

(** The type assertion for a method [HTTPStatus() int]. *)
Definition error_HTTPStatus (e : error) : option Z :=
  match e with
  | ErrAuth code _ => Some (AuthError_HTTPStatus code)
  | ErrForeign _ _ http_status _ => http_status
  | _ => None
  end.

Definition DefaultUnauthHandler {S} (err : error) : Handler S := λ r s w,
  match error_HTTPStatus err with
  | Some code => (s, rw_write_header code w, Ok ())
  | None => (s, rw_write_header StatusForbidden w, Ok ())
  end.

Definition HiddenEndpoint {S} (err : error) : Handler S := λ r s w,
  (s, rw_write_header StatusNotFound w, Ok ()).

(** ** jwthttp/auth.go *)

Section auth.
Context {S Env : Type} `{!Authenticator S Env} (env : Env).

(** The authenticator of the struct is the one of the class, on the state. *)
Record Auth := mkAuth {
  auth_Headers : list string;
  auth_UnauthHandler : option (error → Handler S);
  auth_Authorisers : list Authoriser
}.

Definition WithUnauthHandler (a : Auth) (handler : error → Handler S) : Auth :=
  mkAuth (auth_Headers a) (Some handler) (auth_Authorisers a).

Definition WithAuthorisers (a : Auth) (authorisers : list Authoriser) : Auth :=
  mkAuth (auth_Headers a) (auth_UnauthHandler a) (auth_Authorisers a ++ authorisers).

Definition Authorise (a : Auth) (claims : Claims) : res () :=
  forM_res (λ authoriser, authoriser claims) (auth_Authorisers a).

Fixpoint getBearer (names : list string) (headers : Header) : string :=
  match names with
  | [] => ""
  | header :: names =>
    match bearer_token (header_get headers header) with
    | Some token => token
    | None => getBearer names headers
    end
  end.

Definition AuthenticateRequest (a : Auth) (req : Request) (s : S) : S * res Claims :=
  Authenticate env s (getBearer (auth_Headers a) (req_Header req)).

Definition unauth (a : Auth) : error → Handler S := default DefaultUnauthHandler (auth_UnauthHandler a).

(** The end of both middlewares: authorise, then go on. *)
Definition authorise_and_serve (a : Auth) (claims : Claims) (next : Handler S) : Handler S := λ r s w,
  match Authorise a claims with
  | Err err => unauth a err r s w
  | Panic p => (s, w, Panic p)
  | Ok _ => next r s w
  end.

(** [(a Auth) Auth()]. *)
Definition Auth_Auth (a : Auth) : Middleware S := λ next r s w,
  match GetClaimsFromContext (req_ctx r) with
  | Panic p => (s, w, Panic p)
  | Err err => (s, w, Ok ()) (* not an outcome of GetClaimsFromContext *)
  | Ok (claims, true) => authorise_and_serve a claims next r s w
  | Ok (_, false) =>
    let '(s, c) := AuthenticateRequest a r s in
    match c with
    | Err err => unauth a err r s w
    | Panic p => (s, w, Panic p)
    | Ok claims =>
      match AddClaimsToContext (req_ctx r) claims with
      | Ok ctx => authorise_and_serve a claims next (WithContext ctx r) s w
      | Err err => (s, w, Ok ())
      | Panic p => (s, w, Panic p)
      end
    end
  end.

(** [(a Auth) AuthAllowAnon()]. The statement [claims, err := a.Authenticate(...)]
    declares new variables in the inner block: the outer [claims], which
    [Authorise] is given below, stays the empty map [GetClaimsFromContext]
    returned. *)
Definition Auth_AuthAllowAnon (a : Auth) : Middleware S := λ next r s w,
  match GetClaimsFromContext (req_ctx r) with
  | Panic p => (s, w, Panic p)
  | Err err => (s, w, Ok ())
  | Ok (claims, true) => authorise_and_serve a claims next r s w
  | Ok (claims, false) =>
    let raw := getBearer (auth_Headers a) (req_Header r) in
    if bool_decide (raw = "") then next r s w
    else
      let '(s, c) := Authenticate env s raw in
      match c with
      | Err err => unauth a err r s w
      | Panic p => (s, w, Panic p)
      | Ok inner_claims =>
        match AddClaimsToContext (req_ctx r) inner_claims with
        | Ok ctx => authorise_and_serve a claims next (WithContext ctx r) s w
        | Err err => (s, w, Ok ())
        | Panic p => (s, w, Panic p)
        end
      end
  end.
End auth.
Arguments Auth S : clear implicits.
Arguments mkAuth {S} _ _ _.

(** [jwthttp.AuthFromConfig]: the authenticator and the middleware around it. *)
Record jwthttp_Config := mk_jwthttp_Config { jhc_Config : JwtConfig; jhc_Headers : list string }.

Definition jwthttp_AuthFromConfig `{Jose} (url_Parse : string → option error) (env : string → RemoteEnv)
    (c : option jwthttp_Config) :
    res (Auth (StdAuthenticator RemoteJWKSIssuer) * StdAuthenticator RemoteJWKSIssuer) :=
  c ← deref c;
  authenticator ← AuthFromConfig url_Parse env (Some (jhc_Config c));
  Ok (mkAuth (jhc_Headers c) (Some DefaultUnauthHandler) [], authenticator).

(** ** Properties *)

(** The token is found in the first header that has one, after the word
    "bearer" in any case and one space. *)
Lemma bearer_token_spec val t :
  bearer_token val = Some t ↔
  ∃ scheme, val = scheme +:+ t ∧ String.length scheme = 7%nat ∧ ToLower scheme = "bearer " ∧
    (2 ≤ String.length t)%nat.
Proof.
  unfold bearer_token. split.
  - destruct (_ && _) eqn:E; [|done].
    apply andb_true_iff in E as [Hlen%bool_decide_eq_true Hb%bool_decide_eq_true]. intros <-%(inj Some). exists (str_take 7 val).
    split; [symmetry; apply str_take_drop|].
    assert (String.length (str_take 7 val) = 7%nat) as Htake by (apply str_length_take; lia).
    pose proof (str_length_append (str_take 7 val) (str_drop 7 val)) as H.
    rewrite str_take_drop Htake in H. split_and!; [done..|lia].
  - intros (scheme&->&Hlen&Hb&Ht). rewrite -Hlen str_take_app str_drop_app str_length_append Hb.
    rewrite bool_decide_true; [lia|]. done.
Qed.

(** The gRPC and HTTP rules agree, except on tokens of at most one byte. *)
Lemma grpc_http_bearer ctx md val rest :
  ctx_Value ctx KIncomingMetadata = Some md → md !! "authorization" = Some (val :: rest) →
  (8 < String.length val)%nat →
  GetBearerFromIncomingContext ctx =
    match bearer_token val with Some t => Ok t | None => Err ErrParseJWT end.
Proof.
  intros Hmd Hval Hlen. unfold GetBearerFromIncomingContext, bearer_token. rewrite Hmd Hval.
  rewrite (bool_decide_true (8 < _)%nat) // bool_decide_false; [lia|]. cbn. by case_bool_decide.
Qed.

Lemma GetClaims_no_error ctx e : GetClaimsFromContext ctx ≠ Err e.
Proof.
  unfold GetClaimsFromContext, clone. destruct (ctx_Value ctx KClaims); [|done].
  by case_bool_decide.
Qed.
Lemma AddClaims_no_error ctx c e : AddClaimsToContext ctx c ≠ Err e.
Proof. unfold AddClaimsToContext, clone. by case_bool_decide. Qed.

Section auth_properties.
Context {S Env : Type} `{!Authenticator S Env} (env : Env).
Implicit Types (a : Auth S) (r : Request) (s : S) (w : RW).

(** What a request is authenticated as: the claims an outer middleware left in the
    context, or those the authenticator gives for the bearer token. *)
Definition authenticated a r s : S * res (Claims * Request) :=
  match GetClaimsFromContext (req_ctx r) with
  | Ok (claims, true) => (s, Ok (claims, r))
  | Panic p => (s, Panic p)
  | _ =>
      let '(s', c) := Authenticate env s (getBearer (auth_Headers a) (req_Header r)) in
      (s', claims ← c; ctx ← AddClaimsToContext (req_ctx r) claims; Ok (claims, WithContext ctx r))
  end.

(** Where the claims come from, and what is seen of them behind the middleware: the
    request is the same but for its context, which has a copy of the claims. *)
Lemma authenticated_spec a r s s' claims r' : authenticated a r s = (s', Ok (claims, r')) →
  ((GetClaimsFromContext (req_ctx r) = Ok (claims, true) ∧ r' = r ∧ s' = s) ∨
   (∃ none, GetClaimsFromContext (req_ctx r) = Ok (none, false)) ∧
    Authenticate env s (getBearer (auth_Headers a) (req_Header r)) = (s', Ok claims)) ∧
  r' = WithContext (req_ctx r') r ∧
  ∃ c', clone claims = Ok c' ∧ GetClaimsFromContext (req_ctx r') = Ok (c', true).
Proof.
  unfold authenticated. destruct (GetClaimsFromContext (req_ctx r)) as [[c []]|e|p] eqn:Hc; [|..].
  - intros [= <- <- <-]. split; [by left|]. split; [by destruct r|]. exists c. split; [|done].
    unfold GetClaimsFromContext in Hc. destruct (ctx_Value (req_ctx r) KClaims) as [x|]; [|done].
    apply res_bind_Ok in Hc as (c1&Hc1&[= <-]). by eapply clone_idemp.
  - destruct (Authenticate env s _) as [s1 out] eqn:Ha. intros [= <- H1].
    apply res_bind_Ok in H1 as (claims'&->&(ctx&Hctx&[= <- <-])%res_bind_Ok).
    split; [right; split; [by eexists|done]|]. split; [done|].
    unfold AddClaimsToContext in Hctx. apply res_bind_Ok in Hctx as (c'&Hc'&[= <-]). exists c'. split; [done|].
    cbn. unfold GetClaimsFromContext. rewrite WithValue_same (clone_idemp _ _ Hc') //.
  - by apply GetClaims_no_error in Hc.
  - done.
Qed.

(** C11. A request gets through the middleware if it carries the claims that one further
    out left in its context, or else if its bearer token authenticates, and if every
    authoriser, in the order they were added, accepts those claims. The handler then
    gets the request with a copy of the claims in its context and nothing else changed.
    In every other case it does not run: the unauthorised handler answers with the first
    error, of the authenticator or of an authoriser, and a panic of one of them is the
    caller's. *)
Theorem Auth_Auth_guards a next r s w :
  let '(s', c) := authenticated a r s in
  match c with
  | Ok (claims, r') =>
    ((GetClaimsFromContext (req_ctx r) = Ok (claims, true) ∧ r' = r ∧ s' = s) ∨
     (∃ none, GetClaimsFromContext (req_ctx r) = Ok (none, false)) ∧
      Authenticate env s (getBearer (auth_Headers a) (req_Header r)) = (s', Ok claims)) ∧
    r' = WithContext (req_ctx r') r ∧
    (∃ c', clone claims = Ok c' ∧ GetClaimsFromContext (req_ctx r') = Ok (c', true)) ∧
    match range_err (λ f, match f claims with Err e => Some (inl e) | Panic p => Some (inr p) | Ok _ => None end)
            (auth_Authorisers a) with
    | None => Auth_Auth env a next r s w = next r' s' w
    | Some (inl err) => Auth_Auth env a next r s w = unauth a err r' s' w
    | Some (inr p) => Auth_Auth env a next r s w = (s', w, Panic p)
    end
  | Err err => Auth_Auth env a next r s w = unauth a err r s' w
  | Panic p => Auth_Auth env a next r s w = (s', w, Panic p)
  end.
Proof.
  assert (∀ claims r' s', match range_err (λ f : Authoriser, match f claims with
      Err e => Some (inl e) | Panic p => Some (inr p) | Ok _ => None end) (auth_Authorisers a) with
    | None => authorise_and_serve a claims next r' s' w = next r' s' w
    | Some (inl err) => authorise_and_serve a claims next r' s' w = unauth a err r' s' w
    | Some (inr p) => authorise_and_serve a claims next r' s' w = (s', w, Panic p)
    end) as Hserve.
  { intros claims r' s'. unfold authorise_and_serve, Authorise.
    induction (auth_Authorisers a) as [|f fs IH]; [done|]. cbn. by destruct (f claims). }
  pose proof (authenticated_spec a r s) as Hspec.
  unfold authenticated, Auth_Auth, AuthenticateRequest in *.
  destruct (GetClaimsFromContext (req_ctx r)) as [[claims []]|e|p] eqn:Hc; [| |exfalso; by eapply GetClaims_no_error|done].
  - destruct (Hspec _ _ _ eq_refl) as (?&?&?). split_and!; [done..|apply Hserve].
  - destruct (Authenticate env s _) as [s' [claims'|err|p]]; cbn in *; try done.
    destruct (AddClaimsToContext _ claims') as [ctx|e|p] eqn:Ha; [|exfalso; by eapply AddClaims_no_error|done].
    destruct (Hspec _ _ _ eq_refl) as (?&?&?). split_and!; [done..|apply Hserve].
Qed.

(** The anonymous variant passes a request without a token on, but authorises a
    request it has just authenticated against the empty set of claims instead of
    the token's own: the authorisers never see the claims of the token. *)
Theorem AuthAllowAnon_authorises_empty_claims a next r s w :
  GetClaimsFromContext (req_ctx r) = Ok (∅, false) →
  Auth_AuthAllowAnon env a next r s w =
    let raw := getBearer (auth_Headers a) (req_Header r) in
    if bool_decide (raw = "") then next r s w
    else
      let '(s', c) := Authenticate env s raw in
      match (claims ← c; AddClaimsToContext (req_ctx r) claims) with
      | Err err => unauth a err r s' w
      | Panic p => (s', w, Panic p)
      | Ok ctx => authorise_and_serve a ∅ next (WithContext ctx r) s' w
      end.
Proof.
  intros Hc. unfold Auth_AuthAllowAnon. rewrite Hc. cbn zeta. case_bool_decide; [done|].
  destruct (Authenticate env s _) as [s' [claims|err|p]]; try done. cbn.
  destruct (AddClaimsToContext _ claims) eqn:Ha; [done|exfalso; by eapply AddClaims_no_error|done].
Qed.
End auth_properties.

(** Every status the default handler sends is a client or server error. *)
Lemma AuthError_status_range code : (400 ≤ AuthError_HTTPStatus code ≤ 599)%Z.
Proof.
  unfold AuthError_HTTPStatus. destruct (errHTTPCodeMap !! code) as [c|] eqn:E; [|done].
  revert code c E. change (map_Forall (λ _ c, 400 ≤ c ≤ 599)%Z errHTTPCodeMap).
  apply (bool_decide_eq_true_1 _). vm_compute. reflexivity.
Qed.

(** A request whose token has the scope an authoriser asks for. *)
Module JwtHttpExample.
Definition authenticator (env : ()) (s : ()) (raw : string) : () * res Claims :=
  ((), if bool_decide (raw = "alice-token") then Ok example_claims
       else Err (ErrAuth AuthErrCodeInvalidJWT (ErrText "bad token"))).
#[export] Instance inst : Authenticator () () := {| Authenticate := authenticator |}.
Definition needs_scope : Authoriser := λ c,
  if bool_decide (is_Some (c !! "scope")) then Ok ()
  else Err (ErrAuth AuthErrCodeInsufficientPermissions (ErrText "no scope")).
Definition a : Auth () := mkAuth ["Authorization"] None [needs_scope].
Definition r : Request :=
  mkRequest Background "GET" "/" {["Authorization" := ["Bearer alice-token"]]} "".
Definition next : Handler () := λ r s w, (s, rw_write_header 200 w, Ok ()).
End JwtHttpExample.
#[local] Existing Instance JwtHttpExample.inst.

(** The token is good and has the scope, and [Auth] serves the request, but the
    anonymous variant answers 403. *)
Lemma AuthAllowAnon_authorises_empty_claims_witness :
  (Auth_Auth () JwtHttpExample.a JwtHttpExample.next JwtHttpExample.r () rw_empty).1.2 =
    rw_write_header 200 rw_empty ∧
  (Auth_AuthAllowAnon () JwtHttpExample.a JwtHttpExample.next JwtHttpExample.r () rw_empty).1.2 =
    rw_write_header 403 rw_empty.
Proof.
  split; [vm_compute; reflexivity|].
  rewrite (AuthAllowAnon_authorises_empty_claims () JwtHttpExample.a JwtHttpExample.next JwtHttpExample.r
    () rw_empty eq_refl).
  vm_compute. reflexivity.
Defined.
