(* ===== verification/TestIssuer.v ===== *)
(** * The issuer of tokens for tests: src/jwtauth/jwttest/issuer.go

    It signs tokens on demand, authenticates them itself, and serves its public key
    as a key set, from which the remote verifier of [JwtAuth] can authenticate them
    as well. The JOSE library's signer, the generator of keys and the encoder of key
    sets are parameters. *)

From S2P Require Export JwtHttp.

(** The parts of the JOSE library that only an issuer uses. *)
Class JoseSign `{Jose} := {
  RSAKey : Type;
  MakeJWK : string → RSAKey → JWK;          (* key id; RS256, use sig *)
  KeyID : JWK → string;
  Signer : Type;
  NewSigner : JWK → error + Signer;         (* RS256, header typ: jwt *)
  SignCompact : Signer → Claims → error + string;
  MarshalKeySet : list JWK → error + string
}.

Section issuer.
Context `{JoseSign}.

Record Issuer := mkIssuer { iss_Signer : Signer; iss_PubKey : JWK; iss_Name : string }.

(** [GenRSKeys]: [generated] is what rsa.GenerateKey made, public and private, and
    [kid] a random UUID. *)
Definition GenRSKeys (generated : error + RSAKey * RSAKey) (kid : error + string) : res (JWK * JWK) :=
  match generated with
  | inl err => Err err
  | inr (pubKey, privKey) =>
    match kid with
    | inl err => Err err
    | inr kid => Ok (MakeJWK kid pubKey, MakeJWK kid privKey)
    end
  end.

Definition NewIssuer (name : string) (generated : error + RSAKey * RSAKey) (kid : error + string) : res Issuer :=
  keys ← GenRSKeys generated kid;
  match NewSigner keys.2 with
  | inl err => Err err
  | inr sig => Ok (mkIssuer sig keys.1 name)
  end.

(** [IssueFromMap]: the issuer's name goes into the caller's own map if it has none
    there; [None] is a nil map. Also [Issue]. *)
Definition with_issuer (name : string) (claims : option Claims) : res (option Claims) :=
  match claims with
  | None => Panic nil_map_write
  | Some c =>
      match c !! "iss" with
      | None => Ok (Some (<["iss" := VString name]> c))
      | Some (VString "") => Ok (Some (<["iss" := VString name]> c))
      | Some _ => Ok (Some c)
      end
  end.
Definition IssueFromMap (i : Issuer) (claims : option Claims) : res (string * Claims) :=
  claims ← with_issuer (iss_Name i) claims;
  let claims := default ∅ claims in
  match SignCompact (iss_Signer i) claims with
  | inl err => Err err
  | inr raw => Ok (raw, claims)
  end.

Definition Issuer_Verify (i : Issuer) (token : Token) : res Claims :=
  match TokenClaims token (iss_PubKey i) with inl err => Err err | inr claims => Ok claims end.

(** The cause of the third error is the nil error of the line before; it prints as
    <nil>. *)
Definition nil_cause : error := ErrText "<nil>".
Definition Issuer_Authenticate (i : Issuer) (raw : string) : res Claims :=
  match ParseSigned raw with
  | inl err => Err (ErrAuth AuthErrCodeInvalidJWT err)
  | inr parsed =>
    match UnsafeClaimsWithoutVerification parsed with
    | inl err => Err (ErrAuth AuthErrCodeInvalidJWT err)
    | inr insecureClaims =>
      if bool_decide (JwtAuth.Issuer insecureClaims ≠ iss_Name i) then
        Err (ErrAuth AuthErrCodeUntrustedSource nil_cause)
      else
        match Issuer_Verify i parsed with
        | Err err => Err (ErrAuth AuthErrCodeBadSignature err)
        | r => r
        end
    end
  end.

#[export] Instance Issuer_Verifier {Env} : Verifier Issuer Env :=
  {| Verify := λ env i token, (i, Issuer_Verify i token) |}.
#[export] Instance Issuer_Authenticator {Env} : Authenticator Issuer Env :=
  {| Authenticate := λ env i raw, (i, Issuer_Authenticate i raw) |}.

(** [Authenticator()]: a standard authenticator that trusts this issuer alone. *)
Definition Issuer_StdAuthenticator (i : Issuer) : StdAuthenticator Issuer :=
  mkStdAuthenticator {[iss_Name i := i]}.

(** [ServeHTTP]. *)
Definition Issuer_ServeHTTP {S} (i : Issuer) : Handler S := λ r s w,
  match MarshalKeySet [iss_PubKey i] with
  | inl _ => (s, rw_write_header StatusInternalServerError w, Ok ())
  | inr payload =>
      (s, rw_write payload (rw_write_header StatusOK (rw_set_header "Content-Type" "application/json" w)), Ok ())
  end.

(** [HTTPAuth()], with the issuer as its authenticator. *)
Definition HTTPAuth {S} (i : Issuer) : Auth S := mkAuth ["Authorization"] None [].
End issuer.
Arguments Issuer {_ _} : rename.

(** * Lemmas *)

(** The claims that RFC 7519 registers have the types it gives them, the fields of the
    library's jwt.Claims: the library signs any claims, but reads only such into these. *)
Definition is_string (v : value) : Prop := ∃ s, v = VString s.
Definition is_number (v : value) : Prop := (∃ z, v = VInt z) ∨ ∃ f, v = VFloat f.
Definition registered_type (key : string) (v : value) : Prop :=
  (key ∈ ["iss"; "sub"; "jti"] → is_string v) ∧
  (key ∈ ["exp"; "nbf"; "iat"] → is_number v) ∧
  (key = "aud" → is_string v ∨ ∃ l, v = VSlice l ∧ Forall is_string l).
Definition registered_claims (c : Claims) : Prop := map_Forall registered_type c.

(** What the documentation of the library says of a token signed with the private
    half of a key pair: it parses, under the key id of the pair, and the public half
    verifies it and gives the claims as JSON has them; registered claims can be read
    before that. And what it says of an encoded key set. *)
Class JoseSignLaws `{JoseSign} (i : Issuer) : Prop := {
  signed_token c raw :
    SignCompact (iss_Signer i) c = inr raw →
    ∃ tok c', ParseSigned raw = inr tok ∧ clone c = Ok c' ∧
      HeaderKeyIDs tok = [KeyID (iss_PubKey i)] ∧
      TokenClaims tok (iss_PubKey i) = inr c' ∧
      (registered_claims c → ∃ std, UnsafeClaimsWithoutVerification tok = inr std ∧
         ∀ s, c !! "iss" = Some (VString s) → JwtAuth.Issuer std = s);
  marshalled_keys payload :
    MarshalKeySet [iss_PubKey i] = inr payload →
    ∃ ks, UnmarshalKeySet payload = inr ks ∧ KeySet_Key ks (KeyID (iss_PubKey i)) = [iss_PubKey i]
}.

Lemma iss_registered name : registered_type "iss" (VString name).
Proof.
  split; [intros _; by exists name|]. split; [|done]. intros H. exfalso. revert H.
  apply (bool_decide_unpack (¬ _)). vm_compute. done.
Qed.

Section issuer_properties.
Context `{JoseSign} (i : Issuer) `{!JoseSignLaws i}.
#[local] Set Default Proof Using "All".

(** The claims that are signed: the caller's, with the issuer's name unless they name
    another one. *)
Definition issued_claims (name : string) (c : Claims) : Claims :=
  match c !! "iss" with
  | None | Some (VString "") => <["iss" := VString name]> c
  | _ => c
  end.

Lemma IssueFromMap_claims claims raw c' :
  IssueFromMap i claims = Ok (raw, c') →
  ∃ c, claims = Some c ∧ c' = issued_claims (iss_Name i) c ∧ SignCompact (iss_Signer i) c' = inr raw.
Proof.
  unfold IssueFromMap. intros (c1&Hc1&Hs)%res_bind_Ok. destruct claims as [c|]; [|done].
  assert (c1 = Some (issued_claims (iss_Name i) c)) as ->.
  { cbn in Hc1. unfold issued_claims. repeat case_match; by simplify_eq. }
  cbn in Hs. destruct (SignCompact _ _) eqn:E; [done|]. injection Hs as <- <-. by exists c.
Qed.

(** The issuer's name has the type of the claim iss. *)
Lemma issued_registered name c : registered_claims c → registered_claims (issued_claims name c).
Proof.
  intros Hc. assert (registered_claims (<["iss" := VString name]> c)) as Hn.
  { by apply map_Forall_insert_2; [apply iss_registered|]. }
  unfold issued_claims. by repeat case_match.
Qed.

(** C14. A token is authenticated with the claims that were signed, as JSON gives them
    back, by everything that trusts the issuer: by a remote verifier that has an expired
    key set, or none, and fetches from the URL where the issuer serves its own; and, if
    the registered claims have the types that RFC 7519 gives them, by the issuer itself
    and, while the claims are valid in time, by its standard authenticator. The claims
    have to name the issuer, as they do if the caller's name nobody. *)
Theorem Issuer_roundtrip claims raw c :
  IssueFromMap i claims = Ok (raw, c) → c !! "iss" = Some (VString (iss_Name i)) →
  ∃ c' tok, clone c = Ok c' ∧ ParseSigned raw = inr tok ∧
  (∀ env rj payload, MarshalKeySet [iss_PubKey i] = inr payload →
   re_fetch env (rj_url rj) = FetchResponse StatusOK (inr payload) →
   (jk_ttl (rj_cache rj) < time_Since (re_now env) (jk_setTime (rj_cache rj)))%Z →
   (RemoteJWKSIssuer_Verify env rj tok).2 = Ok c') ∧
  (registered_claims c →
   Issuer_Authenticate i raw = Ok c' ∧
   ∃ std, UnsafeClaimsWithoutVerification tok = inr std ∧
   ∀ {Env} (time_Now : Env → Z) (env : Env), ValidateWithLeeway std (time_Now env) Second = None →
     (StdAuthenticator_Authenticate time_Now env (Issuer_StdAuthenticator i) raw).2 = Ok c').
Proof.
  intros (c0&->&Ec&Hsign)%IssueFromMap_claims Hiss.
  destruct (signed_token _ _ Hsign) as (tok&c'&Hp&Hc'&Hkid&Hv&Hreg).
  exists c', tok. split_and!; [done..| |].
  - intros env rj payload Hm Hf Hexp. destruct (marshalled_keys _ Hm) as (ks&Hks&Hkey).
    unfold RemoteJWKSIssuer_Verify, jwksCache_getKey, refreshCache.
    rewrite Hkid bool_decide_true // Hf. cbn. rewrite Hks bool_decide_false; [by auto|]. cbn. rewrite Hkey. cbn. by rewrite Hv.
  - intros (std&Hstd&Hi)%Hreg. specialize (Hi _ Hiss). split.
    + unfold Issuer_Authenticate, Issuer_Verify. by rewrite Hp Hstd Hi bool_decide_false ?Hv; auto.
    + exists std. split; [done|]. intros Env time_Now env Hvalid. unfold StdAuthenticator_Authenticate.
      rewrite Hp Hstd Hvalid Hi. cbn. rewrite lookup_singleton_eq. cbn. unfold Issuer_Verify. by rewrite Hv.
Qed.

(** Claims that name nobody, or the empty name, are signed in the issuer's name, in
    the caller's own map; claims that name another are refused by the issuer that
    signed them. *)
Theorem Issue_name claims raw c :
  IssueFromMap i claims = Ok (raw, c) →
  ∃ c0, claims = Some c0 ∧ c = issued_claims (iss_Name i) c0 ∧
  (c0 !! "iss" = None ∨ c0 !! "iss" = Some (VString "") → c !! "iss" = Some (VString (iss_Name i))) ∧
  (∀ s, c0 !! "iss" = Some (VString s) → s ≠ "" → s ≠ iss_Name i →
   registered_claims c0 →
   Issuer_Authenticate i raw = Err (ErrAuth AuthErrCodeUntrustedSource nil_cause)).
Proof.
  intros (c0&->&->&Hsign)%IssueFromMap_claims. exists c0. split_and!; [done..| |].
  - unfold issued_claims. by intros [-> | ->]; rewrite lookup_insert_eq.
  - intros s Hs Hne Hother Hreg. assert (issued_claims (iss_Name i) c0 = c0) as E.
    { unfold issued_claims. rewrite Hs. by destruct s. }
    rewrite E in Hsign. destruct (signed_token _ _ Hsign) as (tok&c'&Hp&_&_&_&(std&Hstd&Hi)).
    { done. }
    unfold Issuer_Authenticate. rewrite Hp Hstd (Hi s Hs) bool_decide_true //.
Qed.
End issuer_properties.

(** The handler answers once: 200 with the key set, or 500. *)
Lemma Issuer_ServeHTTP_once `{JoseSign} {S} (i : Issuer) r (s : S) w :
  ∃ w', Issuer_ServeHTTP i r s w = (s, w', Ok ()) ∧
    match MarshalKeySet [iss_PubKey i] with
    | inl _ => rw_calls w' = rw_calls w ++ [CallWriteHeader StatusInternalServerError (rw_header w)]
    | inr payload => ∃ h, rw_calls w' = rw_calls w ++ [CallWriteHeader StatusOK h; CallWrite payload]
    end.
Proof.
  unfold Issuer_ServeHTTP. destruct (MarshalKeySet _) as [err|payload]; [by eexists|].
  eexists. split; [done|]. eexists. cbn. by rewrite -app_assoc.
Qed.

(** ** An issuer whose tokens are the claims and the key in clear *)
Module IssuerExample.
#[export] Instance jose : Jose := {|
  Token := string; StdClaims := string; JWK := string; KeySet := list string;
  ParseSigned raw := inr raw;
  UnsafeClaimsWithoutVerification t := inr "izzy";
  UnsafeMapClaims t := inr ∅;
  ValidateWithLeeway c now leeway := None;
  JwtAuth.Issuer c := c;
  HeaderKeyIDs t := ["kid"];
  TokenClaims t k := if bool_decide (k = t) then inr {["iss" := VString "izzy"]} else inl (ErrText "bad signature");
  KeySet_Key ks kid := ks;
  UnmarshalKeySet body := inr [body]
|}.
#[export] Instance sign : JoseSign := {|
  RSAKey := unit; MakeJWK kid k := "key"; KeyID k := "kid"; Signer := unit;
  NewSigner k := inr ();
  SignCompact s c :=
    match map_to_list c with
    | [(k, VString n)] => if bool_decide (k = "iss" ∧ n = "izzy") then inr "key" else inl (ErrText "no")
    | _ => inl (ErrText "no")
    end;
  MarshalKeySet ks := match ks with [k] => inr k | _ => inl (ErrText "no") end
|}.
Definition izzy : Issuer := mkIssuer () "key" "izzy".
#[export] Instance laws : JoseSignLaws izzy.
Proof.
  split.
  - intros c raw Hs. cbn in Hs. destruct (map_to_list c) as [|[k []] []] eqn:E; try done.
    case_bool_decide as Hk; [|done]. destruct Hk as [-> ->]. injection Hs as <-.
    assert (c = {["iss" := VString "izzy"]}) as ->.
    { rewrite -(list_to_map_to_list c) E. vm_compute. reflexivity. }
    exists "key", {["iss" := VString "izzy"]}. split; [reflexivity|].
    split; [vm_compute; reflexivity|]. split; [reflexivity|]. split; [vm_compute; reflexivity|].
    intros _. exists "izzy". split; [reflexivity|]. intros s'. rewrite lookup_singleton_eq. intros [= <-]. reflexivity.
  - intros payload [= <-]. by exists ["key"].
Defined.
Definition env : RemoteEnv := mkRemoteEnv 100 (λ url, FetchResponse 200 (inr "key")) 101.
Definition remote : RemoteJWKSIssuer := mkRemoteJWKSIssuer "https://izzy/" (mkJwksCache None 10 0).
End IssuerExample.
#[local] Existing Instance IssuerExample.jose.
#[local] Existing Instance IssuerExample.sign.
#[local] Existing Instance IssuerExample.laws.

Lemma Issuer_roundtrip_witness :
  IssueFromMap IssuerExample.izzy (Some ∅) = Ok ("key", {["iss" := VString "izzy"]}) ∧
  Issuer_Authenticate IssuerExample.izzy "key" = Ok {["iss" := VString "izzy"]} ∧
  (RemoteJWKSIssuer_Verify IssuerExample.env IssuerExample.remote "key").2 = Ok {["iss" := VString "izzy"]}.
Proof.
  assert (IssueFromMap IssuerExample.izzy (Some ∅) = Ok ("key", {["iss" := VString "izzy"]})) as E
    by (vm_compute; reflexivity).
  split; [exact E|].
  destruct (Issuer_roundtrip IssuerExample.izzy (Some ∅) "key" _ E) as (c'&tok&Hc&Ht&Hr&Ha).
  { vm_compute. reflexivity. }
  assert (c' = {["iss" := VString "izzy"]}) as ->.
  { assert (clone {["iss" := VString "izzy"]} = Ok {["iss" := VString "izzy"]}) as Hc2 by (vm_compute; reflexivity).
    rewrite Hc in Hc2. injection Hc2 as ->. reflexivity. }
  injection Ht as <-. split.
  - apply Ha, map_Forall_singleton, iss_registered.
  - apply (Hr IssuerExample.env IssuerExample.remote "key"); vm_compute; reflexivity.
Defined.

Lemma Issue_name_witness :
  IssueFromMap IssuerExample.izzy (Some ∅) = Ok ("key", {["iss" := VString "izzy"]}) ∧
  ({["iss" := VString "izzy"]} : Claims) !! "iss" = Some (VString "izzy").
Proof.
  assert (IssueFromMap IssuerExample.izzy (Some ∅) = Ok ("key", {["iss" := VString "izzy"]})) as E
    by (vm_compute; reflexivity).
  split; [exact E|].
  destruct (Issue_name IssuerExample.izzy _ _ _ E) as (c0&E0&_&H&_).
  injection E0 as <-. apply H. left. reflexivity.
Defined.
