(* ===== verification/AuthRules.v ===== *)
(** * Authorization rules: src/core/authrules and core/callback.go

    A rule decides on a request from its context: it extracts the bearer token,
    authenticates it and evaluates the endpoint's rule expression on the claims. *)

From S2P Require Export TlsConfig AuthExpr RequestContext JwtHttp.

(** ** rule.go and jwtclaimsrule.go *)

(** A rule returns a context and an error; either may be nil. Its authenticator
    keeps its state in [S] and reads [Env] of the world during a call. *)
Definition Rule (S Env : Type) := Env → Context → S → S * res (option Context * option error).

(** [JWTClaimsBasedAuthorizationRule]. *)
Definition JWTClaimsBasedAuthorizationRule := Context → Claims → res bool.

Definition MakeDefaultJWTClaimsBasedAuthorizationRule (ParseString : string → error + Expr)
    (authorizationRuleExpression : string) : res JWTClaimsBasedAuthorizationRule :=
  rootExpr ← CompileExpression ParseString authorizationRuleExpression;
  Ok (λ ctx claims, Expr_Evaluate (MakeStandardJWTHasScope claims) rootExpr).

Definition getBearerTokenFromIncomingRESTContext (ctx : Context) : res string :=
  let val := nil_header_get (RequestHeaderFromContext ctx) "Authorization" in
  match bearer_token val with
  | Some token => Ok token
  | None => Err (ErrAuth AuthErrCodeInvalidJWT (ErrText "no Authorization header containing bearer token"))
  end.

Section rules.
Context {S Env : Type} `{!Authenticator S Env}.

Definition authorize (env : Env) (ctx : Context) (rawToken : string) (authRule : JWTClaimsBasedAuthorizationRule)
    (s : S) : S * res (option Context * option error) :=
  let '(s, r) := Authenticate env s rawToken in
  match r with
  | Panic p => (s, Panic p)
  | Err err => (s, Ok (Some ctx, Some err))
  | Ok claims =>
    match authRule ctx claims with
    | Panic p => (s, Panic p)
    | Err err => (s, Ok (Some ctx, Some err))
    | Ok isAuthorised =>
      if negb isAuthorised then (s, Ok (Some ctx, Some ErrClaimsValidationFailed))
      else (s, ctx ← AddClaimsToContext ctx claims; Ok (Some ctx, None))
    end
  end.

Definition jwt_rule (getToken : Context → res string) (authRule : JWTClaimsBasedAuthorizationRule) :
    Rule S Env := λ env ctx s,
  match getToken ctx with
  | Panic p => (s, Panic p)
  | Err err => (s, Ok (None, Some err))
  | Ok rawToken => authorize env ctx rawToken authRule s
  end.

Definition MakeGRPCJWTAuthorizationRule (authRule : JWTClaimsBasedAuthorizationRule) : Rule S Env :=
  jwt_rule GetBearerFromIncomingContext authRule.
Definition MakeRESTJWTAuthorizationRule (authRule : JWTClaimsBasedAuthorizationRule) : Rule S Env :=
  jwt_rule getBearerTokenFromIncomingRESTContext authRule.
End rules.

Definition InsecureAlwaysGrantAccess {S Env} : Rule S Env := λ env ctx s, (s, Ok (Some ctx, None)).

(** ** callback.go: which rule an endpoint gets *)

(** The hooks this file uses. *)
Record AuthHooks `{Crypto} := mkAuthHooks {
  h_AdditionalGrpcDialOptions : list grpc_option;
  h_OverrideGrpcDialOptions : option (string → option CommonGRPCDownstreamData → res (list grpc_option));
  h_AdditionalGrpcServerOptions : list grpc_option;
  h_OverrideGrpcServerOptions : option (Context → option GRPCServerConfig → res (list grpc_option));
  h_OverrideMakeJWTClaimsBasedAuthorizationRule :
    option (string → res JWTClaimsBasedAuthorizationRule)
}.

#[export] Instance remote_authenticator `{Jose} : Authenticator (StdAuthenticator RemoteJWKSIssuer) RemoteEnv :=
  StdAuthenticator_Authenticator re_now.

Section resolve.
Context `{Crypto, Jose} (m : Machine) (ParseString : string → error + Expr)
  (url_Parse : string → option error) (issuer_env : string → RemoteEnv).
(** [DefaultHTTPClient]'s URL parser and proxy, and grpc.go's default options. *)
Context (url_Parse_proxy : string → error + string) (ProxyFromEnvironment : string → error + option string)
  (DefaultGrpcServerOptions : Context → option GRPCServerConfig → res (list grpc_option)).

Notation St := (StdAuthenticator RemoteJWKSIssuer).

Definition ResolveGrpcDialOptions (serviceName : string) (h : AuthHooks)
    (grpcDownstreamConfig : option CommonGRPCDownstreamData) : res (list grpc_option) :=
  match h_AdditionalGrpcDialOptions h, h_OverrideGrpcDialOptions h with
  | _ :: _, Some _ => Err (ErrText "Hooks.AdditionalGrpcDialOptions and Hooks.OverrideGrpcDialOptions cannot both be set")
  | _, Some f => f serviceName grpcDownstreamConfig
  | additional, None =>
      opts ← DefaultGrpcDialOptions m grpcDownstreamConfig; Ok (opts ++ additional)
  end.

Definition ResolveGrpcServerOptions (ctx : Context) (h : AuthHooks)
    (grpcPublicServerConfig : option GRPCServerConfig) : res (list grpc_option) :=
  match h_AdditionalGrpcServerOptions h, h_OverrideGrpcServerOptions h with
  | _ :: _, Some _ => Err (ErrText "Hooks.AdditionalGrpcServerOptions and Hooks.OverrideGrpcServerOptions cannot both be set")
  | _, Some f => f ctx grpcPublicServerConfig
  | additional, None =>
      opts ← DefaultGrpcServerOptions ctx grpcPublicServerConfig; Ok (opts ++ additional)
  end.

(** The rule of an endpoint and the authenticator made for it. The configuration is
    dereferenced before it is compared with nil. *)
Definition resolveAuthorizationRule (ctx : Context) (h : AuthHooks) (endpointName authRuleExpression : string)
    (ruleFactory : JWTClaimsBasedAuthorizationRule → Rule St RemoteEnv) : res (Rule St RemoteEnv * St) :=
  let cfg := GetDefaultConfig ctx in
  c ← deref cfg;
  if match cfg_Development c with Some d => dev_DisableAllAuthorizationRules d | None => false end
  then Ok (InsecureAlwaysGrantAccess, mkStdAuthenticator ∅)
  else
    claimsBasedAuthRule ←
      match h_OverrideMakeJWTClaimsBasedAuthorizationRule h with
      | Some factory => factory authRuleExpression
      | None => MakeDefaultJWTClaimsBasedAuthorizationRule ParseString authRuleExpression
      end;
    _ ← DefaultHTTPClient m url_Parse_proxy ProxyFromEnvironment None;
    match lib_Authentication (cfg_Library c) ≫= auth_JWTAuth with
    | None => Err (ErrText ("method/endpoint " +:+ endpointName +:+ " requires a JWT-based authorization rule, but there is no config for library.authentication.jwtauth"))
    | Some jwt =>
        authenticator ← AuthFromConfig url_Parse issuer_env (Some jwt);
        Ok (ruleFactory claimsBasedAuthRule, authenticator)
    end.

Definition ResolveGRPCAuthorizationRule ctx h endpointName authRuleExpression : res (Rule St RemoteEnv * St) :=
  resolveAuthorizationRule ctx h endpointName authRuleExpression (MakeGRPCJWTAuthorizationRule (S := St)).
Definition ResolveRESTAuthorizationRule ctx h endpointName authRuleExpression : res (Rule St RemoteEnv * St) :=
  resolveAuthorizationRule ctx h endpointName authRuleExpression (MakeRESTJWTAuthorizationRule (S := St)).
End resolve.

(** ** What a rule grants *)

Section rule_properties.
Context {S Env : Type} `{!Authenticator S Env}.

Lemma jwt_rule_granted getToken authRule (env : Env) ctx (s s' : S) ctx' :
  jwt_rule getToken authRule env ctx s = (s', Ok (Some ctx', None)) →
  ∃ raw claims, getToken ctx = Ok raw ∧ Authenticate env s raw = (s', Ok claims) ∧
    authRule ctx claims = Ok true ∧ AddClaimsToContext ctx claims = Ok ctx'.
Proof.
  unfold jwt_rule, authorize. destruct (getToken ctx) as [raw|e|p] eqn:Ht; [|done..].
  destruct (Authenticate env s raw) as [s0 [claims|e|p]] eqn:Ha; [|done..].
  destruct (authRule ctx claims) as [[]|e|p] eqn:Hr; [|done..].
  destruct (AddClaimsToContext ctx claims) as [c| |] eqn:Hc; [|done..].
  intros [= -> ->]. eauto 10.
Qed.

Lemma jwt_rule_state getToken authRule (env : Env) ctx (s : S) :
  (jwt_rule getToken authRule env ctx s).1 = s ∨
  ∃ raw, (jwt_rule getToken authRule env ctx s).1 = (Authenticate env s raw).1.
Proof.
  unfold jwt_rule, authorize. destruct (getToken ctx) as [raw|e|p]; [|by left..].
  right. exists raw. destruct (Authenticate env s raw) as [s0 [claims|e|p]]; [|done..].
  by destruct (authRule ctx claims) as [[]|e|p].
Qed.

(** A rule grants a request, with a context that adds the claims and nothing
    else, exactly when the token is found, the authenticator accepts it and the
    claims satisfy the rule; a token that is refused, an evaluation that fails
    and claims that do not satisfy the rule each come back as an error. *)
Theorem jwt_rule_spec getToken authRule (env : Env) ctx (s : S) :
  (∀ raw claims s', getToken ctx = Ok raw → Authenticate env s raw = (s', Ok claims) →
     (authRule ctx claims = Ok true →
        jwt_rule getToken authRule env ctx s =
          (s', c ← AddClaimsToContext ctx claims; Ok (Some c, None))) ∧
     (authRule ctx claims = Ok false →
        jwt_rule getToken authRule env ctx s = (s', Ok (Some ctx, Some ErrClaimsValidationFailed)))) ∧
  (∀ s' ctx', jwt_rule getToken authRule env ctx s = (s', Ok (Some ctx', None)) →
     ∃ raw claims, getToken ctx = Ok raw ∧ Authenticate env s raw = (s', Ok claims) ∧
       authRule ctx claims = Ok true ∧ AddClaimsToContext ctx claims = Ok ctx' ∧
       ∀ k, k ≠ KClaims → ctx_Value ctx' k = ctx_Value ctx k).
Proof.
  split.
  - intros raw claims s' Ht Ha. unfold jwt_rule, authorize. rewrite Ht Ha. split; by intros ->.
  - intros s' ctx' (raw&claims&?&?&?&Hadd)%jwt_rule_granted. exists raw, claims.
    split_and!; try done. intros k Hk. apply res_bind_Ok in Hadd as (c&_&[= <-]).
    by apply WithValue_other.
Qed.
End rule_properties.

(** ** The rule of an endpoint, end to end *)

Section endpoint.
Context `{Crypto, Jose} (m : Machine) (ParseString : string → error + Expr)
  (url_Parse : string → option error) (issuer_env : string → RemoteEnv).
Context (url_Parse_proxy : string → error + string) (ProxyFromEnvironment : string → error + option string).

Notation St := (StdAuthenticator RemoteJWKSIssuer).
Notation resolve := (resolveAuthorizationRule m ParseString url_Parse issuer_env
  url_Parse_proxy ProxyFromEnvironment).

(** Every verifier belongs to a configured issuer and caches only what it served. *)
Definition verifiers_inv (W : RemoteEnv → Prop) (issuers : list IssuerConfig) (a : St) : Prop :=
  map_Forall (λ name v, ∃ ic, ic ∈ issuers ∧ ic_Name ic = name ∧
    cache_inv W (ic_JWKSURL ic) (ic_CacheTTL ic) v) (Verifiers a).

Lemma verifier_inv W ic env v :
  W env → VerifierFromIssuerConfig url_Parse env ic = Ok v → cache_inv W (ic_JWKSURL ic) (ic_CacheTTL ic) v.
Proof.
  intros HW (?&?&?&->)%VerifierFromIssuerConfig_Ok. apply refresh_inv; [|done]. by split_and!.
Qed.

Lemma AuthFromConfig_inv W jwt a :
  (∀ n, W (issuer_env n)) → AuthFromConfig url_Parse issuer_env (Some jwt) = Ok a →
  verifiers_inv W (jc_Issuers jwt) a.
Proof.
  intros HW (vs&(_&_&_&Hall&Hother)%add_verifiers_Ok&[= <-])%res_bind_Ok. intros name v Hv. cbn in Hv.
  destruct (decide (name ∈ ic_Name <$> jc_Issuers jwt)) as [Hin|Hni].
  - apply list_elem_of_fmap in Hin as (ic&->&Hic). exists ic. split_and!; [done..|].
    rewrite list.Forall_forall in Hall. destruct (Hall _ Hic) as (v'&Hv'&Heq).
    rewrite Hv in Heq. injection Heq as ->. by eapply verifier_inv.
  - rewrite Hother // in Hv.
Qed.

Lemma authenticate_inv W issuers env (a : St) raw :
  W env → verifiers_inv W issuers a → verifiers_inv W issuers (Authenticate env a raw).1.
Proof.
  intros HW Ha. cbn. destruct (StdAuthenticator_state re_now env a raw) as [->|(iss&v&token&Hv&->)]; [done|].
  intros name v' Hv'. cbn in Hv'. apply lookup_insert_Some in Hv' as [[<- <-]|[_ ?]]; [|by eapply Ha].
  destruct (Ha _ _ Hv) as (ic&?&?&?). exists ic. split_and!; [done..|]. by apply Verify_inv.
Qed.

(** The authenticator's state after the requests of a history. *)
Definition rule_state (rule : Rule St RemoteEnv) (hist : list (RemoteEnv * Context)) (a : St) : St :=
  foldl (λ a q, (rule q.1 q.2 a).1) a hist.

Lemma rule_state_inv W issuers getToken authRule hist a :
  Forall (λ q, W q.1) hist → verifiers_inv W issuers a →
  verifiers_inv W issuers (rule_state (jwt_rule getToken authRule) hist a).
Proof.
  unfold rule_state. intros Hh. revert a. induction Hh as [|q hist Hq _ IH]; intros a Ha; [done|]. cbn.
  apply IH. destruct (jwt_rule_state getToken authRule q.1 q.2 a) as [->|[raw ->]]; [done|].
  by apply authenticate_inv.
Qed.

(** The configuration a rule was made from. *)
Lemma resolve_Ok ctx h name expr factory rule a cfg :
  GetDefaultConfig ctx = Some cfg →
  (∀ d, cfg_Development cfg = Some d → dev_DisableAllAuthorizationRules d = false) →
  h_OverrideMakeJWTClaimsBasedAuthorizationRule h = None →
  resolve ctx h name expr factory = Ok (rule, a) →
  ∃ jwt e, lib_Authentication (cfg_Library cfg) ≫= auth_JWTAuth = Some jwt ∧
    CompileExpression ParseString expr = Ok e ∧
    AuthFromConfig url_Parse issuer_env (Some jwt) = Ok a ∧
    rule = factory (λ ctx claims, Expr_Evaluate (MakeStandardJWTHasScope claims) e).
Proof.
  intros Hcfg Hdev Hover. unfold resolveAuthorizationRule. rewrite Hcfg Hover. cbn -[DefaultHTTPClient].
  assert (match cfg_Development cfg with Some d => dev_DisableAllAuthorizationRules d | None => false end = false) as ->.
  { destruct (cfg_Development cfg); [by apply Hdev|done]. }
  intros (rule0&(e&He&[= <-])%res_bind_Ok&(c&_&Hrest)%res_bind_Ok)%res_bind_Ok.
  destruct (lib_Authentication (cfg_Library cfg) ≫= auth_JWTAuth) as [jwt|]; [|done].
  apply res_bind_Ok in Hrest as (a'&Ha&[= <- <-]). eauto 10.
Qed.

(** Proof of authorization for an endpoint's expression: [getToken] finds in the
    request a bearer token of a configured issuer, valid now, signed with a key this
    issuer served within the time to live of its cache, and the scopes its claims
    grant satisfy the expression; [ctx'] has those claims and no others. *)
Definition authorized_by (getToken : Context → res string) (W : RemoteEnv → Prop) (cfg : DefaultConfig)
    (expr : string) (env : RemoteEnv) (rctx ctx' : Context) : Prop :=
  ∃ jwt ic raw token sc kid ks key env' claims e,
    lib_Authentication (cfg_Library cfg) ≫= auth_JWTAuth = Some jwt ∧ ic ∈ jc_Issuers jwt ∧
    getToken rctx = Ok raw ∧
    ParseSigned raw = inr token ∧ UnsafeClaimsWithoutVerification token = inr sc ∧
    Issuer sc = ic_Name ic ∧ ValidateWithLeeway sc (re_now env) Second = None ∧
    HeaderKeyIDs token = [kid] ∧ W env' ∧ serves env' (ic_JWKSURL ic) ks ∧
    (env' = env ∨ (time_Since (re_now env) (re_put_time env') ≤ ic_CacheTTL ic)%Z) ∧
    head (KeySet_Key ks kid) = Some key ∧ TokenClaims token key = inr claims ∧
    CompileExpression ParseString expr = Ok e ∧
    holds (λ q, scope_granted claims q = true) e ∧
    AddClaimsToContext rctx claims = Ok ctx'.
(** The token of a REST request is in its header, that of a gRPC call in its metadata. *)
Definition authorized := authorized_by getBearerTokenFromIncomingRESTContext.
Definition grpc_authorized := authorized_by GetBearerFromIncomingContext.

(** The configuration lets rules decide, and its caches do not live forever. *)
Definition rules_apply (cfg : DefaultConfig) (h : AuthHooks) : Prop :=
  (∀ d, cfg_Development cfg = Some d → dev_DisableAllAuthorizationRules d = false) ∧
  h_OverrideMakeJWTClaimsBasedAuthorizationRule h = None.
Definition ttls_bounded (cfg : DefaultConfig) : Prop :=
  ∀ jwt, lib_Authentication (cfg_Library cfg) ≫= auth_JWTAuth = Some jwt →
    Forall (λ ic, ic_CacheTTL ic < maxInt64)%Z (jc_Issuers jwt).

(** Every verifier of an endpoint's authenticator is as the configuration says. *)
Definition authenticator_ok (W : RemoteEnv → Prop) (cfg : DefaultConfig) (a : St) : Prop :=
  ∀ jwt, lib_Authentication (cfg_Library cfg) ≫= auth_JWTAuth = Some jwt → verifiers_inv W (jc_Issuers jwt) a.

Section resolved.
Context {getToken : Context → res string} (W : RemoteEnv → Prop) (ctx : Context) (h : AuthHooks) (name expr : string)
  (rule : Rule St RemoteEnv) (a0 : St) (cfg : DefaultConfig).
Hypothesis Hcfg : GetDefaultConfig ctx = Some cfg.
Hypothesis Hrules : rules_apply cfg h.
Hypothesis Hres : resolve ctx h name expr (jwt_rule getToken) = Ok (rule, a0).

Lemma resolved_rule : ∃ e, CompileExpression ParseString expr = Ok e ∧
  rule = jwt_rule getToken (λ ctx claims, Expr_Evaluate (MakeStandardJWTHasScope claims) e).
Proof using Hcfg Hrules Hres.
  destruct Hrules. destruct (resolve_Ok _ _ _ _ _ _ _ _ Hcfg ltac:(done) ltac:(done) Hres) as (jwt&e&?&?&?&->). by exists e.
Qed.

Lemma resolved_authenticator_ok : (∀ n, W (issuer_env n)) → authenticator_ok W cfg a0.
Proof using Hcfg Hrules Hres.
  intros HW jwt Hjwt. destruct Hrules.
  destruct (resolve_Ok _ _ _ _ _ _ _ _ Hcfg ltac:(done) ltac:(done) Hres) as (jwt'&e&Hjwt'&?&?&_).
  rewrite Hjwt in Hjwt'. injection Hjwt' as <-. by apply AuthFromConfig_inv.
Qed.

Lemma resolved_state_ok hist a :
  Forall (λ q, W q.1) hist → authenticator_ok W cfg a → authenticator_ok W cfg (rule_state rule hist a).
Proof using Hcfg Hrules Hres.
  intros Hhist Ha jwt Hjwt. destruct resolved_rule as (e&_&->). apply rule_state_inv; [done|by apply Ha].
Qed.

Lemma resolved_rule_authorizes env rctx a a' ctx' :
  W env → modern_clock env → ttls_bounded cfg → authenticator_ok W cfg a →
  rule env rctx a = (a', Ok (Some ctx', None)) → authorized_by getToken W cfg expr env rctx ctx'.
Proof using Hcfg Hrules Hres.
  intros Henv Hclock Httl Hok Hgrant. destruct Hrules as [Hdev Hover].
  destruct (resolve_Ok _ _ _ _ _ _ _ _ Hcfg Hdev Hover Hres) as (jwt&e&Hjwt&He&_&->).
  apply jwt_rule_granted in Hgrant as (raw&claims&Hraw&Hauth&Heval&Hadd).
  apply StdAuthenticator_Ok_inv in Hauth as (token&sc&v&v'&Hp&Hsc&Hval&Hv&Hver&_).
  destruct (Hok _ Hjwt _ _ Hv) as (ic&Hic&Hname&Hcache).
  assert (ic_CacheTTL ic < maxInt64)%Z as Ht.
  { specialize (Httl _ Hjwt). rewrite list.Forall_forall in Httl. by apply Httl. }
  apply (Verify_accepts W _ _ _ _ _ _ _ Hcache Henv Ht Hclock) in Hver
    as (kid&ks&key&env'&?&?&?&?&?&?).
  apply CompileExpression_wf in He as Hwf.
  destruct (evaluate_standard claims e Hwf) as (b&Hb'&Hiff). rewrite Hb' in Heval. injection Heval as ->.
  do 11 eexists. split_and!; try done. by apply Hiff.
Qed.
End resolved.

(** C3. An endpoint is only ever reached with proof of authorization: whatever
    requests came before, when the rule resolved for a REST endpoint grants a
    request (and the rules are not disabled or overridden), the request's header
    had a bearer token of a configured issuer, valid now, signed with a key that
    this issuer served within the time to live of its cache, and the scopes its
    signed claims grant satisfy the endpoint's expression; those claims, and
    no others, are in the context the handler gets. *)
Theorem REST_endpoint_guarded W ctx h name expr rule a0 cfg hist env rctx a' ctx' :
  GetDefaultConfig ctx = Some cfg → rules_apply cfg h →
  ResolveRESTAuthorizationRule m ParseString url_Parse issuer_env url_Parse_proxy ProxyFromEnvironment
    ctx h name expr = Ok (rule, a0) →
  (∀ n, W (issuer_env n)) → Forall (λ q, W q.1) hist → W env → modern_clock env → ttls_bounded cfg →
  rule env rctx (rule_state rule hist a0) = (a', Ok (Some ctx', None)) →
  authorized W cfg expr env rctx ctx'.
Proof.
  intros Hcfg Hrules Hres HW Hhist Henv Hclock Httl Hgrant.
  refine (resolved_rule_authorizes W ctx h name expr rule a0 cfg Hcfg Hrules Hres env rctx _ _ _ Henv Hclock Httl _ Hgrant).
  apply (resolved_state_ok W ctx h name expr rule a0 cfg Hcfg Hrules Hres); [done|].
  by apply (resolved_authenticator_ok W ctx h name expr rule a0 cfg Hcfg Hrules Hres).
Qed.

(** Without a configuration in the context, resolving a rule dereferences nil: the
    later comparison with nil, which would give an error naming the endpoint,
    is never reached. With one, a missing [library.authentication.jwtauth]
    gives that error, once the expression compiles. *)
Theorem resolveAuthorizationRule_needs_config ctx h name expr factory :
  (GetDefaultConfig ctx = None → resolve ctx h name expr factory = Panic nil_dereference) ∧
  (∀ cfg, GetDefaultConfig ctx = Some cfg →
     lib_Authentication (cfg_Library cfg) ≫= auth_JWTAuth = None → cfg_Development cfg = None →
     h_OverrideMakeJWTClaimsBasedAuthorizationRule h = None →
     match CompileExpression ParseString expr with
     | Ok _ => ∃ msg, resolve ctx h name expr factory =
         Err (ErrText ("method/endpoint " +:+ name +:+ msg))
     | Err e => resolve ctx h name expr factory = Err e
     | Panic p => resolve ctx h name expr factory = Panic p
     end).
Proof.
  unfold resolveAuthorizationRule. split; [by intros ->|].
  intros cfg -> Hjwt Hdev Hover. cbn -[DefaultHTTPClient String.append]. rewrite Hdev Hover.
  unfold MakeDefaultJWTClaimsBasedAuthorizationRule.
  destruct (CompileExpression ParseString expr); [|done..]. cbn -[String.append].
  rewrite Hjwt. by eexists.
Qed.
End endpoint.

(** ** Resolution of the gRPC options *)

(** Both hooks at once is an error; an overriding hook decides alone; otherwise the
    defaults come first. *)
Lemma ResolveGrpcDialOptions_spec `{Crypto} (m : Machine) name h cfg :
  match h_AdditionalGrpcDialOptions h, h_OverrideGrpcDialOptions h with
  | [], Some f => ResolveGrpcDialOptions m name h cfg = f name cfg
  | _ :: _, Some _ => is_ok (ResolveGrpcDialOptions m name h cfg) = false
  | additional, None => ∀ opts, ResolveGrpcDialOptions m name h cfg = Ok opts ↔
      ∃ defaults, DefaultGrpcDialOptions m cfg = Ok defaults ∧ opts = defaults ++ additional
  end.
Proof.
  unfold ResolveGrpcDialOptions.
  destruct (h_AdditionalGrpcDialOptions h), (h_OverrideGrpcDialOptions h); try done;
    intros opts; rewrite res_bind_Ok; split; intros (d&?&H'); exists d; simplify_eq; by auto.
Qed.

(** ** A concrete endpoint *)
Module RuleExample.
#[local] Existing Instance Example.jose.
#[local] Existing Instance TlsExample.crypto.
Definition cfg : DefaultConfig :=
  mkDefaultConfig (mkLibraryConfig zero_LogConfig false false
    (Some (mkAuthenticationConfig (Some (mkJwtConfig [Example.issuer])))) (mkTraceConfig ""))
    None (mkGenCodeConfig zero_UpstreamConfig VNil) None.
Definition ctx : Context := PutDefaultConfig Background cfg.
Definition hooks : AuthHooks := mkAuthHooks _ [] None [] None None.
Definition ParseString (s : string) : error + Expr := inr (scope_atom s).
Definition issuer_env (name : string) : RemoteEnv := Example.day1.
Definition rctx : Context :=
  RequestHeaderToContext map_to_list Background (Some {["Authorization" := ["bearer alice-token"]]}).
Definition result : res (Rule (StdAuthenticator RemoteJWKSIssuer) RemoteEnv * StdAuthenticator RemoteJWKSIssuer) :=
  ResolveRESTAuthorizationRule TlsExample.machine ParseString Example.parse_any issuer_env
    (λ u, inr u) (λ _, inr None) ctx hooks "GET /accounts" "read".
Definition rule_and_state := match result with Ok p => p | _ => (InsecureAlwaysGrantAccess, mkStdAuthenticator ∅) end.
Definition granted (r : res (option Context * option error)) : option Context :=
  match r with Ok (Some c, None) => Some c | _ => None end.

Lemma result_Ok : result = Ok rule_and_state.
Proof.
  unfold rule_and_state. assert (is_ok result = true) as H by (by_vm).
  by destruct result.
Defined.
End RuleExample.
#[local] Existing Instance JwtHttpExample.inst.
#[local] Existing Instance Example.jose.
#[local] Existing Instance TlsExample.crypto.

Lemma jwt_rule_spec_witness :
  ∃ c, jwt_rule (S := ()) (Env := ()) getBearerTokenFromIncomingRESTContext (λ _ _, Ok true) () RuleExample.rctx () =
    ((), Ok (Some c, None)).
Proof.
  destruct (proj1 (jwt_rule_spec (S := ()) (Env := ()) getBearerTokenFromIncomingRESTContext (λ _ _, Ok true) ()
    RuleExample.rctx ()) "alice-token" example_claims ()) as [H _]; [reflexivity..|].
  rewrite (H eq_refl). exists (match AddClaimsToContext RuleExample.rctx example_claims with Ok c => c | _ => Background end).
  by_vm.
Defined.

Lemma REST_endpoint_guarded_witness :
  let '(rule, a0) := RuleExample.rule_and_state in
  ∃ a' ctx', rule Example.day1 RuleExample.rctx (rule_state rule [] a0) = (a', Ok (Some ctx', None)) ∧
    ∃ token key claims, ParseSigned "alice-token" = inr token ∧ TokenClaims token key = inr claims ∧
      AddClaimsToContext RuleExample.rctx claims = Ok ctx'.
Proof.
  pose proof RuleExample.result_Ok as Hres.
  set (first := RuleExample.granted (RuleExample.rule_and_state.1 Example.day1 RuleExample.rctx
    (rule_state RuleExample.rule_and_state.1 [] RuleExample.rule_and_state.2)).2).
  assert (is_Some first) as Hg.
  { assert (match first with Some _ => true | None => false end = true) as H by by_vm.
    destruct first; [by eexists|discriminate H]. }
  subst first.
  destruct RuleExample.rule_and_state as [rule a0]. cbn [fst snd] in Hg.
  destruct (rule Example.day1 RuleExample.rctx (rule_state rule [] a0)) as [a' r] eqn:E.
  destruct Hg as [ctx' Hg]. destruct r as [[[c|] [err|]]|err|p]; try discriminate Hg.
  injection Hg as ->. exists a', ctx'. split; [exact eq_refl|].
  destruct (REST_endpoint_guarded TlsExample.machine RuleExample.ParseString Example.parse_any
    RuleExample.issuer_env (λ u, inr u) (λ _, inr None) Example.W RuleExample.ctx RuleExample.hooks
    "GET /accounts" "read" rule a0 RuleExample.cfg [] Example.day1 RuleExample.rctx a' ctx')
    as (jwt&ic&raw&token&sc&kid&ks&key&env'&claims&e&_&_&Hraw&Hp&_&_&_&_&_&_&_&_&Hc&_&_&Hadd).
  - reflexivity.
  - split; [discriminate|reflexivity].
  - exact Hres.
  - by left.
  - constructor.
  - by left.
  - vm_compute. discriminate.
  - intros jwt [= <-]. repeat constructor.
  - exact E.
  - vm_compute in Hraw. injection Hraw as <-. exists token, key, claims. split_and!; done.
Defined.

Lemma resolveAuthorizationRule_needs_config_witness :
  resolveAuthorizationRule TlsExample.machine RuleExample.ParseString Example.parse_any
    RuleExample.issuer_env (λ u, inr u) (λ _, inr None) Background RuleExample.hooks "GET /" "read"
    MakeRESTJWTAuthorizationRule = Panic nil_dereference.
Proof.
  apply (proj1 (resolveAuthorizationRule_needs_config TlsExample.machine RuleExample.ParseString
    Example.parse_any RuleExample.issuer_env (λ u, inr u) (λ _, inr None) Background RuleExample.hooks
    "GET /" "read" MakeRESTJWTAuthorizationRule)). reflexivity.
Defined.
