(* ===== verification/MultiServer.v ===== *)
(** * Servers that can be stopped: src/core/stoppableserver.go, and of src/core/serve.go
    the server made of several

    [multiStoppableServer] starts every sub-server in a goroutine of its own and
    waits on a channel for the first one to end; [Stop] and [GracefulStop] stop
    them all at once and collect the errors. The goroutines are modelled as
    labelled step functions: a label for each call of a sub-server that returns and
    for each operation on a channel. *)

From stdpp Require Import pretty.
From S2P Require Export Go.

(** ** The interface *)

(** What the calls on a server may return. [Start] blocks until the server ends;
    [stopped] says whether it was stopped while it was serving. *)
Class StoppableServer (A : Type) := {
  GetName : A → string;
  Start_returns : A → ∀ stopped : bool, res () → Prop;
  Stop_returns : A → res () → Prop;
  GracefulStop_returns : A → res () → Prop
}.

(** What the interface's comments promise: on a successful stop, [Start] returns
    no error. *)
Class StoppableServerLaws (A : Type) `{!StoppableServer A} : Prop :=
  Start_stopped : ∀ (a : A) r, Start_returns a true r → r = Ok ().

(** ** Errors *)

Section texts.
(** The [Error] method of a value of the interface [error], and [%v] of the other
    values a goroutine can panic with. *)
Context (error_Error : error → string) (fmt_value : value → string).

Definition fmt_panic (p : panicval) : string :=
  match p with PanicString s => s | PanicError e => error_Error e | PanicOther v => fmt_value v end.

Definition MultiError_Error (msg : string) (errors : list error) : string :=
  msg +:+ "; sub-error(s): " +:+ Join (error_Error <$> errors) "; ".

(** ** Start *)

(** What goroutine [i] sends on the channel once [server.Start()] is over; a panic
    that [recover] does not see ends the goroutine with nothing sent. *)
Definition sub_result (i : nat) (name : string) (r : res ()) : option error :=
  let server := "server " +:+ pretty (S i) +:+ " (" +:+ name +:+ ")" in
  match r with
  | Ok _ => None
  | Err e => Some (ErrText (server +:+ " returned an error: " +:+ error_Error e))
  | Panic p => Some (ErrText (server +:+ " panicked: " +:+ fmt_panic p))
  end.

Definition sends (r : res ()) : bool :=
  match r with Panic p => bool_decide (is_Some (recover p)) | _ => true end.

(** The goroutine of a sub-server: [GLost] has ended without a word. *)
Inductive gstatus := GRunning | GSending (err : option error) | GDone | GLost.

Record start_state := mk_start_state {
  st_goroutines : list gstatus;
  st_errChan : list (option error);
  st_result : option (option error)  (* what Start has returned *)
}.

(** The capacity of [errChan]. *)
Definition errChan_cap : nat := 1.

Inductive start_label :=
| LEnd (i : nat) (r : res ())   (* server.Start() returns or panics *)
| LSend (i : nat)               (* errChan <- err *)
| LReceive.                     (* return <-errChan *)

Section start.
Context {A : Type} `{!StoppableServer A}.

Definition start_init (servers : list A) : start_state :=
  mk_start_state (replicate (length servers) GRunning) [] None.

Definition start_step (servers : list A) (s : start_state) (l : start_label) : option start_state :=
  match l with
  | LEnd i r =>
      match servers !! i, st_goroutines s !! i with
      | Some server, Some GRunning =>
          let g := if sends r then GSending (sub_result i (GetName server) r) else GLost in
          Some (mk_start_state (<[i := g]> (st_goroutines s)) (st_errChan s) (st_result s))
      | _, _ => None
      end
  | LSend i =>
      match st_goroutines s !! i with
      | Some (GSending err) =>
          if bool_decide (length (st_errChan s) < errChan_cap)%nat then
            Some (mk_start_state (<[i := GDone]> (st_goroutines s)) (st_errChan s ++ [err]) (st_result s))
          else None
      | _ => None
      end
  | LReceive =>
      match st_result s, st_errChan s with
      | None, err :: rest => Some (mk_start_state (st_goroutines s) rest (Some err))
      | _, _ => None
      end
  end.

(** Executions; every result of a sub-server is one it may give. *)
Inductive start_runs (servers : list A) : list start_label → start_state → Prop :=
| start_runs_nil : start_runs servers [] (start_init servers)
| start_runs_snoc ls s l s' :
    start_runs servers ls s → start_step servers s l = Some s' →
    (∀ i r, l = LEnd i r → ∃ server stopped, servers !! i = Some server ∧ Start_returns server stopped r) →
    start_runs servers (ls ++ [l]) s'.
End start.

(** ** Stop and GracefulStop

    The two differ in the method they call and in the message. *)
Inductive pstatus := PRunning | PQueueing (err : error) | PDone (err : option error).

Record stop_state := mk_stop_state {
  sp_goroutines : list pstatus;
  sp_errQueue : list error
}.

Inductive stop_label :=
| LStopped (i : nat) (err : option error)  (* server.Stop() returns *)
| LQueue (i : nat).                        (* errQueue <- err *)

Definition stop_init (n : nat) : stop_state := mk_stop_state (replicate n PRunning) [].

Definition stop_step (s : stop_state) (l : stop_label) : option stop_state :=
  match l with
  | LStopped i err =>
      match sp_goroutines s !! i with
      | Some PRunning =>
          Some (mk_stop_state
            (<[i := match err with Some e => PQueueing e | None => PDone None end]> (sp_goroutines s))
            (sp_errQueue s))
      | _ => None
      end
  | LQueue i =>
      match sp_goroutines s !! i with
      | Some (PQueueing e) =>
          if bool_decide (length (sp_errQueue s) < length (sp_goroutines s))%nat then
            Some (mk_stop_state (<[i := PDone (Some e)]> (sp_goroutines s)) (sp_errQueue s ++ [e]))
          else None
      | _ => None
      end
  end.

Inductive stop_runs (n : nat) : list stop_label → stop_state → Prop :=
| stop_runs_nil : stop_runs n [] (stop_init n)
| stop_runs_snoc ls s l s' :
    stop_runs n ls s → stop_step s l = Some s' → stop_runs n (ls ++ [l]) s'.

Definition is_done (g : pstatus) : bool := match g with PDone _ => true | _ => false end.

(** [wg.Wait()] lets through once every goroutine is done; the queue is drained. *)
Definition stop_result (msg : string) (s : stop_state) : option (option error) :=
  if forallb is_done (sp_goroutines s) then
    Some (if bool_decide (0 < length (sp_errQueue s))%nat then Some (ErrMulti msg (sp_errQueue s)) else None)
  else None.

Definition stop_msg : string := "error during stop".
Definition graceful_stop_msg : string := "error during graceful stop".
End texts.

(** ** Start returns what the first sub-server to end came to *)

Definition is_send (l : start_label) : bool := match l with LSend _ => true | _ => false end.
Definition is_gdone (g : gstatus) : bool := match g with GDone => true | _ => false end.

Section start_properties.
Context (error_Error : error → string) (fmt_value : value → string).
Context {A : Type} `{!StoppableServer A} (servers : list A).
Notation runs := (start_runs error_Error fmt_value servers).
Notation step := (start_step error_Error fmt_value servers).
Notation result := (sub_result error_Error fmt_value).

(** What a goroutine that has ended sends is what its server came to. *)
Lemma sending_ended ls s i err :
  runs ls s → st_goroutines s !! i = Some (GSending err) →
  ∃ server stopped r, LEnd i r ∈ ls ∧ servers !! i = Some server ∧ Start_returns server stopped r ∧
    err = result i (GetName server) r.
Proof.
  intros H. revert i err. induction H as [|ls s l s' H IH Hstep Hok]; intros i err.
  { cbn. intros [? _]%lookup_replicate. done. }
  assert (∀ j err', st_goroutines s !! j = Some (GSending err') →
    ∃ server stopped r, LEnd j r ∈ ls ++ [l] ∧ servers !! j = Some server ∧ Start_returns server stopped r ∧
      err' = result j (GetName server) r) as IH'.
  { intros j err' (server&stopped&r&?&?)%IH. exists server, stopped, r. rewrite elem_of_app. tauto. }
  destruct l as [j r|j|]; cbn in Hstep.
  - destruct (servers !! j) as [server|] eqn:Hs; [|done].
    destruct (st_goroutines s !! j) as [[]|] eqn:Hg; simplify_eq/=.
    destruct (decide (i = j)) as [->|]; [|rewrite list_lookup_insert_ne //; apply IH'].
    rewrite list_lookup_insert_eq; [by eapply lookup_lt_Some|]. destruct (sends r); intros [= <-].
    destruct (Hok j r eq_refl) as (server'&stopped&E&?). rewrite Hs in E. injection E as <-.
    exists server, stopped, r. split; [|done]. apply elem_of_app. right. by apply list_elem_of_singleton.
  - destruct (st_goroutines s !! j) as [[]|] eqn:Hg; try done.
    case_bool_decide; simplify_eq/=.
    destruct (decide (i = j)) as [->|]; [|rewrite list_lookup_insert_ne //; apply IH'].
    rewrite list_lookup_insert_eq; [by eapply lookup_lt_Some|]. done.
  - destruct (st_result s), (st_errChan s); simplify_eq/=. apply IH'.
Qed.

(** The value Start returned, or will receive first, is that of the first send. *)
Definition first_value (s : start_state) : option (option error) :=
  match st_result s with Some e => Some e | None => head (st_errChan s) end.

Lemma first_value_sent ls s :
  runs ls s →
  (first_value s = None → Forall (λ l, is_send l = false) ls) ∧
  (∀ err, first_value s = Some err →
    ∃ before i after server stopped r, ls = before ++ LSend i :: after ∧
      Forall (λ l, is_send l = false) before ∧ LEnd i r ∈ before ∧
      servers !! i = Some server ∧ Start_returns server stopped r ∧ err = result i (GetName server) r).
Proof.
  induction 1 as [|ls s l s' H IH Hstep Hok]; [by split; [constructor|]|].
  assert (∀ err, first_value s = Some err → ∃ before i after server stopped r,
    ls ++ [l] = before ++ LSend i :: after ∧ Forall (λ l, is_send l = false) before ∧ LEnd i r ∈ before ∧
    servers !! i = Some server ∧ Start_returns server stopped r ∧ err = result i (GetName server) r) as Hold.
  { intros err (before&i&after&server&stopped&r&->&?)%(proj2 IH).
    exists before, i, (after ++ [l]), server, stopped, r. by rewrite -app_assoc. }
  assert (∀ v, first_value s = Some v → first_value s' = Some v) as Hkeep.
  { intros v. unfold first_value. destruct l as [j r|j|]; cbn in Hstep;
      repeat case_match; simplify_eq/=; try done. by destruct (st_errChan s). }
  destruct (first_value s) as [v|] eqn:Hv.
  { rewrite (Hkeep v eq_refl). split; [done|]. intros err [= <-]. by apply Hold. }
  destruct IH as [IH _]. specialize (IH eq_refl).
  unfold first_value in Hv. destruct (st_result s) eqn:Hr; [done|].
  destruct (st_errChan s) eqn:Hc; [|done].
  destruct l as [j r|j|]; cbn in Hstep.
  - destruct (servers !! j); [|done]. destruct (st_goroutines s !! j) as [[]|]; simplify_eq/=.
    unfold first_value. cbn. rewrite Hr Hc. split; [|done]. intros _.
    apply list.Forall_app. split; [done|]. by constructor.
  - destruct (st_goroutines s !! j) as [[|err| |]|] eqn:Hg; try done.
    destruct (sending_ended _ _ _ _ H Hg) as (server&stopped&r&?&?&?&->).
    case_bool_decide; simplify_eq/=. unfold first_value. cbn. rewrite Hr Hc. split; [done|].
    intros ? [= <-]. by exists ls, j, [], server, stopped, r.
  - by rewrite Hr Hc in Hstep.
Qed.

(** C15. [Start] returns what came of the first sub-server to report that it had
    ended, and only then: nil if that server returned without an error, and else an
    error that names the server; a panic of the server becomes an error too. If
    every server keeps the promise of the interface and they were all stopped,
    [Start] returns nil. *)
Theorem multiStoppableServer_Start_spec ls s err :
  start_runs error_Error fmt_value servers ls s → st_result s = Some err →
  (∃ before i after server stopped r, ls = before ++ LSend i :: after ∧
     Forall (λ l, is_send l = false) before ∧ LEnd i r ∈ before ∧
     servers !! i = Some server ∧ Start_returns server stopped r ∧
     err = sub_result error_Error fmt_value i (GetName server) r ∧ (err = None ↔ r = Ok ())) ∧
  (StoppableServerLaws A →
   (∀ i r, LEnd i r ∈ ls → ∃ server, servers !! i = Some server ∧ Start_returns server true r) →
   err = None).
Proof.
  intros H Hr. destruct (first_value_sent _ _ H) as [_ Hfirst].
  destruct (Hfirst err) as (before&i&after&server&stopped&r&->&?&Hin&Hs&?&->).
  { unfold first_value. by rewrite Hr. }
  split.
  - exists before, i, after, server, stopped, r. split_and!; try done. by destruct r as [[]| |].
  - intros laws Hall. destruct (Hall i r) as (server'&E&Hst).
    { apply elem_of_app. by left. }
    rewrite E in Hs. injection Hs as ->. by rewrite (Start_stopped _ _ Hst).
Qed.

(** ** It does return, and what it leaves behind *)

Lemma start_counts ls s :
  runs ls s →
  length (st_goroutines s) = length servers ∧
  (length (filter (λ g, is_gdone g = true) (st_goroutines s)) =
    length (st_errChan s) + match st_result s with Some _ => 1 | None => 0 end)%nat ∧
  (length (st_errChan s) ≤ errChan_cap)%nat.
Proof.
  assert (∀ l i g g', l !! i = Some g → is_gdone g = false →
    length (filter (λ g, is_gdone g = true) (<[i := g']> l)) =
    (length (filter (λ g, is_gdone g = true) l) + if is_gdone g' then 1 else 0)%nat) as Hins.
  { intros l. induction l as [|h l IH]; intros [|i] g g' Hl Hg; simplify_eq/=; rewrite !list.filter_cons.
    - rewrite Hg. case_decide; [|by destruct (is_gdone g')]. rewrite H /=. lia.
    - case_decide; cbn; by rewrite (IH i g g' Hl Hg). }
  induction 1 as [|ls s l s' H (IHl&IHd&IHc) Hstep Hok].
  { cbn. rewrite length_replicate. split_and!; [done| |unfold errChan_cap; lia].
    by induction (length servers). }
  destruct l as [j r|j|]; cbn in Hstep.
  - destruct (servers !! j); [|done]. destruct (st_goroutines s !! j) as [[]|] eqn:Hg; simplify_eq/=.
    rewrite length_insert (Hins _ _ _ _ Hg) //. destruct (sends r); by rewrite Nat.add_0_r.
  - destruct (st_goroutines s !! j) as [[]|] eqn:Hg; try done. case_bool_decide; simplify_eq/=.
    rewrite length_insert (Hins _ _ _ _ Hg) // length_app /=. split_and!; [done|lia|lia].
  - destruct (st_result s) eqn:Hr, (st_errChan s) eqn:Hc; simplify_eq/=. split_and!; [done|lia|lia].
Qed.

(** [Start] does return once a sub-server has ended: from any state it can be in,
    at most two operations on the channel away. But the channel holds one value and
    [Start] takes one: at most two sub-servers' goroutines ever end, so that with
    three servers one of them is left blocked on its send for good. *)
Theorem multiStoppableServer_Start_progress ls s :
  start_runs error_Error fmt_value servers ls s →
  (∀ i err, st_result s = None → st_goroutines s !! i = Some (GSending err) →
    ∃ ls' s', (length ls' ≤ 2)%nat ∧ start_runs error_Error fmt_value servers (ls ++ ls') s' ∧
      is_Some (st_result s')) ∧
  (length (filter (λ g, is_gdone g = true) (st_goroutines s)) ≤ 2)%nat ∧
  (is_Some (st_result s) → length (st_errChan s) = errChan_cap →
   ∀ i, start_step error_Error fmt_value servers s (LSend i) = None).
Proof.
  intros H. destruct (start_counts _ _ H) as (Hlen&Hdone&Hcap).
  split_and!.
  - intros i err Hr Hg. destruct (st_errChan s) as [|v rest] eqn:Hc.
    + set (s1 := mk_start_state (<[i := GDone]> (st_goroutines s)) [err] None).
      exists [LSend i; LReceive], (mk_start_state (<[i := GDone]> (st_goroutines s)) [] (Some err)).
      split_and!; [by cbn; lia| |by eexists]. rewrite (app_assoc _ [LSend i] [LReceive]).
      apply (start_runs_snoc _ _ _ _ s1); [|done|done].
      apply (start_runs_snoc _ _ _ _ s); [done| |done]. cbn. by rewrite Hg Hc Hr.
    + exists [LReceive], (mk_start_state (st_goroutines s) rest (Some v)).
      split_and!; [by cbn; lia| |by eexists].
      apply (start_runs_snoc _ _ _ _ s); [done| |done]. cbn. by rewrite Hr Hc.
  - unfold errChan_cap in Hcap. destruct (st_result s); lia.
  - intros _ Hfull i. cbn. rewrite Hfull. destruct (st_goroutines s !! i) as [[]|]; try done.
Qed.
(** One step of some goroutine, a sub-server's call ending as it may. *)
Definition start_next (s s' : start_state) : Prop :=
  ∃ l, start_step error_Error fmt_value servers s l = Some s' ∧
    ∀ i r, l = LEnd i r → ∃ server stopped, servers !! i = Some server ∧ Start_returns server stopped r.

Definition gweight (g : gstatus) : nat :=
  match g with GRunning => 3 | GSending _ => 2 | GDone | GLost => 0 end.
Definition start_measure (s : start_state) : nat :=
  sum_list_with gweight (st_goroutines s) + length (st_errChan s).

(** Something was, or is about to be, sent. *)
Definition reported (s : start_state) : Prop :=
  is_Some (st_result s) ∨ st_errChan s ≠ [] ∨ ∃ i err, st_goroutines s !! i = Some (GSending err).

Lemma start_next_reported s s' : reported s → start_next s s' → reported s'.
Proof.
  intros Hr (l&Hl&_). destruct l as [j r|j|]; cbn in Hl.
  - destruct (servers !! j); [|done]. destruct (st_goroutines s !! j) as [[]|] eqn:Hg; simplify_eq/=.
    destruct Hr as [?|[?|(i&err&Hi)]]; [by left|by right; left|]. right. right. exists i, err.
    rewrite /= list_lookup_insert_ne //. congruence.
  - destruct (st_goroutines s !! j) as [[]|]; try done. case_bool_decide; simplify_eq/=.
    right. left. by destruct (st_errChan s).
  - destruct (st_result s), (st_errChan s); simplify_eq/=. left. by eexists.
Qed.

Lemma start_next_measure s s' : start_next s s' → (start_measure s' < start_measure s)%nat.
Proof.
  intros (l&Hl&_). unfold start_measure. destruct l as [j r|j|]; cbn in Hl.
  - destruct (servers !! j); [|done]. destruct (st_goroutines s !! j) as [[]|] eqn:Hg; simplify_eq/=.
    set (g := if sends r then _ else _). pose proof (sum_list_with_insert gweight _ _ _ g Hg) as Hw.
    assert (gweight g ≤ 2)%nat by (subst g; destruct (sends r); cbn; lia). cbn in *. lia.
  - destruct (st_goroutines s !! j) as [[|err| |]|] eqn:Hg; try done. case_bool_decide; simplify_eq/=.
    pose proof (sum_list_with_insert gweight _ _ _ GDone Hg) as Hw. rewrite length_app. cbn in *. lia.
  - destruct (st_result s), (st_errChan s); simplify_eq/=. lia.
Qed.

(** Away from the end of [Start] there is an operation on the channel that can go on. *)
Lemma reported_enabled s : reported s → st_result s = None →
  ∃ l s', start_step error_Error fmt_value servers s l = Some s' ∧ ∀ i r, l ≠ LEnd i r.
Proof.
  intros Hr Hnone. destruct (st_errChan s) as [|v rest] eqn:Hc.
  - destruct Hr as [[? Hr]|[?|(j&e&Hj)]]; [congruence|done|]. eexists (LSend j), _.
    split; [|done]. cbn. by rewrite Hj Hc.
  - eexists LReceive, _. split; [|done]. cbn. by rewrite Hnone Hc.
Qed.

(** C17. Once a sub-server has reported its end, [Start] returns on every schedule of the
    goroutines, whatever the other sub-servers do: it waits for nobody else. *)
Theorem multiStoppableServer_Start_returns s i err :
  st_goroutines s !! i = Some (GSending err) →
  eventually start_next (λ s, is_Some (st_result s)) s.
Proof.
  intros Hi. apply (eventually_measure start_next reported _ start_measure); [| |by right; right; eauto].
  - intros s0 Hr Hn. destruct (reported_enabled s0 Hr) as (l&s1&Hl&Hne); [by destruct (st_result s0); [destruct Hn|]|].
    exists s1, l. split; [done|]. intros j r ->. by destruct (Hne j r).
  - intros s0 s1 Hr _ Hs. split; [by eapply start_next_reported|by apply start_next_measure].
Qed.
End start_properties.

(** ** Stopping reaches every sub-server and loses no error *)

Definition returned (g : pstatus) : option (option error) :=
  match g with PRunning => None | PQueueing e => Some (Some e) | PDone err => Some err end.
Definition queued (g : pstatus) : list error := match g with PDone (Some e) => [e] | _ => [] end.

(** Replacing the entry of goroutine [i]. *)
Lemma insert_split {B C} (f : B → list C) (l : list B) i g g' :
  l !! i = Some g → ∃ l1 l2, l = l1 ++ g :: l2 ∧ <[i := g']> l = l1 ++ g' :: l2.
Proof.
  intros Hl. exists (take i l), (drop (S i) l).
  pose proof (lookup_lt_Some _ _ _ Hl). split; [by rewrite take_drop_middle|].
  rewrite -{1}(take_drop_middle l i g Hl) insert_app_r_alt length_take_le; [lia..|].
  by rewrite Nat.sub_diag.
Qed.

(** The calls to [Stop] of server [i], in the order they returned. *)
Definition stops_of (i : nat) (ls : list stop_label) : list (option error) :=
  omap (λ l, match l with LStopped j err => if bool_decide (j = i) then Some err else None | _ => None end) ls.

Lemma stops_of_snoc i ls l : stops_of i (ls ++ [l]) = stops_of i ls ++ stops_of i [l].
Proof. apply omap_app. Qed.

Lemma elem_of_stops i e ls : e ∈ stops_of i ls → LStopped i e ∈ ls.
Proof.
  unfold stops_of. rewrite list_elem_of_omap. intros ([j e'|j]&Hin&E); [|done].
  case_bool_decide; by simplify_eq.
Qed.

Lemma stop_inv n ls s :
  stop_runs n ls s →
  length (sp_goroutines s) = n ∧
  sp_errQueue s ≡ₚ (sp_goroutines s ≫= queued) ∧
  (length (sp_errQueue s) + length (filter (λ g, is_done g = false) (sp_goroutines s)) ≤ n)%nat ∧
  (∀ i g, sp_goroutines s !! i = Some g → stops_of i ls = option_list (returned g)).
Proof.
  induction 1 as [|ls s l s' H (IHl&IHq&IHc&IHr) Hstep].
  { cbn. rewrite length_replicate. split_and!; [done| | |].
    - induction n; by cbn.
    - etrans; [apply length_filter|]. by rewrite length_replicate.
    - intros i g [-> _]%lookup_replicate. done. }
  destruct l as [j err|j]; cbn in Hstep.
  - destruct (sp_goroutines s !! j) as [[]|] eqn:Hg; simplify_eq/=.
    set (g' := match err with Some e => PQueueing e | None => PDone None end).
    destruct (insert_split queued _ j _ g' Hg) as (l1&l2&E1&E2).
    rewrite length_insert. split_and!; [done| | |].
    + rewrite E2 IHq E1 !bind_app /=. by subst g'; destruct err.
    + revert IHc. rewrite E2 E1 !list.filter_app !length_app.
      rewrite list.filter_cons_True // (list.filter_cons _ g'). subst g'. case_decide; cbn; lia.
    + intros i g. rewrite stops_of_snoc. cbn. case_bool_decide as E; [subst j|].
      * rewrite list_lookup_insert_eq; [by eapply lookup_lt_Some|]. intros [= <-].
        rewrite (IHr _ _ Hg) /=. by subst g'; destruct err.
      * rewrite list_lookup_insert_ne // app_nil_r. apply IHr.
  - destruct (sp_goroutines s !! j) as [[|e|]|] eqn:Hg; try done. case_bool_decide; simplify_eq/=.
    destruct (insert_split queued _ j _ (PDone (Some e)) Hg) as (l1&l2&E1&E2).
    rewrite length_insert. split_and!; [done| | |].
    + rewrite E2 IHq E1 !bind_app /= -app_assoc. apply Permutation_app_head. apply (Permutation_app_comm _ [e]).
    + revert IHc. rewrite E2 E1 !list.filter_app !length_app.
      rewrite list.filter_cons_True // list.filter_cons_False //=. lia.
    + intros i g. rewrite stops_of_snoc /= app_nil_r. destruct (decide (j = i)) as [->|].
      * rewrite list_lookup_insert_eq; [by eapply lookup_lt_Some|]. intros [= <-].
        by rewrite (IHr _ _ Hg).
      * rewrite list_lookup_insert_ne //. apply IHr.
Qed.

Lemma done_queued (gs : list pstatus) (errs : list (option error)) :
  Forall2 (λ g err, is_done g = true ∧ returned g = Some err) gs errs → gs ≫= queued = omap id errs.
Proof. induction 1 as [|[| |[]] err gs errs [? E]]; simplify_eq/=; by f_equal. Qed.

(** A call that is over has every sub-server's own result behind it. *)
Lemma stop_complete n msg ls s err :
  stop_runs n ls s → stop_result msg s = Some err →
  ∃ errs, length errs = n ∧ (∀ i e, errs !! i = Some e → stops_of i ls = [e]) ∧
    (err = None ↔ Forall (λ e, e = None) errs) ∧
    (∀ e, err = Some e → ∃ es, e = ErrMulti msg es ∧ es ≡ₚ omap id errs).
Proof.
  intros H Hr. destruct (stop_inv _ _ _ H) as (Hl&Hq&_&Hret).
  unfold stop_result in Hr. destruct (forallb _ _) eqn:Hall; [|done]. injection Hr as <-.
  set (errs := omap returned (sp_goroutines s)).
  assert (Forall2 (λ g e, is_done g = true ∧ returned g = Some e) (sp_goroutines s) errs) as Hf.
  { subst errs. clear -Hall. induction (sp_goroutines s) as [|[| |e] l IH]; cbn in *; try done; by auto. }
  rewrite (done_queued _ _ Hf) in Hq. exists errs.
  split_and!.
  - rewrite -Hl. symmetry. by eapply Forall2_length.
  - intros i e He. destruct (Forall2_lookup_r _ _ _ _ _ Hf He) as (g&Hg&_&Hre).
    by rewrite (Hret _ _ Hg) Hre.
  - apply Permutation_length in Hq. case_bool_decide as Hc.
    + split; [done|]. intros Hn. exfalso. rewrite Hq in Hc. clear -Hc Hn.
      induction Hn as [|e l -> _ IH]; cbn in *; [lia|done].
    + split; [|done]. intros _. assert (length (omap id errs) = 0)%nat as Hz by lia. clear -Hz.
      induction errs as [|[e|] l IH]; cbn in *; [constructor|lia|constructor; auto].
  - intros e. case_bool_decide; [|done]. intros [= <-]. by eauto.
Qed.

(** C16. [Stop] and [GracefulStop] return only when every sub-server has been stopped
    exactly once; they return nil exactly if all of them stopped without an error,
    and otherwise one error that holds every error of theirs and nothing else, in
    the order they came. *)
Theorem multiStoppableServer_Stop_spec n msg ls s err :
  stop_runs n ls s → stop_result msg s = Some err →
  ∃ errs, length errs = n ∧ (∀ i e, errs !! i = Some e → stops_of i ls = [e]) ∧
    (err = None ↔ Forall (λ e, e = None) errs) ∧
    (∀ e, err = Some e → ∃ es, e = ErrMulti msg es ∧ es ≡ₚ omap id errs).
Proof. apply stop_complete. Qed.

(** Stopping cannot get stuck: the queue of errors never fills up, so whenever a
    sub-server's method has returned its goroutine can go on, and once they all have
    there is a result. *)
Lemma multiStoppableServer_Stop_progress n msg ls s :
  stop_runs n ls s →
  (∀ i e, sp_goroutines s !! i = Some (PQueueing e) → is_Some (stop_step s (LQueue i))) ∧
  (Forall (λ g, is_done g = true) (sp_goroutines s) → is_Some (stop_result msg s)).
Proof.
  intros H. destruct (stop_inv _ _ _ H) as (Hl&_&Hc&_). split.
  - intros i e Hg. cbn. rewrite Hg. case_bool_decide as Hlt; [by eexists|]. exfalso. apply Hlt.
    destruct (insert_split queued _ i _ (PQueueing e) Hg) as (l1&l2&E&_).
    revert Hc. rewrite Hl E !list.filter_app !length_app list.filter_cons_True //=. lia.
  - intros Hall. unfold stop_result. assert (forallb is_done (sp_goroutines s) = true) as ->; [|by eexists].
    apply forallb_forall. intros g Hg. rewrite list.Forall_forall in Hall. by apply Hall, list_elem_of_In.
Qed.

Definition stop_next (s s' : stop_state) : Prop := ∃ l, stop_step s l = Some s'.
Definition pweight (g : pstatus) : nat :=
  match g with PRunning => 2 | PQueueing _ => 1 | PDone _ => 0 end.

Lemma stop_next_measure s s' :
  stop_next s s' →
  (sum_list_with pweight (sp_goroutines s') < sum_list_with pweight (sp_goroutines s))%nat.
Proof.
  intros ([j err|j]&Hl); cbn in Hl.
  - destruct (sp_goroutines s !! j) as [[]|] eqn:Hg; simplify_eq/=.
    set (g := match err with Some e => _ | None => _ end).
    pose proof (sum_list_with_insert pweight _ _ _ g Hg) as Hw.
    assert (pweight g ≤ 1)%nat by (subst g; destruct err; cbn; lia). cbn in *. lia.
  - destruct (sp_goroutines s !! j) as [[|e|]|] eqn:Hg; try done. case_bool_decide; simplify_eq/=.
    pose proof (sum_list_with_insert pweight _ _ _ (PDone (Some e)) Hg) as Hw. cbn in *. lia.
Qed.

(** A call that is not over has a goroutine that can go on. *)
Lemma stop_next_enabled n msg ls s :
  stop_runs n ls s → stop_result msg s = None → ∃ s', stop_next s s'.
Proof.
  intros H Hr. destruct (multiStoppableServer_Stop_progress n msg _ _ H) as [Hq Hdone].
  destruct (decide (Forall (λ g, is_done g = true) (sp_goroutines s))) as [Hall|Hn].
  { apply Hdone in Hall as [? ?]. congruence. }
  apply not_Forall_Exists in Hn; [|apply _]. apply list.Exists_exists in Hn as (g&Hin&Hg).
  apply list_elem_of_lookup in Hin as (i&Hi). destruct g as [|e|]; [| |by destruct Hg].
  - eexists. exists (LStopped i None). cbn. by rewrite Hi.
  - destruct (Hq _ _ Hi) as [s' Hs']. eexists. by exists (LQueue i).
Qed.

(** C18. [Stop] and [GracefulStop] return: if each sub-server's own method does, then on
    every schedule of the goroutines all of them get through and the call is over,
    and no schedule blocks on the way. *)
Theorem multiStoppableServer_Stop_returns n msg ls s :
  stop_runs n ls s → eventually stop_next (λ s, is_Some (stop_result msg s)) s.
Proof.
  intros H. apply (eventually_measure stop_next (λ s, ∃ ls, stop_runs n ls s) _
    (λ s, sum_list_with pweight (sp_goroutines s))); [| |by exists ls].
  - intros s0 [ls0 H0] Hn. apply (stop_next_enabled n msg ls0); [done|].
    destruct (stop_result msg s0); [by destruct Hn|done].
  - intros s0 s1 [ls0 H0] _ Hs. split; [|by apply stop_next_measure].
    destruct Hs as [l Hl]. exists (ls0 ++ [l]). by eapply stop_runs_snoc.
Qed.

(** ** Executions *)

Module MultiServerExample.
(** A server is its name; it serves until it is stopped, or fails, or panics. *)
Definition server := string.
#[export] Instance server_stoppable : StoppableServer server := {
  GetName := λ a, a;
  Start_returns := λ a stopped r, if stopped then r = Ok () else True;
  Stop_returns := λ a r, r = Ok ();
  GracefulStop_returns := λ a r, r = Ok ()
}.
#[export] Instance server_laws : StoppableServerLaws server.
Proof. intros a r H. exact H. Defined.

Definition servers : list server := ["admin"; "public"; "grpc"].
Definition text (e : error) : string := match e with ErrText s => s | _ => "" end.
Definition fmt (v : value) : string := "".

(** The second server panics; its failure is what Start returns. *)
Definition trace : list start_label :=
  [LEnd 1 (Panic (PanicString "boom")); LSend 1; LEnd 0 (Ok ()); LReceive; LSend 0].
Definition after_trace : start_state :=
  mk_start_state [GDone; GDone; GRunning] [None] (Some (Some (ErrText "server 2 (public) panicked: boom"))).

Definition run (ls : list start_label) : option start_state :=
  foldl (λ s l, s ≫= λ s, start_step text fmt servers s l) (Some (start_init servers)) ls.

Lemma run_runs ls s : run ls = Some s → (∀ i r, LEnd i r ∈ ls → (i < 3)%nat) → start_runs text fmt servers ls s.
Proof.
  revert s. induction ls as [|l ls IH] using rev_ind; intros s Hr Hl.
  { injection Hr as <-. constructor. }
  unfold run in Hr. rewrite foldl_snoc in Hr. apply bind_Some in Hr as (s1&Hs1&Hstep).
  econstructor; [|exact Hstep|].
  - apply IH; [exact Hs1|]. intros i r H. apply (Hl i r). apply elem_of_app. by left.
  - intros i r ->. assert (i < 3)%nat as Hi.
    { apply (Hl i r). apply elem_of_app. right. by apply list_elem_of_singleton. }
    destruct (lookup_lt_is_Some_2 servers i Hi) as [a Ha]. by exists a, false.
Defined.

Lemma multi_trace_runs : start_runs text fmt servers trace after_trace.
Proof.
  apply run_runs; [vm_compute; reflexivity|].
  intros i r. unfold trace. rewrite !elem_of_cons elem_of_nil. intros H.
  destruct H as [H|[H|[H|[H|[H|H]]]]]; try discriminate H; try contradiction; injection H as -> _; lia.
Defined.

Definition stops : list stop_label :=
  [LStopped 2 None; LStopped 0 (Some ErrCanceled); LStopped 1 None; LQueue 0].
Definition after_stops : stop_state :=
  mk_stop_state [PDone (Some ErrCanceled); PDone None; PDone None] [ErrCanceled].
Lemma stop_run_runs n ls s :
  foldl (λ s l, s ≫= λ s, stop_step s l) (Some (stop_init n)) ls = Some s → stop_runs n ls s.
Proof.
  revert s. induction ls as [|l ls IH] using rev_ind; intros s Hr; [injection Hr as <-; constructor|].
  rewrite foldl_snoc in Hr. apply bind_Some in Hr as (s1&Hs1&Hstep). econstructor; [by apply IH|exact Hstep].
Defined.
Lemma stops_runs : stop_runs 3 stops after_stops.
Proof. apply stop_run_runs. vm_compute. reflexivity. Defined.
End MultiServerExample.
#[local] Existing Instance MultiServerExample.server_stoppable.

Lemma multiStoppableServer_Start_spec_witness :
  ∃ before i after, MultiServerExample.trace = before ++ LSend i :: after ∧
    LEnd i (Panic (PanicString "boom")) ∈ before.
Proof.
  destruct (multiStoppableServer_Start_spec MultiServerExample.text MultiServerExample.fmt
    MultiServerExample.servers MultiServerExample.trace MultiServerExample.after_trace
    (Some (ErrText "server 2 (public) panicked: boom")) MultiServerExample.multi_trace_runs eq_refl)
    as [(before&i&after&server&stopped&r&E&_&Hin&Hs&_&Hr&_) _].
  exists before, i, after. split; [exact E|].
  assert (LEnd i r ∈ MultiServerExample.trace) as Ht by (rewrite E; apply elem_of_app; left; exact Hin).
  unfold MultiServerExample.trace in Ht. rewrite !elem_of_cons elem_of_nil in Ht.
  destruct Ht as [Ht|[Ht|[Ht|[Ht|[Ht|Ht]]]]]; try discriminate Ht; try contradiction.
  - injection Ht as -> ->. exact Hin.
  - injection Ht as -> ->. discriminate Hr.
Defined.

Lemma multiStoppableServer_Start_progress_witness :
  let s := MultiServerExample.after_trace in
  (length (filter (λ g, is_gdone g = true) (st_goroutines s)) ≤ 2)%nat ∧
  (∀ i, start_step MultiServerExample.text MultiServerExample.fmt MultiServerExample.servers s (LSend i) = None).
Proof.
  destruct (multiStoppableServer_Start_progress MultiServerExample.text MultiServerExample.fmt
    MultiServerExample.servers MultiServerExample.trace MultiServerExample.after_trace
    MultiServerExample.multi_trace_runs) as (_&H1&H2).
  split; [exact H1|]. apply H2; [by eexists|reflexivity].
Defined.

Lemma multiStoppableServer_Stop_spec_witness :
  ∃ es, stop_result stop_msg MultiServerExample.after_stops = Some (Some (ErrMulti stop_msg es)) ∧
    length es = 1%nat.
Proof.
  destruct (multiStoppableServer_Stop_spec 3 stop_msg MultiServerExample.stops MultiServerExample.after_stops
    (Some (ErrMulti stop_msg [ErrCanceled])) MultiServerExample.stops_runs eq_refl) as (errs&_&_&_&H).
  destruct (H _ eq_refl) as (es&E&_). exists es. injection E as E. rewrite -E. by split.
Defined.

Lemma multiStoppableServer_Start_returns_witness :
  eventually (start_next MultiServerExample.text MultiServerExample.fmt MultiServerExample.servers)
    (λ s, is_Some (st_result s)) (mk_start_state [GRunning; GSending None; GRunning] [] None).
Proof.
  apply (multiStoppableServer_Start_returns MultiServerExample.text MultiServerExample.fmt
    MultiServerExample.servers (mk_start_state [GRunning; GSending None; GRunning] [] None) 1 None).
  reflexivity.
Defined.

Lemma multiStoppableServer_Stop_returns_witness :
  eventually stop_next (λ s, is_Some (stop_result stop_msg s)) (stop_init 3).
Proof. apply (multiStoppableServer_Stop_returns 3 stop_msg [] (stop_init 3)). constructor. Defined.
