(* ===== verification/ErrorValues.v ===== *)
(** * The methods of error values: src/common/errors.go, http_error_response_writer.go
    and custom_error.go, src/jwtauth/errors.go, src/authexpr/errors.go,
    src/restlib/restlib.go, src/core/serve.go

    The text of each kind of error, what it unwraps to, and what [errors.As] and
    [errors.Is] of the standard library therefore find in it. *)

From stdpp Require Import pretty.
From S2P Require Export AuthExpr JwtAuth MultiServer CommonErrors.

(** ** Texts *)

(** How package fmt prints values that the source prints with %+v and %#v: the fields
    of a wrapped error, a custom error, a string; and the texts of other packages' errors. *)
Class ErrorTexts := {
  fmt_fields : list (string * value) → string;
  fmt_custom : gmap string string → string;
  fmt_string : string → string;
  foreign_text : error → string
}.

(** [%s] of an error that may be nil. *)
Definition fmt_cause (cause : option string) : string := default "%!s(<nil>)" cause.

(** The [Error] methods of sysl-go's own types, given the texts of their parts. *)
Definition ServerError_Error (kind : Z) (message : string) (cause : option string) : string :=
  "ServerError(Kind=" +:+ Kind_String kind +:+ ", Message=" +:+ message +:+ ", Cause=" +:+ fmt_cause cause +:+ ")".

(** The content type and length of the response are shown, though not kept in [error]. *)
Definition DownstreamError_Error (kind : Z) (method url : string) (status : Z) (contentType : string)
    (contentLength : Z) (body : string) (cause : option string) : string :=
  "DownstreamError(Kind=" +:+ Kind_String kind +:+ ", Method=" +:+ method +:+ ", URL=" +:+ url +:+
  ", StatusCode=" +:+ pretty status +:+ ", ContentType=" +:+ contentType +:+ ", ContentLength=" +:+
  pretty contentLength +:+ ", Snippet=" +:+ body +:+ ", Cause=" +:+ fmt_cause cause +:+ ")".

Definition AuthError_Error (code : Z) (cause : string) : string :=
  "jwtauth err " +:+ pretty code +:+ ": " +:+ cause.

Definition authexpr_Error (msg : string) (cause : option string) : string :=
  match cause with
  | Some c => "auth expression error: " +:+ msg +:+ "; cause: " +:+ c
  | None => "auth expression error: " +:+ msg
  end.

Definition wrappedError_Error `{!ErrorTexts} (e : string) (fields : list (string * value)) : string :=
  e +:+ " --- " +:+ fmt_fields fields.

Definition CustomError_Error `{!ErrorTexts} (e : gmap string string) : string :=
  default "" (e !! "name") +:+ "(" +:+ fmt_custom e +:+ ")".

(** Of package internal: the struct values in Go syntax, and that text as a string in it. *)
Definition openBodyError_GoString `{!ErrorTexts} (cause : string) : string :=
  "internal.openBodyError{cause:" +:+ fmt_string cause +:+ ", err:" +:+ fmt_string "response body not closed" +:+ "}".
Definition OpenResponseBodyErrors_Error `{!ErrorTexts} (causes : list string) : string :=
  fmt_string (String.concat "" ((λ cause, openBodyError_GoString cause +:+ " " +:+ String "010" "") <$> causes)).

Definition ErrDisplayHelp_Error : string := "Display help".

(** [Error()] of any error value. The response's content type and length are [ct]. *)
Section text.
Context `{!ErrorTexts} (ct : error → string * Z).
Fixpoint error_text (e : error) : string :=
  match e with
  | ErrText msg => msg
  | ErrWrap msg cause => msg +:+ ": " +:+ error_text cause
  | ErrDeadlineExceeded => "context deadline exceeded"
  | ErrCanceled => "context canceled"
  | ErrServerClosed => "http: Server closed"
  | ErrHandlerTimeout => "http: Handler timeout"
  | ErrNotSupported => "feature not supported"
  | ErrAuthExpr msg cause => authexpr_Error msg (option_map error_text cause)
  | ErrAuth code cause => AuthError_Error code (error_text cause)
  | ErrServer kind msg cause => ServerError_Error kind msg (option_map error_text cause)
  | ErrDownstream kind method url status body cause =>
      DownstreamError_Error kind method url status (ct e).1 (ct e).2 body (option_map error_text cause)
  | ErrCustom fields => CustomError_Error fields
  | ErrWrapped e fields => wrappedError_Error (error_text e) fields
  | ErrMulti msg errors => msg +:+ "; sub-error(s): " +:+ Join (error_text <$> errors) "; "
  | ErrOpenBodies urls => OpenResponseBodyErrors_Error urls
  | ErrDisplayHelp => ErrDisplayHelp_Error
  | ErrStatus _ _ | ErrHTTPResult _ _ _ | ErrForeign _ _ _ _ => foreign_text e
  end.
End text.

(** ** Causes *)

Definition ServerError_Unwrap (kind : Z) (message : string) (cause : option error) : option error := cause.
Definition DownstreamError_Unwrap (kind : Z) (response : Response) (body : string) (cause : option error) : option error := cause.
Definition AuthError_Unwrap (code : Z) (cause : error) : option error := Some cause.

(** A wrapped error, with the fields to add to its response. *)
Definition WrappedError (err : error) (fields : list (string * value)) : error := ErrWrapped err fields.

(** [errors.Unwrap]: an error of package errors unwraps to its cause; a wrapped error, a
    custom error, one of package authexpr and a [MultiError] have no such method. *)
Definition Unwrap (e : error) : option error :=
  match e with
  | ErrWrap _ cause => Some cause
  | ErrServer kind msg cause => ServerError_Unwrap kind msg cause
  | ErrDownstream kind method url status body cause =>
      DownstreamError_Unwrap kind (mkResponse method url status) body cause
  | ErrAuth code cause => AuthError_Unwrap code cause
  | _ => None
  end.

(** [errors.As] and [errors.Is]: the first error of the chain that [p] accepts. *)
Fixpoint errors_As (p : error → bool) (e : error) : option error :=
  if p e then Some e else
  match e with
  | ErrWrap _ cause => errors_As p cause
  | ErrServer _ _ (Some cause) => errors_As p cause
  | ErrDownstream _ _ _ _ _ (Some cause) => errors_As p cause
  | ErrAuth _ cause => errors_As p cause
  | _ => None
  end.

(** * Properties *)

(** Following [Unwrap] from an error. *)
Inductive unwraps : error → error → Prop :=
| unwraps_here e : unwraps e e
| unwraps_next e c e' : Unwrap e = Some c → unwraps c e' → unwraps e e'.

Lemma As_unfold p e :
  errors_As p e = if p e then Some e else match Unwrap e with Some c => errors_As p c | None => None end.
Proof. destruct e; cbn; try done; by case_match. Qed.

Lemma As_unwraps p e e' : errors_As p e = Some e' → unwraps e e' ∧ p e' = true.
Proof.
  revert e e'. fix IH 1. intros e e'. rewrite As_unfold. destruct (p e) eqn:Hp.
  { intros [= <-]. split; [constructor|done]. }
  destruct e; cbn; try done; try (destruct cause as [cause|]; [|done]);
    intros [Hu ?]%IH; (split; [by eapply unwraps_next|done]).
Qed.

Lemma unwraps_As p e e' : unwraps e e' → p e' = true → is_Some (errors_As p e).
Proof.
  intros Hu Hp. induction Hu as [e|e c e' Hc _ IH]; rewrite As_unfold; [by rewrite Hp|].
  destruct (p e); [done|]. rewrite Hc. auto.
Qed.

(** [errors.As] finds an error exactly if there is one along the chain of causes, and
    the chain ends. *)
Theorem errors_As_spec p e :
  (is_Some (errors_As p e) ↔ ∃ e', unwraps e e' ∧ p e' = true) ∧
  (∀ e', errors_As p e = Some e' → unwraps e e' ∧ p e' = true).
Proof.
  split; [|apply As_unwraps]. split.
  - intros [e' He']. exists e'. by apply As_unwraps.
  - intros (e'&Hu&Hp). by eapply unwraps_As.
Qed.

(** Reporting an error loses no cause: whatever [errors.As] would find in the error that
    a handler or a call to a downstream gives, it finds in what [CreateError] and
    [CreateDownstreamError] make of it, when the deadline has passed as well. But an
    error with fields hides its cause, which only [HandleError] looks for. *)
Theorem CreateError_keeps_causes p ctx kind message response body c :
  is_Some (errors_As p c) →
  is_Some (errors_As p (CreateError ctx kind message (Some c))) ∧
  is_Some (errors_As p (CreateDownstreamError ctx kind response body (Some c))) ∧
  (∀ fields, p (WrappedError c fields) = false → errors_As p (WrappedError c fields) = None).
Proof.
  intros Hc. assert (∀ k m, is_Some (errors_As p (ErrServer k m (Some c)))) as Hs.
  { intros k m. rewrite As_unfold. by destruct (p _). }
  split_and!.
  - unfold CreateError, CheckContextTimeout. destruct (is_deadline_exceeded ctx); [done|]. by destruct (passes_through c).
  - unfold CreateDownstreamError, CheckContextTimeout. destruct (is_deadline_exceeded ctx); [done|].
    rewrite As_unfold. by destruct (p _).
  - intros fields Hp. by rewrite As_unfold Hp.
Qed.

(** Is a deadline behind it? *)
Definition is_deadline (e : error) : bool := match e with ErrDeadlineExceeded => true | _ => false end.

Lemma CreateError_keeps_causes_witness :
  is_Some (errors_As is_deadline (CreateError Background BadRequestError "call" (Some (ErrWrap "get" ErrDeadlineExceeded)))) ∧
  errors_As is_deadline (WrappedError (ErrWrap "get" ErrDeadlineExceeded) []) = None.
Proof.
  destruct (CreateError_keeps_causes is_deadline Background BadRequestError "call" (mkResponse "GET" "/" 500) "body"
    (ErrWrap "get" ErrDeadlineExceeded) ltac:(eexists; reflexivity)) as (H1&_&H2).
  split; [exact H1|]. apply H2. reflexivity.
Defined.
