(* ===== verification/Middleware.v ===== *)
(** * The middleware of the REST servers: src/core/recoverer.go, src/core/middleware.go,
    and the response writer of src/metrics

    The recoverer, the handler of timeouts, the timeout middleware as a function
    of the race between the handler and the deadline, and the order in which
    [prepareMiddleware] puts them together. *)

From S2P Require Export Timeout RequestContext.

(** [http.Error] of the standard library. *)
Definition http_Error (msg : string) (code : Z) (w : RW) : RW :=
  rw_write (msg +:+ String "010" "") (rw_write_header code
    (rw_set_header "X-Content-Type-Options" "nosniff"
      (rw_set_header "Content-Type" "text/plain; charset=utf-8" w))).

(** ** recoverer.go *)

(** The deferred function; what it logs is left out. *)
Definition recovered (w : RW) (p : panicval) : RW * res () :=
  match recover p with
  | Some rvr =>
      let err := match rvr with
                 | PanicString x => ErrText x
                 | PanicError x => x
                 | PanicOther _ => ErrText "unknown panic"
                 end in
      (http_Error "Internal Server Error" StatusInternalServerError w, Ok ())
  | None => (w, Ok ())
  end.

Definition Recoverer {S} : Middleware S := λ next r s w,
  match next r s w with
  | (s, w, Panic p) => let '(w, out) := recovered w p in (s, w, out)
  | result => result
  end.

(** ** The handler of timeouts in middleware.go *)

Definition timeout_message : string := "timeout expired while processing response".

Definition core_timeoutHandler {S} (json_text : marshal_target → string) : Handler S := λ r s w,
  (s, HandleError json_text (req_ctx r) w InternalError timeout_message (ctx_Err (req_ctx r))
        (Some (λ _ _, Some (mkHTTPError StatusInternalServerError "" timeout_message ∅))) None, Ok ()).

(** ** The timeout middleware as a middleware

    [race] decides each request: [None] if the handler is over before the context
    is done, and else the error of the context. A handler that is late may still
    change what it shares with others. *)

(** The operations that lead a fresh writer to the given one. *)
Definition rw_ops (w : RW) : list hop :=
  (rw_calls w ≫= λ c, match c with
                      | CallWriteHeader code h => [OpHeader h; OpWriteHeader code]
                      | CallWrite b => [OpWrite b]
                      end) ++ [OpHeader (rw_header w)].

Definition bad_code (c : rwcall) : bool :=
  match c with CallWriteHeader code _ => negb (valid_code code) | CallWrite _ => false end.

Definition with_Err (e : error) (r : Request) : Request :=
  WithContext (mkContext (Some e) (ctx_Value (req_ctx r))) r.

Definition TimeoutMiddleware {S} (race : Request → S → option error) (timeoutHandler : Handler S) :
    Middleware S := λ next r s w,
  let '(s1, tw, out) := next r s rw_empty in
  let out := if existsb bad_code (rw_calls tw) then Panic invalid_code else out in
  let late e := timeoutHandler (with_Err e r) s1 w in
  match race r s, out with
  | Some e, _ => late e
  | None, Panic p =>
      match recover p with
      | Some p => (s1, w, Panic p)
      | None => late ErrDeadlineExceeded (* nothing else ever wakes the select *)
      end
  | None, _ => (s1, handler_response (rw_ops tw) w, Ok ())
  end.

(** ** prepareMiddleware *)

Record middlewareCollection (S : Type) := mk_middlewareCollection {
  mw_admin : list (Middleware S);
  mw_public : list (Middleware S)
}.
Arguments mk_middlewareCollection {S}.
Arguments mw_admin {S}.
Arguments mw_public {S}.

Definition addToBoth {S} (h : list (Middleware S)) (m : middlewareCollection S) : middlewareCollection S :=
  mk_middlewareCollection (mw_admin m ++ h) (mw_public m ++ h).

Section prepare.
Context {S : Type} `{!HasMonitors S} (json_text : marshal_target → string).
(** [metricsMiddleware] is there if a registry was given. [race] depends on the
    timeout; the ids are those [google/uuid] parses and draws. *)
Context (race : Z → Request → S → option error) (metricsMiddleware : option (Middleware S)).
Context (uuid_Parse : string → option string) (uuid_New : string).

Definition prepareMiddleware (contextTimeout : Z) : middlewareCollection S :=
  let result := mk_middlewareCollection [] [] in
  let result := addToBoth [Recoverer] result in
  let result := addToBoth [TimeoutMiddleware (race contextTimeout) (core_timeoutHandler json_text)] result in
  let result := mk_middlewareCollection (mw_admin result)
                  (mw_public result ++ [TraceabilityMiddleware uuid_Parse uuid_New]) in
  let result := addToBoth [CoreRequestContextMiddleware] result in
  match metricsMiddleware with
  | Some m => addToBoth [m] result
  | None => result
  end.
End prepare.

(** ** The writer that records the status (metrics/prometheus_utils.go) *)

Record StatusResponseWriter := mk_StatusResponseWriter {
  srw_ResponseWriter : RW;
  srw_code : Z;
  srw_wroteHeader : bool
}.

Definition NewStatusResponseWriter (w : RW) : StatusResponseWriter := mk_StatusResponseWriter w 0 false.

Definition srw_WriteHeader (code : Z) (w : StatusResponseWriter) : StatusResponseWriter :=
  if negb (srw_wroteHeader w)
  then mk_StatusResponseWriter (rw_write_header code (srw_ResponseWriter w)) code true
  else w.

Definition srw_Write (data : string) (w : StatusResponseWriter) : StatusResponseWriter :=
  let w := if negb (srw_wroteHeader w) then srw_WriteHeader StatusOK w else w in
  mk_StatusResponseWriter (rw_write data (srw_ResponseWriter w)) (srw_code w) (srw_wroteHeader w).

Definition srw_Status (w : StatusResponseWriter) : Z := srw_code w.

Definition srw_op (w : StatusResponseWriter) (op : hop) : StatusResponseWriter :=
  match op with
  | OpHeader h => mk_StatusResponseWriter (mkRW h (rw_calls (srw_ResponseWriter w))) (srw_code w) (srw_wroteHeader w)
  | OpWrite p => srw_Write p w
  | OpWriteHeader code => srw_WriteHeader code w
  end.

(** A request as it is counted: its status, method and path pattern. *)
Record observation := mk_observation { ob_status : Z; ob_method : string; ob_path : string }.

(** [MonitorMetrics], for a handler that does [ops] to its writer and ends with
    [out]: the writer it leaves, and what it adds to the two metrics. *)
Definition MonitorMetrics (getPathPattern : option (Context → string)) (r : Request)
    (ops : list hop) (out : res ()) (w : RW) : RW * list observation * res () :=
  let ww := foldl srw_op (NewStatusResponseWriter w) ops in
  match out with
  | Panic p => (srw_ResponseWriter ww, [], Panic p)
  | _ =>
      let pathPattern := match getPathPattern with Some f => f (req_ctx r) | None => req_URL r end in
      (srw_ResponseWriter ww, [mk_observation (srw_Status ww) (req_Method r) pathPattern], out)
  end.

(** * Lemmas *)

Definition done_error (e : error) : Prop := e = ErrCanceled ∨ e = ErrDeadlineExceeded.

(** What a writer has after exactly one response more. *)
Definition one_response (w w' : RW) (code : Z) : Prop :=
  ∃ h body, rw_calls w' = rw_calls w ++ [CallWriteHeader code h; CallWrite body].

(** The handler of timeouts sends one response, a 500. *)
Lemma core_timeoutHandler_response {S} json_text r (s : S) w e :
  ctx_Err (req_ctx r) = Some e → done_error e →
  ∃ w', core_timeoutHandler json_text r s w = (s, w', Ok ()) ∧ one_response w w' StatusInternalServerError.
Proof.
  intros He Hdone. unfold core_timeoutHandler. eexists. split; [done|].
  rewrite He. unfold HandleError.
  assert (Some e ≫= ErrorWriter = None) as -> by by destruct Hdone as [-> | ->].
  rewrite handle_mapped_unwrapped.
  assert (unwrapped (Some e) = (Some e, [])) as -> by by destruct Hdone as [-> | ->].
  cbn -[HTTPError_WriteError].
  destruct (WriteError_response json_text (mkHTTPError StatusInternalServerError "" timeout_message ∅) w)
    as (code&body&->&Hcode).
  destruct Hcode as [[-> _]|(->&_)]; by eexists _, _.
Qed.

Lemma recovered_spec w p :
  let '(w', out) := recovered w p in
  out = Ok () ∧
  match recover p with Some _ => one_response w w' StatusInternalServerError | None => w' = w end.
Proof.
  unfold recovered. destruct (recover p); [|done]. split; [done|]. do 2 eexists.
  unfold http_Error, rw_write, rw_write_header, rw_set_header. cbn. by rewrite -app_assoc.
Qed.

Lemma handler_response_one ops w :
  one_response w (handler_response ops w) (default StatusOK (first_status ops)).
Proof. do 2 eexists. unfold handler_response, rw_write, rw_write_header. cbn. by rewrite -app_assoc. Qed.

Lemma runs_ops th s ops :
  ts_handler s = Running → ts_phase s = Waiting →
  ∃ s', runs th s (LOp <$> ops) s' ∧ ts_handler s' = Running ∧ ts_phase s' = Waiting ∧
    ts_w s' = ts_w s ∧ ts_tw s' = run_ops (ts_tw s) ops ∧ ts_done s' = ts_done s.
Proof.
  intros Hh Hp. induction ops as [|op ops IH] using rev_ind.
  { exists s. split_and!; [constructor|done..]. }
  destruct IH as (s1&Hr&Hh1&Hp1&Hw&Htw&Hd). exists (set_tw s1 (run_op op (ts_tw s1)).1).
  split_and!; cbn; try done.
  - rewrite fmap_app. econstructor; [done|]. cbn. by rewrite Hh1.
  - rewrite Htw /run_ops foldl_snoc. done.
Qed.

Lemma runs_two th s l1 l2 s1 s2 :
  tstep th s l1 = Some s1 → tstep th s1 l2 = Some s2 → runs th s [l1; l2] s2.
Proof.
  intros H1 H2. apply (runs_snoc _ _ [l1] s1 l2); [|done].
  apply (runs_snoc _ _ [] s); [constructor|done].
Qed.

(** The operations do to a fresh writer what the handler did. *)
Definition rw_op (w : RW) (op : hop) : RW :=
  match op with
  | OpHeader h => mkRW h (rw_calls w)
  | OpWrite p => rw_write p w
  | OpWriteHeader code => rw_write_header code w
  end.

Lemma rw_ops_replay w : foldl rw_op rw_empty (rw_ops w) = w.
Proof.
  unfold rw_ops. rewrite foldl_snoc. destruct w as [h cs]. cbn. f_equal.
  induction cs as [|c cs IH] using rev_ind; [done|]. rewrite bind_app foldl_app /=.
  by destruct c as [code h'|b]; cbn; rewrite IH.
Qed.

(** The steps of the handler's goroutine in a run, and those of a handler that does
    [ops] and ends with [out]. *)
Definition handler_steps (ls : list tlabel) : list tlabel :=
  omap (λ l, match l with LOp _ | LReturn | LPanic _ => Some l | _ => None end) ls.
Definition handler_end (out : res ()) : tlabel := match out with Panic p => LPanic p | _ => LReturn end.
Definition goroutine (ops : list hop) (out : res ()) : list tlabel := (LOp <$> ops) ++ [handler_end out].

Lemma handler_steps_goroutine ops out : handler_steps (goroutine ops out) = goroutine ops out.
Proof.
  unfold goroutine, handler_steps. rewrite omap_app. f_equal; [|by destruct out].
  induction ops as [|op ops IH]; [done|]. cbn. by rewrite IH.
Qed.

Lemma runs_trans th s ls s1 ls' s2 : runs th s ls s1 → runs th s1 ls' s2 → runs th s (ls ++ ls') s2.
Proof.
  intros H. induction 1 as [|s1 ls' s2 l s3 _ IH Hstep]; [by rewrite app_nil_r|].
  rewrite app_assoc. econstructor; [by apply IH|done].
Qed.

(** The handler's goroutine can always go on to its end. *)
Lemma runs_goroutine th s ops out :
  ts_handler s = Running →
  runs th s (goroutine ops out)
    (mk_tstate (run_ops (ts_tw s) ops) (match out with Panic p => Panicked p | _ => Returned end)
       (ts_done s) (ts_w s) (ts_phase s)).
Proof.
  intros Hh. eapply runs_snoc.
  - instantiate (1 := set_tw s (run_ops (ts_tw s) ops)).
    induction ops as [|op ops IH] using rev_ind; [by destruct s; constructor|].
    rewrite fmap_app. econstructor; [exact IH|]. cbn. rewrite Hh. by rewrite /run_ops foldl_snoc.
  - destruct out; cbn; by rewrite Hh.
Qed.

Lemma ops_of_handler_steps ls : ops_of (handler_steps ls) = ops_of ls.
Proof.
  unfold ops_of, handler_steps. induction ls as [|[] ls IH]; cbn; [done|..]; first [exact IH | by f_equal].
Qed.

Lemma ops_of_goroutine ops out : ops_of (goroutine ops out) = ops.
Proof.
  unfold goroutine, ops_of. rewrite omap_app. replace (omap _ [handler_end out]) with (@nil hop) by by destruct out.
  rewrite app_nil_r. induction ops as [|op ops IH]; [done|]. cbn. by rewrite IH.
Qed.

(** The end of the goroutine is its last step: where it is there, so are all the others. *)
Lemma steps_end ls ops out l :
  handler_steps ls `prefix_of` goroutine ops out → l ∈ ls → l = LReturn ∨ (∃ p, l = LPanic p) →
  handler_end out = l ∧ ops_of ls = ops.
Proof.
  intros [rest Hpre] Hin Hl.
  assert (l ∈ handler_steps ls) as Hs.
  { unfold handler_steps. apply list_elem_of_omap. exists l. split; [done|]. by destruct Hl as [-> | [p ->]]. }
  assert (l ∉ LOp <$> ops) as Hno.
  { intros (op&->&_)%list_elem_of_fmap. by destruct Hl as [?|[p ?]]. }
  destruct rest as [|x rest _] using rev_ind.
  - rewrite app_nil_r in Hpre. rewrite -ops_of_handler_steps -Hpre ops_of_goroutine. split; [|done].
    rewrite -Hpre in Hs. apply elem_of_app in Hs as [?|?%list_elem_of_singleton]; done.
  - unfold goroutine in Hpre. rewrite app_assoc in Hpre. apply app_inj_tail in Hpre as [Hpre _].
    destruct Hno. rewrite Hpre. apply elem_of_app. by left.
Qed.

(** How the race ends: with the error of the context if that is done first, and
    also if the handler's panic is never reported, as that of [panic(nil)] is not. *)
Definition times_out (race : option error) (out : res ()) : option error :=
  match race, out with
  | Some e, _ => Some e
  | None, Panic p => match recover p with Some _ => None | None => Some ErrDeadlineExceeded end
  | None, _ => None
  end.

(** A run in which the context is done first, and one in which it is not. *)
Lemma late_run th w w' res ops out :
  th w = (w', res) →
  ∃ ls st, runs th (tinit w) ls st ∧ ts_phase st = Finished res ∧ ts_w st = w' ∧
    handler_steps ls = goroutine ops out ∧ LSelectTimeout ∈ ls.
Proof.
  intros Hth. eexists ([LDone; LSelectTimeout] ++ goroutine ops out), _. split.
  - eapply runs_trans; [eapply runs_two; [reflexivity|]|].
    + cbn. by rewrite Hth.
    + by apply runs_goroutine.
  - split_and!; [done..| |].
    + change (handler_steps ([LDone; LSelectTimeout] ++ ?l)) with (handler_steps l). apply handler_steps_goroutine.
    + by right; left.
Qed.

Lemma on_time_run th w ops out :
  times_out None out = None →
  ∃ ls st res, runs th (tinit w) ls st ∧ ts_phase st = Finished res ∧
    handler_steps ls = goroutine ops out ∧ LDone ∉ ls ∧
    match out with Panic p => res = Panic p ∧ ts_w st = w | _ => res = Ok () ∧ ts_w st = handler_response ops w end.
Proof.
  intros Ht.
  set (sel := match out with Panic _ => LSelectPanic | _ => LSelectReturn end).
  assert (handler_steps (goroutine ops out ++ [sel]) = goroutine ops out) as Hsteps.
  { unfold handler_steps. rewrite omap_app. fold (handler_steps (goroutine ops out)).
    rewrite handler_steps_goroutine. destruct out; apply app_nil_r. }
  assert (LDone ∉ goroutine ops out ++ [sel]) as Hnd.
  { unfold goroutine. rewrite !elem_of_app !list_elem_of_singleton list_elem_of_fmap.
    subst sel. intros [[(?&?&_)|?]|?]; by destruct out. }
  pose proof (runs_goroutine th (tinit w) ops out eq_refl) as Hr. cbn in Hr.
  destruct out as [|e|p].
  1,2: eexists (_ ++ [sel]), _, (Ok ()); split; [econstructor; [exact Hr|reflexivity]|].
  1,2: split_and!; [done..|]; cbn; by rewrite copy_run_ops.
  cbn in Ht. destruct (recover p) as [q|] eqn:Hq; [|done]. pose proof (recover_Some _ _ Hq) as ->.
  eexists (_ ++ [sel]), _, (Panic p). split; [econstructor; [exact Hr|cbn; by rewrite Hq]|]. done.
Qed.

Lemma TimeoutMiddleware_times_out {S} race th (next : Handler S) r s w s1 tw out0 :
  next r s rw_empty = (s1, tw, out0) →
  let out := if existsb bad_code (rw_calls tw) then Panic invalid_code else out0 in
  TimeoutMiddleware race th next r s w =
    match times_out (race r s) out with
    | Some e => th (with_Err e r) s1 w
    | None => match out with
              | Panic p => (s1, w, Panic p)
              | _ => (s1, handler_response (rw_ops tw) w, Ok ())
              end
    end.
Proof.
  intros Hn. unfold TimeoutMiddleware. rewrite Hn. cbn zeta. unfold times_out.
  destruct (race r s); [done|]. destruct (if existsb _ _ then _ else _) as [| |p]; [done..|].
  destruct (recover p) as [q|] eqn:Hq; [|done]. by pose proof (recover_Some _ _ Hq) as ->.
Qed.

(** C30. The timeout middleware is the race of the two goroutines. Let the handler leave
    [tw] and [out], by operations that make a fresh writer what [tw] is. Then whatever the
    middleware gives is what a run gives in which the handler's goroutine does these
    operations and ends with [out]; and where the context is not done first, that is the
    handler's own response, or its panic with nothing written. Conversely, every run that
    is over, however far the handler's goroutine has come by then, gives what the
    middleware gives for some outcome of the race. *)
Theorem TimeoutMiddleware_refines {S} race th (next : Handler S) r s w s1 tw out0 :
  next r s rw_empty = (s1, tw, out0) →
  let out := if existsb bad_code (rw_calls tw) then Panic invalid_code else out0 in
  let late e := λ w, let '(_, w', out) := th (with_Err e r) s1 w in (w', out) in
  ∃ ops, foldl rw_op rw_empty ops = tw ∧
  (let '(s', w', res) := TimeoutMiddleware race th next r s w in
   ∃ e ls st, runs (late e) (tinit w) ls st ∧ ts_phase st = Finished res ∧ ts_w st = w' ∧
     handler_steps ls = goroutine ops out ∧
     match times_out (race r s) out with
     | Some e' => e = e' ∧ LSelectTimeout ∈ ls ∧ (s', w', res) = th (with_Err e r) s1 w
     | None => LDone ∉ ls ∧ s' = s1 ∧
         match out with
         | Panic p => res = Panic p ∧ w' = w
         | _ => res = Ok () ∧ w' = handler_response ops w
         end
     end) ∧
  (∀ e ls st res, runs (late e) (tinit w) ls st → ts_phase st = Finished res →
     handler_steps ls `prefix_of` goroutine ops out →
     ∃ race' s', TimeoutMiddleware race' th next r s w = (s', ts_w st, res)).
Proof.
  intros Hn out late. exists (rw_ops tw). split; [apply rw_ops_replay|]. split.
  - rewrite (TimeoutMiddleware_times_out _ _ _ _ _ _ _ _ _ Hn). fold out.
    destruct (times_out (race r s) out) as [e|] eqn:Ht.
    + destruct (th (with_Err e r) s1 w) as [[s' w'] res] eqn:Hth.
      destruct (late_run (late e) w w' res (rw_ops tw) out) as (ls&st&?&?&?&?&?); [unfold late; by rewrite Hth|].
      by exists e, ls, st.
    + assert (times_out None out = None) as Hnone by by destruct (race r s).
      destruct (on_time_run (late ErrCanceled) w (rw_ops tw) out Hnone) as (ls&st&res&?&?&?&?&Hout).
      destruct out as [| |p]; destruct Hout as [-> <-]; by exists ErrCanceled, ls, st.
  - intros e ls st res Hruns Hfin Hpre.
    destruct (one_answer _ _ _ _ _ Hruns Hfin) as (before&sel&after&->&Hsel).
    assert (handler_steps before `prefix_of` goroutine (rw_ops tw) out) as Hb.
    { etrans; [|exact Hpre]. unfold handler_steps. rewrite omap_app. by apply prefix_app_r. }
    destruct sel; try done.
    + destruct Hsel as (p&Hin&Hrec&->&->). destruct (steps_end _ _ _ _ Hb Hin) as [Hend _]; [by right; eexists|].
      exists (λ _ _, None), s1. rewrite (TimeoutMiddleware_times_out _ _ _ _ _ _ _ _ _ Hn). fold out.
      destruct out as [| |q]; [done..|]. injection Hend as ->. cbn. by rewrite Hrec.
    + destruct Hsel as (Hin&->&->). destruct (steps_end _ _ _ _ Hb Hin) as [Hend ->]; [by left|].
      exists (λ _ _, None), s1. rewrite (TimeoutMiddleware_times_out _ _ _ _ _ _ _ _ _ Hn). fold out.
      by destruct out.
    + destruct Hsel as (_&Hth&_). unfold late in Hth.
      destruct (th (with_Err e r) s1 w) as [[s' w'] res'] eqn:E. injection Hth as -> ->.
      exists (λ _ _, Some e), s'. rewrite (TimeoutMiddleware_times_out _ _ _ _ _ _ _ _ _ Hn). exact E.
Qed.

Section stack.
Context {S : Type} `{!HasMonitors S} (json_text : marshal_target → string).
Context (race : Z → Request → S → option error) (metricsMiddleware : option (Middleware S)).
Context (uuid_Parse : string → option string) (uuid_New : string).
Notation prepared := (prepareMiddleware json_text race metricsMiddleware uuid_Parse uuid_New).

(** The two outermost middlewares, around any handler. *)
Lemma guarded_one_response race' (h : Handler S) r s w :
  (∀ r s e, race' r s = Some e → done_error e) →
  let '(s', w', out) := Recoverer (TimeoutMiddleware race' (core_timeoutHandler json_text) h) r s w in
  out = Ok () ∧ ∃ code, one_response w w' code.
Proof.
  intros Hrace. unfold Recoverer, TimeoutMiddleware. destruct (h r s rw_empty) as [[s1 tw] out0].
  set (out := if existsb _ _ then _ else _). clearbody out.
  assert (∀ e, done_error e →
    let '(s', w', out) := match core_timeoutHandler json_text (with_Err e r) s1 w with
      | (s, w0, Panic p) => let '(w1, out) := recovered w0 p in (s, w1, out) | result => result end in
    out = Ok () ∧ ∃ code, one_response w w' code) as Hlate.
  { intros e He. destruct (core_timeoutHandler_response json_text (with_Err e r) s1 w e eq_refl He) as (w'&->&?).
    by eauto. }
  destruct (race' r s) as [e|] eqn:Hr; [by eapply Hlate, Hrace|].
  destruct out as [|e|p]; [split; [done|]; eexists; apply handler_response_one..|].
  destruct (recover p) as [q|] eqn:Hq; [|apply Hlate; by right].
  pose proof (recovered_spec w q) as Hrec. pose proof (recover_Some _ _ Hq) as ->.
  destruct (recovered w p) as [w' out']. rewrite Hq in Hrec. destruct Hrec. by eauto.
Qed.

(** Whatever a handler does behind the middleware that the servers install, and
    whether or not metrics are collected, every request to the admin and the public
    server gets exactly one response, and no panic gets out to the server: not the
    handler's, not that of an unclosed response body, and not from being late. *)
Theorem prepareMiddleware_answers_once contextTimeout (h : Handler S) r s w :
  (∀ dt r s e, race dt r s = Some e → done_error e) →
  ∀ ms, ms = mw_admin (prepared contextTimeout) ∨ ms = mw_public (prepared contextTimeout) →
  let '(s', w', out) := chain ms h r s w in
  out = Ok () ∧ ∃ code, one_response w w' code.
Proof.
  intros Hrace ms Hms.
  assert (∃ ms', ms = Recoverer :: TimeoutMiddleware (race contextTimeout) (core_timeoutHandler json_text) :: ms')
    as [ms' ->].
  { destruct Hms as [-> | ->]; unfold prepareMiddleware; destruct metricsMiddleware; by eexists. }
  apply (guarded_one_response (race contextTimeout) (chain ms' h)). intros r' s' e. apply Hrace.
Qed.

(** A panic behind the recoverer is answered with a 500, before the rest of the stack. *)
Lemma Recoverer_panic (h : Handler S) r s w s' w' p :
  h r s w = (s', w', Panic p) → recover p = Some p →
  ∃ w2, Recoverer h r s w = (s', w2, Ok ()) ∧ one_response w' w2 StatusInternalServerError.
Proof.
  intros Hh Hp. unfold Recoverer. rewrite Hh. pose proof (recovered_spec w' p) as H.
  destruct (recovered w' p) as [w2 out]. rewrite Hp in H. destruct H as [-> ?]. by eexists.
Qed.
End stack.

(** ** The status that is counted *)

(** What a handler's operations have reached the client as. *)
Definition status_sent (w w' : RW) : option Z :=
  match drop (length (rw_calls w)) (rw_calls w') with CallWriteHeader code _ :: _ => Some code | _ => None end.

Fixpoint first_code (ops : list hop) : option Z :=
  match ops with
  | [] => None
  | OpHeader _ :: ops => first_code ops
  | OpWrite _ :: _ => Some StatusOK
  | OpWriteHeader code :: _ => Some code
  end.

Lemma srw_wrote ops w :
  srw_wroteHeader w = true →
  let w' := foldl srw_op w ops in
  srw_code w' = srw_code w ∧ srw_wroteHeader w' = true ∧
  ∃ bodies, rw_calls (srw_ResponseWriter w') = rw_calls (srw_ResponseWriter w) ++ (CallWrite <$> bodies).
Proof.
  revert w. induction ops as [|op ops IH]; intros w Hw.
  { cbn. split_and!; [done..|]. exists []. by rewrite app_nil_r. }
  assert (srw_wroteHeader (srw_op w op) = true ∧ srw_code (srw_op w op) = srw_code w ∧
    ∃ bodies, rw_calls (srw_ResponseWriter (srw_op w op)) =
      rw_calls (srw_ResponseWriter w) ++ (CallWrite <$> bodies)) as (Hw'&Hc&b&Hb).
  { destruct op as [h|p|c]; cbn; unfold srw_Write, srw_WriteHeader; rewrite Hw; cbn; rewrite ?Hw;
      (split_and!; [done..|]); [exists []; by rewrite app_nil_r|by exists [p]|exists []; by rewrite app_nil_r]. }
  destruct (IH _ Hw') as (Hc2&?&b2&Hb2). cbn. split_and!; [congruence|done|].
  exists (b ++ b2). by rewrite Hb2 Hb fmap_app app_assoc.
Qed.

Lemma srw_first ops w :
  let ww := foldl srw_op (NewStatusResponseWriter w) ops in
  match first_code ops with
  | Some code => srw_code ww = code ∧ ∃ h bodies,
      rw_calls (srw_ResponseWriter ww) = rw_calls w ++ CallWriteHeader code h :: (CallWrite <$> bodies)
  | None => srw_code ww = 0%Z ∧ rw_calls (srw_ResponseWriter ww) = rw_calls w
  end.
Proof.
  revert w. induction ops as [|[h|p|c] ops IH]; intros w; [done|..].
  - apply (IH (mkRW h (rw_calls w))).
  - cbn zeta. cbn [foldl first_code].
    destruct (srw_wrote ops (srw_op (NewStatusResponseWriter w) (OpWrite p)) eq_refl) as (->&_&bodies&->).
    split; [done|]. exists (rw_header w), (p :: bodies). cbn. by rewrite -!app_assoc.
  - cbn zeta. cbn [foldl first_code].
    destruct (srw_wrote ops (srw_op (NewStatusResponseWriter w) (OpWriteHeader c)) eq_refl) as (->&_&bodies&->).
    split; [done|]. exists (rw_header w), bodies. cbn. by rewrite -!app_assoc.
Qed.

(** The metrics count a request that did not panic once, under the status that
    was sent: the wrapped writer gets a single header, before all of the body. But
    a handler that returns without writing, whom the server answers for with a
    200, is counted under status 0; and one that panics is not counted. *)
Lemma MonitorMetrics_spec getPathPattern r ops out w :
  let '(w', observed, out') := MonitorMetrics getPathPattern r ops out w in
  out' = out ∧
  match out with
  | Panic _ => observed = []
  | _ => ∃ path, observed = [mk_observation (default 0%Z (status_sent w w')) (req_Method r) path]
  end ∧
  (status_sent w w' = None ↔ first_code ops = None) ∧
  (status_sent w w' = None → rw_calls w' = rw_calls w) ∧
  (∀ code, status_sent w w' = Some code →
    ∃ h bodies, rw_calls w' = rw_calls w ++ CallWriteHeader code h :: (CallWrite <$> bodies)).
Proof.
  pose proof (srw_first ops w) as Hf. unfold MonitorMetrics. cbn zeta in *.
  set (ww := foldl srw_op _ ops) in *.
  assert (status_sent w (srw_ResponseWriter ww) = first_code ops ∧
          srw_code ww = default 0%Z (first_code ops)) as [Hs Hc].
  { unfold status_sent. destruct (first_code ops) as [code|].
    - destruct Hf as (->&h&bodies&->). by rewrite drop_app_length.
    - destruct Hf as [-> ->]. by rewrite drop_all. }
  assert ((status_sent w (srw_ResponseWriter ww) = None ↔ first_code ops = None) ∧
    (status_sent w (srw_ResponseWriter ww) = None → rw_calls (srw_ResponseWriter ww) = rw_calls w) ∧
    (∀ code, status_sent w (srw_ResponseWriter ww) = Some code → ∃ h bodies,
      rw_calls (srw_ResponseWriter ww) = rw_calls w ++ CallWriteHeader code h :: (CallWrite <$> bodies))) as Hrest.
  { rewrite Hs. split_and!; [done| |].
    - intros E. rewrite E in Hf. apply Hf.
    - intros code E. rewrite E in Hf. apply Hf. }
  destruct out; cbn; (split; [done|]); (split; [|exact Hrest]); try done;
    eexists; by rewrite Hs -Hc.
Qed.

(** ** A stack at work *)
Module MiddlewareExample.
#[export] Instance monitors_only : HasMonitors (gmap loc monitor) :=
  { get_monitors s := s; set_monitors m s := m; get_set_monitors m s := eq_refl }.
Definition race (dt : Z) (r : Request) (s : gmap loc monitor) : option error :=
  if bool_decide (req_Method r = "SLOW") then Some ErrDeadlineExceeded else None.
Definition h : Handler (gmap loc monitor) := λ r s w, (s, w, Panic (PanicString "boom")).
(** One that answers, and one that is asked to be late. *)
Definition created : Handler (gmap loc monitor) := λ r s w, (s, rw_write "done" (rw_write_header 201 w), Ok ()).
Definition late_r : Request := mkRequest Background "SLOW" "/" ∅ "".
Definition timed_out : Handler (gmap loc monitor) := λ r s w, (s, rw_write "late" (rw_write_header 504 w), Ok ()).
Definition r : Request := mkRequest Background "GET" "/" ∅ "".
Definition prepared : middlewareCollection (gmap loc monitor) :=
  prepareMiddleware (λ _, "{}") race None (λ _, None) "id" 30000000000.
Lemma race_done dt r s e : race dt r s = Some e → done_error e.
Proof. unfold race. destruct (bool_decide _); intros E; [|discriminate E]. injection E as <-. by right. Defined.
End MiddlewareExample.
#[local] Existing Instance MiddlewareExample.monitors_only.

Lemma prepareMiddleware_answers_once_witness :
  let '(s', w', out) := chain (mw_public MiddlewareExample.prepared) MiddlewareExample.h
                          MiddlewareExample.r ∅ rw_empty in
  out = Ok () ∧ ∃ code, one_response rw_empty w' code.
Proof.
  refine (prepareMiddleware_answers_once (λ _, "{}") MiddlewareExample.race None (λ _, None) "id"
    30000000000 MiddlewareExample.h MiddlewareExample.r ∅ rw_empty MiddlewareExample.race_done
    (mw_public MiddlewareExample.prepared) _).
  right. reflexivity.
Defined.

Lemma TimeoutMiddleware_refines_witness :
  ∃ ops, foldl rw_op rw_empty ops = rw_write "done" (rw_write_header 201 rw_empty) ∧
    TimeoutMiddleware (MiddlewareExample.race 1) MiddlewareExample.timed_out MiddlewareExample.created MiddlewareExample.r ∅ rw_empty =
      (∅, handler_response ops rw_empty, Ok ()) ∧
    TimeoutMiddleware (MiddlewareExample.race 1) MiddlewareExample.timed_out MiddlewareExample.created MiddlewareExample.late_r ∅ rw_empty =
      MiddlewareExample.timed_out MiddlewareExample.late_r ∅ rw_empty.
Proof.
  destruct (TimeoutMiddleware_refines (MiddlewareExample.race 1) MiddlewareExample.timed_out MiddlewareExample.created
    MiddlewareExample.r ∅ rw_empty ∅ (rw_write "done" (rw_write_header 201 rw_empty)) (Ok ()) eq_refl)
    as (ops&Hops&(e&ls&st&_&_&_&_&_&_&_&Hw)&_).
  exists ops. split; [exact Hops|]. split; [|reflexivity]. rewrite -Hw. reflexivity.
Defined.
