(* ===== verification/RequestLog.v ===== *)
(** * What the servers log of a request: [CoreRequestContextMiddleware] of
    src/common/corerequestcontext.go with src/common/internal/requestlogger.go and
    timelogger.go

    [RequestContext] has what the middleware does to a request; here are the lines it
    writes: the one of the request timer, if payloads are logged those of the
    request logger, and the one of unclosedresponsebodymonitor.go for response bodies
    that were left open. The writer of chi that they watch is a parameter. *)

From stdpp Require Import pretty.
From S2P Require Export Loggers Middleware.

(** [middleware.NewWrapResponseWriter]: what its [Status] gives, and what is written to
    the writer of its [Tee], after some operations of a handler on it. *)
Class WrapWriter := {
  wrap_Status : list hop → Z;
  wrap_Tee : list hop → string
}.
(** Its documentation: "Status returns the HTTP status of the request, or 0 if one has
    not yet been sent"; "Tee causes the response body to be written to the given
    io.Writer in addition to proxying the writes through". *)
Class WrapWriterLaws `{!WrapWriter} : Prop := {
  wrap_Status_sent ops : wrap_Status ops = default 0%Z (first_status ops);
  wrap_Tee_written ops : wrap_Tee ops = written ops
}.

Section log.
Context `{!NativeLogs, !WrapWriter} (header_text : Header → string).

Definition traceIDLogField : string := "traceid".
Definition newline : string := String "010" "".

(** [ResponseWriter] and [FlushLog] of the request logger, which flushes once: what the
    tee collected, and the header as it is at the end. *)
Definition payload_response (header : Header) (ops : list hop) (l : requestLogger) : requestLogger :=
  mk_requestLogger (rl_req l) (mk_httpData (hd_body (rl_resp l) +:+ wrap_Tee ops) header) (rl_flushed l) (rl_logged l).

Definition payload_line (what : string) (d : httpData) : string :=
  what +:+ ": header - " +:+ header_text (hd_header d) +:+ newline +:+
  "body[len:" +:+ pretty (String.length (hd_body d)) +:+ "]: - " +:+ hd_body d.

Definition FlushLog_lines (c : LogContext) (l : requestLogger) : res (list line) :=
  if rl_flushed l then
    flushed ← log_at SInfo c "Already flushed the request"; Ok [flushed]
  else
    c ← With c "logger" (FStr "common/internal/requestlogger.go");
    c ← With c "func" (FStr "FlushLog()");
    req ← log_at SDebug c (payload_line "Request" (rl_req l));
    resp ← log_at SDebug c (payload_line "Response" (rl_resp l));
    Ok [req; resp].

(** Before the handler: the context with the trace id; the payload logger, if there is
    one, and the context that its lines and the timer's are written in. *)
Definition start_log (c : LogContext) (trace : string) (ctx : Context) (r : Request) (lr : logged_request) :
    res (LogContext * LogContext * option requestLogger) :=
  traced ← With c traceIDLogField (FStr trace);
  match NewRequestLogger ctx r with
  | Some l => c ← InitFieldsFromRequest traced lr; Ok (traced, c, Some l)
  | None => Ok (traced, traced, None)
  end.

(** After it, by the deferred calls: the timer's line first, then the payload's. *)
Definition end_log (c : LogContext) (payload : option requestLogger) (lr : logged_request) (latency : Z)
    (header : Header) (ops : list hop) : res (list line) :=
  timer ← RequestTimer_Log c (wrap_Status ops) latency lr;
  match payload with
  | Some l => flush ← FlushLog_lines c (payload_response header ops l); Ok (timer :: flush)
  | None => Ok [timer]
  end.

(** [CheckForUnclosedResponses] with its line, which it writes before it panics. *)
Definition logged_CheckForUnclosedResponses {S} `{!HasMonitors S} (c : LogContext) (ctx : Context) (s : S) :
    list line * res () :=
  match monitor_of ctx s with
  | Some (_, m) =>
      let open := getResponsesWithOpenBodies m in
      if bool_decide (0 < length open)%nat then
        let err := unclosed_response open in
        match log_at (SError err) c "unclosed response" with
        | Ok l => ([l], Panic (PanicError err))
        | Err e => ([], Err e)
        | Panic p => ([], Panic p)
        end
      else ([], Ok ())
  | None => ([], Ok ())
  end.

(** What the handler did to the writer it was given. *)
Definition handler_ops (w w' : RW) : list hop :=
  rw_ops (mkRW (rw_header w') (drop (length (rw_calls w)) (rw_calls w'))).

(** The middleware with its lines; [trace] is the trace id of the context, [latency]
    the time that the handler takes. *)
Definition logged_CoreRequestContextMiddleware {S} `{!HasMonitors S} (c : LogContext) (trace : string) (lr : logged_request)
    (latency : Z) (next : Handler S) (r : Request) (s : S) (w : RW) : S * RW * res () * list line :=
  match start_log c trace (req_ctx r) r lr with
  | Panic p => (s, w, Panic p, [])
  | Err e => (s, w, Err e, [])
  | Ok (traced, entry, payload) =>
    let '(ctx, s) := AddResponseBodyMonitorToContext (req_ctx r) s in
    let '(s, w', out) := next (WithContext ctx r) s w in
    match end_log entry payload lr latency (rw_header w') (handler_ops w w') with
    | Ok lines =>
        let '(unclosed, check) := logged_CheckForUnclosedResponses traced ctx s in
        (s, w', deferred out check, lines ++ unclosed)
    | Err e => (s, w', Err e, [])
    | Panic p => (s, w', Panic p, [])
    end
  end.
End log.

(** ** Properties *)

Section properties.
Context `{!NativeLogs, !NativeLogsLaws, !WrapWriter, !WrapWriterLaws} (header_text : Header → string)
  {S : Type} `{!HasMonitors S}.
#[local] Set Default Proof Using "All".

(** The two lines of a payload. *)
Definition payload_lines (l : Logger) (req resp : httpData) : list line :=
  let l := with_fields l [("logger", FStr "common/internal/requestlogger.go"); ("func", FStr "FlushLog()")] in
  [Logger_log l SDebug (payload_line header_text "Request" req); Logger_log l SDebug (payload_line header_text "Response" resp)].

Lemma FlushLog_lines_Ok c l rl :
  GetLogger c = Some l → rl_flushed rl = false →
  FlushLog_lines header_text c rl = Ok (payload_lines l (rl_req rl) (rl_resp rl)).
Proof.
  intros Hl Hf. unfold FlushLog_lines. rewrite Hf.
  destruct (With_Ok c l "logger" (FStr "common/internal/requestlogger.go") Hl) as (c1&->&Hl1). cbn [mbind res_bind].
  destruct (With_Ok c1 _ "func" (FStr "FlushLog()") Hl1) as (c2&->&Hl2). cbn [mbind res_bind].
  unfold log_at, the_logger. by rewrite Hl2.
Qed.

(** The line of the timer, by the logger [l], for a request that sent [status]. *)
Definition timer_line (l : Logger) (status latency : Z) (lr : logged_request) : line :=
  let l := with_fields l (request_fields status latency lr) in
  if bool_decide (status < 400)%Z then Logger_log l SInfo "Request completed"
  else Logger_log l (SError (ErrText ("invalid status: " +:+ pretty status))) "request completed with error status".

Lemma NewRequestLogger_unflushed ctx r l :
  NewRequestLogger ctx r = Some l →
  rl_flushed l = false ∧ rl_resp l = mk_httpData "" ∅ ∧
  rl_req l = mk_httpData (if bool_decide (req_Method r ≠ "GET") then req_Body r else "") (req_Header r).
Proof using Type.
  unfold NewRequestLogger. destruct (GetDefaultConfig ctx) as [cfg|]; [|done].
  by destruct (log_LogPayload _); [intros [= <-]|].
Qed.

(** The lines, and the end of them, from the ends of the parts. *)
Lemma logged_lines c l trace ctx r lr latency :
  GetLogger c = Some l →
  let traced := with_fields l [(traceIDLogField, FStr trace)] in
  ∃ c1 entry, start_log c trace ctx r lr = Ok (c1, entry, NewRequestLogger ctx r) ∧ GetLogger c1 = Some traced ∧
    ∀ header ops, end_log header_text entry (NewRequestLogger ctx r) lr latency header ops =
      Ok match NewRequestLogger ctx r with
         | None => [timer_line traced (default 0%Z (first_status ops)) latency lr]
         | Some _ =>
             let l := with_fields traced (init_fields lr) in
             timer_line l (default 0%Z (first_status ops)) latency lr ::
             payload_lines l (mk_httpData (if bool_decide (req_Method r ≠ "GET") then req_Body r else "") (req_Header r))
               (mk_httpData (written ops) header)
         end.
Proof.
  intros Hl traced. unfold start_log.
  destruct (With_Ok c l traceIDLogField (FStr trace) Hl) as (c1&->&Hl1). cbn [mbind res_bind]. fold traced in Hl1.
  destruct (NewRequestLogger ctx r) as [rl|] eqn:Hrl.
  - destruct (InitFieldsFromRequest_Ok c1 _ lr Hl1) as (c2&->&Hl2). exists c1, c2. do 2 (split; [done|]). intros header ops.
    unfold end_log. rewrite RequestTimer_Log_spec Hl2 wrap_Status_sent. cbn [mbind res_bind].
    destruct (NewRequestLogger_unflushed ctx r rl Hrl) as (Hf&Hresp&Hreq).
    rewrite (FlushLog_lines_Ok c2 _ _ Hl2) //. cbn. rewrite Hresp Hreq wrap_Tee_written.
    unfold timer_line. by case_bool_decide.
  - exists c1, c1. do 2 (split; [done|]). intros header ops. unfold end_log. rewrite RequestTimer_Log_spec Hl1 wrap_Status_sent. cbn.
    unfold timer_line. by case_bool_decide.
Qed.

(** The line of the check, by the logger [l], and that it changes nothing of the check. *)
Definition unclosed_lines (l : Logger) (open : list wrapper) : list line :=
  match open with [] => [] | _ => [Logger_log l (SError (unclosed_response open)) "unclosed response"] end.

Lemma logged_check c l ctx s :
  GetLogger c = Some l →
  logged_CheckForUnclosedResponses c ctx s =
    (unclosed_lines l (match monitor_of ctx s with Some (_, m) => getResponsesWithOpenBodies m | None => [] end),
     CheckForUnclosedResponses ctx s).
Proof using Type.
  intros Hl. unfold logged_CheckForUnclosedResponses, CheckForUnclosedResponses, log_at, the_logger.
  destruct (monitor_of ctx s) as [[loc m]|]; [|done]. destruct (getResponsesWithOpenBodies m); [done|].
  cbn. by rewrite Hl.
Qed.

(** The open bodies of a request that was given the monitor at [AddResponseBodyMonitorToContext]. *)
Definition open_after (s s' : S) : list wrapper :=
  getResponsesWithOpenBodies (default [] (get_monitors s' !! fresh (dom (get_monitors s)))).

Lemma check_after ctx ctx' s s0 s1 :
  AddResponseBodyMonitorToContext ctx s = (ctx', s0) →
  match monitor_of ctx' s1 with Some (_, m) => getResponsesWithOpenBodies m | None => [] end = open_after s s1 ∧
  CheckForUnclosedResponses ctx' s1 =
    match open_after s s1 with [] => Ok () | open => Panic (PanicError (unclosed_response open)) end.
Proof using Type.
  intros [= <- _]. unfold CheckForUnclosedResponses, open_after, monitor_of. rewrite WithValue_same.
  cbn -[getResponsesWithOpenBodies fresh]. destruct (get_monitors s1 !! _) as [m|]; [|done].
  cbn -[getResponsesWithOpenBodies fresh]. by destruct (getResponsesWithOpenBodies m).
Qed.

(** C31. The lines of a request, on every path of its handler. Logging changes nothing for
    the handler, nor for what comes of the request. One line has the trace id, the
    fields of the request and the status that the handler sent, and is an error from
    status 400 on; if the configuration says so, two more have the request's header
    and body -- no body for a GET -- and the response's header as the handler left it
    with all it wrote; and if the handler leaves a response body open, a last one is an
    error that names the URLs, with which the request then ends. But a handler that has
    sent nothing is logged as completed, with status 0 and as information, also when it
    panics and the recoverer answers the request with status 500. *)
Theorem request_log_spec c l trace lr latency (next : Handler S) r s w :
  GetLogger c = Some l →
  let '(s', w', out, lines) := logged_CoreRequestContextMiddleware header_text c trace lr latency next r s w in
  let ops := handler_ops w w' in
  let open := open_after s s' in
  let traced := with_fields l [(traceIDLogField, FStr trace)] in
  CoreRequestContextMiddleware next r s w = (s', w', out) ∧
  lines = match NewRequestLogger (req_ctx r) r with
          | None => [timer_line traced (default 0%Z (first_status ops)) latency lr]
          | Some _ =>
              let l := with_fields traced (init_fields lr) in
              timer_line l (default 0%Z (first_status ops)) latency lr ::
              payload_lines l (mk_httpData (if bool_decide (req_Method r ≠ "GET") then req_Body r else "") (req_Header r))
                (mk_httpData (written ops) (rw_header w'))
          end ++
          match open with
          | [] => []
          | _ => [Logger_log traced (SError (ErrOpenBodies (wr_url <$> open))) "unclosed response"]
          end ∧
  (open ≠ [] → out = Panic (PanicError (ErrOpenBodies (wr_url <$> open)))) ∧
  (∀ p v, out = Panic p → recover p = Some v → first_status ops = None → NewRequestLogger (req_ctx r) r = None →
     head lines = Some (Logger_log (with_fields traced (request_fields 0 latency lr)) SInfo "Request completed") ∧
     ∃ w2, Recoverer (CoreRequestContextMiddleware next) r s w = (s', w2, Ok ()) ∧ one_response w' w2 StatusInternalServerError).
Proof.
  intros Hl. unfold logged_CoreRequestContextMiddleware, Recoverer, CoreRequestContextMiddleware.
  destruct (logged_lines c l trace (req_ctx r) r lr latency Hl) as (c1&entry&->&Hl1&Hend).
  destruct (AddResponseBodyMonitorToContext (req_ctx r) s) as [ctx s0] eqn:Hadd.
  destruct (next (WithContext ctx r) s0 w) as [[s1 w1] out0]. rewrite Hend (logged_check _ _ _ _ Hl1).
  destruct (check_after _ _ _ _ s1 Hadd) as [-> ->].
  split; [done|]. split; [done|]. split; [by destruct (open_after s s1)|].
  intros p v -> Hv Hnone Hpl. rewrite Hpl Hnone. split; [done|].
  pose proof (recovered_spec w1 p) as Hrec. destruct (recovered w1 p) as [w2 out]. rewrite Hv in Hrec.
  destruct Hrec as [-> Hone]. by exists w2.
Qed.
End properties.

(** ** A handler that leaves a body open *)
Module RequestLogExample.
#[export] Existing Instance LoggersExample.native.
#[export] Existing Instance LoggersExample.native_laws.
#[export] Existing Instance MonitorExample.monitors.
#[export] Instance wrap : WrapWriter := { wrap_Status ops := default 0%Z (first_status ops); wrap_Tee ops := written ops }.
#[export] Instance wrap_laws : WrapWriterLaws.
Proof. by split. Defined.
Definition lr : logged_request := mk_logged_request ∅ "10.0.0.1:4242" "/pets" "POST".
Definition req : Request := mkRequest Background "POST" "/pets" ∅ "{}".
Definition payload_ctx : Context :=
  PutDefaultConfig Background (mkDefaultConfig
    (mkLibraryConfig (mkLogConfig "" 0 false true) false false None (mkTraceConfig "")) None (mkGenCodeConfig zero_UpstreamConfig VNil) None).
Definition answer : Handler (gmap loc monitor) := λ r s w, (s, rw_write "[]" w, Ok ()).
Definition payload_req : Request := WithContext payload_ctx req.

(** With payloads. *)
Example payload_logged :
  (logged_CoreRequestContextMiddleware (λ _, "map[]") LoggersExample.ctx "id" lr 7 answer payload_req ∅ rw_empty).2 =
    let l := with_fields (NewLogrusLogger 1%positive)
      [("traceid", FStr "id"); ("remote", FStr "10.0.0.1:4242"); ("request", FStr "/pets"); ("method", FStr "POST")] in
    timer_line l 200 7 lr :: payload_lines (λ _, "map[]") l (mk_httpData "{}" ∅) (mk_httpData "[]" ∅).
Proof. vm_compute. reflexivity. Qed.
End RequestLogExample.
Import RequestLogExample.

(** A handler that leaves the body of a downstream response open; the client gets a
    500, the log says completed, and then what is wrong. *)
Definition leaky : Handler (gmap loc monitor) := λ r s w,
  ((AddResponseToMonitor (req_ctx r) (mkHTTPResponse 200 ∅ "" None "/toys") s).1, w, Ok ()).
Definition traced_logger : Logger := with_fields (NewLogrusLogger 1%positive) [("traceid", FStr "id")].

Lemma request_log_spec_witness :
  (logged_CoreRequestContextMiddleware (λ _, "map[]") LoggersExample.ctx "id" lr 7 leaky req ∅ rw_empty).2 =
    [timer_line traced_logger 0 7 lr; Logger_log traced_logger (SError (ErrOpenBodies ["/toys"])) "unclosed response"] ∧
  ∃ s2 w2, Recoverer (CoreRequestContextMiddleware leaky) req ∅ rw_empty = (s2, w2, Ok ()) ∧ one_response rw_empty w2 500%Z.
Proof.
  pose proof (request_log_spec (λ _, "map[]") LoggersExample.ctx (NewLogrusLogger 1%positive) "id" lr 7 leaky req ∅ rw_empty
    eq_refl) as H. cbn zeta in H.
  destruct (logged_CoreRequestContextMiddleware (λ _, "map[]") LoggersExample.ctx "id" lr 7 leaky req ∅ rw_empty)
    as [[[s' w'] out] lines] eqn:E. destruct H as (Hm&Hlines&_&H).
  assert (s' = (CoreRequestContextMiddleware leaky req ∅ rw_empty).1.1) as Es by (rewrite Hm; reflexivity).
  assert (w' = (CoreRequestContextMiddleware leaky req ∅ rw_empty).1.2) as Ew by (rewrite Hm; reflexivity).
  assert (out = (CoreRequestContextMiddleware leaky req ∅ rw_empty).2) as Eo by (rewrite Hm; reflexivity).
  assert (w' = rw_empty) as -> by (rewrite Ew; vm_compute; reflexivity).
  assert (out = Panic (PanicError (ErrOpenBodies ["/toys"]))) as -> by (rewrite Eo; vm_compute; reflexivity).
  assert (open_after ∅ s' = [mk_wrapper "/toys" false]) as Ho by (rewrite Es; vm_compute; reflexivity).
  rewrite Ho in Hlines. split; [exact Hlines|].
  destruct (H _ _ eq_refl eq_refl eq_refl eq_refl) as (_&w2&Hr&Hone). exists s', w2. split; [exact Hr|exact Hone].
Defined.
