(* ===== verification/Metrics.v ===== *)
(** * Metrics of requests: src/metrics/prometheus.go, src/metrics/prometheus_utils.go

    The collectors that a server registers, the middleware that counts requests, and
    the handler that exports them. The registry of package prometheus is an
    interface with what its documentation promises; the middleware's own counter and
    summary are the sequence of the calls that are made on them. *)

From stdpp Require Import pretty.
From S2P Require Export Middleware.

(** ** The registry *)

(** What is registered: a counter and a summary with the name of a service as a
    constant label, and the collectors of the process and of the Go run time. *)
Inductive collector :=
| RequestCounter (serviceName : string)
| LatencySummary (serviceName : string)
| ProcessCollector
| GoCollector.

#[export] Instance collector_eq_dec : EqDecision collector.
Proof. solve_decision. Defined.
#[export] Instance collector_countable : Countable collector.
Proof.
  refine (inj_countable' (λ c, match c with
    | RequestCounter s => inl (inl s) | LatencySummary s => inl (inr s)
    | ProcessCollector => inr true | GoCollector => inr false end)
    (λ x, match x with
    | inl (inl s) => RequestCounter s | inl (inr s) => LatencySummary s
    | inr true => ProcessCollector | inr false => GoCollector end) _).
  by intros [].
Defined.

Class Registry (Reg : Type) := {
  MustRegister : collector → Reg → Reg * res ();
  registered : Reg → gset collector
}.

(** [MustRegister] registers a collector, or panics if one with the same name and
    constant labels has been registered. *)
Class RegistryLaws (Reg : Type) `{!Registry Reg} : Prop := {
  MustRegister_new : ∀ c g, c ∉ registered g →
    (MustRegister c g).2 = Ok () ∧ registered (MustRegister c g).1 = {[c]} ∪ registered g;
  MustRegister_dup : ∀ c g, c ∈ registered g →
    is_panic (MustRegister c g).2 = true ∧ registered (MustRegister c g).1 = registered g
}.

(** The labels of a sample: the status in decimal, the method and the path. *)
Definition labels : Type := string * string * string.

(** [Middleware]: the calls of [Inc] on the counter, and of [Observe]. *)
Record Metrics := mkMetrics {
  mt_serviceName : string;
  mt_requests : list labels;
  mt_latency : list (labels * Z)
}.

Section registration.
Context {Reg : Type} `{!Registry Reg}.

(** [MustRegister] in sequence; a panic ends it. *)
Fixpoint register_all (cs : list collector) (g : Reg) : Reg * res () :=
  match cs with
  | [] => (g, Ok ())
  | c :: cs =>
      match MustRegister c g with
      | (g, Ok ()) => register_all cs g
      | r => r
      end
  end.

Definition NewHTTPServerMetricsMiddleware (serviceName : string) (g : Reg) : Reg * res Metrics :=
  let '(g, out) := register_all [RequestCounter serviceName; LatencySummary serviceName] g in
  (g, _ ← out; Ok (mkMetrics serviceName [] [])).

(** [Handler]: the exporter, over what is registered when it is asked. *)
Definition metrics_Handler (g : Reg) : Reg * res () := register_all [ProcessCollector; GoCollector] g.

(** What one [Start] of a server registers: the middleware's collectors, and those
    of the exporter on the admin server, if there is one. *)
Definition start_metrics (name : string) (admin : bool) (g : Reg) : Reg * res Metrics :=
  match NewHTTPServerMetricsMiddleware name g with
  | (g, Ok m) => if admin then let '(g, out) := metrics_Handler g in (g, _ ← out; Ok m) else (g, Ok m)
  | r => r
  end.
End registration.

Definition updateMetrics (status : Z) (method path : string) (duration : Z) (m : Metrics) : Metrics :=
  let l := (pretty status, method, path) in
  mkMetrics (mt_serviceName m) (mt_requests m ++ [l]) (mt_latency m ++ [(l, duration)]).

(** The value of the counter for some labels, as the exporter shows it. *)
Definition requests_total (m : Metrics) (l : labels) : nat := length (filter (λ l', l' = l) (mt_requests m)).

(** ** The middleware *)

Class HasMetrics (S : Type) := {
  get_metrics : S → Metrics;
  set_metrics : Metrics → S → S;
  get_set_metrics : ∀ m s, get_metrics (set_metrics m s) = m
}.

Section middleware.
Context {S : Type} `{!HasMetrics S} (getPathPattern : option (Context → string)) (elapsed : Request → Z).

(** Each observation updates the metrics. *)
Definition observe (r : Request) (os : list observation) (s : S) : S :=
  foldl (λ s o, set_metrics (updateMetrics (ob_status o) (ob_method o) (ob_path o) (elapsed r) (get_metrics s)) s) s os.

Definition MetricsMiddleware : Middleware S := λ next r s w,
  let '(s, tw, out) := next r s (mkRW (rw_header w) []) in
  let '(w, observed, out) := MonitorMetrics getPathPattern r (rw_ops tw) out w in
  (observe r observed s, w, out).
End middleware.

(** * Lemmas *)

Section registration_properties.
Set Default Proof Using "All".
Context {Reg : Type} `{!Registry Reg, !RegistryLaws Reg}.

Lemma register_all_new cs g :
  NoDup cs → (∀ c, c ∈ cs → c ∉ registered g) →
  (register_all cs g).2 = Ok () ∧ registered (register_all cs g).1 = list_to_set cs ∪ registered g.
Proof.
  revert g. induction cs as [|c cs IH]; intros g Hnd Hg; [split; [done|set_solver]|].
  apply list.NoDup_cons in Hnd as [Hc Hnd]. cbn.
  destruct (MustRegister_new c g) as [Hok Hr]; [apply Hg; set_solver|].
  destruct (MustRegister c g) as [g' []]; [|done..]. cbn in *. destruct a.
  destruct (IH g' Hnd) as [-> ->].
  - intros c' Hc'. rewrite Hr. specialize (Hg c'). set_solver.
  - split; [done|]. rewrite Hr. set_solver.
Qed.

Lemma register_all_dup c cs g : c ∈ registered g → is_panic (register_all (c :: cs) g).2 = true.
Proof.
  intros Hc. cbn. destruct (MustRegister_dup c g Hc) as [Hp _].
  by destruct (MustRegister c g) as [g' [[]| |]].
Qed.

Lemma start_metrics_dup name admin g :
  RequestCounter name ∈ registered g → is_panic (start_metrics name admin g).2 = true.
Proof.
  intros Hin. pose proof (register_all_dup _ [LatencySummary name] g Hin) as Hp.
  unfold start_metrics, NewHTTPServerMetricsMiddleware.
  by destruct (register_all [RequestCounter name; LatencySummary name] g) as [g2 []].
Qed.

(** A server's metrics can be set up once: on a registry that has none of them its
    first start registers the counter, the summary and, with an admin server,
    the exporter's collectors; and a second start of the server panics, since its
    registry has them. *)
Theorem start_metrics_once name admin g :
  registered g = ∅ →
  let '(g', out) := start_metrics name admin g in
  out = Ok (mkMetrics name [] []) ∧
  registered g' = list_to_set ([RequestCounter name; LatencySummary name] ++ (if admin then [ProcessCollector; GoCollector] else [])) ∧
  is_panic (start_metrics name admin g').2 = true.
Proof.
  intros Hg. unfold start_metrics at 1, NewHTTPServerMetricsMiddleware, metrics_Handler.
  destruct (register_all_new [RequestCounter name; LatencySummary name] g) as [Hok Hr].
  { repeat constructor; set_solver. }
  { rewrite Hg. set_solver. }
  destruct (register_all [RequestCounter name; LatencySummary name] g) as [g1 out1]. cbn in Hok, Hr. subst out1.
  rewrite Hg in Hr. cbn -[start_metrics register_all].
  destruct admin.
  - destruct (register_all_new [ProcessCollector; GoCollector] g1) as [Hok2 Hr2].
    { repeat constructor; set_solver. }
    { rewrite Hr. set_solver. }
    destruct (register_all [ProcessCollector; GoCollector] g1) as [g2 out2]. cbn in Hok2, Hr2. subst out2. cbn -[start_metrics].
    split_and!; [done|rewrite Hr2 Hr; set_solver|]. apply start_metrics_dup. rewrite Hr2 Hr. set_solver.
  - split_and!; [done|rewrite Hr; set_solver|]. apply start_metrics_dup. rewrite Hr. set_solver.
Qed.
End registration_properties.

(** ** What is counted *)

Section counting.
Context {S : Type} `{!HasMetrics S} (getPathPattern : option (Context → string)) (elapsed : Request → Z).
Notation MetricsMiddleware := (MetricsMiddleware getPathPattern elapsed).

(** Requests one after the other: what each got, and how its handler ended. *)
Fixpoint serve_all (h : Handler S) (rs : list Request) (s : S) : S * list (Request * RW * res ()) :=
  match rs with
  | [] => (s, [])
  | r :: rs =>
      let '(s, w, out) := h r s rw_empty in
      let '(s, log) := serve_all h rs s in (s, (r, w, out) :: log)
  end.

Definition request_path (r : Request) : string :=
  match getPathPattern with Some f => f (req_ctx r) | None => req_URL r end.

(** The sample a request should give: none if its handler panicked, else one with
    the status that the client was sent. *)
Definition sample (x : Request * RW * res ()) : option labels :=
  let '(r, w, out) := x in
  match out with
  | Panic _ => None
  | _ => Some (pretty (default 0%Z (status_sent rw_empty w)), req_Method r, request_path r)
  end.

Lemma MetricsMiddleware_once next r s :
  (∀ r s w, get_metrics (next r s w).1.1 = get_metrics s) →
  let '(s', w', out) := MetricsMiddleware next r s rw_empty in
  mt_requests (get_metrics s') = mt_requests (get_metrics s) ++ option_list (sample (r, w', out)) ∧
  (mt_latency (get_metrics s')).*1 = (mt_latency (get_metrics s)).*1 ++ option_list (sample (r, w', out)).
Proof.
  intros Hnext. unfold Metrics.MetricsMiddleware. specialize (Hnext r s (mkRW (rw_header rw_empty) [])).
  destruct (next r s _) as [[s1 tw] out] eqn:E. cbn in Hnext.
  pose proof (MonitorMetrics_spec getPathPattern r (rw_ops tw) out rw_empty) as Hm. unfold sample, request_path.
  destruct (MonitorMetrics getPathPattern r (rw_ops tw) out rw_empty) as [[w' observed] out'] eqn:Em.
  destruct Hm as (->&Hobs&_). unfold MonitorMetrics in Em.
  destruct out; injection Em as <- <-; cbn in *; rewrite ?get_set_metrics ?fmap_app; cbn; rewrite ?Hnext ?app_nil_r; try done;
    destruct Hobs as [path [= Hst Hpath]]; by rewrite Hst.
Qed.

(** C32. The counter of requests is exact: after any requests to any handlers, the
    samples of the counter and of the summary are those of the requests whose
    handler did not panic, one each, in order, under the status that was sent, the
    method and the path; so the value for some labels is the number of those
    requests. But a request whose handler wrote nothing, whom the server answers
    with a 200, is counted under status 0, and one that panicked is not counted. *)
Theorem MetricsMiddleware_counts next rs s :
  (∀ r s w, get_metrics (next r s w).1.1 = get_metrics s) →
  let '(s', log) := serve_all (MetricsMiddleware next) rs s in
  mt_requests (get_metrics s') = mt_requests (get_metrics s) ++ omap sample log ∧
  (mt_latency (get_metrics s')).*1 = (mt_latency (get_metrics s)).*1 ++ omap sample log ∧
  ∀ l, requests_total (get_metrics s') l = (requests_total (get_metrics s) l + length (filter (λ l', l' = l) (omap sample log)))%nat.
Proof.
  intros Hnext.
  enough (let '(s', log) := serve_all (MetricsMiddleware next) rs s in
    mt_requests (get_metrics s') = mt_requests (get_metrics s) ++ omap sample log ∧
    (mt_latency (get_metrics s')).*1 = (mt_latency (get_metrics s)).*1 ++ omap sample log) as H.
  { destruct (serve_all _ rs s) as [s' log]. destruct H as [H1 H2]. split_and!; [done..|].
    intros l. unfold requests_total. by rewrite H1 list.filter_app length_app. }
  revert s. induction rs as [|r rs IH]; intros s; cbn -[sample].
  { by rewrite !app_nil_r. }
  pose proof (MetricsMiddleware_once next r s Hnext) as Hone.
  destruct (MetricsMiddleware next r s rw_empty) as [[s1 w1] out1]. specialize (IH s1).
  destruct (serve_all _ rs s1) as [s' log]. destruct Hone as [H1 H2], IH as [H3 H4].
  cbn [omap list_omap]. rewrite H3 H4 H1 H2 -!app_assoc. by destruct (sample (r, w1, out1)).
Qed.
End counting.

(** ** A registry, and a server's requests *)
Module MetricsExample.
#[export] Instance registry : Registry (gset collector) := {
  MustRegister c g := if bool_decide (c ∈ g) then (g, Panic (PanicError (ErrText "duplicate metrics collector registration attempted")))
                      else ({[c]} ∪ g, Ok ());
  registered g := g
}.
#[export] Instance registry_laws : RegistryLaws (gset collector).
Proof. split; intros c g Hc; cbn; [rewrite bool_decide_false|rewrite bool_decide_true]; by try split. Defined.
#[export] Instance metrics_only : HasMetrics Metrics := { get_metrics s := s; set_metrics m s := m; get_set_metrics m s := eq_refl }.
Definition next : Handler Metrics := λ r s w,
  if bool_decide (req_URL r = "/hello") then (s, rw_write_header 201 w, Ok ())
  else if bool_decide (req_URL r = "/boom") then (s, w, Panic (PanicString "boom")) else (s, w, Ok ()).
Definition req (url : string) : Request := mkRequest Background "GET" url ∅ "".
Definition requests : list Request := [req "/hello"; req "/boom"; req "/silent"; req "/hello"].
Definition initial : Metrics := mkMetrics "app" [] [].
Lemma next_keeps r s w : get_metrics (next r s w).1.1 = get_metrics s.
Proof. unfold next. do 2 (destruct (bool_decide _); [reflexivity|]). reflexivity. Defined.
End MetricsExample.
#[local] Existing Instance MetricsExample.registry.
#[local] Existing Instance MetricsExample.registry_laws.
#[local] Existing Instance MetricsExample.metrics_only.

Lemma start_metrics_once_witness :
  let '(g', out) := start_metrics (Reg := gset collector) "app" true ∅ in
  out = Ok (mkMetrics "app" [] []) ∧ is_panic (start_metrics "app" true g').2 = true.
Proof.
  pose proof (start_metrics_once (Reg := gset collector) "app" true ∅ eq_refl) as H.
  destruct (start_metrics "app" true ∅) as [g' out]. destruct H as (H1&_&H2). split; [exact H1|exact H2].
Defined.

Lemma MetricsMiddleware_counts_witness :
  let '(s', log) := serve_all (MetricsMiddleware None (λ _, 1%Z) MetricsExample.next) MetricsExample.requests MetricsExample.initial in
  mt_requests s' = [("201", "GET", "/hello"); ("0", "GET", "/silent"); ("201", "GET", "/hello")] ∧
  requests_total s' ("201", "GET", "/hello") = 2%nat.
Proof.
  pose proof (MetricsMiddleware_counts None (λ _, 1%Z) MetricsExample.next MetricsExample.requests MetricsExample.initial
    MetricsExample.next_keeps) as H.
  destruct (serve_all _ _ _) as [s' log] eqn:E. vm_compute in E. injection E as <- <-.
  destruct H as (H1&_&H2). split; [exact H1|rewrite (H2 _); vm_compute; reflexivity].
Defined.
