(* ===== verification/RestLib.v ===== *)
(** * Calls to REST downstreams and their results: src/restlib, src/common/async.go

    [DoHTTPRequest] encodes the body, sends the request and decodes the response;
    [SendHTTPResponse] is the other direction; the rest result is the record of the
    last call that a caller can ask for; [Async] runs such calls concurrently. *)

From S2P Require Export RequestContext.

(** ** Values behind [interface{}] that are sent and received *)

(** What the code tells apart by type switches and reflection: [payload] is what is
    sent, a nil, a string, bytes, pointers to those, or a value of another type. *)
Inductive payload :=
| PayNil
| PayString (s : string)
| PayBytes (b : string)
| PayStringPtr (s : string)
| PayBytesPtr (b : string)
| PayOther (v : value).

(** What a response is decoded into, as [Responses] chooses it by status: nil, a
    pointer to a string or byte slice type, a pointer to another type, or a value
    that is not a pointer. *)
Inductive target :=
| TargetNil
| TargetString
| TargetBytes
| TargetStructPtr
| TargetValue.

#[export] Instance target_eq_dec : EqDecision target.
Proof. solve_decision. Defined.

(** What it was decoded to: nil, a pointer to a zero value, to the text, the bytes
    or a decoded value, or the raw text of an XML body. *)
Inductive decoded :=
| DecNil
| DecZero (t : target)
| DecString (s : string)
| DecBytes (b : string)
| DecValue (v : value)
| DecXML (s : string).

(** [HTTPResult]. *)
Record HTTPResult := mkHTTPResult {
  hres_HTTPResponse : HTTPResponse;
  hres_Body : string;
  hres_Response : decoded
}.

Definition makeHTTPResult (res : HTTPResponse) (body : string) (resp : decoded) : HTTPResult :=
  mkHTTPResult res body resp.

Definition reflect_panic : panicval := PanicError (ErrText "reflect: call of reflect.Value.Elem on a value that is no pointer").
Definition convert_panic : panicval := PanicString "reflect.Value.Convert: value cannot be converted to type string".

Section restlib.
(** The codecs of the standard library and [go-querystring], and [gzip]. *)
Context (json_Unmarshal : string → error + value) (json_Marshal : payload → error + string)
  (query_Encode : payload → error + string) (gunzip : string → error + string).

(** ** Decoding a response *)

Definition unmarshal (resp : option HTTPResponse) (body : string) (respStruct : target) : res HTTPResult :=
  match resp with
  | None => Panic (PanicString "unmarshal expecting a non-nil http.Response")
  | Some resp =>
    if bool_decide (respStruct = TargetNil) || bool_decide (body = "") then
      Ok (makeHTTPResult resp body
            match respStruct with TargetNil | TargetValue => DecNil | t => DecZero t end)
    else
      match respStruct with
      | TargetNil => Ok (makeHTTPResult resp body DecNil)
      | TargetValue => Panic reflect_panic
      | TargetString => Ok (makeHTTPResult resp body (DecString body))
      | TargetBytes => Ok (makeHTTPResult resp body (DecBytes body))
      | TargetStructPtr =>
          if Contains (header_get (hr_Header resp) "Content-Type") "xml"
          then Ok (makeHTTPResult resp body (DecXML body))
          else match json_Unmarshal body with
               | inl err => Err err
               | inr v => Ok (makeHTTPResult resp body (DecValue v))
               end
      end
  end.

(** ** Encoding a request body *)

Definition marshalRequestBody (contentType : string) (v : payload) : res string :=
  if Contains contentType "xml" then
    match v with
    | PayString s | PayBytes s =>
        if HasSuffix s " Value>" then Err (ErrText ("Incompatible type as xml body: " +:+ s)) else Ok s
    | _ => Panic convert_panic
    end
  else if Contains contentType "application/x-www-form-urlencoded" then
    match query_Encode v with inl err => Err err | inr s => Ok s end
  else if Contains contentType "text/plain" || Contains contentType "text/html" then
    match v with PayString s => Ok s | _ => Err (ErrText "Invalid plain text value") end
  else if Contains contentType "application/octet-stream" then
    match v with PayBytes b => Ok b | _ => Err (ErrText "Invalid byte value") end
  else
    match json_Marshal v with inl err => Err err | inr s => Ok s end.

(** ** DoHTTPRequest *)

Record HTTPRequest := mkHTTPRequest {
  hreq_Method : string;
  hreq_URLString : string;
  hreq_Body : payload;
  hreq_Required : list string;
  hreq_Responses : Z → target;
  hreq_ExtraHeaders : list (string * list string) (* in the order the map is ranged over *)
}.

(** [headers.Add] for each extra value: on a nil header it panics. *)
Definition add_extra (extra : list (string * list string)) (headers : option Header) : res (option Header) :=
  match headers with
  | Some h => Ok (Some (foldl (λ h kv, foldl (λ h v, header_add h kv.1 v) h kv.2) h extra))
  | None => if existsb (λ kv, negb (bool_decide (kv.2 = []))) extra then Panic nil_map_write else Ok None
  end.

(** What the call came to: [return result, nil], or the result as the error. *)
Inductive fetched := Success (r : HTTPResult) | Failure (r : HTTPResult).

Definition is_success (status : Z) : bool := bool_decide (200 ≤ status < 300)%Z.

Section do.
Context {S : Type} `{!HasMonitors S}.
(** [config.Client.Do]; [http.NewRequestWithContext] checks the method and URL; the
    length announced for a response and the error its body ends in, if any. *)
Context (Do : Request → S → S * res HTTPResponse) (check_request : string → string → option error)
  (ContentLength : HTTPResponse → Z) (read_error : HTTPResponse → option error).

(** The deferred [Close] of the body. *)
Definition close_response (ctx : Context) (resp : HTTPResponse) (s : S) : S :=
  match monitor_of ctx s with
  | Some (l, m) => set_monitors (<[l := close_body m resp]> (get_monitors s)) s
  | None => s
  end.

(** From the response on. *)
Definition receive (config : HTTPRequest) (resp : HTTPResponse) : res fetched :=
  let gzipped := Contains (fold_case (header_get (hr_Header resp) "Content-Encoding")) "gzip" &&
                 bool_decide (ContentLength resp ≠ 0)%Z in
  respBody ← (if gzipped
              then match gunzip (hr_Body resp) with inl err => Err err | inr b => Ok b end
              else Ok (hr_Body resp));
  _ ← of_option_err (read_error resp);
  result ← unmarshal (Some resp) respBody (hreq_Responses config (hr_StatusCode resp));
  Ok (if is_success (hr_StatusCode resp) then Success result else Failure result).

(** Up to the point where the request is sent. *)
Definition prepare_request (ctx : Context) (config : HTTPRequest) : res Request :=
  let headers := RequestHeaderFromContext ctx in
  let contentType := nil_header_get headers "Content-Type" in
  reader ← match hreq_Body config with PayNil => Ok "" | v => marshalRequestBody contentType v end;
  headers ← add_extra (hreq_ExtraHeaders config) headers;
  _ ← forM_res (λ key, if bool_decide (nil_header_get headers key = "")
                       then Err (ErrText ("Missing Required header: " +:+ key)) else Ok ()) (hreq_Required config);
  _ ← of_option_err (check_request (hreq_Method config) (hreq_URLString config));
  Ok (mkRequest ctx (hreq_Method config) (hreq_URLString config) (default ∅ headers) reader).

Definition DoHTTPRequest (ctx : Context) (config : HTTPRequest) (s : S) : S * res fetched :=
  match prepare_request ctx config with
  | Ok httpRequest =>
    match Do httpRequest s with
    | (s, Ok httpResponse) => (close_response ctx httpResponse s, receive config httpResponse)
    | (s, Err err) => (s, Err err)
    | (s, Panic p) => (s, Panic p)
    end
  | Err err => (s, Err err)
  | Panic p => (s, Panic p)
  end.
End do.

(** ** The rest result *)

Definition toRestResult (result : HTTPResult) : RestResult :=
  mkRestResult (hr_StatusCode (hres_HTTPResponse result)) (Some (hr_Header (hres_HTTPResponse result)))
    (hres_Body result).

Definition SetRestResult (ctx : Context) (result : RestResult) (h : rest_heap) : rest_heap :=
  match ctx_Value ctx KRestResult with
  | None => h
  | Some target => <[target := result]> h
  end.

(** The two results of [DoHTTPRequest] as the generated code passes them on. *)
Definition OnRestResultHTTPResult (ctx : Context) (r : res fetched) (h : rest_heap) : rest_heap :=
  match r with
  | Ok (Success result) | Ok (Failure result) => SetRestResult ctx (toRestResult result) h
  | _ => h
  end.

(** ** Sending a response *)

(** [xml_Encode] and [json_Encode] are what the encoders write, if they can. *)
Context (xml_Encode json_Encode : payload → option string).

Definition write_opt (o : option string) (w : RW) : RW :=
  match o with Some b => rw_write b w | None => w end.

Definition send_one (contentType : string) (resp : payload) (w : RW) : RW * res () :=
  if Contains contentType "xml" then (write_opt (xml_Encode resp) w, Ok ())
  else if Contains contentType "image" then
    match resp with
    | PayBytesPtr b => (rw_write b w, Ok ())
    | _ => (w, Panic reflect_panic)
    end
  else if Contains contentType "text/plain" || Contains contentType "text/html" then
    match resp with
    | PayStringPtr data | PayString data => (rw_write data w, Ok ())
    | _ => (w, Ok ())
    end
  else if Contains contentType "octet-stream" || Contains contentType "pdf" then
    match resp with
    | PayBytesPtr data | PayBytes data => (rw_write data w, Ok ())
    | _ => (w, Ok ())
    end
  else (write_opt (json_Encode resp) w, Ok ()).

(** The loop over the responses ends with the first that is not nil. *)
Fixpoint send_first (contentType : string) (responses : list payload) (w : RW) : RW * res () :=
  match responses with
  | [] => (w, Ok ())
  | PayNil :: responses => send_first contentType responses w
  | resp :: _ => send_one contentType resp w
  end.

Definition SendHTTPResponse (httpStatus : Z) (responses : list payload) (w : RW) : RW * res () :=
  let w := rw_write_header httpStatus w in
  send_first (header_get (rw_header w) "Content-Type") responses w.

Definition SetHeaders (headerMap : list (string * list string)) (w : RW) : RW :=
  foldl (λ w kv, foldl (λ w hv, rw_add_header kv.1 hv w) w kv.2) w headerMap.
End restlib.

(** ** Async

    The function runs in a goroutine of its own; its result goes into a channel of
    capacity one, which each [Get] receives from. *)
Section async.
Context {A : Type}.
(** The text of the stack, and [fmt.Errorf] of what was recovered. *)
Context (debug_Stack : string) (fmt_recovered : panicval → error).

Record async_state := mk_async_state {
  async_running : bool;
  async_chan : option (res A);
  async_done : option error          (* ctx.Err() *)
}.

(** What the goroutine sends for what [fn] came to. *)
Definition async_result (r : res A) : option (res A) :=
  match r with
  | Panic p => (λ rvr, Err (ErrServer 2 debug_Stack (Some (fmt_recovered rvr)))) <$> recover p
  | _ => Some r
  end.

Inductive async_label :=
| AFnEnds (r : res A)
| ACtxDone (e : error)
| AGet (got : res A).   (* a call of Get returns *)

Definition async_init : async_state := mk_async_state true None None.

Inductive async_step : async_state → async_label → async_state → Prop :=
| async_ends s r :
    async_running s = true →
    async_step s (AFnEnds r) (mk_async_state false (async_result r) (async_done s))
| async_ctx s e :
    async_done s = None →
    async_step s (ACtxDone e) (mk_async_state (async_running s) (async_chan s) (Some e))
| async_get_done s e :
    async_done s = Some e →
    async_step s (AGet (Err e)) s
| async_get_result s r :
    async_chan s = Some r →
    async_step s (AGet r) (mk_async_state (async_running s) None (async_done s)).

Inductive async_runs : list async_label → async_state → Prop :=
| async_nil : async_runs [] async_init
| async_snoc ls s l s' : async_runs ls s → async_step s l s' → async_runs (ls ++ [l]) s'.
End async.
Arguments async_state : clear implicits.
Arguments async_label : clear implicits.

(** * Lemmas *)

(** *** What is sent and what is made of a response *)

(** The values that the extra headers add under a canonical key, in order. *)
Definition extra_values (extra : list (string * list string)) (k : string) : list string :=
  extra ≫= λ kv, if bool_decide (CanonicalHeaderKey kv.1 = k) then kv.2 else [].

Section outcome.
Context (json_Unmarshal : string → error + value) (gunzip : string → error + string)
  (ContentLength : HTTPResponse → Z) (read_error : HTTPResponse → option error).
Notation unmarshal := (unmarshal json_Unmarshal).
Notation receive := (receive json_Unmarshal gunzip ContentLength read_error).

Definition compressed (resp : HTTPResponse) : bool :=
  Contains (fold_case (header_get (hr_Header resp) "Content-Encoding")) "gzip" && bool_decide (ContentLength resp ≠ 0)%Z.

(** The text of a body, if it can be read. *)
Definition body_text (resp : HTTPResponse) (body : string) : Prop :=
  (if compressed resp then gunzip (hr_Body resp) = inr body else hr_Body resp = body) ∧ read_error resp = None.

(** What a body is decoded to: without a body, or a type for it, there is nothing to
    decode; text and bytes are taken as they are, and so is XML. *)
Inductive decodes (resp : HTTPResponse) : target → string → decoded → Prop :=
| decodes_untyped body : decodes resp TargetNil body DecNil
| decodes_empty_value : decodes resp TargetValue "" DecNil
| decodes_empty t : t ≠ TargetNil → t ≠ TargetValue → decodes resp t "" (DecZero t)
| decodes_string body : body ≠ "" → decodes resp TargetString body (DecString body)
| decodes_bytes body : body ≠ "" → decodes resp TargetBytes body (DecBytes body)
| decodes_xml body : body ≠ "" → Contains (header_get (hr_Header resp) "Content-Type") "xml" = true →
    decodes resp TargetStructPtr body (DecXML body)
| decodes_json body v : body ≠ "" → Contains (header_get (hr_Header resp) "Content-Type") "xml" = false →
    json_Unmarshal body = inr v → decodes resp TargetStructPtr body (DecValue v).

(** Why it cannot be had. *)
Inductive undecodable (resp : HTTPResponse) (t : target) : error → Prop :=
| not_unzipped e : compressed resp = true → gunzip (hr_Body resp) = inl e → undecodable resp t e
| not_read e : (compressed resp = true → ∃ body, gunzip (hr_Body resp) = inr body) → read_error resp = Some e →
    undecodable resp t e
| not_json body e : body_text resp body → body ≠ "" → t = TargetStructPtr →
    Contains (header_get (hr_Header resp) "Content-Type") "xml" = false → json_Unmarshal body = inl e → undecodable resp t e.

Lemma unmarshal_decodes resp body t :
  match unmarshal (Some resp) body t with
  | Ok r => hres_HTTPResponse r = resp ∧ hres_Body r = body ∧ ∀ dec, decodes resp t body dec ↔ dec = hres_Response r
  | Err e => body ≠ "" ∧ t = TargetStructPtr ∧ Contains (header_get (hr_Header resp) "Content-Type") "xml" = false ∧
      json_Unmarshal body = inl e
  | Panic p => body ≠ "" ∧ t = TargetValue ∧ p = reflect_panic
  end.
Proof.
  unfold RestLib.unmarshal. destruct (decide (body = "")) as [->|Hne].
  - rewrite orb_true_r. cbn. split_and!; [done..|]. intros dec. split.
    + inversion 1; subst; try done. by destruct t.
    + intros ->. by destruct t; constructor.
  - rewrite (bool_decide_false (body = "")) // orb_false_r. case_bool_decide as Ht; [subst t|destruct t; try done; cbn].
    + cbn. split_and!; [done..|]. intros dec. split; [by inversion 1|]. intros ->. constructor.
    + split_and!; [done..|]. intros dec. split; [by inversion 1|]. intros ->. by constructor.
    + split_and!; [done..|]. intros dec. split; [by inversion 1|]. intros ->. by constructor.
    + destruct (Contains _ _) eqn:Hx; [|destruct (json_Unmarshal body) as [e|v] eqn:Hj; [done|]]; cbn.
      * split_and!; [done..|]. intros dec. split; [inversion 1; congruence|]. intros ->. by constructor.
      * split_and!; [done..|]. intros dec. split; [inversion 1; congruence|]. intros ->. by constructor.
Qed.

Definition text_of (resp : HTTPResponse) : res string :=
  body ← (if compressed resp then match gunzip (hr_Body resp) with inl err => Err err | inr b => Ok b end
          else Ok (hr_Body resp));
  _ ← of_option_err (read_error resp); Ok body.

Lemma undecodable_read resp t body :
  (∀ b, body_text resp b ↔ b = body) →
  ∀ e, undecodable resp t e ↔ body ≠ "" ∧ t = TargetStructPtr ∧
    Contains (header_get (hr_Header resp) "Content-Type") "xml" = false ∧ json_Unmarshal body = inl e.
Proof.
  intros Hb e. assert (body_text resp body) as [Hz Hn] by by apply Hb. split.
  - intros [e0 Hc Hg|e0 _ Hr|b e0 Hbt ????]; [rewrite Hc in Hz; congruence|congruence|apply Hb in Hbt as ->; by split_and!].
  - intros (?&?&?&?). apply (not_json resp t body); try done.
Qed.

Lemma text_of_spec resp t :
  match text_of resp with
  | Ok body => (∀ b, body_text resp b ↔ b = body) ∧
      ∀ e, undecodable resp t e ↔ body ≠ "" ∧ t = TargetStructPtr ∧
        Contains (header_get (hr_Header resp) "Content-Type") "xml" = false ∧ json_Unmarshal body = inl e
  | Err e => (∀ b, ¬ body_text resp b) ∧ ∀ e', undecodable resp t e' ↔ e' = e
  | Panic _ => False
  end.
Proof.
  unfold text_of. destruct (compressed resp) eqn:Hc; [destruct (gunzip (hr_Body resp)) as [e|body] eqn:Hg|].
  - cbn. split; [intros b [H _]; rewrite Hc in H; congruence|]. intros e'. split.
    + intros [e0 _ H|e0 H _|b e0 [H _] _ _ _ _]; [congruence| |rewrite Hc in H; congruence]. destruct (H Hc). congruence.
    + intros ->. by apply not_unzipped.
  - cbn. destruct (read_error resp) as [e|] eqn:Hr; cbn.
    + split; [intros b [_ H]; congruence|]. intros e'. split; [|intros ->; apply not_read; [by eexists|done]].
      intros [e0 _ H|e0 _ H|b e0 [_ H] _ _ _ _]; congruence.
    + assert (∀ b, body_text resp b ↔ b = body) as Hb.
      { intros b. unfold body_text. rewrite Hc Hg Hr. naive_solver. }
      split; [done|]. by apply undecodable_read.
  - cbn. destruct (read_error resp) as [e|] eqn:Hr; cbn.
    + split; [intros b [_ H]; congruence|]. intros e'. split; [|intros ->; apply not_read; [by rewrite Hc|done]].
      intros [e0 H _|e0 _ H|b e0 [_ H] _ _ _ _]; congruence.
    + assert (∀ b, body_text resp b ↔ b = hr_Body resp) as Hb.
      { intros b. unfold body_text. rewrite Hc Hr. naive_solver. }
      split; [done|]. by apply undecodable_read.
Qed.

(** What is made of a response: every result for its cause and no other. *)
Definition outcome_of (t : target) (resp : HTTPResponse) (r : res fetched) : Prop :=
  (∀ f, r = Ok f ↔ ∃ body dec, body_text resp body ∧ decodes resp t body dec ∧
     f = (if bool_decide (200 ≤ hr_StatusCode resp < 300)%Z then Success else Failure) (mkHTTPResult resp body dec)) ∧
  (∀ e, r = Err e ↔ undecodable resp t e) ∧
  (∀ p, r = Panic p ↔ p = reflect_panic ∧ t = TargetValue ∧ ∃ body, body_text resp body ∧ body ≠ "").

Lemma receive_outcome config resp :
  outcome_of (hreq_Responses config (hr_StatusCode resp)) resp (receive config resp).
Proof.
  set (t := hreq_Responses config (hr_StatusCode resp)).
  assert (receive config resp = (body ← text_of resp; r ← unmarshal (Some resp) body t;
    Ok (if is_success (hr_StatusCode resp) then Success r else Failure r))) as ->.
  { unfold RestLib.receive, text_of. fold (compressed resp). destruct (if compressed resp then _ else _); [|done..].
    cbn. by destruct (of_option_err _). }
  pose proof (text_of_spec resp t) as Ht. destruct (text_of resp) as [body|e|p]; [|destruct Ht as [Hb He]|done].
  2: { split_and!; [intros f; split; [done|]|intros e'; rewrite He; split; [by intros [= ->]|by intros ->]|intros p; split; [done|]].
       - intros (body&_&Hbody&_). by apply Hb in Hbody.
       - intros (_&_&body&Hbody&_). by apply Hb in Hbody. }
  destruct Ht as [Hb He]. cbn [mbind res_bind]. pose proof (unmarshal_decodes resp body t) as Hu.
  assert (∀ P : string → Prop, (∃ b, body_text resp b ∧ P b) ↔ P body) as Hex.
  { intros P. split; [by intros (b&->%Hb&?)|]. intros ?. exists body. by rewrite Hb. }
  destruct (unmarshal (Some resp) body t) as [r|e|p]; cbn [mbind res_bind].
  - destruct Hu as (Hr&Hrb&Hdec). assert (mkHTTPResult resp body (hres_Response r) = r) as Hr' by (by rewrite -Hr -Hrb; destruct r).
    split_and!.
    + intros f. unfold is_success. split.
      * intros [= <-]. exists body, (hres_Response r). rewrite Hb Hdec Hr'. split_and!; [done..|]. by case_bool_decide.
      * intros (b&dec&->%Hb&->%Hdec&->). rewrite Hr'. by case_bool_decide.
    + intros e. rewrite He. split; [done|]. intros (Hne&Ht&Hx&Hj). exfalso.
      assert (∀ dec, ¬ decodes resp t body dec) as Hn by (intros dec; rewrite Ht; inversion 1; congruence).
      by apply (Hn (hres_Response r)), Hdec.
    + intros p. split; [done|]. intros (_&Ht&Hne%Hex). exfalso.
      assert (∀ dec, ¬ decodes resp t body dec) as Hn by (intros dec; rewrite Ht; inversion 1; congruence).
      by apply (Hn (hres_Response r)), Hdec.
  - destruct Hu as (Hne&Ht&Hx&Hj). split_and!.
    + intros f. split; [done|]. intros (b&dec&->%Hb&Hdec&_). rewrite Ht in Hdec. inversion Hdec; congruence.
    + intros e'. rewrite He. split; [by intros [= <-]|]. intros (_&_&_&Hj'). congruence.
    + intros p. split; [done|]. intros (_&Ht'&_). congruence.
  - destruct Hu as (Hne&Ht&->). split_and!.
    + intros f. split; [done|]. intros (b&dec&->%Hb&Hdec&_). rewrite Ht in Hdec. inversion Hdec; congruence.
    + intros e'. rewrite He. split; [done|]. intros (_&Ht'&_). congruence.
    + intros p. split; [|by intros (->&_)]. intros [= <-]. split_and!; [done..|]. by apply Hex.
Qed.
End outcome.

Section restlib_properties.
Context (json_Unmarshal : string → error + value) (json_Marshal : payload → error + string)
  (query_Encode : payload → error + string) (gunzip : string → error + string).
Context {S : Type} `{!HasMonitors S}.
Context (base : @RoundTripper S) (check_request : string → string → option error)
  (ContentLength : HTTPResponse → Z) (read_error : HTTPResponse → option error).
Notation unmarshal := (unmarshal json_Unmarshal).
Notation receive := (receive json_Unmarshal gunzip ContentLength read_error).
Notation prepare := (prepare_request json_Marshal query_Encode check_request).

Lemma unmarshal_Ok resp body t r :
  unmarshal (Some resp) body t = Ok r → hres_HTTPResponse r = resp ∧ hres_Body r = body.
Proof. unfold RestLib.unmarshal. intros H. by repeat case_match; simplify_eq. Qed.

Lemma receive_Ok config resp f :
  receive config resp = Ok f →
  ∃ body dec, (body = hr_Body resp ∨ gunzip (hr_Body resp) = inr body) ∧ read_error resp = None ∧
    f = (if is_success (hr_StatusCode resp) then Success else Failure) (mkHTTPResult resp body dec) ∧
    unmarshal (Some resp) body (hreq_Responses config (hr_StatusCode resp)) = Ok (mkHTTPResult resp body dec).
Proof.
  unfold RestLib.receive. intros (body&Hbody&([]&Hread&(r&Hr&[= <-])%res_bind_Ok)%res_bind_Ok)%res_bind_Ok.
  destruct (unmarshal_Ok _ _ _ _ Hr) as [<- <-]. exists (hres_Body r), (hres_Response r).
  split_and!; try by destruct r.
  - destruct (_ && _); [|injection Hbody as ->; by left].
    destruct (gunzip _) as [|b]; [done|]. injection Hbody as ->. by right.
  - by destruct (read_error _).
  - by destruct (is_success _), r.
Qed.

(** What was sent: the body encoded, the headers of the context with the extra ones,
    and every required header there. *)
Lemma prepare_Ok ctx config req :
  prepare ctx config = Ok req →
  req_ctx req = ctx ∧ req_Method req = hreq_Method config ∧ req_URL req = hreq_URLString config ∧
  Forall (λ key, header_get (req_Header req) key ≠ "") (hreq_Required config).
Proof.
  unfold prepare_request. intros (body&_&H)%res_bind_Ok.
  apply res_bind_Ok in H as (headers&_&H). apply res_bind_Ok in H as ([]&Hreq&H).
  apply res_bind_Ok in H as ([]&_&[= <-]). cbn. split_and!; try done.
  apply forM_res_Ok in Hreq. eapply list.Forall_impl; [exact Hreq|]. intros key. cbn.
  by case_bool_decide.
Qed.

(** *** The request *)

Record is_request (ctx : Context) (config : HTTPRequest) (req : Request) : Prop := {
  ir_ctx : req_ctx req = ctx;
  ir_Method : req_Method req = hreq_Method config;
  ir_URL : req_URL req = hreq_URLString config;
  ir_Body : match hreq_Body config with
            | PayNil => req_Body req = ""
            | v => marshalRequestBody json_Marshal query_Encode
                     (nil_header_get (RequestHeaderFromContext ctx) "Content-Type") v = Ok (req_Body req)
            end;
  ir_Header k : default [] (req_Header req !! k) =
    default [] (default ∅ (RequestHeaderFromContext ctx) !! k) ++ extra_values (hreq_ExtraHeaders config) k;
  ir_context_header : RequestHeaderFromContext ctx = None → Forall (λ kv, kv.2 = []) (hreq_ExtraHeaders config);
  ir_Required : Forall (λ key, header_get (req_Header req) key ≠ "") (hreq_Required config);
  ir_checked : check_request (hreq_Method config) (hreq_URLString config) = None
}.

Lemma header_add_values h key v k :
  default [] (header_add h key v !! k) = default [] (h !! k) ++ if bool_decide (CanonicalHeaderKey key = k) then [v] else [].
Proof.
  unfold header_add. case_bool_decide as Hk; [by rewrite -Hk lookup_insert_eq|]. by rewrite lookup_insert_ne // app_nil_r.
Qed.

Lemma add_extra_values extra h k :
  default [] (foldl (λ h kv, foldl (λ h v, header_add h kv.1 v) h kv.2) h extra !! k) =
  default [] (h !! k) ++ extra_values extra k.
Proof.
  revert h. induction extra as [|[key vs] extra IH]; intros h; cbn; [by rewrite app_nil_r|]. rewrite IH app_assoc. f_equal.
  clear IH. revert h. induction vs as [|v vs IH]; intros h; cbn; [case_bool_decide; by rewrite app_nil_r|].
  rewrite IH header_add_values -app_assoc. by case_bool_decide.
Qed.

Lemma add_extra_spec extra h :
  match add_extra extra h with
  | Ok h' => (h = None → Forall (λ kv, kv.2 = []) extra) ∧
      ∀ k, default [] (default ∅ h' !! k) = default [] (default ∅ h !! k) ++ extra_values extra k
  | Err _ => False
  | Panic _ => h = None ∧ ¬ Forall (λ kv, kv.2 = []) extra
  end.
Proof.
  unfold add_extra. destruct h as [h|]; [split; [done|]; intros k; apply add_extra_values|].
  destruct (existsb _ extra) eqn:E.
  - split; [done|]. apply existsb_exists in E as (kv&Hin%list_elem_of_In&Hv%negb_true_iff%bool_decide_eq_false).
    rewrite list.Forall_forall. by intros H%(λ H, H kv Hin).
  - assert (Forall (λ kv : string * list string, kv.2 = []) extra) as Hall.
    { apply list.Forall_forall. intros kv Hin. destruct (decide (kv.2 = [])) as [|Hne]; [done|].
      assert (existsb (λ kv : string * list string, negb (bool_decide (kv.2 = []))) extra = true) as E'; [|congruence].
      apply existsb_exists. exists kv. split; [by apply list_elem_of_In|]. by rewrite bool_decide_false. }
    split; [done|]. intros k. cbn. rewrite lookup_empty /=. clear E. induction Hall as [|[key vs] extra Hv _ IH]; [done|].
    cbn in Hv. unfold extra_values in *. cbn. rewrite -IH Hv. by case_bool_decide.
Qed.

Lemma header_get_values h h' key :
  (∀ k, default [] (h !! k) = default [] (h' !! k)) → header_get h key = header_get h' key.
Proof.
  intros H. specialize (H (CanonicalHeaderKey key)). unfold header_get.
  destruct (h !! _) as [[|]|], (h' !! _) as [[|]|]; cbn in H; by simplify_eq.
Qed.

(** A request is sent exactly when there is one to send. *)
Lemma prepare_spec ctx config :
  match prepare ctx config with
  | Ok req => is_request ctx config req
  | _ => ∀ req, ¬ is_request ctx config req
  end.
Proof.
  unfold prepare_request. set (headers := RequestHeaderFromContext ctx).
  destruct (match hreq_Body config with PayNil => Ok "" | v => _ end) as [body|e|p] eqn:Hb; cbn [mbind res_bind].
  2-3: intros req [_ _ _ Hbody _ _ _ _]; fold headers in Hbody; destruct (hreq_Body config); congruence.
  pose proof (add_extra_spec (hreq_ExtraHeaders config) headers) as Hh.
  destruct (add_extra _ headers) as [h| |p]; cbn [mbind res_bind]; [|done|by intros req [_ _ _ _ _ H _ _]; destruct Hh as [Hn []]; apply H].
  destruct Hh as [Hnil Hvals]. destruct (forM_res _ (hreq_Required config)) as [[]|e|p] eqn:Hr; cbn [mbind res_bind].
  2-3: intros req [_ _ _ _ Hhdr _ Hreq _]; apply (f_equal is_ok) in Hr; revert Hr; rewrite (proj2 (forM_res_Ok _ _)); [|done];
    eapply list.Forall_impl; [exact Hreq|]; intros key Hkey; cbn; rewrite bool_decide_false // /nil_header_get;
    intros E; apply Hkey; rewrite -E; apply header_get_values; intros k; by rewrite Hvals Hhdr.
  destruct (check_request _ _) as [e|] eqn:Hc; cbn; [intros req [_ _ _ _ _ _ _ H]; congruence|].
  split; cbn; try done.
  - fold headers. destruct (hreq_Body config); cbn in Hb; congruence.
  - apply forM_res_Ok in Hr. eapply list.Forall_impl; [exact Hr|]. intros key. cbn. by case_bool_decide.
Qed.


(** Closing the body just added to the monitor. *)
Lemma close_last m resp w :
  hr_wrapper resp = Some (length m) →
  close_body (m ++ [w]) resp = m ++ [mk_wrapper (wr_url w) true].
Proof. intros H. unfold close_body. rewrite H alter_app_r_alt // Nat.sub_diag //. Qed.

(** C27. [DoHTTPRequest] never leaves a response open: when it sends its request through
    the logging round tripper, the bodies that are open after the call are those
    that were open before, whether it succeeds, fails or panics, so that it is
    never what makes the request fail. *)
Theorem DoHTTPRequest_closes_body rt_ctx ctx config s l m :
  ctx_Value ctx KBodyMonitor = Some l → get_monitors s !! l = Some m →
  (∀ req s, get_monitors (base req s).1 = get_monitors s) →
  let '(s', _) := DoHTTPRequest json_Unmarshal json_Marshal query_Encode gunzip
    (loggingRoundtripper_RoundTrip rt_ctx base) check_request ContentLength read_error ctx config s in
  ∃ m', get_monitors s' !! l = Some m' ∧
    getResponsesWithOpenBodies m' = getResponsesWithOpenBodies m.
Proof.
  intros Hl Hm Hbase. unfold DoHTTPRequest.
  destruct (prepare ctx config) as [req|e|p] eqn:Hprep; [|by eauto..].
  destruct (prepare_Ok _ _ _ Hprep) as (Hctx&_).
  assert (ctx_Value (req_ctx req) KBodyMonitor = Some l) as Hl' by by rewrite Hctx.
  pose proof (Hbase req s) as Hb. unfold loggingRoundtripper_RoundTrip.
  destruct (base req s) as [s1 [resp|e|p]] eqn:Hdo; cbn in Hb.
  - unfold AddResponseToMonitor, monitor_of. rewrite Hl' /= Hb Hm /=.
    unfold log_response, monitor_of. destruct (NewRequestLogger rt_ctx req) as [rl|].
    + rewrite Hl' /= get_set_monitors lookup_insert_eq /=.
      unfold close_response, monitor_of. rewrite Hl /= get_set_monitors lookup_insert_eq /=.
      eexists. split; [by rewrite get_set_monitors lookup_insert_eq|].
      unfold getResponsesWithOpenBodies, close_body. cbn. rewrite alter_app_r_alt // Nat.sub_diag /=.
      by rewrite list.filter_app /= app_nil_r.
    + unfold close_response, monitor_of. rewrite Hl /= get_set_monitors lookup_insert_eq /=.
      eexists. split; [by rewrite get_set_monitors lookup_insert_eq|].
      rewrite close_last //. unfold getResponsesWithOpenBodies. by rewrite list.filter_app /= app_nil_r.
  - unfold log_response, monitor_of. destruct (NewRequestLogger rt_ctx req); cbn; [|by rewrite Hb; eauto].
    rewrite Hl' /= Hb Hm /= get_set_monitors lookup_insert_eq. by eauto.
  - unfold log_response, monitor_of. destruct (NewRequestLogger rt_ctx req); cbn; [|by rewrite Hb; eauto].
    rewrite Hl' /= Hb Hm /= get_set_monitors lookup_insert_eq. by eauto.
Qed.

(** A caller that provisioned a rest result sees in it the last response that was
    decoded, success or failure, through any context made from the one it got; a
    call that came to anything else leaves the record as it was; and contexts that
    share no record do not see it. *)
Theorem rest_result_roundtrip ctx0 h r ctx' :
  let '(ctx, h0) := ProvisionRestResult ctx0 h in
  ctx_Value ctx' KRestResult = ctx_Value ctx KRestResult →
  GetRestResult ctx' (OnRestResultHTTPResult ctx' r h0) =
    Some match r with
         | Ok (Success result) | Ok (Failure result) => toRestResult result
         | _ => mkRestResult 0 None ""
         end ∧
  (∀ other, ctx_Value other KRestResult ≠ ctx_Value ctx KRestResult →
    GetRestResult other (OnRestResultHTTPResult ctx' r h0) = GetRestResult other h) ∧
  (ctx_Value ctx0 KRestResult = None → OnRestResultHTTPResult ctx0 r h = h).
Proof.
  unfold ProvisionRestResult. set (l := fresh (dom h)). rewrite WithValue_same. intros Hctx.
  assert (∀ h0, OnRestResultHTTPResult ctx' r h0 = match r with
    | Ok (Success result) | Ok (Failure result) => <[l := toRestResult result]> h0 | _ => h0 end) as ->.
  { intros h0. unfold OnRestResultHTTPResult, SetRestResult. by rewrite Hctx. }
  unfold GetRestResult. rewrite Hctx. cbn. split_and!.
  - destruct r as [[]| |]; by rewrite lookup_insert_eq.
  - intros other Hne. destruct (ctx_Value other KRestResult) as [l'|] eqn:E; [|done]. cbn.
    assert (l ≠ l') by (intros <-; by apply Hne). destruct r as [[]| |]; by rewrite !lookup_insert_ne.
  - intros Hn. unfold OnRestResultHTTPResult, SetRestResult. rewrite Hn. by destruct r as [[]| |].
Qed.

(** Extra headers need a request header in the context to be added to. *)
Lemma extra_headers_need_header extra k v vs :
  (k, v :: vs) ∈ extra → add_extra extra None = Panic nil_map_write.
Proof.
  intros Hin. unfold add_extra.
  assert (existsb (λ kv, negb (bool_decide (kv.2 = []))) extra = true) as ->; [|done].
  apply existsb_exists. exists (k, v :: vs). split; [by apply list_elem_of_In|]. done.
Qed.
End restlib_properties.

(** One status line, first, and at most one body. *)
Lemma SendHTTPResponse_calls xml json status responses w w' out :
  SendHTTPResponse xml json status responses w = (w', out) →
  ∃ bodies, (length bodies ≤ 1)%nat ∧
    rw_calls w' = rw_calls w ++ CallWriteHeader status (rw_header w) :: (CallWrite <$> bodies).
Proof.
  assert (∀ ct p w w' out, send_one xml json ct p w = (w', out) →
    ∃ bodies, (length bodies ≤ 1)%nat ∧ rw_calls w' = rw_calls w ++ (CallWrite <$> bodies)) as Hone.
  { intros ct p u u' o. unfold send_one, write_opt. intros H.
    repeat case_match; simplify_eq;
      first [exists []; split; [cbn; lia|by rewrite /= app_nil_r]|eexists [_]; split; [cbn; lia|done]]. }
  assert (∀ ct ps w w' out, send_first xml json ct ps w = (w', out) →
    ∃ bodies, (length bodies ≤ 1)%nat ∧ rw_calls w' = rw_calls w ++ (CallWrite <$> bodies)) as Hfirst.
  { intros ct ps. induction ps as [|[] ps IH]; intros u u' o; cbn; try apply Hone; try apply IH.
    intros [= <- _]. exists []. split; [cbn; lia|by rewrite /= app_nil_r]. }
  unfold SendHTTPResponse. intros (bodies&?&E)%Hfirst. exists bodies. split; [done|].
  rewrite E. cbn. by rewrite -app_assoc.
Qed.

Section async_properties.
Context {A : Type} (debug_Stack : string) (fmt_recovered : panicval → error).
Notation runs := (@async_runs A debug_Stack fmt_recovered).

Lemma async_inv (ls : list (async_label A)) (s : async_state A) :
  runs ls s →
  (async_running s = true → async_chan s = None ∧ ∀ r, AFnEnds r ∉ ls) ∧
  (∀ r, async_chan s = Some r → ∃ r0, AFnEnds r0 ∈ ls ∧ async_result debug_Stack fmt_recovered r0 = Some r) ∧
  (∀ e, async_done s = Some e → ACtxDone e ∈ ls).
Proof.
  induction 1 as [|ls s l s' H (IH1&IH2&IH3) Hstep].
  { split_and!; try done. intros _. split; [done|]. intros r. apply not_elem_of_nil. }
  assert (∀ r, async_chan s = Some r → ∃ r0, AFnEnds r0 ∈ ls ++ [l] ∧
    async_result debug_Stack fmt_recovered r0 = Some r) as IH2'.
  { intros r (r0&?&?)%IH2. exists r0. rewrite elem_of_app. auto. }
  assert (∀ e, async_done s = Some e → ACtxDone e ∈ ls ++ [l]) as IH3'.
  { intros e ?%IH3. rewrite elem_of_app. auto. }
  inversion Hstep; subst; cbn in *; split_and!; try done.
  - intros r0 Hr0. exists r. rewrite elem_of_app list_elem_of_singleton. auto.
  - intros Hrun. destruct (IH1 Hrun) as [? Hn]. split; [done|]. intros r.
    rewrite elem_of_app list_elem_of_singleton. intros [?|?]; [by eapply Hn|done].
  - intros e0 [= <-]. rewrite elem_of_app list_elem_of_singleton. auto.
  - intros Hrun. destruct (IH1 Hrun) as [? Hn]. split; [done|]. intros r.
    rewrite elem_of_app list_elem_of_singleton. intros [?|?]; [by eapply Hn|done].
  - intros Hrun. destruct (IH1 Hrun) as [? Hn]. congruence.
Qed.

(** What [Get] returns is the error of the context, once that is done, or what the
    function came to, a panic of it as an internal server error; and it is not
    before one of the two. But only one [Get] receives the result: after it has,
    any other waits for the context. *)
Theorem Async_Get_spec (ls : list (async_label A)) s (got : res A) s' :
  async_runs debug_Stack fmt_recovered ls s → async_step debug_Stack fmt_recovered s (AGet got) s' →
  (∃ e, ACtxDone e ∈ ls ∧ got = Err e ∧ s' = s) ∨
  (∃ r, AFnEnds r ∈ ls ∧
     match r with
     | Panic p => got = Err (ErrServer 2 debug_Stack (Some (fmt_recovered p)))
     | _ => got = r
     end ∧
     (async_done s' = None → ∀ got' s'', ¬ async_step debug_Stack fmt_recovered s' (AGet got') s'')).
Proof.
  intros H Hget. destruct (async_inv _ _ H) as (_&H2&H3). inversion Hget; subst.
  - left. eauto.
  - right. destruct (H2 got) as (r0&Hin&Hr0); [done|]. exists r0. split_and!; [done| |].
    + destruct r0 as [a|e|p]; cbn in Hr0; [by injection Hr0..|].
      destruct (recover p) as [q|] eqn:Hq; [|done]. pose proof (recover_Some _ _ Hq) as ->.
      by injection Hr0 as <-.
    + cbn. intros Hn got' s'' Hstep. inversion Hstep; subst; cbn in *; congruence.
Qed.
End async_properties.

(** ** A call *)
Module RestLibExample.
#[export, refine] Instance monitors_only : HasMonitors (gmap loc monitor) :=
  {| get_monitors := λ s, s; set_monitors := λ m _, m |}.
Proof. done. Defined.
Definition ctx : Context := WithValue (WithValue Background KBodyMonitor 1%positive) KReqHeader (Some {["Token" := ["t"]]}).
Definition config : HTTPRequest :=
  mkHTTPRequest "GET" "http://backend/" PayNil ["token"] (λ _, TargetString) [("X-Extra", ["1"])].
(** The downstream has nothing. *)
Definition resp : HTTPResponse := mkHTTPResponse 404 ∅ "no such thing" None "http://backend/".
Definition base : @RoundTripper (gmap loc monitor) := λ _ s, (s, Ok resp).
Definition unused (s : string) : error + value := inl (ErrText s).
Definition encode (p : payload) : error + string := inr "{}".
Definition call : gmap loc monitor → gmap loc monitor * res fetched :=
  DoHTTPRequest unused encode encode (λ s, inr s) (loggingRoundtripper_RoundTrip Background base)
    (λ _ _, None) (λ _, 13%Z) (λ _, None) ctx config.
Definition result : HTTPResult :=
  mkHTTPResult (mkHTTPResponse 404 ∅ "no such thing" (Some 0%nat) "http://backend/") "no such thing"
    (DecString "no such thing").
Definition before : gmap loc monitor := {[1%positive := []]}.
Definition after : gmap loc monitor := {[1%positive := [mk_wrapper "http://backend/" true]]}.

(** A function that panics, asked for its result twice. *)
Definition async_fmt (p : panicval) : error := ErrText "boom".
Definition async_trace : list (async_label ()) := [AFnEnds (Panic (PanicString "boom"))].
Definition async_ended : async_state () :=
  mk_async_state false (Some (Err (ErrServer 2 "stack" (Some (ErrText "boom"))))) None.
Lemma async_trace_runs : async_runs "stack" async_fmt async_trace async_ended.
Proof. apply (async_snoc "stack" async_fmt [] async_init); [constructor|]. by apply (async_ends "stack" async_fmt async_init (Panic (PanicString "boom"))). Defined.
End RestLibExample.
#[local] Existing Instance RestLibExample.monitors_only.


Lemma DoHTTPRequest_closes_body_witness :
  let '(s', _) := RestLibExample.call RestLibExample.before in
  ∃ m', s' !! 1%positive = Some m' ∧ getResponsesWithOpenBodies m' = [].
Proof.
  exact (@DoHTTPRequest_closes_body RestLibExample.unused RestLibExample.encode RestLibExample.encode
    (λ s, inr s) (gmap loc monitor) RestLibExample.monitors_only RestLibExample.base (λ _ _, None) (λ _, 13%Z)
    (λ _, None) Background RestLibExample.ctx RestLibExample.config RestLibExample.before 1%positive []
    eq_refl eq_refl (λ _ _, eq_refl)).
Defined.

Lemma rest_result_roundtrip_witness :
  let '(ctx, h0) := ProvisionRestResult Background ∅ in
  GetRestResult ctx (OnRestResultHTTPResult ctx (Ok (Failure RestLibExample.result)) h0) =
    Some (mkRestResult 404 (Some ∅) "no such thing").
Proof.
  pose proof (rest_result_roundtrip Background ∅ (Ok (Failure RestLibExample.result))
    (ProvisionRestResult Background ∅).1) as H.
  destruct (H eq_refl) as [E _]. exact E.
Defined.

Lemma Async_Get_spec_witness :
  async_step "stack" RestLibExample.async_fmt RestLibExample.async_ended
    (AGet (Err (ErrServer 2 "stack" (Some (ErrText "boom"))))) (mk_async_state false None None) ∧
  ¬ (∃ (got' : res ()) s'', async_step "stack" RestLibExample.async_fmt
      (mk_async_state false None None) (AGet got') s'').
Proof.
  split; [by apply (async_get_result _ _ RestLibExample.async_ended)|].
  destruct (Async_Get_spec "stack" RestLibExample.async_fmt RestLibExample.async_trace RestLibExample.async_ended
    (Err (ErrServer 2 "stack" (Some (ErrText "boom")))) (mk_async_state false None None)
    RestLibExample.async_trace_runs) as [(e&Hin&_)|(r&_&_&H)].
  - by apply (async_get_result _ _ RestLibExample.async_ended).
  - apply list_elem_of_singleton in Hin. discriminate Hin.
  - intros (got'&s''&Hstep). exact (H eq_refl got' s'' Hstep).
Defined.
