(* ===== verification/FutureChan.v ===== *)
(** * Channels of a future: [GetChan] of src/common/async.go

    Any number of goroutines may ask one future for its result, by [Get] or through
    channels of [GetChan]. The steps of the future are those of [RestLib]; here are
    the goroutines that wait behind the channels. *)

From S2P Require Export RestLib.

Section future.
Context (debug_Stack : string) (fmt_recovered : panicval → error) {A : Type}.
Notation astep := (@async_step A debug_Stack fmt_recovered).

(** A channel with room for one [AsyncResult]: its goroutine is in [get], has sent, or
    what it sent has been received. *)
Inductive chan_state := CWaiting | CFull (r : res A) | CReceived (r : res A).

(** [Future]: the future and the channels that were asked for. *)
Record Future := mkFuture { fut_async : async_state A; fut_chans : list chan_state }.
Definition Future_init : Future := mkFuture async_init [].

Definition is_get (l : async_label A) : bool := match l with AGet _ => true | _ => false end.

Definition GetChan (f : Future) : Future := mkFuture (fut_async f) (fut_chans f ++ [CWaiting]).

Inductive future_step : Future → Future → Prop :=
| F_async s l s' cs : is_get l = false → astep s l s' → future_step (mkFuture s cs) (mkFuture s' cs)
| F_Get s r s' cs : astep s (AGet r) s' → future_step (mkFuture s cs) (mkFuture s' cs)
| F_GetChan f : future_step f (GetChan f)
| F_send s s' r cs i : cs !! i = Some CWaiting → astep s (AGet r) s' →
    future_step (mkFuture s cs) (mkFuture s' (<[i := CFull r]> cs))
| F_receive s r cs i : cs !! i = Some (CFull r) →
    future_step (mkFuture s cs) (mkFuture s (<[i := CReceived r]> cs)).

Definition future_reachable (f : Future) : Prop := rtc future_step Future_init f.

(** What a channel has given, or is about to. *)
Definition chan_value (c : chan_state) : option (res A) :=
  match c with CWaiting => None | CFull r | CReceived r => Some r end.

Definition expired (s : async_state A) (r : res A) : Prop := ∃ e, async_done s = Some e ∧ r = Err e.
Definition taken (s : async_state A) : Prop := async_running s = false ∧ async_chan s = None.

Record future_inv (f : Future) : Prop := {
  fi_value : ∀ i c r, fut_chans f !! i = Some c → chan_value c = Some r → expired (fut_async f) r ∨ taken (fut_async f);
  fi_running : async_running (fut_async f) = true → async_chan (fut_async f) = None;
  fi_one : ∀ i j c c' r r', i ≠ j → fut_chans f !! i = Some c → fut_chans f !! j = Some c' →
    chan_value c = Some r → chan_value c' = Some r' → expired (fut_async f) r ∨ expired (fut_async f) r'
}.

(** Steps of the future that keep what its channels hold. *)
Lemma inv_async s s' cs l :
  future_inv (mkFuture s cs) → astep s l s' → future_inv (mkFuture s' cs).
Proof.
  intros [Hv Hr H1] Ht. cbn in *.
  assert (∀ r, expired s r → expired s' r) as He.
  { intros r (e&He&->). exists e. split; [|done]. inversion Ht; subst; cbn in *; congruence. }
  assert (taken s → taken s') as Hk.
  { intros [H1' H2']. unfold taken. inversion Ht; subst; cbn in *; try done; try congruence. }
  constructor; cbn.
  - intros i c r Hi Hc. destruct (Hv i c r Hi Hc); auto.
  - inversion Ht; subst; cbn in *; done.
  - intros i j c c' r r' Hne Hi Hj Hc Hc'. destruct (H1 i j c c' r r' Hne Hi Hj Hc Hc'); auto.
Qed.

(** A channel that gets a value which others do not have. *)
Lemma inv_send s s' cs i r :
  future_inv (mkFuture s cs) → cs !! i = Some CWaiting → astep s (AGet r) s' →
  future_inv (mkFuture s' (<[i := CFull r]> cs)).
Proof.
  intros Hinv Hi Ht. pose proof (inv_async s s' cs _ Hinv Ht) as [Hv Hr H1]. destruct Hinv as [Hv0 Hr0 _]. cbn in *.
  assert (expired s' r ∨ taken s' ∧ ∀ j c r', cs !! j = Some c → chan_value c = Some r' → expired s' r') as Hcase.
  { inversion Ht; subst.
    - left. by exists e.
    - right. split; [split; [|done]; destruct (async_running s); [by specialize (Hr0 eq_refl); congruence|done]|].
      intros j c r' Hj Hc. destruct (Hv0 j c r' Hj Hc) as [He|[_ Hn]]; [exact He|congruence]. }
  constructor; cbn; [|done|].
  - intros j c r' [(<-&<-&_)|[_ Hj]]%list_lookup_insert_Some Hc; [injection Hc as <-; tauto|by eapply Hv].
  - intros j k c c' r1 r2 Hne [(<-&<-&_)|[Hij Hj]]%list_lookup_insert_Some [(Hk1&<-&_)|[Hik Hk]]%list_lookup_insert_Some Hc Hc'.
    + by subst.
    + injection Hc as <-. destruct Hcase as [|[_ Ho]]; [by left|]. right. by eapply Ho.
    + injection Hc' as <-. destruct Hcase as [|[_ Ho]]; [by right|]. left. by eapply Ho.
    + by apply (H1 j k c c' r1 r2).
Qed.

Lemma inv_same_values f cs :
  future_inv f → (∀ i c, cs !! i = Some c → chan_value c = None ∨ ∃ c', fut_chans f !! i = Some c' ∧ chan_value c' = chan_value c) →
  future_inv (mkFuture (fut_async f) cs).
Proof.
  intros [Hv Hr H1] Hcs. constructor; cbn; [|done|].
  - intros i c r Hi Hc. destruct (Hcs i c Hi) as [|(c'&Hi'&Hc')]; [congruence|]. eapply Hv; [done|congruence].
  - intros i j c c' r r' Hne Hi Hj Hc Hc'. destruct (Hcs i c Hi) as [|(d&Hi'&Hd)]; [congruence|].
    destruct (Hcs j c' Hj) as [|(d'&Hj'&Hd')]; [congruence|]. eapply H1; [done..| |]; congruence.
Qed.

Lemma future_reachable_inv f : future_reachable f → future_inv f.
Proof.
  unfold future_reachable. intros Hf. pattern f. revert f Hf. apply rtc_ind_r.
  { constructor; cbn; [done| |done]. done. }
  intros f f' _ Hstep Hinv. destruct Hstep as [s l s' cs _ Ht|s r s' cs Ht|f|s s' r cs i Hi Ht|s r cs i Hi].
  - by eapply inv_async.
  - by eapply inv_async.
  - apply (inv_same_values f); [done|]. intros i c [Hi|[_ Hi]]%lookup_app_Some; [right; by exists c|].
    apply list_lookup_singleton_Some in Hi as [_ <-]. by left.
  - by eapply inv_send.
  - apply (inv_same_values (mkFuture s cs)); [done|]. intros j c [(<-&<-&_)|[_ Hj]]%list_lookup_insert_Some; right.
    + by exists (CFull r).
    + by exists c.
Qed.

(** However many channels and calls of [Get] ask one future, at most one channel
    gives what the function came to: of any two channels that gave a value, one gave
    the error of the context. And a channel whose goroutine still waits gives one
    exactly when the context is done or the result is there and not yet taken: if
    somebody else took it, it waits for the context, and for good if that is never
    done. *)
Theorem GetChan_spec f :
  future_reachable f →
  (∀ i j c c' r r', i ≠ j → fut_chans f !! i = Some c → fut_chans f !! j = Some c' →
     chan_value c = Some r → chan_value c' = Some r' →
     ∃ e, async_done (fut_async f) = Some e ∧ (r = Err e ∨ r' = Err e)) ∧
  (∀ i, fut_chans f !! i = Some CWaiting →
     ((∃ r s', astep (fut_async f) (AGet r) s' ∧
         future_step f (mkFuture s' (<[i := CFull r]> (fut_chans f)))) ↔
      is_Some (async_done (fut_async f)) ∨ is_Some (async_chan (fut_async f)))).
Proof.
  intros Hf%future_reachable_inv. split.
  - intros i j c c' r r' Hne Hi Hj Hc Hc'.
    destruct (fi_one _ Hf i j c c' r r' Hne Hi Hj Hc Hc') as [(e&He&->)|(e&He&->)]; exists e; auto.
  - intros i Hi. destruct f as [s cs]. cbn in *. split.
    + intros (r&s'&Ht&_). inversion Ht; subst; [left|right]; by eexists.
    + intros [[e He]|[r Hr]].
      * exists (Err e), s. assert (astep s (AGet (Err e)) s) as Ht by by constructor. split; [done|by apply F_send].
      * eexists r, _. assert (astep s (AGet r) (mk_async_state (async_running s) None (async_done s))) as Ht by by constructor.
        split; [exact Ht|by apply F_send].
Qed.
End future.

(** Two channels of a future that has ended: one has the result, the other waits. *)
Module FutureChanExample.
Definition fmt (p : panicval) : error := ErrText "boom".
Definition after : Future := mkFuture (mk_async_state false None None) [CFull (Ok 7%Z); CWaiting].
Lemma reached : future_reachable "stack" fmt after.
Proof.
  eapply rtc_l.
  { apply (F_async "stack" fmt async_init (AFnEnds (Ok 7%Z))); [done|by apply (async_ends "stack" fmt async_init (Ok 7%Z))]. }
  eapply rtc_l; [apply F_GetChan|]. eapply rtc_l; [apply F_GetChan|].
  apply rtc_once. apply (F_send "stack" fmt _ _ (Ok 7%Z) [CWaiting; CWaiting] 0); [done|]. by constructor.
Qed.
End FutureChanExample.

Lemma GetChan_spec_witness :
  ¬ ∃ r s', async_step "stack" FutureChanExample.fmt (fut_async FutureChanExample.after) (AGet r) s' ∧
    future_step "stack" FutureChanExample.fmt FutureChanExample.after
      (mkFuture s' (<[1%nat := CFull r]> (fut_chans FutureChanExample.after))).
Proof.
  intros H. apply (proj2 (GetChan_spec "stack" FutureChanExample.fmt FutureChanExample.after FutureChanExample.reached) 1%nat eq_refl) in H.
  destruct H as [[? H]|[? H]]; discriminate.
Defined.
