(* ===== verification/Servers.v ===== *)
(** * The servers of an application: src/core/http.go, src/core/grpc.go,
    src/core/temporal_serve.go, src/core/tls_log_filter.go and of src/core/serve.go
    the type [autogenServer]

    How the admin, public and gRPC servers are configured from what the generated
    code supplies, what their [Start] and [Stop] return, and how they make up the
    application's server. *)

From stdpp Require Import pretty.
From S2P Require Export TlsConfig Middleware MultiServer.

(** ** http.go *)

Definition defaultGracefulStopTimeout : Z := 3 * Minute.
Definition defaultContextTimeout : Z := 30 * Second.

(** What is served at the end of a route: the handlers of other packages by name. *)
Inductive endpoint :=
| EStatus
| EMetrics
| EProfile (name : string)
| EHealth
| EApplication (name : string).

(** A router: its middleware, the pattern its sub-router is mounted under, if it has
    one, and the routes of that sub-router (of itself, without one). *)
Record Mux (S : Type) := mkMux {
  mux_middleware : list (Middleware S);
  mux_base : option string;
  mux_routes : list (string * endpoint)
}.
Arguments mkMux {S}.
Arguments mux_middleware {S}.
Arguments mux_base {S}.
Arguments mux_routes {S}.

Definition configureRouters {S} (basePath : string) (mWare : list (Middleware S)) : Mux S :=
  if bool_decide (basePath = "") || bool_decide (basePath = "/") then mkMux mWare None []
  else mkMux mWare (Some basePath) [].

Definition add_routes {S} (routes : list (string * endpoint)) (m : Mux S) : Mux S :=
  mkMux (mux_middleware m) (mux_base m) (mux_routes m ++ routes).

(** [SelectBasePath] chooses between a base path from the spec or config. *)
Definition SelectBasePath (fromSpec fromCfg : string) : string :=
  if bool_decide (fromCfg ≠ "") then fromCfg
  else match fromSpec with
       | "" => "/"
       | String c _ => if bool_decide (c ≠ "/"%char) then "/" +:+ fromSpec else fromSpec
       end.

(** [http.Server]; [BaseContext] and the error log are those of the application. *)
Record http_Server `{Crypto} (S : Type) := mk_http_Server {
  srv_Addr : string;
  srv_Handler : Mux S;
  srv_TLSConfig : option tls_Config;
  srv_ReadTimeout : Z;
  srv_WriteTimeout : Z;
  srv_ReadHeaderTimeout : Z;
  srv_IdleTimeout : Z
}.
Arguments mk_http_Server {_ S}.
Arguments srv_Addr {_ S}.
Arguments srv_Handler {_ S}.
Arguments srv_TLSConfig {_ S}.

Record httpServer `{Crypto} (S : Type) := mk_httpServer {
  hs_cfg : CommonHTTPServerConfig;
  hs_server : http_Server S;
  hs_gracefulStopTimeout : Z;
  hs_name : string
}.
Arguments mk_httpServer {_ S}.
Arguments hs_cfg {_ S}.
Arguments hs_server {_ S}.
Arguments hs_gracefulStopTimeout {_ S}.
Arguments hs_name {_ S}.

(** ** grpc.go *)

(** [G] is the type of the application's gRPC handlers. *)
Inductive grpc_service (G : Type) :=
| SReflection
| SHealthCheck
| SHealth               (* the health server of an application with library.health *)
| SHandler (h : G).
Arguments SReflection {G}.
Arguments SHealthCheck {G}.
Arguments SHealth {G}.
Arguments SHandler {G}.

Record GrpcServerManager `{Crypto} (G : Type) := mkGrpcServerManager {
  gm_GrpcServerOptions : list grpc_option;
  gm_EnabledGrpcHandlers : list (grpc_service G);
  gm_GrpcPublicServerConfig : option GRPCServerConfig
}.
Arguments mkGrpcServerManager {_ G}.
Arguments gm_GrpcServerOptions {_ G}.
Arguments gm_EnabledGrpcHandlers {_ G}.
Arguments gm_GrpcPublicServerConfig {_ G}.

Record grpcServer `{Crypto} (G : Type) := mk_grpcServer {
  gs_cfg : GRPCServerConfig;
  gs_options : list grpc_option;
  gs_services : list (grpc_service G);  (* in the order they are registered *)
  gs_name : string
}.
Arguments mk_grpcServer {_ G}.
Arguments gs_cfg {_ G}.
Arguments gs_options {_ G}.
Arguments gs_services {_ G}.
Arguments gs_name {_ G}.

(** A server of the application; a hook may build one of its own. *)
Inductive server `{Crypto} (S G : Type) :=
| ServerHTTP (s : httpServer S)
| ServerGRPC (s : grpcServer G)
| ServerHook (name : string).
Arguments ServerHTTP {_ S G}.
Arguments ServerGRPC {_ S G}.
Arguments ServerHook {_ S G}.

(** ** What the generated code and the application supply *)

(** A [HandlerInitialiser]: its name, and the routes it wires. *)
Record HandlerInitialiser := mkHandlerInitialiser {
  hi_Name : string;
  hi_routes : list (string * endpoint)
}.

Record Manager := mkManager {
  m_EnabledHandlers : list HandlerInitialiser;
  m_LibraryConfig : option LibraryConfig;
  m_AdminServerConfig : option CommonHTTPServerConfig;
  m_PublicServerConfig : option UpstreamConfig;
  m_adminMiddlewareRoutes : list (string * endpoint) (* AddAdminHTTPMiddleware *)
}.

Record ServerHooks `{Crypto} (S G : Type) := mkServerHooks {
  sh_HealthCheck : bool;
  sh_StoppableServerBuilder :
    option (Mux S → option tls_Config → CommonHTTPServerConfig → string → server S G);
  sh_StoppableGrpcServerBuilder :
    option (list grpc_option → list (grpc_service G) → GRPCServerConfig → string → server S G)
}.
Arguments mkServerHooks {_ S G}.
Arguments sh_HealthCheck {_ S G}.
Arguments sh_StoppableServerBuilder {_ S G}.
Arguments sh_StoppableGrpcServerBuilder {_ S G}.

Section configure.
Context `{Crypto} {S G : Type} (m : Machine).

Definition makeNewServer (router : Mux S) (tlsConfig : option tls_Config)
    (serverConfig : CommonHTTPServerConfig) : http_Server S :=
  let common := hsc_Common serverConfig in
  mk_http_Server (csc_HostName common +:+ ":" +:+ pretty (csc_Port common)) router tlsConfig
    (hsc_ReadTimeout serverConfig) (hsc_WriteTimeout serverConfig) (10 * Second) (5 * Second).

Definition prepareServerListener (rootRouter : Mux S) (tlsConfig : option tls_Config)
    (httpConfig : CommonHTTPServerConfig) (name : string) : server S G :=
  ServerHTTP (mk_httpServer httpConfig (makeNewServer rootRouter tlsConfig httpConfig) 0 name).

Definition profiles : list string :=
  ["pprof"; "allocs"; "block"; "cmdline"; "goroutine"; "heap"; "mutex"; "profile"; "threadcreate"; "symbol"; "trace"].

Definition registerProfilingHandler (cfg : LibraryConfig) : list (string * endpoint) :=
  if lib_Profiling cfg then (λ p, ("/-/" +:+ p, EProfile p)) <$> profiles else [].

Definition configureAdminServerListener (hl : Manager) (promRegistry healthServer : bool)
    (mWare : list (Middleware S)) : res (server S G) :=
  match m_AdminServerConfig hl, m_LibraryConfig hl with
  | None, _ => Err (ErrText "missing adminserverconfig")
  | Some _, None => Err (ErrText "missing libraryconfig")
  | Some admin, Some library =>
      let router := configureRouters (hsc_BasePath admin) mWare in
      adminTLSConfig ← MakeTLSConfig m (csc_TLS (hsc_Common admin));
      let router := add_routes (m_adminMiddlewareRoutes hl) router in
      let router := add_routes [("/-/status/", EStatus)] router in
      let router := add_routes (if promRegistry then [("/-/metrics/", EMetrics)] else []) router in
      let router := add_routes (registerProfilingHandler library) router in
      let router := add_routes (if healthServer then [("/", EHealth)] else []) router in
      Ok (prepareServerListener router adminTLSConfig admin "REST Admin Server")
  end.

(** Called with a public configuration only. *)
Definition configurePublicServerListener (hl : Manager) (public : UpstreamConfig) (mWare : list (Middleware S))
    (hooks : option (ServerHooks S G)) : res (server S G) :=
  let router := configureRouters "" mWare in
  publicTLSConfig ← MakeTLSConfig m (csc_TLS (hsc_Common (up_HTTP public)));
  let router := foldl (λ r h, add_routes (hi_routes h) r) router (m_EnabledHandlers hl) in
  let prepareServerListenerFn :=
    match hooks ≫= sh_StoppableServerBuilder with Some f => f | None => prepareServerListener end in
  Ok (prepareServerListenerFn router publicTLSConfig (up_HTTP public) "REST Public Server").

Definition prepareGrpcServerListener (options : list grpc_option) (services : list (grpc_service G))
    (commonConfig : GRPCServerConfig) (name : string) : server S G :=
  ServerGRPC (mk_grpcServer commonConfig options services name).

Definition configurePublicGrpcServerListener (ctx : Context) (gm : GrpcServerManager G)
    (config : GRPCServerConfig) (hooks : option (ServerHooks S G)) : server S G :=
  let reflection := match GetDefaultConfig ctx with
                    | Some cfg => gsc_EnableReflection (up_GRPC (gen_Upstream (cfg_GenCode cfg)))
                    | None => false
                    end in
  let healthCheck := match hooks with Some h => sh_HealthCheck h | None => false end in
  let services := (if reflection then [SReflection] else []) ++ (if healthCheck then [SHealthCheck] else []) ++
                  gm_EnabledGrpcHandlers gm in
  let prepareGrpcServerListenerFn :=
    match hooks ≫= sh_StoppableGrpcServerBuilder with Some f => f | None => prepareGrpcServerListener end in
  prepareGrpcServerListenerFn (gm_GrpcServerOptions gm) services config "gRPC Public server".

Definition DefaultGrpcServerOptions (grpcPublicServerConfig : option GRPCServerConfig) : res (list grpc_option) :=
  opts ← ExtractGrpcServerOptions m grpcPublicServerConfig;
  Ok (opts ++ [ChainUnaryInterceptor [LoggerInterceptor]] ++ [ChainUnaryInterceptor [TraceidLogInterceptor]]).

(** A deprecated [GrpcManager], and the manager made from it. *)
Record GrpcManager := mkGrpcManager {
  gm_Interceptors : list interceptor;
  gm_Handlers : list (grpc_service G);
  gm_PublicConfig : option GRPCServerConfig
}.

Definition extractGrpcServerOptionsFromGrpcManager (hl : GrpcManager) : res (list grpc_option) :=
  opts ← ExtractGrpcServerOptions m (gm_PublicConfig hl);
  Ok (opts ++ [ChainUnaryInterceptor (gm_Interceptors hl)] ++
      [ChainUnaryInterceptor [LoggerInterceptor]] ++ [ChainUnaryInterceptor [TraceidLogInterceptor]]).

Definition newGrpcServerManagerFromGrpcManager (hl : GrpcManager) : res (GrpcServerManager G) :=
  opts ← extractGrpcServerOptionsFromGrpcManager hl;
  Ok (mkGrpcServerManager opts (gm_Handlers hl) (gm_PublicConfig hl)).

(** ** autogenServer *)

Record autogenServer := mk_autogenServer {
  as_ctx : Context;
  as_name : string;
  as_restManager : option Manager;
  as_grpcServerManager : option (GrpcServerManager G);
  as_prometheusRegistry : bool;
  as_multiServer : option (list (server S G));
  as_hooks : option (ServerHooks S G)
}.

(** The middleware for a timeout; what the library's health server comes to. *)
Context (prepareMiddleware : Z → middlewareCollection S) (health_NewServer : option error).

Definition autogen_contextTimeout (s : autogenServer) : Z :=
  let contextTimeout :=
    match as_restManager s ≫= m_PublicServerConfig with Some public => up_ContextTimeout public | None => 0%Z end in
  if bool_decide (contextTimeout = 0)%Z then defaultContextTimeout else contextTimeout.

Definition health_enabled (s : autogenServer) : bool :=
  match as_restManager s ≫= m_LibraryConfig with Some library => lib_Health library | None => false end.

(** The health server is appended to the handlers of the gRPC manager. *)
Definition load_health (s : autogenServer) : res (option (GrpcServerManager G)) :=
  if health_enabled s then
    _ ← of_option_err health_NewServer;
    gm ← deref (as_grpcServerManager s);
    Ok (Some (mkGrpcServerManager (gm_GrpcServerOptions gm) (gm_EnabledGrpcHandlers gm ++ [SHealth])
                (gm_GrpcPublicServerConfig gm)))
  else Ok (as_grpcServerManager s).

Definition admin_servers (s : autogenServer) (mWare : list (Middleware S)) : res (list (server S G)) :=
  match as_restManager s with
  | Some hl =>
      if bool_decide (is_Some (m_AdminServerConfig hl)) then
        srv ← configureAdminServerListener hl (as_prometheusRegistry s) (health_enabled s) mWare; Ok [srv]
      else Ok []
  | None => Ok []
  end.

Definition public_servers (s : autogenServer) (mWare : list (Middleware S)) : res (list (server S G)) :=
  match as_restManager s with
  | Some hl =>
      match m_PublicServerConfig hl with
      | Some public => srv ← configurePublicServerListener hl public mWare (as_hooks s); Ok [srv]
      | None => Ok []
      end
  | None => Ok []
  end.

Definition grpc_servers (s : autogenServer) (gm : option (GrpcServerManager G)) : list (server S G) :=
  match gm with
  | Some gm =>
      match gm_GrpcPublicServerConfig gm, gm_EnabledGrpcHandlers gm with
      | Some config, _ :: _ => [configurePublicGrpcServerListener (as_ctx s) gm config (as_hooks s)]
      | _, _ => []
      end
  | None => []
  end.

Definition no_public_server : error := ErrText "REST and gRPC servers cannot both be nil".

(** [Start] up to the point where it starts the servers. *)
Definition autogen_servers (s : autogenServer) : res (list (server S G)) :=
  let mWare := prepareMiddleware (autogen_contextTimeout s) in
  gm ← load_health s;
  admin ← admin_servers s (mw_admin mWare);
  public ← public_servers s (mw_public mWare);
  let grpc := grpc_servers s gm in
  match public, grpc with
  | [], [] => Panic (PanicError no_public_server)
  | _, _ => Ok (admin ++ public ++ grpc)
  end.

Definition newMultiStoppableServer (s : autogenServer) (servers : list (server S G)) : autogenServer :=
  mk_autogenServer (as_ctx s) (as_name s) (as_restManager s) (as_grpcServerManager s)
    (as_prometheusRegistry s) (Some servers) (as_hooks s).
End configure.
Arguments as_multiServer {_ S G}.

(** ** Starting and stopping a server

    [net/http] and [google.golang.org/grpc]: what their calls may return. *)
Class ServerLib `{Crypto} (S G : Type) := {
  ListenAndServe : http_Server S → ∀ tls stopped : bool, error → Prop;
  Shutdown : http_Server S → ∀ timeout : Z, option error → Prop;
  Close : http_Server S → option error → Prop;
  net_Listen : string → option error → Prop;
  Serve : grpcServer G → ∀ stopped : bool, option error → Prop;
  hook_server : string → ∀ stopped : bool, res () → Prop
}.

(** Their documentation: after [Shutdown] or [Close], [ListenAndServe] returns
    [ErrServerClosed]; [Serve] returns no error if the server was stopped. A
    server that an application builds keeps the promise of the interface. *)
Class ServerLibLaws `{Crypto} (S G : Type) `{!ServerLib S G} : Prop := {
  ListenAndServe_closed : ∀ srv tls e, ListenAndServe srv tls true e → e = ErrServerClosed;
  Serve_stopped : ∀ srv e, Serve srv true e → e = None;
  hook_stopped : ∀ name r, hook_server name true r → r = Ok ()
}.

Definition is_ErrServerClosed (e : error) : bool := match e with ErrServerClosed => true | _ => false end.
Definition is_DeadlineExceeded (e : option error) : bool :=
  match e with Some ErrDeadlineExceeded => true | _ => false end.

(** ** The health check service of grpc.go *)

Definition UNKNOWN : Z := 0.
Definition SERVING : Z := 1.
Definition NOT_SERVING : Z := 2.
Definition SERVICE_UNKNOWN : Z := 3.
(** The numbers of [grpc.health.v1] are the keys' own. *)
Definition healthCheckStatusMap : gmap Z Z :=
  list_to_map [(UNKNOWN, 0%Z); (SERVING, 1%Z); (NOT_SERVING, 2%Z); (SERVICE_UNKNOWN, 3%Z)].
Definition healthCheckSrv_Check (hc : Context → string → res Z) (ctx : Context) (service : string) : res Z :=
  resp ← hc ctx service; Ok (default 0%Z (healthCheckStatusMap !! resp)).

(** ** tls_log_filter.go

    The expression [TLS handshake error from .* EOF]; a dot matches no newline. *)
Definition first_line (s : string) : string := hd "" (Split "010"%char s).
Definition handshake_prefix : string := "TLS handshake error from ".
Fixpoint handshake_match (p : string) : bool :=
  (HasPrefix p handshake_prefix && Contains (first_line (str_drop (String.length handshake_prefix) p)) " EOF")
  || match p with "" => false | String _ p => handshake_match p end.

Inductive log_level := LogDebug | LogInfo.
Definition TLSLogFilter_Write (p : string) : (log_level * string) * nat :=
  ((if handshake_match p then LogDebug else LogInfo, p), String.length p).

Section operate.
Context `{Crypto} {S G : Type} `{!ServerLib S G}.

(** [listen] is what the call that is made returns. *)
Definition httpServer_Start (s : httpServer S) (listen : bool → error) : option error :=
  let err := listen (bool_decide (is_Some (csc_TLS (hsc_Common (hs_cfg s))))) in
  if is_ErrServerClosed err then None else Some err.

Definition httpServer_GracefulStop (s : httpServer S) (shutdown : Z → option error) (close : option error) :
    option error :=
  let timeout := if bool_decide (hs_gracefulStopTimeout s ≠ 0)%Z then hs_gracefulStopTimeout s
                 else defaultGracefulStopTimeout in
  let err := shutdown timeout in
  if is_DeadlineExceeded err then close else err.

Definition httpServer_Stop (close : option error) : option error := close.

Definition grpcServer_Start (listen serve : option error) : option error :=
  match listen with Some err => Some err | None => serve end.

(** The calls of a temporal worker and client, in order. *)
Inductive temporal_call := CallRegister | CallRun | CallStop | CallClose.
Definition TemporalServer_Start (run : option error) : list temporal_call * option error :=
  ([CallRegister; CallRun], run).
Definition TemporalServer_Stop : list temporal_call * option error := ([CallStop; CallClose], None).
Definition TemporalServer_GracefulStop : list temporal_call * option error := TemporalServer_Stop.

Definition server_Start_returns (srv : server S G) (stopped : bool) (r : res ()) : Prop :=
  match srv with
  | ServerHTTP s => ∃ err, ListenAndServe (hs_server s) (bool_decide (is_Some (csc_TLS (hsc_Common (hs_cfg s))))) stopped err ∧
      r = of_option_err (httpServer_Start s (λ _, err))
  | ServerGRPC s => ∃ listen serve,
      net_Listen (csc_HostName (gsc_Common (gs_cfg s)) +:+ ":" +:+ pretty (csc_Port (gsc_Common (gs_cfg s)))) listen ∧
      Serve s stopped serve ∧ (stopped = true → listen = None) ∧
      r = of_option_err (grpcServer_Start listen serve)
  | ServerHook name => hook_server name stopped r
  end.

Definition server_Stop_returns (srv : server S G) (r : res ()) : Prop :=
  match srv with
  | ServerHTTP s => ∃ err, Close (hs_server s) err ∧ r = of_option_err (httpServer_Stop err)
  | ServerGRPC s => r = Ok ()
  | ServerHook name => True
  end.

Definition server_GracefulStop_returns (srv : server S G) (r : res ()) : Prop :=
  match srv with
  | ServerHTTP s => ∃ shutdown err, (∀ timeout, Shutdown (hs_server s) timeout (shutdown timeout)) ∧
      Close (hs_server s) err ∧ r = of_option_err (httpServer_GracefulStop s shutdown err)
  | ServerGRPC s => r = Ok ()
  | ServerHook name => True
  end.

#[export] Instance server_StoppableServer : StoppableServer (server S G) := {
  GetName srv := match srv with ServerHTTP s => hs_name s | ServerGRPC s => gs_name s | ServerHook name => name end;
  Start_returns := server_Start_returns;
  Stop_returns := server_Stop_returns;
  GracefulStop_returns := server_GracefulStop_returns
}.

(** The servers of the application keep the promise of their interface. *)
#[export] Instance server_StoppableServerLaws `{!ServerLibLaws S G} : StoppableServerLaws (server S G).
Proof.
  intros [s|s|name] r; cbn.
  - intros (err&Herr&->). apply ListenAndServe_closed in Herr as ->. done.
  - intros (listen&serve&_&Hs&Hl&->). apply Serve_stopped in Hs as ->. by rewrite (Hl eq_refl).
  - apply hook_stopped.
Qed.

(** ** The application's server

    [Start] runs the servers under the multi-server; the other two do nothing
    before it was made. *)
Context (m : Machine) (error_Error : error → string) (fmt_value : value → string).
Context (prepareMiddleware : Z → middlewareCollection S) (health_NewServer : option error).

Definition autogen_Start (s : autogenServer (S := S) (G := G)) (s' : autogenServer (S := S) (G := G)) (stopped : bool) (r : res ()) : Prop :=
  match autogen_servers m prepareMiddleware health_NewServer s with
  | Ok servers =>
      s' = newMultiStoppableServer s servers ∧
      ∃ ls st err, start_runs error_Error fmt_value servers ls st ∧ st_result st = Some err ∧
        (stopped = true → ∀ i r, LEnd i r ∈ ls → ∃ srv, servers !! i = Some srv ∧ Start_returns srv true r) ∧
        r = of_option_err err
  | Err e => s' = s ∧ r = Err e
  | Panic p => s' = s ∧ r = Panic p
  end.

(** A run [ls] of [Stop] or [GracefulStop], which is the method of the multi-server
    with the message [msg], and its result. *)
Definition autogen_stop_run (msg : string) (s : autogenServer (S := S) (G := G)) (ls : list stop_label) (r : res ()) : Prop :=
  match as_multiServer s with
  | None => ls = [] ∧ r = Ok ()
  | Some servers => ∃ st err, stop_runs (length servers) ls st ∧ stop_result msg st = Some err ∧
      r = of_option_err err
  end.
Definition autogen_stop_with (msg : string) (s : autogenServer (S := S) (G := G)) (r : res ()) : Prop :=
  ∃ ls, autogen_stop_run msg s ls r.
Definition autogen_Stop := autogen_stop_with stop_msg.
Definition autogen_GracefulStop := autogen_stop_with graceful_stop_msg.
End operate.

(** * What the application's server is made of *)

Section servers_properties.
Context `{Crypto} {S G : Type} (m : Machine).
Context (prepareMiddleware : Z → middlewareCollection S) (health_NewServer : option error).
Notation autogenServer := (autogenServer (S := S) (G := G)).
Notation autogen_servers := (autogen_servers (S := S) (G := G) m prepareMiddleware health_NewServer).
Implicit Types s : autogenServer.

Definition profile_routes (routes : list (string * endpoint)) : list string :=
  omap (λ r, match r.2 with EProfile p => Some p | _ => None end) routes.

Lemma configureRouters_base base (mw : list (Middleware S)) :
  mux_middleware (configureRouters base mw) = mw ∧ mux_routes (configureRouters base mw) = [].
Proof. unfold configureRouters. by destruct (_ || _). Qed.

(** The admin server serves with the TLS configuration and the addresses it was
    given, behind the middleware, and profiles only if it was told to. *)
Lemma configureAdmin_Ok hl registry health (mw : list (Middleware S)) (srv : server S G) :
  configureAdminServerListener (G := G) m hl registry health mw = Ok srv →
  ∃ cfg library tc router, m_AdminServerConfig hl = Some cfg ∧ m_LibraryConfig hl = Some library ∧
    MakeTLSConfig m (csc_TLS (hsc_Common cfg)) = Ok tc ∧
    srv = ServerHTTP (mk_httpServer cfg (makeNewServer router tc cfg) 0 "REST Admin Server") ∧
    mux_middleware router = mw ∧
    (profile_routes (m_adminMiddlewareRoutes hl) = [] →
     profile_routes (mux_routes router) = if lib_Profiling library then profiles else []).
Proof.
  unfold configureAdminServerListener.
  destruct (m_AdminServerConfig hl) as [cfg|]; [|done]. destruct (m_LibraryConfig hl) as [library|]; [|done].
  intros (tc&Htc&[= <-])%res_bind_Ok. destruct (configureRouters_base (hsc_BasePath cfg) mw) as [Hmw Hr].
  eexists cfg, library, tc, _. split_and!; try done. intros Hp.
  unfold add_routes. cbn [mux_routes]. rewrite Hr /= /profile_routes !omap_app.
  fold (profile_routes (m_adminMiddlewareRoutes hl)). rewrite Hp /=.
  assert (∀ b : bool, omap (λ r : string * endpoint, match r.2 with EProfile p => Some p | _ => None end)
    (if b then [("/-/metrics/", EMetrics)] else []) = []) as -> by by intros [].
  assert (∀ b : bool, omap (λ r : string * endpoint, match r.2 with EProfile p => Some p | _ => None end)
    (if b then [("/", EHealth)] else []) = []) as -> by by intros [].
  rewrite /= app_nil_r. unfold registerProfilingHandler. by destruct (lib_Profiling library).
Qed.

Lemma configurePublic_Ok hl public (mw : list (Middleware S)) hooks (srv : server S G) :
  configurePublicServerListener m hl public mw hooks = Ok srv → hooks ≫= sh_StoppableServerBuilder = None →
  ∃ tc router, MakeTLSConfig m (csc_TLS (hsc_Common (up_HTTP public))) = Ok tc ∧
    srv = ServerHTTP (G := G) (mk_httpServer (up_HTTP public) (makeNewServer router tc (up_HTTP public)) 0 "REST Public Server") ∧
    mux_middleware router = mw ∧ mux_routes router = m_EnabledHandlers hl ≫= hi_routes.
Proof.
  unfold configurePublicServerListener. intros (tc&Htc&[= <-])%res_bind_Ok ->. eexists tc, _.
  split_and!; try done.
  - assert (∀ l r, mux_middleware (foldl (λ (r : Mux S) h, add_routes (hi_routes h) r) r l) = mux_middleware r) as ->.
    { intros l. by induction l as [|h l IH]; intros r; cbn; [|rewrite IH]. }
    apply configureRouters_base.
  - assert (∀ l r, mux_routes (foldl (λ (r : Mux S) h, add_routes (hi_routes h) r) r l) =
      mux_routes r ++ (l ≫= hi_routes)) as ->; [|done].
    intros l. induction l as [|h l IH]; intros r; cbn; [by rewrite app_nil_r|]. by rewrite IH /= -app_assoc.
Qed.

Lemma load_health_Ok s gm :
  load_health health_NewServer s = Ok gm →
  (is_Some gm ↔ is_Some (as_grpcServerManager s)) ∧
  (gm ≫= gm_GrpcPublicServerConfig = as_grpcServerManager s ≫= gm_GrpcPublicServerConfig).
Proof.
  unfold load_health. destruct (health_enabled s); [|by intros [= <-]].
  intros ([]&_&(g&Hg%deref_Ok&[= <-])%res_bind_Ok)%res_bind_Ok. rewrite Hg. split; [|done]. by split; eexists.
Qed.

(** The servers [Start] makes, in the order it makes them. *)
Definition rest_server s (cfg : CommonHTTPServerConfig) (mw : list (Middleware S)) (srv : server S G) : Prop :=
  ∃ tc router name, MakeTLSConfig m (csc_TLS (hsc_Common cfg)) = Ok tc ∧
    srv = ServerHTTP (mk_httpServer cfg (makeNewServer router tc cfg) 0 name) ∧ mux_middleware router = mw.

Lemma autogen_servers_Ok s servers :
  autogen_servers s = Ok servers →
  ∃ gm admin public grpc, load_health health_NewServer s = Ok gm ∧ servers = admin ++ public ++ grpc ∧
    admin_servers m s (mw_admin (prepareMiddleware (autogen_contextTimeout s))) = Ok admin ∧
    public_servers m s (mw_public (prepareMiddleware (autogen_contextTimeout s))) = Ok public ∧
    grpc = grpc_servers s gm ∧ (public ≠ [] ∨ grpc ≠ []).
Proof.
  unfold autogen_servers. intros (gm&Hgm&(admin&Ha&(public&Hp&Hr)%res_bind_Ok)%res_bind_Ok)%res_bind_Ok.
  exists gm, admin, public, (grpc_servers s gm).
  destruct public as [|p public]; [destruct (grpc_servers s gm) as [|g grpc]; [done|]|];
    injection Hr as <-; split_and!; try done; by [left|right].
Qed.

Lemma admin_servers_Ok s mw admin :
  admin_servers m s mw = Ok admin →
  match as_restManager s ≫= m_AdminServerConfig with
  | None => admin = []
  | Some cfg => ∃ srv, admin = [srv] ∧ rest_server s cfg mw srv
  end.
Proof.
  unfold admin_servers. destruct (as_restManager s) as [hl|]; cbn; [|by intros [= <-]].
  case_bool_decide as Hc.
  - intros (srv&Hs&[= <-])%res_bind_Ok. apply configureAdmin_Ok in Hs as (cfg&lib&tc&router&->&_&?&->&?&_).
    eexists. split; [done|]. by eexists tc, router, _.
  - intros [= <-]. destruct (m_AdminServerConfig hl); [|done]. destruct Hc. by eexists.
Qed.

Lemma public_servers_Ok s mw public :
  public_servers m s mw = Ok public → as_hooks s ≫= sh_StoppableServerBuilder = None →
  match as_restManager s ≫= m_PublicServerConfig with
  | None => public = []
  | Some up => ∃ srv, public = [srv] ∧ rest_server s (up_HTTP up) mw srv
  end.
Proof.
  unfold public_servers. destruct (as_restManager s) as [hl|]; cbn; [|by intros [= <-]].
  destruct (m_PublicServerConfig hl) as [up|]; [|by intros [= <-]].
  intros (srv&Hs&[= <-])%res_bind_Ok Hh. apply configurePublic_Ok in Hs as (tc&router&?&->&?&_); [|done].
  eexists. split; [done|]. by eexists tc, router, _.
Qed.

Lemma grpc_servers_http s gm hs :
  as_hooks s ≫= sh_StoppableGrpcServerBuilder = None → ServerHTTP hs ∉ grpc_servers s gm.
Proof.
  intros Hh. unfold grpc_servers. destruct gm as [gm|]; [|apply not_elem_of_nil].
  destruct (gm_GrpcPublicServerConfig gm), (gm_EnabledGrpcHandlers gm); try apply not_elem_of_nil.
  unfold configurePublicGrpcServerListener. rewrite Hh. rewrite list_elem_of_singleton. done.
Qed.

(** The servers [Start] starts are those that are configured: the admin server
    exactly if the REST manager has an admin configuration, the public one exactly
    if it has a public configuration, each with the address and timeouts of its
    configuration, the TLS configuration made from it, and its own middleware; and
    never an admin server alone. *)
Theorem autogenServer_Start_servers s servers :
  autogen_servers s = Ok servers → as_hooks s ≫= sh_StoppableServerBuilder = None →
  let mw := prepareMiddleware (autogen_contextTimeout s) in
  ∃ admin public grpc, servers = admin ++ public ++ grpc ∧
    match as_restManager s ≫= m_AdminServerConfig with
    | None => admin = []
    | Some cfg => ∃ srv, admin = [srv] ∧ rest_server s cfg (mw_admin mw) srv
    end ∧
    match as_restManager s ≫= m_PublicServerConfig with
    | None => public = []
    | Some up => ∃ srv, public = [srv] ∧ rest_server s (up_HTTP up) (mw_public mw) srv
    end ∧
    (grpc ≠ [] → is_Some (as_grpcServerManager s ≫= gm_GrpcPublicServerConfig)) ∧
    (is_Some (as_restManager s ≫= m_PublicServerConfig) ∨ grpc ≠ []).
Proof.
  intros (gm&admin&public&grpc&Hgm&->&Ha&Hp&Hg&Hne)%autogen_servers_Ok Hh. cbn zeta.
  apply public_servers_Ok in Hp; [|done]. apply admin_servers_Ok in Ha.
  exists admin, public, grpc. split_and!; try done.
  - intros Hgrpc. apply load_health_Ok in Hgm as [_ <-]. rewrite Hg in Hgrpc. unfold grpc_servers in Hgrpc.
    destruct gm as [gm|]; [|done]. cbn. by destruct (gm_GrpcPublicServerConfig gm).
  - destruct Hne as [Hne|?]; [|by right]. left. destruct (as_restManager s ≫= m_PublicServerConfig) as [up|]; [by exists up|done].
Qed.

(** With health enabled, [Start] dereferences the gRPC manager: an application
    that is given none panics before any server is made, public REST server or not. *)
Theorem autogenServer_health_needs_grpc s :
  health_enabled s = true → as_grpcServerManager s = None → health_NewServer = None →
  autogen_servers s = Panic nil_dereference.
Proof. intros Hh Hg Hn. unfold autogen_servers, load_health. by rewrite Hh Hg Hn. Qed.
End servers_properties.

(** ** Every request to a REST server *)

Section rest_answers.
Context `{Crypto} {S G : Type} `{!HasMonitors S} (m : Machine) (json_text : marshal_target → string).
Context (race : Z → Request → S → option error) (metricsMiddleware : option (Middleware S)).
Context (uuid_Parse : string → option string) (uuid_New : string) (health_NewServer : option error).

(** C8. Every REST server that [Start] makes, admin or public, answers every request
    exactly once and lets no panic out, whatever the handler it is routed to does
    and however late it is. *)
Theorem autogenServer_answers_once (s : autogenServer (S := S) (G := G)) servers hs h r st w :
  autogen_servers m (prepareMiddleware json_text race metricsMiddleware uuid_Parse uuid_New) health_NewServer s = Ok servers →
  as_hooks s ≫= sh_StoppableServerBuilder = None → as_hooks s ≫= sh_StoppableGrpcServerBuilder = None →
  (∀ dt r st e, race dt r st = Some e → done_error e) →
  ServerHTTP hs ∈ servers →
  let '(st', w', out) := chain (mux_middleware (srv_Handler (hs_server hs))) h r st w in
  out = Ok () ∧ ∃ code, one_response w w' code.
Proof.
  intros (gm&admin&public&grpc&_&->&Ha&Hp&->&_)%autogen_servers_Ok Hh Hg Hrace Hin.
  apply public_servers_Ok in Hp; [|done]. apply admin_servers_Ok in Ha.
  assert (∃ ms', mux_middleware (srv_Handler (hs_server hs)) =
    Recoverer :: TimeoutMiddleware (race (autogen_contextTimeout s)) (core_timeoutHandler json_text) :: ms') as [ms' ->].
  { rewrite !elem_of_app in Hin. destruct Hin as [Hin|[Hin|Hin]].
    - destruct (as_restManager s ≫= m_AdminServerConfig) as [cfg|]; [|subst; by apply elem_of_nil in Hin].
      destruct Ha as (srv&->&tc&router&name&_&->&Hmw). apply list_elem_of_singleton in Hin as [= ->]. cbn.
      rewrite Hmw. unfold prepareMiddleware. destruct metricsMiddleware; by eexists.
    - destruct (as_restManager s ≫= m_PublicServerConfig) as [cfg|]; [|subst; by apply elem_of_nil in Hin].
      destruct Hp as (srv&->&tc&router&name&_&->&Hmw). apply list_elem_of_singleton in Hin as [= ->]. cbn.
      rewrite Hmw. unfold prepareMiddleware. destruct metricsMiddleware; by eexists.
    - by apply grpc_servers_http in Hin. }
  apply (guarded_one_response json_text (race (autogen_contextTimeout s)) (chain ms' h)).
  intros r' s' e. apply Hrace.
Qed.
End rest_answers.

(** ** The life cycle *)

Section lifecycle.
Context `{Crypto} {S G : Type} `{!ServerLib S G} (m : Machine).
Context (error_Error : error → string) (fmt_value : value → string).
Context (prepareMiddleware : Z → middlewareCollection S) (health_NewServer : option error).
Notation Start := (autogen_Start m error_Error fmt_value prepareMiddleware health_NewServer).

(** The calls that return in a run are what the method of each server may return. *)
Definition calls_return (method : server S G → res () → Prop) (servers : list (server S G)) (ls : list stop_label) : Prop :=
  ∀ i e, LStopped i e ∈ ls → ∃ srv, servers !! i = Some srv ∧ method srv (of_option_err e).

(** The method of the sub-servers that a method of the application's server calls,
    and the message of its errors. *)
Inductive stop_method : (server S G → res () → Prop) → string → Prop :=
| stop_hard : stop_method Stop_returns stop_msg
| stop_graceful : stop_method GracefulStop_returns graceful_stop_msg.

End lifecycle.

(** ** An application with an admin and a public REST server *)
Module ServersExample.
#[local] Existing Instance TlsExample.crypto.
#[local] Existing Instance MiddlewareExample.monitors_only.
Definition lib : LibraryConfig := mkLibraryConfig zero_LogConfig true false None (mkTraceConfig "").
Definition http (port : Z) : CommonHTTPServerConfig :=
  mkCommonHTTPServerConfig (mkCommonServerConfig "localhost" port None) "/" 0 0.
Definition up : UpstreamConfig := mkUpstreamConfig 0 (http 8080) zero_GRPCServerConfig (mkTemporalServerConfig "" "").
Definition manager (lib : LibraryConfig) : Manager :=
  mkManager [mkHandlerInitialiser "svc" [("/hello", EApplication "GetHello")]] (Some lib) (Some (http 9090)) (Some up) [].
Definition St : Type := gmap loc monitor.
Definition app (lib : LibraryConfig) : autogenServer (S := St) (G := string) :=
  mk_autogenServer Background "app" (Some (manager lib)) None false None None.
Definition mware : Z → middlewareCollection St :=
  prepareMiddleware (λ _, "{}") MiddlewareExample.race None (λ _, None) "id".
Definition servers : list (server St string) :=
  match autogen_servers TlsExample.machine mware None (app lib) with Ok l => l | _ => [] end.
Lemma servers_Ok : autogen_servers TlsExample.machine mware None (app lib) = Ok servers.
Proof. reflexivity. Defined.
Definition public : httpServer St :=
  match servers with [_; ServerHTTP s] => s | _ => mk_httpServer (http 0) (makeNewServer (mkMux [] None []) None (http 0)) 0 "" end.

(** Servers that fail or are stopped as the libraries document it. *)
#[export] Instance lib_documented : ServerLib St string := {
  ListenAndServe srv tls stopped e := stopped = true → e = ErrServerClosed;
  Shutdown srv timeout e := True;
  Close srv e := e = None;
  net_Listen addr e := True;
  Serve srv stopped e := stopped = true → e = None;
  hook_server name stopped r := stopped = true → r = Ok ()
}.
#[export] Instance lib_laws : ServerLibLaws St string.
Proof. split; cbn; auto. Defined.

Definition text (e : error) : string := "error".
Definition started : autogenServer (S := St) (G := string) := newMultiStoppableServer (app lib) servers.

(** Both servers are stopped; the public one reports it first. *)
Definition trace : list start_label := [LEnd 1 (Ok ()); LSend 1; LEnd 0 (Ok ()); LReceive].
Definition ended : start_state := mk_start_state [GSending None; GDone] [] (Some None).

Lemma stopped_ends i : (i < 2)%nat → ∃ srv, servers !! i = Some srv ∧ Start_returns srv true (Ok ()).
Proof.
  intros Hi. destruct i as [|[|i]]; [| |lia].
  - eexists. split; [reflexivity|]. exists ErrServerClosed. split; [intros _; reflexivity|reflexivity].
  - eexists. split; [reflexivity|]. exists ErrServerClosed. split; [intros _; reflexivity|reflexivity].
Defined.

Lemma trace_LEnd i r : LEnd i r ∈ trace → (i < 2)%nat ∧ r = Ok ().
Proof.
  unfold trace. rewrite !elem_of_cons elem_of_nil. intros H.
  destruct H as [H|[H|[H|[H|H]]]]; try discriminate H; try contradiction; injection H as -> ->; split; reflexivity || lia.
Defined.

Lemma trace_runs : start_runs text (λ _, "") servers trace ended.
Proof.
  assert (∀ i r, LEnd i r ∈ trace → ∃ srv stopped, servers !! i = Some srv ∧ Start_returns srv stopped r) as Hok.
  { intros i r [Hi ->]%trace_LEnd. destruct (stopped_ends i Hi) as (srv&?&?). by exists srv, true. }
  assert (∀ l, l ∈ trace → ∀ i r, l = LEnd i r → ∃ srv stopped, servers !! i = Some srv ∧ Start_returns srv stopped r) as Hl.
  { intros l Hl i r ->. by apply Hok. }
  unfold trace. change (LEnd 1 (Ok ()) :: ?l) with (([] ++ [LEnd 1 (Ok ())]) ++ l).
  apply (start_runs_snoc _ _ _ [LEnd 1 (Ok ()); LSend 1; LEnd 0 (Ok ())]
    (mk_start_state [GSending None; GDone] [None] None) LReceive); [|reflexivity|discriminate].
  apply (start_runs_snoc _ _ _ [LEnd 1 (Ok ()); LSend 1]
    (mk_start_state [GRunning; GDone] [None] None) (LEnd 0 (Ok ()))); [|reflexivity|].
  2: { apply Hl. unfold trace. rewrite !elem_of_cons. auto. }
  apply (start_runs_snoc _ _ _ [LEnd 1 (Ok ())]
    (mk_start_state [GRunning; GSending None] [] None) (LSend 1)); [|reflexivity|discriminate].
  apply (start_runs_snoc _ _ _ [] (start_init servers) (LEnd 1 (Ok ()))); [constructor|reflexivity|].
  apply Hl. unfold trace. rewrite !elem_of_cons. auto.
Defined.

(** The shutdown of the public one is canceled. *)
Definition stops : list stop_label := [LStopped 1 (Some ErrCanceled); LStopped 0 None; LQueue 1].
Definition after_stops : stop_state := mk_stop_state [PDone None; PDone (Some ErrCanceled)] [ErrCanceled].
Lemma server_stops_run : stop_runs (length servers) stops after_stops.
Proof. apply MultiServerExample.stop_run_runs. vm_compute. reflexivity. Defined.
Lemma stops_return : calls_return GracefulStop_returns servers stops.
Proof.
  unfold stops. intros i e. rewrite !elem_of_cons elem_of_nil. intros H.
  destruct H as [H|[H|[H|H]]]; try discriminate H; try contradiction; injection H as -> ->; eexists.
  - split; [reflexivity|]. exists (λ _, Some ErrCanceled), None. split; [intros t; exact I|split; reflexivity].
  - split; [reflexivity|]. exists (λ _, None), None. split; [intros t; exact I|split; reflexivity].
Defined.
End ServersExample.
#[local] Existing Instance TlsExample.crypto.
#[local] Existing Instance MiddlewareExample.monitors_only.
#[local] Existing Instance ServersExample.lib_documented.

Lemma autogenServer_Start_servers_witness :
  ∃ admin public grpc, ServersExample.servers = admin ++ public ++ grpc ∧
    length admin = 1%nat ∧ length public = 1%nat.
Proof.
  destruct (autogenServer_Start_servers TlsExample.machine ServersExample.mware None
    (ServersExample.app ServersExample.lib) ServersExample.servers ServersExample.servers_Ok eq_refl)
    as (admin&public&grpc&E&(a&->&_)&(p&->&_)&_).
  exists [a], [p], grpc. split; [exact E|split; reflexivity].
Defined.

Lemma autogenServer_health_needs_grpc_witness :
  let lib := mkLibraryConfig zero_LogConfig false true None (mkTraceConfig "") in
  autogen_servers TlsExample.machine ServersExample.mware None (ServersExample.app lib) = Panic nil_dereference.
Proof. apply autogenServer_health_needs_grpc; reflexivity. Defined.

Lemma autogenServer_answers_once_witness :
  let '(_, w', out) := chain (mux_middleware (srv_Handler (hs_server ServersExample.public)))
                         MiddlewareExample.h MiddlewareExample.r ∅ rw_empty in
  out = Ok () ∧ ∃ code, one_response rw_empty w' code.
Proof.
  refine (autogenServer_answers_once TlsExample.machine (λ _, "{}") MiddlewareExample.race None (λ _, None) "id" None
    (ServersExample.app ServersExample.lib) ServersExample.servers ServersExample.public
    MiddlewareExample.h MiddlewareExample.r ∅ rw_empty ServersExample.servers_Ok eq_refl eq_refl
    MiddlewareExample.race_done _).
  apply (list_elem_of_lookup_2 _ 1%nat). reflexivity.
Defined.

