(* ===== verification/GrpcServing.v ===== *)
(** * What a gRPC server runs around its handlers: src/core/grpc.go and
    src/health/health.go

    The two interceptors that give a handler its logger, the options that install
    them, the two writers through which the gRPC library itself logs, and the
    wrapper of the health server. The gRPC library is a parameter: an interface says
    in which order it runs chained interceptors, and to which writers its logger
    writes a line of some severity. *)

From S2P Require Export Loggers Servers AuthRules.

Section interceptors.
Context `{!NativeLogs, !Crypto} {Req Resp St : Type}.

(** ** Interceptors *)

(** A handler, with the state that the application's handlers share. *)
Definition UnaryHandler := LogContext → Req → St → St * res Resp.
Definition UnaryServerInterceptor := LogContext → Req → UnaryHandler → UnaryHandler.

(** The logger is an interface, nil if the server's context had none. *)
Definition makeLoggerInterceptor (logger : option Logger) : LogContext → Req → UnaryHandler → St → St * res Resp :=
  λ ctx req handler s,
  match logger with
  | Some l => handler (PutLogger ctx l) req s
  | None => (s, Panic nil_dereference)
  end.

Definition TraceidLogInterceptor_run : LogContext → Req → UnaryHandler → St → St * res Resp :=
  λ ctx req handler s,
  match With ctx "traceid" (FStr "traceid") with
  | Ok ctx => handler ctx req s
  | Err err => (s, Err err)
  | Panic p => (s, Panic p)
  end.

(** What an interceptor of the options does; [app] says it of the application's. *)
Definition run_interceptor (logger : option Logger)
    (app : string → LogContext → Req → UnaryHandler → St → St * res Resp) (i : interceptor) :
    LogContext → Req → UnaryHandler → St → St * res Resp :=
  match i with
  | LoggerInterceptor => makeLoggerInterceptor logger
  | TraceidLogInterceptor => TraceidLogInterceptor_run
  | AppInterceptor name => app name
  end.

Definition chained (run : interceptor → LogContext → Req → UnaryHandler → St → St * res Resp)
    (l : list interceptor) (handler : UnaryHandler) : UnaryHandler :=
  foldr (λ i next ctx req s, run i ctx req next s) handler l.

Definition chained_interceptors (opts : list grpc_option) : list interceptor :=
  opts ≫= λ o, match o with ChainUnaryInterceptor l => l | _ => [] end.
End interceptors.

Arguments UnaryHandler {_} Req Resp St.

(** The library's part: serving a call with a server's options. *)
Class UnaryServing `{!NativeLogs, !Crypto} (Req Resp St : Type) := serve_unary :
  (interceptor → LogContext → Req → UnaryHandler Req Resp St → St → St * res Resp) →
  list grpc_option → UnaryHandler Req Resp St → UnaryHandler Req Resp St.

(** Its documentation: all interceptors added by [ChainUnaryInterceptor] are chained,
    the first is the outermost, the last the innermost around the real call. *)
Class UnaryServingLaws `{!NativeLogs, !Crypto} (Req Resp St : Type) `{!UnaryServing Req Resp St} : Prop :=
  serve_unary_chains run opts handler ctx req s :
    serve_unary run opts handler ctx req s = chained run (chained_interceptors opts) handler ctx req s.

(** ** The logger of the gRPC library *)

Section grpclog.
Context `{!NativeLogs}.

(** A write of the line [p]: what is logged, and how many bytes were taken. Without a
    logger it dereferences nil. *)
Definition logWriterInfo_Write (logger : option Logger) (p : string) : res (line * nat) :=
  match logger with Some l => Ok (Logger_log l SInfo p, String.length p) | None => Panic nil_dereference end.
Definition logWriterError_Write (logger : option Logger) (p : string) : res (line * nat) :=
  match logger with
  | Some l => Ok (Logger_log l (SError (ErrText p)) "gRPC error", String.length p)
  | None => Panic nil_dereference
  end.

Inductive v2_writer := InfoW | WarningW | ErrorW.

(** [setLogger]: the writers of the three severities. *)
Definition setLogger (ctx : LogContext) (w : v2_writer) : string → res (line * nat) :=
  let logger := GetLogger ctx in
  match w with
  | InfoW => logWriterInfo_Write logger
  | WarningW => logWriterInfo_Write logger
  | ErrorW => logWriterError_Write logger
  end.
End grpclog.

(** Whether a server's [setLogger] is called: the hooks, and what their function says. *)
Definition should_setLogger (ShouldSetGrpcGlobalLogger : option (option bool)) : bool :=
  match ShouldSetGrpcGlobalLogger with Some (Some b) => b | _ => true end.

Inductive v2_severity := V2Info | V2Warning | V2Error.

(** [grpclog.NewLoggerV2]: the writers that a line of some severity goes to. *)
Class GrpcLog := v2_writers : v2_severity → list v2_writer.
(** Its documentation: "Error logs will be written to errorW, warningW and infoW.
    Warning logs will be written to warningW and infoW. Info logs will be written to
    infoW." The order is not said. *)
Class GrpcLogLaws `{!GrpcLog} : Prop := {
  v2_info : v2_writers V2Info ≡ₚ [InfoW];
  v2_warning : v2_writers V2Warning ≡ₚ [WarningW; InfoW];
  v2_error : v2_writers V2Error ≡ₚ [ErrorW; WarningW; InfoW]
}.

(** What a line of the library becomes, once [setLogger] has been called. *)
Definition grpc_logs `{!NativeLogs, !GrpcLog} (ctx : LogContext) (sev : v2_severity) (p : string) :
    res (list line) :=
  mapM_res (λ w, r ← setLogger ctx w p; Ok r.1) (v2_writers sev).

(** ** health.go *)

Section health.
Context {PkgServer GrpcServer : Type}.

(** The health server of anz-bank/pkg, and its registration with a gRPC server. *)
Definition health_RegisterServer (RegisterWith : PkgServer → GrpcServer → GrpcServer) (s : PkgServer)
    (server : GrpcServer) : GrpcServer := RegisterWith s server.

Definition health_NewServer (pkg_NewServer : error + PkgServer) : res PkgServer :=
  match pkg_NewServer with inl err => Err err | inr s => Ok s end.
End health.

(** A function as a health check (callback.go). *)
Definition HealthCheckFunc_Check (h : Context → string → res Z) (ctx : Context) (service : string) : res Z :=
  h ctx service.

(** * Properties *)

Section properties.
Context `{!NativeLogs, !NativeLogsLaws, !Crypto} {Req Resp St : Type}
  `{!UnaryServing Req Resp St, !UnaryServingLaws Req Resp St}.
#[local] Set Default Proof Using "All".
Implicit Types (h : UnaryHandler Req Resp St).

Lemma chained_app run l l' h : chained run (l ++ l') h = chained run l (chained run l' h).
Proof using Type. apply foldr_app. Qed.

Lemma interceptors_app (o o' : list grpc_option) :
  chained_interceptors (o ++ o') = chained_interceptors o ++ chained_interceptors o'.
Proof using Type. apply bind_app. Qed.

Lemma Traceid_run ctx req h (s : St) l :
  GetLogger ctx = Some l →
  ∃ ctx', GetLogger ctx' = Some (Logger_With "traceid" (FStr "traceid") l) ∧
    TraceidLogInterceptor_run ctx req h s = h ctx' req s.
Proof.
  intros Hl. destruct (With_Ok ctx l "traceid" (FStr "traceid") Hl) as (ctx'&E&Hl').
  exists ctx'. split; [exact Hl'|]. unfold TraceidLogInterceptor_run. by rewrite E.
Qed.

(** The two interceptors of the library around a handler. *)
Lemma logging_pair lg app ctx req h (s : St) :
  let run := run_interceptor lg app in
  match lg with
  | None => chained run [LoggerInterceptor; TraceidLogInterceptor] h ctx req s = (s, Panic nil_dereference)
  | Some l => ∃ ctx', GetLogger ctx' = Some (Logger_With "traceid" (FStr "traceid") l) ∧
      chained run [LoggerInterceptor; TraceidLogInterceptor] h ctx req s = h ctx' req s
  end.
Proof.
  destruct lg as [l|]; [|done]. cbn. apply Traceid_run. apply get_put.
Qed.

Lemma Extract_no_interceptors (m : Machine) cfg opts :
  ExtractGrpcServerOptions m cfg = Ok opts → chained_interceptors opts = [].
Proof using Type.
  unfold ExtractGrpcServerOptions. destruct cfg as [c|]; [|by intros [= <-]].
  destruct (csc_TLS (gsc_Common c)) as [t|]; [|by intros [= <-]].
  destruct (MakeTLSConfig m (Some t)); cbn; [by intros [= <-]|done..].
Qed.

Lemma Default_interceptors (m : Machine) cfg opts :
  DefaultGrpcServerOptions m cfg = Ok opts →
  chained_interceptors opts = [LoggerInterceptor; TraceidLogInterceptor].
Proof using Type.
  unfold DefaultGrpcServerOptions. destruct (ExtractGrpcServerOptions m cfg) as [o| |] eqn:E; cbn; [|done..].
  intros [= <-]. by rewrite interceptors_app (Extract_no_interceptors m cfg o E).
Qed.

(** A gRPC server with the options that [ResolveGrpcServerOptions] makes logs for
    its handlers: the interceptors that the application adds, and the handler inside
    of them, run with the logger that the server's context had, with the field
    traceid -- whose value is the word traceid, whatever the request is. If that
    context had no logger every request panics before the application is reached. *)
Theorem ResolveGrpcServerOptions_logs (m : Machine) lg app ctx cfg hooks opts h c req s :
  h_OverrideGrpcServerOptions hooks = None →
  ResolveGrpcServerOptions (λ _, DefaultGrpcServerOptions m) ctx hooks cfg = Ok opts →
  let run := run_interceptor lg app in
  let inside := chained run (chained_interceptors (h_AdditionalGrpcServerOptions hooks)) h in
  match lg with
  | None => serve_unary run opts h c req s = (s, Panic nil_dereference)
  | Some l => ∃ c', GetLogger c' = Some (Logger_With "traceid" (FStr "traceid") l) ∧
      serve_unary run opts h c req s = inside c' req s
  end.
Proof.
  intros Ho Hres run inside. unfold ResolveGrpcServerOptions in Hres. rewrite Ho in Hres.
  destruct (DefaultGrpcServerOptions m cfg) as [d| |] eqn:Ed;
    [|destruct (h_AdditionalGrpcServerOptions hooks); discriminate..].
  assert (opts = d ++ h_AdditionalGrpcServerOptions hooks) as ->.
  { destruct (h_AdditionalGrpcServerOptions hooks); cbn in Hres; congruence. }
  rewrite serve_unary_chains interceptors_app (Default_interceptors m cfg d Ed) chained_app.
  by destruct lg as [l|]; [apply (logging_pair (Some l))|].
Qed.

(** With a deprecated [GrpcManager] the application's interceptors run first: the
    outermost gets the context of the call as it came in, with no logger in it, so
    that an interceptor that logs panics; the handler behind them has the logger. *)
Theorem GrpcManager_interceptors_before_logger (m : Machine) lg app hl gm n ns h c req s :
  newGrpcServerManagerFromGrpcManager (G := St) m hl = Ok gm → gm_Interceptors hl = AppInterceptor n :: ns →
  let run := run_interceptor lg app in
  ∃ next, serve_unary run (gm_GrpcServerOptions gm) h c req s = app n c req next s ∧
    ∀ c' req' s', next c' req' s' =
      chained run ns (λ c req s, chained run [LoggerInterceptor; TraceidLogInterceptor] h c req s) c' req' s'.
Proof.
  intros Hgm Hns run. unfold newGrpcServerManagerFromGrpcManager, extractGrpcServerOptionsFromGrpcManager in Hgm.
  destruct (ExtractGrpcServerOptions m (gm_PublicConfig hl)) as [o| |] eqn:E; cbn in Hgm; [|done..].
  injection Hgm as <-. cbn [gm_GrpcServerOptions]. rewrite serve_unary_chains.
  rewrite !interceptors_app (Extract_no_interceptors m _ o E) Hns.
  exists (chained run (ns ++ [LoggerInterceptor; TraceidLogInterceptor]) h).
  split; [done|intros c' req' s'; by rewrite chained_app].
Qed.
End properties.

Section grpclog_properties.
Context `{!NativeLogs, !GrpcLog, !GrpcLogLaws}.
#[local] Set Default Proof Using "All".

Lemma writers_lines ctx l p ws :
  GetLogger ctx = Some l →
  mapM_res (λ w, r ← setLogger ctx w p; Ok r.1) ws =
    Ok ((λ w, Logger_log l (match w with ErrorW => SError (ErrText p) | _ => SInfo end)
               (match w with ErrorW => "gRPC error" | _ => p end)) <$> ws).
Proof using Type.
  intros Hl. induction ws as [|w ws IH]; cbn [mapM_res fmap list_fmap]; [done|]. rewrite IH.
  by destruct w; cbn; rewrite Hl.
Qed.

(** Everything the gRPC library logs reaches the logger of the application with its
    whole text, warnings as information. But the library writes a line to the writer
    of its own severity and to those below it, and all of them lead to the same
    logger: a warning is logged twice, and an error three times, once as an error. *)
Theorem grpc_logs_spec ctx l sev p :
  GetLogger ctx = Some l →
  ∃ lines, grpc_logs ctx sev p = Ok lines ∧
    lines ≡ₚ match sev with
             | V2Info => [Logger_log l SInfo p]
             | V2Warning => [Logger_log l SInfo p; Logger_log l SInfo p]
             | V2Error => [Logger_log l (SError (ErrText p)) "gRPC error"; Logger_log l SInfo p; Logger_log l SInfo p]
             end.
Proof.
  intros Hl. unfold grpc_logs. rewrite (writers_lines ctx l p _ Hl). eexists. split; [done|].
  destruct sev; [rewrite v2_info|rewrite v2_warning|rewrite v2_error]; done.
Qed.
End grpclog_properties.

(** The health check service answers the four statuses of the application as they
    are, any other number as unknown, and an error of the check as that error. *)
Theorem healthCheckSrv_Check_spec (h : Context → string → res Z) ctx service :
  healthCheckSrv_Check (HealthCheckFunc_Check h) ctx service =
    match h ctx service with
    | Ok st => Ok (if bool_decide (0 ≤ st ≤ 3)%Z then st else UNKNOWN)
    | Err e => Err e
    | Panic p => Panic p
    end.
Proof.
  unfold healthCheckSrv_Check, HealthCheckFunc_Check. destruct (h ctx service) as [st| |]; [|done..].
  change (Ok (default 0%Z (healthCheckStatusMap !! st)) = Ok (if bool_decide (0 ≤ st ≤ 3)%Z then st else UNKNOWN)). f_equal.
  case_bool_decide as Hst.
  - assert (st = 0 ∨ st = 1 ∨ st = 2 ∨ st = 3)%Z as [->|[->|[->| ->]]] by lia; vm_compute; reflexivity.
  - assert (healthCheckStatusMap !! st = None) as ->; [|done].
    apply not_elem_of_list_to_map_1. cbn. unfold UNKNOWN, SERVING, NOT_SERVING, SERVICE_UNKNOWN.
    rewrite !elem_of_cons elem_of_nil. lia.
Qed.

(** ** A server that counts its calls *)

Module GrpcServingExample.
#[export] Existing Instance LoggersExample.native.
#[export] Existing Instance LoggersExample.native_laws.
#[export] Existing Instance TlsExample.crypto.
#[export] Instance serving : UnaryServing string string nat :=
  λ run opts h, chained run (chained_interceptors opts) h.
#[export] Instance serving_laws : UnaryServingLaws string string nat.
Proof. done. Defined.
#[export] Instance grpclog : GrpcLog := λ sev,
  match sev with V2Info => [InfoW] | V2Warning => [InfoW; WarningW] | V2Error => [InfoW; WarningW; ErrorW] end.
#[export] Instance grpclog_laws : GrpcLogLaws.
Proof. split; unfold v2_writers, grpclog; [done|apply perm_swap|apply (Permutation_rev [InfoW; WarningW; ErrorW])]. Defined.

Definition incoming : LogContext := mkLogContext LoggersExample.no_native None None.
(** Writes a line and fails without a logger. *)
Definition logging_app (name : string) (ctx : LogContext) (req : string) (next : UnaryHandler string string nat)
    (s : nat) : nat * res string :=
  match log_at SInfo ctx name with Ok _ => next ctx req s | Err e => (s, Err e) | Panic p => (s, Panic p) end.
Definition handler : UnaryHandler string string nat := λ ctx req s,
  match log_at SInfo ctx req with
  | Ok (LogrusLine _ fields _ m) => (S s, Ok match fields !! "traceid" with Some (FStr t) => t | _ => m end)
  | _ => (s, Panic nil_dereference)
  end.
Definition logger : option Logger := Some (NewLogrusLogger 1%positive).
Definition hooks : AuthHooks := @mkAuthHooks _ [] None [ChainUnaryInterceptor [AppInterceptor "audit"]] None None.
Definition opts : list grpc_option := 
  [ChainUnaryInterceptor [LoggerInterceptor]; ChainUnaryInterceptor [TraceidLogInterceptor];
   ChainUnaryInterceptor [AppInterceptor "audit"]].
Definition manager : GrpcManager (G := nat) := mkGrpcManager [AppInterceptor "audit"] [] None.
Definition gm : GrpcServerManager nat :=
  match newGrpcServerManagerFromGrpcManager TlsExample.machine manager with Ok gm => gm | _ => mkGrpcServerManager [] [] None end.
End GrpcServingExample.
Import GrpcServingExample.

(** Every call is logged under the trace id that is no id. *)
Lemma ResolveGrpcServerOptions_logs_witness :
  (∃ c', GetLogger c' = Some (Logger_With "traceid" (FStr "traceid") (NewLogrusLogger 1%positive)) ∧
    serve_unary (run_interceptor logger logging_app) opts handler incoming "GetPet" 0%nat =
      chained (run_interceptor logger logging_app) [AppInterceptor "audit"] handler c' "GetPet" 0%nat) ∧
  serve_unary (run_interceptor logger logging_app) opts handler incoming "GetPet" 0%nat = (1%nat, Ok "traceid").
Proof.
  split; [|vm_compute; reflexivity].
  apply (ResolveGrpcServerOptions_logs (Req := string) (Resp := string) TlsExample.machine logger logging_app Background
    None hooks opts handler incoming "GetPet" 0%nat eq_refl eq_refl).
Defined.

Lemma GrpcManager_interceptors_before_logger_witness :
  ∃ next, serve_unary (run_interceptor logger logging_app) (gm_GrpcServerOptions gm) handler incoming "GetPet" 0%nat =
      logging_app "audit" incoming "GetPet" next 0%nat ∧
    logging_app "audit" incoming "GetPet" next 0%nat = (0%nat, Panic nil_dereference).
Proof.
  destruct (GrpcManager_interceptors_before_logger (Req := string) (Resp := string) TlsExample.machine logger
    logging_app manager gm "audit" [] handler incoming "GetPet" 0%nat eq_refl eq_refl) as (next&H&_).
  exists next. split; [exact H|reflexivity].
Defined.

Lemma grpc_logs_spec_witness :
  ∃ lines, grpc_logs (PutLogger incoming (NewLogrusLogger 1%positive)) V2Error "connection lost" = Ok lines ∧
    length lines = 3%nat.
Proof.
  destruct (grpc_logs_spec (PutLogger incoming (NewLogrusLogger 1%positive)) (NewLogrusLogger 1%positive) V2Error
    "connection lost" eq_refl) as (lines&H&Hp).
  exists lines. split; [exact H|exact (Permutation_length Hp)].
Defined.

