(* ===== verification/Bootstrap.v ===== *)
(** * Bringing an application up: of src/core/serve.go the functions [NewServer],
    [NewTemporalWorker] and what they call

    The logger that is put in the context, where the configuration is read from,
    what is done with it, and in which order the callbacks of the application and
    of the generated code run. Reading a file, decoding YAML and the tags of the
    validation library are parameters. *)

From S2P Require Export Durations Servers.

(** ** Loggers (src/log/logging.go): what is said of one here *)

Record Logger := mkLogger {
  lg_name : string;
  lg_fields : list (string * string);
  lg_level : option Z
}.
Definition Logger_WithStr (key value : string) (l : Logger) : Logger :=
  mkLogger (lg_name l) (lg_fields l ++ [(key, value)]) (lg_level l).
Definition Logger_WithLevel (level : Z) (l : Logger) : Logger :=
  mkLogger (lg_name l) (lg_fields l) (Some level).
Definition NewDefaultLogger : Logger := mkLogger "pkg" [] None.
Definition bootstrap_logger : Logger :=
  Logger_WithStr "bootstrap" "logging called before bootstrapping complete, to centralise these logs call log.PutLogger before core.NewServer"
    (mkLogger "zero" [] None).

(** A context at bootstrap: with the logger in it, and the legacy ones. *)
Record BootContext := mkBootContext {
  bc_ctx : Context;
  bc_logger : option Logger;
  bc_logrus : option Logger;
  bc_pkgFields : option Logger  (* fields that are not empty *)
}.
Definition PutLogger (l : Logger) (c : BootContext) : BootContext :=
  mkBootContext (bc_ctx c) (Some l) (bc_logrus c) (bc_pkgFields c).
Definition with_ctx (ctx : Context) (c : BootContext) : BootContext :=
  mkBootContext ctx (bc_logger c) (bc_logrus c) (bc_pkgFields c).

Definition getExternalLogger (c : BootContext) : BootContext * option Logger :=
  match bc_logger c with
  | Some logger => (c, Some logger)
  | None =>
    match bc_logrus c with
    | Some lgr => (PutLogger lgr c, Some lgr)
    | None =>
      match bc_pkgFields c with
      | Some lgr => (PutLogger lgr c, Some lgr)
      | None => (c, None)
      end
    end
  end.

Definition withLogLevel (defaultConfig : DefaultConfig) (c : BootContext) : BootContext :=
  let level := log_Level (lib_Log (cfg_Library defaultConfig)) in
  let level := if bool_decide (level ≠ 0)%Z then level else InfoLevel in
  match bc_logger c with
  | Some l => PutLogger (Logger_WithLevel level l) c
  | None => c
  end.

(** ** The type of createService, by reflection *)

Record func_type := mk_func_type { ft_In : list string; ft_Out : list string }.

Definition type_context : string := "context.Context".
Definition type_hooks : string := "*core.Hooks".
Definition type_error : string := "error".

Definition check_type (found wanted msg : string) : res () :=
  if bool_decide (found = wanted) then Ok () else Panic (PanicError (ErrText (msg +:+ found))).

Definition MustTypeCheckCreateService (cs : func_type) (serviceInterfaceType : string) : res () :=
  match ft_In cs with
  | [in0; _] =>
    match ft_Out cs with
    | [out0; out1; out2] =>
        _ ← check_type in0 type_context "createService: first in param must be of type context.Context, not ";
        _ ← check_type out0 serviceInterfaceType ("createService: second out param must be of type " +:+ serviceInterfaceType +:+ ", not ");
        _ ← check_type out1 type_hooks "createService: second out param must be of type *Hooks, not ";
        if bool_decide (out2 = type_error) then Ok ()
        else Panic (PanicError (ErrText ("createService: third out param must be of type error, not " +:+ out1)))
    | _ => Panic (PanicString "createService: wrong number of out params")
    end
  | _ => Panic (PanicString "createService: wrong number of in params")
  end.

Definition GetAppConfigType (cs : func_type) : option string := ft_In cs !! 1%nat.

(** ** The configuration *)

(** The structure the configuration is decoded into: the default configuration with
    the application's own type of downstreams, possibly nil, and its own part. *)
Record CustomConfig (App : Type) := mkCustomConfig {
  cc_Library : LibraryConfig;
  cc_Admin : option AdminConfig;
  cc_Upstream : UpstreamConfig;
  cc_Downstream : value;
  cc_Development : option DevelopmentConfig;
  cc_App : App
}.
Arguments cc_Library {App}.
Arguments cc_Admin {App}.
Arguments cc_Upstream {App}.
Arguments cc_Downstream {App}.
Arguments cc_Development {App}.
Arguments cc_App {App}.

(** Where it is read from: data in the context, or a file. *)
Inductive config_source := FromYaml (data : string) | FromFile (path : string).

Definition is_nil (v : value) : bool := match v with VNil => true | _ => false end.

Definition defaultConfig_of {App} (downstreamConfig : value) (c : CustomConfig App) : DefaultConfig :=
  let downstream := if is_nil (cc_Downstream c) then downstreamConfig else cc_Downstream c in
  mkDefaultConfig (cc_Library c) (cc_Admin c) (mkGenCodeConfig (cc_Upstream c) downstream) (cc_Development c).

Section load.
Context {App : Type}.
(** [os.Args]; the prefix of environment variables that a source asks for; what a
    source decodes to, with that prefix, and the keys of it that have no place. A
    source that viper cannot read ends the process: [ReaderBuilder] has that part. *)
Context (Args : list string) (envPrefix : config_source → res string)
  (decode : config_source → option string → error + CustomConfig App * list string).

Definition config_source_of (ctx : Context) : res config_source :=
  match ctx_Value ctx KYamlConfig with
  | Some applicationConfig => Ok (FromYaml applicationConfig)
  | None =>
    match Args with
    | [_; arg] =>
        if bool_decide (arg = "--help" ∨ arg = "-h") then Err ErrDisplayHelp
        else if bool_decide (arg = "--version" ∨ arg = "-v") then Err ErrDisplayHelp
        else Ok (FromFile arg)
    | _ => Err (ErrText "wrong number of arguments")
    end
  end.

Definition envPrefixConfigKey : string := "envPrefix".

Definition LoadCustomConfig (ctx : Context) : res (CustomConfig App) :=
  src ← config_source_of ctx;
  let prefix := match envPrefix src with
                | Ok env => if bool_decide (0 < String.length env)%nat then Some env else None
                | _ => None
                end in
  let b := WithStrictMode (mk_configReaderImpl (λ _, None) false []) true [envPrefixConfigKey] in
  configReader_Unmarshal (decode src prefix) b.

Definition createDefaultConfig (downstreamConfig : value) (ctx : Context) : res (DefaultConfig * App) :=
  customConfig ← LoadCustomConfig ctx;
  Ok (defaultConfig_of downstreamConfig customConfig, cc_App customConfig).
End load.

(** ** NewServer *)

(** The hooks used here; [ValidateConfig] may change the configuration. *)
Record BootHooks `{Crypto} (S G : Type) := mkBootHooks {
  bh_Logger : option (option Logger);   (* what Hooks.Logger() returns *)
  bh_ValidateConfig : option (DefaultConfig → DefaultConfig * option error);
  bh_ServerHooks : ServerHooks S G
}.
Arguments bh_Logger {_ S G}.
Arguments bh_ValidateConfig {_ S G}.
Arguments bh_ServerHooks {_ S G}.
Arguments mkBootHooks {_ S G}.

Section bootstrap.
Context `{Crypto} {S G App Svc : Type}.
(** [validator.Validate] on the default configuration: its tags. *)
Context (Validate : DefaultConfig → option error).

Definition validateConfig (hooks : option (BootHooks S G)) (conf : DefaultConfig) : DefaultConfig * option error :=
  match hooks ≫= bh_ValidateConfig with
  | Some f =>
      let '(conf, err) := f conf in
      match err with
      | Some err => (conf, Some err)
      | None => (conf, Validate conf)
      end
  | None => (conf, Validate conf)
  end.

Definition hook_logger (hooks : option (BootHooks S G)) : Logger :=
  match hooks ≫= bh_Logger with
  | Some (Some logger) => logger
  | _ => NewDefaultLogger
  end.

Context (Args : list string) (envPrefix : config_source → res string)
  (decode : config_source → option string → error + CustomConfig App * list string).

(** The application's callback, and the generated one. *)
Context (createService_type : func_type) (serviceInterface : string) (downstreamConfig : value)
  (createService : BootContext → App → res (Svc * option (BootHooks S G)))
  (newManagers : BootContext → Svc → option (BootHooks S G) → res (option Manager * option (GrpcServerManager G))).

(** The server and the context it keeps. *)
Definition NewServer (c : BootContext) : res (autogenServer (S := S) (G := G) * BootContext) :=
  let '(c, externalLogger) := getExternalLogger c in
  let c := match externalLogger with None => PutLogger bootstrap_logger c | Some _ => c end in
  _ ← MustTypeCheckCreateService createService_type serviceInterface;
  customConfig ← LoadCustomConfig Args envPrefix decode (bc_ctx c);
  let defaultConfig := defaultConfig_of downstreamConfig customConfig in
  let c := with_ctx (PutDefaultConfig (bc_ctx c) defaultConfig) c in
  '(serviceIntf, hooks) ← createService c (cc_App customConfig);
  let '(defaultConfig, err) := validateConfig hooks defaultConfig in
  _ ← of_option_err err;
  (* the context holds a pointer to the configuration *)
  let c := with_ctx (PutDefaultConfig (bc_ctx c) defaultConfig) c in
  let c := match externalLogger with None => PutLogger (hook_logger hooks) c | Some _ => c end in
  let c := withLogLevel defaultConfig c in
  let promRegistry := bool_decide (is_Some (cc_Admin customConfig)) in
  '(manager, grpcManager) ← newManagers c serviceIntf hooks;
  Ok (mk_autogenServer (bc_ctx c) "nameless-autogenerated-app" manager grpcManager promRegistry None
        (bh_ServerHooks <$> hooks), c).

(** [Serve], the deprecated entry point: what Start returns, if the server could be made. *)
Definition Serve (Start : autogenServer (S := S) (G := G) → res ()) (c : BootContext) : res () :=
  '(srv, _) ← NewServer c; Start srv.
End bootstrap.

(** ** NewTemporalWorker *)

Record TemporalHooks (ClientT WorkerT : Type) := mkTemporalHooks {
  th_ValidateConfig : option (DefaultConfig → DefaultConfig * option error);
  th_ValidateTemporalClientOptions : option (string * string → string * string * option error);
  th_TemporalClientBuilder : option (string → string * string → res ClientT);
  th_ValidateTemporalWorkerOptions : option (option error);
  th_TemporalWorkerBuilder : option (ClientT → string → WorkerT)
}.
Arguments th_ValidateConfig {ClientT WorkerT}.
Arguments th_ValidateTemporalClientOptions {ClientT WorkerT}.
Arguments th_TemporalClientBuilder {ClientT WorkerT}.
Arguments th_ValidateTemporalWorkerOptions {ClientT WorkerT}.
Arguments th_TemporalWorkerBuilder {ClientT WorkerT}.

Section temporal.
Context {App Svc Clients Spec ClientT WorkerT : Type}.
Notation Hooks := (TemporalHooks ClientT WorkerT).
Context (Validate : DefaultConfig → option error).
Context (Args : list string) (envPrefix : config_source → res string)
  (decode : config_source → option string → error + CustomConfig App * list string).
(** The Temporal SDK: [client.Dial] and [worker.New]. *)
Context (Dial : string * string → res ClientT) (worker_New : ClientT → string → WorkerT).
Context (taskQueueName : string) (downstreamConfig : value)
  (createService : BootContext → App → res (Svc * option Hooks))
  (buildDownstreamsClients : BootContext → Hooks → res Clients)
  (buildServiceHandler : ClientT → WorkerT → Svc → Clients → Spec).

Definition temporal_validateConfig (hooks : option Hooks) (conf : DefaultConfig) : DefaultConfig * option error :=
  match hooks ≫= th_ValidateConfig with
  | Some f => let '(conf, err) := f conf in (conf, match err with Some e => Some e | None => Validate conf end)
  | None => (conf, Validate conf)
  end.

(** The client options are the host and port, and the namespace. The hooks are
    dereferenced here without a test. *)
Definition NewTemporalWorker (c : BootContext) : res Spec :=
  let '(c, externalLogger) := getExternalLogger c in
  let c := match externalLogger with None => PutLogger bootstrap_logger c | Some _ => c end in
  '(defaultConfig, appConfig) ← createDefaultConfig Args envPrefix decode downstreamConfig (bc_ctx c);
  let c := with_ctx (PutDefaultConfig (bc_ctx c) defaultConfig) c in
  '(serviceIntf, hooks) ← createService c appConfig;
  let '(defaultConfig, err) := temporal_validateConfig hooks defaultConfig in
  _ ← of_option_err err;
  let c := with_ctx (PutDefaultConfig (bc_ctx c) defaultConfig) c in
  let temporal := up_Temporal (gen_Upstream (cfg_GenCode defaultConfig)) in
  let clientOptions := (tsc_HostPort temporal, tsc_Namespace temporal) in
  hooks ← deref hooks;
  clientOptions ← match th_ValidateTemporalClientOptions hooks with
                  | Some f => let '(o, err) := f clientOptions in _ ← of_option_err err; Ok o
                  | None => Ok clientOptions
                  end;
  temporalClient ← match th_TemporalClientBuilder hooks with
                   | Some build => build taskQueueName clientOptions
                   | None => Dial clientOptions
                   end;
  downstreamClients ← buildDownstreamsClients c hooks;
  _ ← of_option_err (default None (th_ValidateTemporalWorkerOptions hooks));
  let buildWorker := default worker_New (th_TemporalWorkerBuilder hooks) in
  Ok (buildServiceHandler temporalClient (buildWorker temporalClient taskQueueName) serviceIntf downstreamClients).
End temporal.

(** * What a bootstrapped application can rely on *)

Section bootstrap_properties.
Context `{Crypto} {S G App Svc : Type} (Validate : DefaultConfig → option error).
Context (Args : list string) (envPrefix : config_source → res string)
  (decode : config_source → option string → error + CustomConfig App * list string).
Context (createService_type : func_type) (serviceInterface : string) (downstreamConfig : value)
  (createService : BootContext → App → res (Svc * option (BootHooks S G)))
  (newManagers : BootContext → Svc → option (BootHooks S G) → res (option Manager * option (GrpcServerManager G))).
Notation NewServer := (NewServer Validate Args envPrefix decode createService_type serviceInterface
  downstreamConfig createService newManagers).

Lemma validateConfig_None (hooks : option (BootHooks S G)) conf cfg :
  validateConfig Validate hooks conf = (cfg, None) → Validate cfg = None.
Proof. unfold validateConfig. intros Hv. by repeat case_match; simplify_eq. Qed.

(** The logger the application set, by itself or through a legacy package. *)
Definition external_logger (c : BootContext) : option Logger :=
  match bc_logger c with
  | Some l => Some l
  | None => match bc_logrus c with Some l => Some l | None => bc_pkgFields c end
  end.

Lemma getExternalLogger_spec c :
  let '(c', l) := getExternalLogger c in
  l = external_logger c ∧ bc_logger c' = external_logger c ∧ bc_ctx c' = bc_ctx c.
Proof.
  unfold getExternalLogger, external_logger. destruct (bc_logger c) eqn:E; [done|].
  destruct (bc_logrus c); [done|]. by destruct (bc_pkgFields c).
Qed.

(** A server comes out of [NewServer] only from a configuration that was decoded
    with no unexpected key, and that the application's hook and the validator both
    accepted, the way the hook left it; that is the configuration every request
    finds in its context. The logger in the context is the one the application
    set before, if any, else its hook's, else the default, at the level of the
    configuration or the info level; and metrics are collected exactly if an
    admin server was configured before the hook ran. *)
Lemma NewServer_spec c s c' :
  NewServer c = Ok (s, c') →
  ∃ cc c1 svc hooks cfg grpc manager,
    LoadCustomConfig Args envPrefix decode (bc_ctx c) = Ok cc ∧
    GetDefaultConfig (bc_ctx c1) = Some (defaultConfig_of downstreamConfig cc) ∧
    createService c1 (cc_App cc) = Ok (svc, hooks) ∧
    validateConfig Validate hooks (defaultConfig_of downstreamConfig cc) = (cfg, None) ∧
    Validate cfg = None ∧
    newManagers c' svc hooks = Ok (manager, grpc) ∧
    as_restManager s = manager ∧ as_grpcServerManager s = grpc ∧ as_multiServer s = None ∧
    GetDefaultConfig (as_ctx s) = Some cfg ∧ as_ctx s = bc_ctx c' ∧
    as_prometheusRegistry s = bool_decide (is_Some (cc_Admin cc)) ∧
    as_hooks s = bh_ServerHooks <$> hooks ∧
    bc_logger c' = Some (Logger_WithLevel
      (if bool_decide (log_Level (lib_Log (cfg_Library cfg)) ≠ 0)%Z then log_Level (lib_Log (cfg_Library cfg)) else InfoLevel)
      (match external_logger c with Some l => l | None => hook_logger hooks end)).
Proof.
  unfold Bootstrap.NewServer. pose proof (getExternalLogger_spec c) as Hext.
  destruct (getExternalLogger c) as [c0 ext]. destruct Hext as (->&Hl0&Hctx0).
  set (c1 := match external_logger c with None => _ | Some _ => _ end).
  assert (bc_ctx c1 = bc_ctx c) as Hc1 by (subst c1; by destruct (external_logger c)).
  assert (∀ l, external_logger c = Some l → bc_logger c1 = Some l) as Hl1.
  { intros l El. subst c1. rewrite El. by rewrite Hl0. }
  clearbody c1. rewrite Hc1.
  intros ([]&_&H1)%res_bind_Ok. apply res_bind_Ok in H1 as (cc&Hcc&H1).
  apply res_bind_Ok in H1 as ([svc hooks]&Hsvc&H1).
  destruct (validateConfig Validate hooks _) as [cfg err] eqn:Hval.
  apply res_bind_Ok in H1 as ([]&Herr&H1). destruct err as [|]; [done|].
  apply res_bind_Ok in H1 as ([manager grpc]&Hman&H1). injection H1 as <- <-.
  eexists cc, _, svc, hooks, cfg, grpc, manager.
  assert (∀ ctx c2, bc_ctx (withLogLevel cfg (match external_logger c with None => PutLogger (hook_logger hooks) (with_ctx ctx c2)
    | Some _ => with_ctx ctx c2 end)) = ctx) as Hctx.
  { intros ctx c2. unfold withLogLevel. destruct (external_logger c); cbn; [|done]. by destruct (bc_logger c2). }
  split_and!; try done.
  - by apply (WithValue_same _ KDefaultConfig).
  - by eapply validateConfig_None.
  - cbn [as_ctx]. rewrite Hctx. by apply (WithValue_same _ KDefaultConfig).
  - unfold withLogLevel. destruct (external_logger c) as [l|] eqn:E; cbn; [|done].
    by rewrite (Hl1 l eq_refl).
Qed.
End bootstrap_properties.

(** ** TLS settings at start-up

    [TLSConfig.Validate] makes [MakeTLSConfig] safe (the theorem
    [validated_MakeTLSConfig_no_panic]), but nothing on the way from [NewServer] to
    [Start] calls it, and the validator only knows the tags, of which there are none
    in these structures. *)

Lemma MakeTLSConfig_no_client_auth `{Crypto} (m : Machine) t cas v ciphers :
  tls_InsecureSkipVerify t = false → tls_SelfSigned t = false → tls_ClientAuth t = None →
  GetTrustedCAs m t = Ok cas → TLSVersions t = Ok v → TLSCiphers t = Ok ciphers →
  MakeTLSConfig m (Some t) = Panic nil_dereference.
Proof.
  intros Hi Hs Hc Hcas Hv Hcip. unfold MakeTLSConfig. rewrite Hi Hs Hcas /= Hv. destruct v as [min max].
  cbn -[TLSCiphers TLSClientAuth]. rewrite Hcip. cbn -[TLSClientAuth]. unfold TLSClientAuth. by rewrite Hc.
Qed.

(** A public server whose TLS settings lack [clientAuth] is not refused with an
    error: [Start] dereferences the missing setting and panics. *)
Theorem Start_panics_on_unvalidated_TLS `{Crypto} {S G} (m : Machine) prepareMiddleware health
    (s : autogenServer (S := S) (G := G)) hl up t cas v ciphers :
  as_restManager s = Some hl → m_AdminServerConfig hl = None → health_enabled s = false →
  m_PublicServerConfig hl = Some up → csc_TLS (hsc_Common (up_HTTP up)) = Some t →
  tls_InsecureSkipVerify t = false → tls_SelfSigned t = false → tls_ClientAuth t = None →
  GetTrustedCAs m t = Ok cas → TLSVersions t = Ok v → TLSCiphers t = Ok ciphers →
  autogen_servers m prepareMiddleware health s = Panic nil_dereference.
Proof.
  intros Hhl Hadmin Hhealth Hup Ht Hi Hs Hc Hcas Hv Hcip.
  unfold autogen_servers, load_health. rewrite Hhealth. cbn.
  unfold admin_servers, public_servers. rewrite Hhl Hadmin. cbn. rewrite Hup.
  unfold configurePublicServerListener. rewrite Ht (MakeTLSConfig_no_client_auth m t cas v ciphers) //.
Qed.

(** A worker whose service has no hooks panics where a server starts. *)
Theorem NewTemporalWorker_needs_hooks {App Svc Clients Spec ClientT WorkerT : Type} Validate Args envPrefix
    (decode : config_source → option string → error + CustomConfig App * list string)
    (Dial : string * string → res ClientT) (worker_New : ClientT → string → WorkerT) queue downstream
    (createService : BootContext → App → res (Svc * option (TemporalHooks ClientT WorkerT)))
    (buildClients : BootContext → TemporalHooks ClientT WorkerT → res Clients)
    (build : ClientT → WorkerT → Svc → Clients → Spec) c cfg app :
  createDefaultConfig Args envPrefix decode downstream (bc_ctx c) = Ok (cfg, app) →
  (∀ c' app', ∃ svc, createService c' app' = Ok (svc, None)) → Validate cfg = None →
  NewTemporalWorker Validate Args envPrefix decode Dial worker_New queue downstream createService
    buildClients build c = Panic nil_dereference.
Proof.
  intros Hcfg Hcs Hval. unfold NewTemporalWorker. pose proof (getExternalLogger_spec c) as Hext.
  destruct (getExternalLogger c) as [c0 ext]. destruct Hext as (->&_&Hctx).
  set (c1 := match external_logger c with None => _ | Some _ => _ end).
  assert (bc_ctx c1 = bc_ctx c) as -> by (subst c1; by destruct (external_logger c)).
  rewrite Hcfg. cbn -[PutDefaultConfig]. destruct (Hcs (with_ctx (PutDefaultConfig (bc_ctx c) cfg) c1) app) as [svc Hs].
  rewrite Hs. cbn. by rewrite Hval.
Qed.

(** ** An application *)
Module BootstrapExample.
#[local] Existing Instance TlsExample.crypto.
Definition lib : LibraryConfig := mkLibraryConfig zero_LogConfig false false None (mkTraceConfig "").
Definition custom : CustomConfig string :=
  mkCustomConfig _ lib None ServersExample.up VNil None "app".
Definition c : BootContext := mkBootContext (WithValue Background KYamlConfig "library: {}") None None None.
Definition decode (src : config_source) (prefix : option string) : error + CustomConfig string * list string :=
  inr (custom, ["envprefix"]).
Definition managers (c : BootContext) (svc : string)
    (hooks : option (BootHooks ServersExample.St string)) : res (option Manager * option (GrpcServerManager string)) :=
  Ok (Some (mkManager [] (Some lib) None (Some ServersExample.up) []), None).
Definition result : res (autogenServer (S := ServersExample.St) (G := string) * BootContext) :=
  NewServer (λ _, None) ["app"] (λ _, Err (ErrText "envPrefix: key value is nil")) decode
    (mk_func_type [type_context; "AppConfig"] ["*Service"; type_hooks; type_error]) "*Service" VNil
    (λ c app, Ok ("service", None)) managers c.
Definition made := match result with Ok p => p | _ => (ServersExample.app lib, c) end.
Lemma new_server_Ok : result = Ok made.
Proof. reflexivity. Defined.

(** Every TLS setting but [clientAuth]. *)
Definition tls : TLSConfig :=
  mkTLSConfig (Some "1.2") (Some "1.3") None ["TLS_AES_128_GCM_SHA256"] [TlsExample.server] (Some TlsExample.pool)
    false false (Some "RenegotiateNever").
Definition up : UpstreamConfig :=
  mkUpstreamConfig 0 (mkCommonHTTPServerConfig (mkCommonServerConfig "localhost" 8443 (Some tls)) "/" 0 0)
    zero_GRPCServerConfig (mkTemporalServerConfig "" "").
Definition app : autogenServer (S := ServersExample.St) (G := string) :=
  mk_autogenServer Background "app" (Some (mkManager [] (Some lib) None (Some up) [])) None false None None.
End BootstrapExample.

Lemma NewServer_spec_witness :
  as_multiServer BootstrapExample.made.1 = None ∧
  bc_logger BootstrapExample.made.2 = Some (Logger_WithLevel InfoLevel NewDefaultLogger).
Proof.
  destruct (NewServer_spec (λ _, None) ["app"] (λ _, Err (ErrText "envPrefix: key value is nil")) BootstrapExample.decode
    (mk_func_type [type_context; "AppConfig"] ["*Service"; type_hooks; type_error]) "*Service" VNil
    (λ c app, Ok ("service", None)) BootstrapExample.managers BootstrapExample.c
    BootstrapExample.made.1 BootstrapExample.made.2 BootstrapExample.new_server_Ok)
    as (cc&c1&svc&hooks&cfg&grpc&manager&_&_&_&_&_&_&_&_&H&_&_&_&_&_).
  split; [exact H|reflexivity].
Defined.

Lemma Start_panics_on_unvalidated_TLS_witness :
  autogen_servers TlsExample.machine ServersExample.mware None BootstrapExample.app = Panic nil_dereference.
Proof.
  refine (@Start_panics_on_unvalidated_TLS TlsExample.crypto _ _ TlsExample.machine ServersExample.mware None
    BootstrapExample.app (mkManager [] (Some BootstrapExample.lib) None (Some BootstrapExample.up) [])
    BootstrapExample.up BootstrapExample.tls (Some ["root-ca"]) (771, 772)%Z [4865%Z]
    eq_refl eq_refl eq_refl eq_refl eq_refl eq_refl eq_refl eq_refl _ _ _); vm_compute; reflexivity.
Defined.
