(* ===== verification/Process.v ===== *)
(** * The process of a generated application: the function Serve of
    src/codegen/arrai/auto/svc_app.arrai

    [Serve] makes the server, starts it in a goroutine, and waits for a signal or for
    the end of [Start]. Its goroutine, the goroutines that [Start] and [GracefulStop]
    begin ([MultiServer]), the signal and the end of the process are steps that
    interleave. What [Servers] says of [Start] and [GracefulStop] as calls is then
    what the process goes through. *)

From S2P Require Export Bootstrap.

Section process.
Context `{Crypto} {S G : Type} `{!ServerLib S G} (m : Machine).
Context (error_Error : error → string) (fmt_value : value → string).
Context (prepareMiddleware : Z → middlewareCollection S) (health_NewServer : option error).
Notation autogenServer := (autogenServer (S := S) (G := G)).
Notation servers_of := (autogen_servers m prepareMiddleware health_NewServer).

(** The call of [srv.Start()] in the goroutine: it goes on, has returned or panicked
    with nothing sent yet, or the goroutine is over. *)
Inductive starter := StRunning | StReturned (r : res ()) | StOver.

(** The main goroutine: at the select, in [GracefulStop], or past [log.Fatal]'s
    condition with the error it tests. *)
Inductive main_status := MWaiting | MStopping (ss : stop_state) | MExited (err : option error).

Record process := mk_process {
  pr_start : starter;
  pr_servers : option start_state;      (* the multi-server, once Start has made it *)
  pr_errChan : list (option error);     (* of capacity 1 *)
  pr_signal : bool;                     (* a signal is in signalChan *)
  pr_main : main_status
}.

Definition process_init : process := mk_process StRunning None [] false MWaiting.

Inductive process_label :=
| PSetup                    (* Start makes its servers, or gives up *)
| PServe (l : start_label)  (* a step of the multi-server's Start *)
| PReturn                   (* Start returns *)
| PSend                     (* errChan <- *)
| PSignal                   (* SIGINT or SIGTERM *)
| PTakeSignal               (* case <-signalChan *)
| PStop (l : stop_label)    (* a step of GracefulStop *)
| PStopped                  (* GracefulStop returns *)
| PTakeErr.                 (* case err = <-errChan *)

(** What the goroutine sends: the error of [Start], or of its panic. *)
Definition server_panic (p : panicval) : error :=
  ErrText ("Server panic: " +:+ fmt_panic error_Error fmt_value p).
Definition start_sent (r : res ()) : list (option error) :=
  match r with
  | Ok _ => [None]
  | Err e => [Some e]
  | Panic p => match recover p with Some p => [Some (server_panic p)] | None => [] end
  end.

Section steps.
Context (srv : autogenServer).

Definition setup_step (p : process) : process :=
  match servers_of srv with
  | Ok servers => mk_process StRunning (Some (start_init servers)) (pr_errChan p) (pr_signal p) (pr_main p)
  | Err e => mk_process (StReturned (Err e)) None (pr_errChan p) (pr_signal p) (pr_main p)
  | Panic q => mk_process (StReturned (Panic q)) None (pr_errChan p) (pr_signal p) (pr_main p)
  end.

Definition serve_step (p : process) (l : start_label) : option process :=
  match servers_of srv, pr_servers p with
  | Ok servers, Some st =>
      (λ st, mk_process (pr_start p) (Some st) (pr_errChan p) (pr_signal p) (pr_main p)) <$>
        start_step error_Error fmt_value servers st l
  | _, _ => None
  end.

Definition with_main (p : process) (main : main_status) : process :=
  mk_process (pr_start p) (pr_servers p) (pr_errChan p) (pr_signal p) main.

Definition is_exited (main : main_status) : bool := match main with MExited _ => true | _ => false end.

Definition process_step (p : process) (l : process_label) : option process :=
  if is_exited (pr_main p) then None
  else
    match l with
    | PSetup => match pr_start p, pr_servers p with StRunning, None => Some (setup_step p) | _, _ => None end
    | PServe l => serve_step p l
    | PReturn =>
        match pr_start p, pr_servers p ≫= st_result with
        | StRunning, Some err =>
            Some (mk_process (StReturned (of_option_err err)) (pr_servers p) (pr_errChan p) (pr_signal p) (pr_main p))
        | _, _ => None
        end
    | PSend =>
        match pr_start p with
        | StReturned r => Some (mk_process StOver (pr_servers p) (pr_errChan p ++ start_sent r) (pr_signal p) (pr_main p))
        | _ => None
        end
    | PSignal =>
        if pr_signal p then None
        else Some (mk_process (pr_start p) (pr_servers p) (pr_errChan p) true (pr_main p))
    | PTakeSignal =>
        match pr_main p, pr_signal p with
        | MWaiting, true => Some (with_main p match pr_servers p with
                                              | Some st => MStopping (stop_init (length (st_goroutines st)))
                                              | None => MExited None
                                              end)
        | _, _ => None
        end
    | PStop l => match pr_main p with
                 | MStopping ss => (λ ss, with_main p (MStopping ss)) <$> stop_step ss l
                 | _ => None
                 end
    | PStopped => match pr_main p with
                  | MStopping ss => (λ err, with_main p (MExited err)) <$> stop_result graceful_stop_msg ss
                  | _ => None
                  end
    | PTakeErr => match pr_main p, pr_errChan p with
                  | MWaiting, err :: _ => Some (with_main p (MExited err))
                  | _, _ => None
                  end
    end.

(** A sub-server's end is one it may have: one that was not stopped before [GracefulStop]
    is called. *)
Definition label_ok (p : process) (l : process_label) : Prop :=
  match l with
  | PServe (LEnd i r) => ∃ servers server stopped, servers_of srv = Ok servers ∧ servers !! i = Some server ∧
      Start_returns server stopped r ∧ (stopped = true → ∃ ss, pr_main p = MStopping ss)
  | _ => True
  end.

Inductive process_runs : list process_label → process → Prop :=
| process_nil : process_runs [] process_init
| process_snoc ls p l p' :
    process_runs ls p → process_step p l = Some p' → label_ok p l → process_runs (ls ++ [l]) p'.

Definition process_next (p p' : process) : Prop := ∃ l, process_step p l = Some p' ∧ label_ok p l.
End steps.

(** What becomes of the process. *)
Inductive serve_outcome := Returned | Fatal (e : error) | Crashed (p : panicval).

Inductive Serve_outcome : res autogenServer → serve_outcome → Prop :=
| serve_help : Serve_outcome (Err ErrDisplayHelp) Returned
| serve_no_server e : e ≠ ErrDisplayHelp → Serve_outcome (Err e) (Fatal e)
| serve_crashed p : Serve_outcome (Panic p) (Crashed p)
| serve_ended srv ls p err : process_runs srv ls p → pr_main p = MExited err →
    Serve_outcome (Ok srv) (match err with None => Returned | Some e => Fatal e end).

(** * The process goes through the calls of [Servers] *)

Notation Start := (autogen_Start m error_Error fmt_value prepareMiddleware health_NewServer).
Notation GracefulStop := (autogen_GracefulStop (S := S) (G := G)).
Notation start_runs := (start_runs error_Error fmt_value).

(** The steps of [GracefulStop] in a run. *)
Definition stop_labels (ls : list process_label) : list stop_label :=
  omap (λ l, match l with PStop l => Some l | _ => None end) ls.

(** What the multi-server is when [GracefulStop] is called: not there yet, or there. *)
Definition server_at (srv srv' : autogenServer) : Prop :=
  srv' = srv ∨ ∃ servers, servers_of srv = Ok servers ∧ srv' = newMultiStoppableServer srv servers.

Definition main_ok (srv : autogenServer) (ls : list process_label) (main : main_status) : Prop :=
  match main with
  | MWaiting => PTakeSignal ∉ ls ∧ stop_labels ls = []
  | MStopping ss => PTakeSignal ∈ ls ∧ ∃ servers, servers_of srv = Ok servers ∧ stop_runs (length servers) (stop_labels ls) ss
  | MExited err =>
      (PTakeSignal ∉ ls ∧ stop_labels ls = [] ∧ ∃ srv' r, Start srv srv' false r ∧ start_sent r = [err]) ∨
      (PTakeSignal ∈ ls ∧ ∃ srv', server_at srv srv' ∧ GracefulStop srv' (of_option_err err))
  end.

Record process_inv (srv : autogenServer) (ls : list process_label) (p : process) : Prop := {
  inv_servers : ∀ st, pr_servers p = Some st →
    ∃ servers ls', servers_of srv = Ok servers ∧ start_runs servers ls' st;
  inv_start : ∀ r, pr_start p = StReturned r → ∃ srv', Start srv srv' false r;
  inv_errChan : ∀ err, err ∈ pr_errChan p → ∃ srv' r, Start srv srv' false r ∧ start_sent r = [err];
  inv_main : main_ok srv ls (pr_main p)
}.

Lemma start_sent_in r err : err ∈ start_sent r → start_sent r = [err].
Proof.
  destruct r as [[]|e|p]; cbn; [by intros ->%list_elem_of_singleton..|].
  destruct (recover p); [by intros ->%list_elem_of_singleton|by intros ?%elem_of_nil].
Qed.

(** The steps, by what each needs and does. *)
Inductive step_view (srv : autogenServer) (p : process) : process_label → process → Prop :=
| view_setup : pr_start p = StRunning → pr_servers p = None → step_view srv p PSetup (setup_step srv p)
| view_serve servers st l st' : servers_of srv = Ok servers → pr_servers p = Some st →
    start_step error_Error fmt_value servers st l = Some st' →
    step_view srv p (PServe l) (mk_process (pr_start p) (Some st') (pr_errChan p) (pr_signal p) (pr_main p))
| view_return st err : pr_start p = StRunning → pr_servers p = Some st → st_result st = Some err →
    step_view srv p PReturn (mk_process (StReturned (of_option_err err)) (pr_servers p) (pr_errChan p) (pr_signal p) (pr_main p))
| view_send r : pr_start p = StReturned r →
    step_view srv p PSend (mk_process StOver (pr_servers p) (pr_errChan p ++ start_sent r) (pr_signal p) (pr_main p))
| view_signal : pr_signal p = false →
    step_view srv p PSignal (mk_process (pr_start p) (pr_servers p) (pr_errChan p) true (pr_main p))
| view_take_stop st : pr_main p = MWaiting → pr_signal p = true → pr_servers p = Some st →
    step_view srv p PTakeSignal (with_main p (MStopping (stop_init (length (st_goroutines st)))))
| view_take_none : pr_main p = MWaiting → pr_signal p = true → pr_servers p = None → step_view srv p PTakeSignal (with_main p (MExited None))
| view_stop ss l ss' : pr_main p = MStopping ss → stop_step ss l = Some ss' →
    step_view srv p (PStop l) (with_main p (MStopping ss'))
| view_stopped ss err : pr_main p = MStopping ss → stop_result graceful_stop_msg ss = Some err →
    step_view srv p PStopped (with_main p (MExited err))
| view_take_err err rest : pr_main p = MWaiting → pr_errChan p = err :: rest →
    step_view srv p PTakeErr (with_main p (MExited err)).

Lemma process_step_view srv p l p' : process_step srv p l = Some p' ↔ step_view srv p l p' ∧ is_exited (pr_main p) = false.
Proof.
  unfold process_step. split.
  - destruct (is_exited (pr_main p)); [done|]. intros Hstep. split; [|done]. destruct l.
    + destruct (pr_start p) eqn:?; [|done..]. destruct (pr_servers p) eqn:?; [done|]. injection Hstep as <-. by constructor.
    + unfold serve_step in Hstep. destruct (servers_of srv) as [servers| |] eqn:?; [|done..].
      destruct (pr_servers p) as [st|] eqn:?; [|done]. apply fmap_Some in Hstep as (st'&?&->). by econstructor.
    + destruct (pr_start p) eqn:?; [|done..]. destruct (pr_servers p) as [st|] eqn:E; [|done]. cbn in Hstep.
      destruct (st_result st) eqn:?; [|done]. injection Hstep as <-. rewrite -E. by econstructor.
    + destruct (pr_start p) eqn:?; [done| |done]. injection Hstep as <-. by constructor.
    + destruct (pr_signal p) eqn:?; [done|]. injection Hstep as <-. by constructor.
    + destruct (pr_main p) eqn:?; [|done..]. destruct (pr_signal p) eqn:?; [|done]. injection Hstep as <-.
      destruct (pr_servers p) eqn:?; by constructor.
    + destruct (pr_main p) eqn:?; [done| |done]. apply fmap_Some in Hstep as (ss'&?&->). by econstructor.
    + destruct (pr_main p) eqn:?; [done| |done]. apply fmap_Some in Hstep as (err&?&->). by econstructor.
    + destruct (pr_main p) eqn:?; [|done..]. destruct (pr_errChan p) eqn:?; [done|]. injection Hstep as <-. by econstructor.
  - intros [Hv ->]. destruct Hv as [Hs Hn|servers st l st' Hs Hn Hst|st err Hs Hn Hr|r Hs|Hs|st Hm Hs Hn|Hm Hs Hn|ss l ss' Hm Hs|ss err Hm Hs|err rest Hm Hc].
    + by rewrite Hs Hn.
    + unfold serve_step. by rewrite Hs Hn Hst.
    + by rewrite Hs Hn /= Hr.
    + by rewrite Hs.
    + by rewrite Hs.
    + by rewrite Hm Hs Hn.
    + by rewrite Hm Hs Hn.
    + by rewrite Hm Hs.
    + by rewrite Hm Hs.
    + by rewrite Hm Hc.
Qed.

Lemma stop_labels_snoc ls l : stop_labels (ls ++ [l]) = stop_labels ls ++ stop_labels [l].
Proof. apply omap_app. Qed.

(** A step that leaves the main goroutine where it is. *)
Lemma main_ok_same srv ls l main : main_ok srv ls main → is_exited main = false → l ≠ PTakeSignal → stop_labels [l] = [] →
  main_ok srv (ls ++ [l]) main.
Proof.
  destruct main as [|ss|err]; [| |done]; unfold main_ok; rewrite stop_labels_snoc.
  - intros [Hn Hl] _ Hne ->. rewrite Hl. split; [|done]. intros [?|?%list_elem_of_singleton]%elem_of_app; by [|subst l].
  - intros (Hin&servers&Hs&Hr) _ _ ->. rewrite app_nil_r. split; [apply elem_of_app; by left|]. by exists servers.
Qed.

Lemma step_main srv ls p l p' : as_multiServer srv = None →
  process_inv srv ls p → is_exited (pr_main p) = false → step_view srv p l p' → main_ok srv (ls ++ [l]) (pr_main p').
Proof.
  intros Hnone [Hservers Hstart Hchan Hmain] He Hv.
  destruct Hv as [Hs Hn|servers st l st' Hs Hn Hst|st err Hs Hn Hr|r Hs|Hs|st Hm Hs Hn|Hm Hs Hn|ss l ss' Hm Hs|ss err Hm Hs|err rest Hm Hc];
    try (rewrite Hm in Hmain).
  1: replace (pr_main (setup_step srv p)) with (pr_main p) by (unfold setup_step; by destruct (servers_of srv)).
  1-5: by apply main_ok_same.
  - destruct (Hservers _ Hn) as (servers&ls'&Hsv&Hruns). destruct Hmain as [_ Hl]. cbn.
    split; [apply elem_of_app; right; by apply list_elem_of_singleton|]. exists servers. split; [done|].
    rewrite stop_labels_snoc Hl (proj1 (start_counts _ _ _ _ _ Hruns)). constructor.
  - right. split; [apply elem_of_app; right; by apply list_elem_of_singleton|]. exists srv. split; [by left|].
    exists []. unfold autogen_stop_run. by rewrite Hnone.
  - destruct Hmain as (Hin&servers&Hsv&Hruns). cbn. split; [apply elem_of_app; by left|]. exists servers. split; [done|].
    rewrite stop_labels_snoc. by eapply stop_runs_snoc.
  - destruct Hmain as (Hin&servers&Hsv&Hruns). cbn. right. split; [apply elem_of_app; by left|].
    exists (newMultiStoppableServer srv servers). split; [right; by exists servers|].
    by exists (stop_labels ls), ss, err.
  - destruct Hmain as [Hn Hl]. left. split; [|split].
    + intros [?|?%list_elem_of_singleton]%elem_of_app; done.
    + by rewrite stop_labels_snoc Hl.
    + apply Hchan. rewrite Hc. by left.
Qed.

Lemma process_run_inv srv ls p : as_multiServer srv = None → process_runs srv ls p → process_inv srv ls p.
Proof.
  intros Hnone. induction 1 as [|ls p l p' Hruns IH Hstep Hok].
  { split; [done|done|by intros ? ?%elem_of_nil|]. split; [by intros ?%elem_of_nil|done]. }
  apply process_step_view in Hstep as [Hv He]. pose proof (step_main _ _ _ _ _ Hnone IH He Hv) as Hmain.
  destruct IH as [Hservers Hstart Hchan _].
  destruct Hv as [Hs Hn|servers st l st' Hs Hn Hst|st err Hs Hn Hr|r Hs|Hs|st Hm Hs Hn|Hm Hs Hn|ss l ss' Hm Hs|ss err Hm Hs|err rest Hm Hc];
    try by split.
  - split; [| |by unfold setup_step; destruct (servers_of srv)|done].
    + unfold setup_step. destruct (servers_of srv) as [servers| |] eqn:Hsv; [|done..]. intros st [= <-].
      exists servers, []. split; [done|constructor].
    + unfold setup_step. destruct (servers_of srv) as [servers| |] eqn:Hsv; [done|..]; intros r [= <-]; exists srv;
        unfold autogen_Start; by rewrite Hsv.
  - split; [|done..]. cbn. intros ? [= <-]. destruct (Hservers _ Hn) as (servers'&ls'&Hsv&Hr).
    rewrite Hs in Hsv. injection Hsv as <-. exists servers, (ls' ++ [l]). split; [done|]. eapply start_runs_snoc; [done..|].
    intros i r ->. destruct Hok as (servers'&server&stopped&E&?&?&_). rewrite Hs in E. injection E as <-. by exists server, stopped.
  - split; [done| |done..]. cbn. intros r [= <-]. destruct (Hservers _ Hn) as (servers&ls'&Hsv&Hruns').
    exists (newMultiStoppableServer srv servers). unfold autogen_Start. rewrite Hsv. split; [done|]. by exists ls', st, err.
  - split; [done|done| |done]. cbn. intros err [?|Hin]%elem_of_app; [by apply Hchan|].
    destruct (Hstart _ Hs) as [srv' H']. exists srv', r. split; [done|]. by apply start_sent_in.
Qed.

(** C7. The process of a generated application goes through the calls that the server
    makes of itself, however its goroutines and a signal interleave. If it ends
    without having taken a signal, then with the error that [Start] returned, or of its
    panic, and no server was told to stop; if it took one, then with the error of
    [GracefulStop], which returns nil at once when the servers were not made yet. *)
Theorem Serve_refines srv ls p err : as_multiServer srv = None →
  process_runs srv ls p → pr_main p = MExited err →
  (PTakeSignal ∉ ls ∧ stop_labels ls = [] ∧ ∃ srv' r, Start srv srv' false r ∧ start_sent r = [err]) ∨
  (PTakeSignal ∈ ls ∧ ∃ srv', server_at srv srv' ∧ GracefulStop srv' (of_option_err err)).
Proof. intros Hnone Hruns Hm. pose proof (inv_main _ _ _ (process_run_inv _ _ _ Hnone Hruns)) as H'. by rewrite Hm in H'. Qed.

(** ** It comes to an end *)

(** Something has happened that ends the process: a signal, or the end of [Start] or of
    one of its servers. *)
Definition ending (srv : autogenServer) (p : process) : Prop :=
  pr_signal p = true ∨ pr_errChan p ≠ [] ∨
  (∃ r, pr_start p = StReturned r ∧ start_sent r ≠ []) ∨
  (pr_start p = StRunning ∧ ∃ st, pr_servers p = Some st ∧ reported st) ∨
  (pr_start p = StRunning ∧ pr_servers p = None ∧ ∃ e, servers_of srv = Err e).

Lemma label_ok_start_next srv p st l st' servers : servers_of srv = Ok servers → label_ok srv p (PServe l) →
  start_step error_Error fmt_value servers st l = Some st' → start_next error_Error fmt_value servers st st'.
Proof.
  intros Hs Hok Hstep. exists l. split; [done|]. intros i r ->. destruct Hok as (servers'&server&stopped&E&?&?&_).
  rewrite Hs in E. injection E as <-. by exists server, stopped.
Qed.

Lemma ending_step srv p l p' : ending srv p → step_view srv p l p' → label_ok srv p l → ending srv p'.
Proof.
  intros He Hv Hok. unfold ending.
  destruct Hv as [Hs Hn|servers st l st' Hs Hn Hst|st err Hs Hn Hr|r Hs|Hs|st Hm Hs Hn|Hm Hs Hn|ss l ss' Hm Hs|ss err Hm Hs|err rest Hm Hc];
    try exact He.
  - unfold setup_step. destruct He as [Hsig|[Hc|[(r&E&_)|[(_&st&E&_)|(_&_&e&Hsv)]]]]; [..|by rewrite Hsv; right; right; left; eexists].
    + left. by destruct (servers_of srv).
    + right. left. by destruct (servers_of srv).
    + by rewrite Hs in E.
    + by rewrite Hn in E.
  - destruct He as [Hsig|[Hc|[?|[(Hst'&st0&E&Hrep)|(_&E&_)]]]]; [by left|by right; left|by right; right; left| |by rewrite Hn in E].
    right. right. right. left. split; [done|]. exists st'. split; [done|]. rewrite Hn in E. injection E as <-.
    eapply start_next_reported; [done|]. by eapply label_ok_start_next.
  - right. right. left. exists (of_option_err err). split; [done|]. by destruct err.
  - destruct He as [Hsig|[Hc|[(r'&E&Hne)|[(E&_)|(E&_)]]]]; [by left|..]; try by rewrite Hs in E.
    + right. left. by destruct (pr_errChan p).
    + rewrite Hs in E. injection E as <-. right. left. cbn. by destruct (pr_errChan p).
  - by left.
Qed.

Lemma ending_enabled srv ls p : as_multiServer srv = None → process_runs srv ls p → ending srv p →
  is_exited (pr_main p) = false → ∃ p', process_next srv p p'.
Proof.
  intros Hnone Hruns He Hm. destruct (process_run_inv _ _ _ Hnone Hruns) as [Hservers _ _ Hmain].
  assert (∀ l p', step_view srv p l p' → label_ok srv p l → ∃ p', process_next srv p p') as Hgo.
  { intros l p' Hv Hok. exists p', l. split; [by apply process_step_view|done]. }
  destruct (pr_main p) as [|ss|err] eqn:Hmp; [| |done].
  - destruct He as [Hsig|[Hc|[(r&Hs&_)|[(Hs&st&Hst&Hrep)|(Hs&Hn&_)]]]].
    + destruct (pr_servers p) eqn:?; eapply (Hgo PTakeSignal); [by apply view_take_stop|done|by apply view_take_none|done].
    + destruct (pr_errChan p) eqn:?; [done|]. eapply (Hgo PTakeErr); [by eapply view_take_err|done].
    + by eapply (Hgo PSend); [apply view_send|].
    + destruct (st_result st) as [err|] eqn:Hr; [by eapply (Hgo PReturn); [eapply view_return|]|].
      destruct (Hservers _ Hst) as (servers&ls'&Hsv&_).
      destruct (reported_enabled error_Error fmt_value servers st Hrep Hr) as (l&st'&Hl&Hne).
      eapply (Hgo (PServe l)); [by eapply view_serve|]. destruct l as [i r| |]; [by destruct (Hne i r)|done..].
    + by eapply (Hgo PSetup); [apply view_setup|].
  - destruct Hmain as (_&servers&_&Hstop).
    destruct (stop_result graceful_stop_msg ss) as [err|] eqn:Hr; [by eapply (Hgo PStopped); [eapply view_stopped|]|].
    destruct (stop_next_enabled _ _ _ _ Hstop Hr) as (ss'&l&Hl). by eapply (Hgo (PStop l)); [eapply view_stop|].
Qed.

Definition server_count (srv : autogenServer) : nat := match servers_of srv with Ok servers => length servers | _ => 0 end.
Definition servers_measure (o : option start_state) : nat := match o with Some st => start_measure st | None => 0 end.
Definition starter_measure (srv : autogenServer) (p : process) : nat :=
  match pr_start p with
  | StRunning => match pr_servers p with Some st => start_measure st + 2 | None => 3 * server_count srv + 3 end
  | StReturned _ => 1 + servers_measure (pr_servers p)
  | StOver => servers_measure (pr_servers p)
  end.
Definition main_measure (srv : autogenServer) (main : main_status) : nat :=
  match main with
  | MWaiting => 2 * server_count srv + 2
  | MStopping ss => 1 + sum_list_with pweight (sp_goroutines ss)
  | MExited _ => 0
  end.
Definition process_measure (srv : autogenServer) (p : process) : nat :=
  (if pr_signal p then 0 else 1) + starter_measure srv p + main_measure srv (pr_main p).

Lemma sum_replicate {A} (f : A → nat) n x : sum_list_with f (replicate n x) = n * f x.
Proof. induction n as [|n IH]; [done|]. cbn. by rewrite IH. Qed.

Lemma process_measure_step srv ls p l p' : as_multiServer srv = None → process_runs srv ls p →
  step_view srv p l p' → label_ok srv p l → (process_measure srv p' < process_measure srv p)%nat.
Proof.
  intros Hnone Hruns Hv Hok. destruct (process_run_inv _ _ _ Hnone Hruns) as [Hservers _ _ Hmain].
  unfold process_measure, starter_measure, server_count.
  destruct Hv as [Hs Hn|servers st l st' Hs Hn Hst|st err Hs Hn Hr|r Hs|Hs|st Hm Hs Hn|Hm Hs Hn|ss l ss' Hm Hs|ss err Hm Hs|err rest Hm Hc].
  - rewrite Hs Hn. unfold setup_step. destruct (servers_of srv) as [servers| |] eqn:Hsv; cbn; rewrite ?Hsv; [|lia..].
    unfold start_measure. cbn. rewrite sum_replicate. cbn. lia.
  - pose proof (start_next_measure error_Error fmt_value servers st st' (label_ok_start_next _ _ _ _ _ _ Hs Hok Hst)) as Hd.
    cbn. rewrite Hn. destruct (pr_start p); cbn; lia.
  - cbn. rewrite Hs Hn. cbn. lia.
  - cbn. rewrite Hs. lia.
  - cbn. rewrite Hs. lia.
  - destruct (Hservers _ Hn) as (servers&ls'&Hsv&Hr). cbn. rewrite Hm. cbn. unfold server_count. rewrite Hsv sum_replicate.
    rewrite (proj1 (start_counts _ _ _ _ _ Hr)). cbn. lia.
  - cbn. rewrite Hm. cbn. lia.
  - cbn. rewrite Hm. cbn. pose proof (stop_next_measure ss ss') as Hd. assert (stop_next ss ss') as Hx by by exists l. specialize (Hd Hx). lia.
  - cbn. rewrite Hm. cbn. lia.
  - cbn. rewrite Hm. cbn. lia.
Qed.

(** C22. The process of a generated application does end: from any state it can be in,
    once a signal has come, or [Start] or one of its servers has ended with something to
    report, every schedule of all its goroutines leads to its end and none gets stuck
    on the way, if the calls of the servers' own methods return. *)
Theorem Serve_ends srv ls p : as_multiServer srv = None → process_runs srv ls p → ending srv p →
  eventually (process_next srv) (λ p, is_exited (pr_main p) = true) p.
Proof.
  intros Hnone Hruns He.
  apply (eventually_measure (process_next srv) (λ p, (∃ ls, process_runs srv ls p) ∧ ending srv p) _ (process_measure srv));
    [| |by split; [exists ls|]].
  - intros p0 [[ls0 Hr] He0] Hx. apply (ending_enabled srv ls0); [done..|]. by destruct (is_exited (pr_main p0)).
  - intros p0 p1 [[ls0 Hr] He0] _ (l&Hl&Hok). pose proof Hl as [Hv _]%process_step_view. split; [split|].
    + exists (ls0 ++ [l]). by eapply process_snoc.
    + by eapply ending_step.
    + by eapply process_measure_step.
Qed.

(** What the operator sees: a normal end, an error in the log, or a crash. Only a panic
    of [NewServer] crashes the process; one of [Start] is logged as an error. *)
Lemma Serve_outcome_spec new o : (∀ srv, new = Ok srv → as_multiServer srv = None) → Serve_outcome new o →
  match o with
  | Returned => new = Err ErrDisplayHelp ∨ ∃ srv srv', new = Ok srv ∧
      (Start srv srv' false (Ok ()) ∨ server_at srv srv' ∧ GracefulStop srv' (Ok ()))
  | Fatal e => new = Err e ∨ ∃ srv srv', new = Ok srv ∧
      ((∃ r, Start srv srv' false r ∧ start_sent r = [Some e]) ∨ server_at srv srv' ∧ GracefulStop srv' (Err e))
  | Crashed p => new = Panic p
  end.
Proof.
  intros Hnone Ho. destruct Ho as [|e He|p|srv ls p err Hruns Hm]; [by left|by left|done|].
  pose proof (inv_main _ _ _ (process_run_inv _ _ _ (Hnone _ eq_refl) Hruns)) as H'. rewrite Hm in H'.
  destruct H' as [(_&_&srv'&r&Hs&Hr)|(_&srv'&Hat&Hg)]; destruct err as [e|]; right; exists srv, srv'; (split; [done|]).
  - left. by exists r.
  - left. destruct r as [[]|e|q]; [done..|]. cbn in Hr. by destruct (recover q).
  - by right.
  - by right.
Qed.

(** A run that is computed, of labels other than a sub-server's end. *)
Definition no_end (l : process_label) : bool := match l with PServe (LEnd _ _) => false | _ => true end.
Definition process_run (srv : autogenServer) (ls : list process_label) : option process :=
  foldr (λ l o, p ← o; process_step srv p l) (Some process_init) (rev ls).

Lemma process_run_runs srv ls p : forallb no_end ls = true → process_run srv ls = Some p → process_runs srv ls p.
Proof.
  revert p. induction ls as [|l ls IH] using rev_ind; intros p Hn Hr; [injection Hr as <-; constructor|].
  unfold process_run in Hr. rewrite rev_app_distr in Hr. cbn in Hr. fold (process_run srv ls) in Hr.
  rewrite forallb_app in Hn. apply andb_prop in Hn as [Hn Hl]. cbn in Hl. rewrite andb_true_r in Hl.
  destruct (process_run srv ls) as [p0|] eqn:E; [|done]. cbn in Hr. eapply process_snoc; [by apply IH|done|].
  by destruct l as [|[]| | | | | | |].
Qed.
End process.

(** ** A signal, and one of two servers that cannot be stopped *)
Module ProcessExample.
#[local] Existing Instance TlsExample.crypto.
#[local] Existing Instance MiddlewareExample.monitors_only.
#[local] Existing Instance ServersExample.lib_documented.
Definition srv := ServersExample.app ServersExample.lib.
Definition failure : error := ErrText "shutdown failed".
Definition trace : list process_label :=
  [PSetup; PSignal; PTakeSignal; PStop (LStopped 0 None); PStop (LStopped 1 (Some failure)); PStop (LQueue 1); PStopped].
Definition state (n : nat) : process :=
  default process_init
    (process_run TlsExample.machine ServersExample.text (λ _, "") ServersExample.mware None srv (take n trace)).

Lemma state_runs n : forallb (λ l, no_end l) (take n trace) = true → is_Some
    (process_run TlsExample.machine ServersExample.text (λ _, "") ServersExample.mware None srv (take n trace)) →
  process_runs TlsExample.machine ServersExample.text (λ _, "") ServersExample.mware None srv (take n trace) (state n).
Proof. intros Hn [p Hp]. unfold state. rewrite Hp. by apply process_run_runs. Defined.
End ProcessExample.
#[local] Existing Instance TlsExample.crypto.
#[local] Existing Instance MiddlewareExample.monitors_only.
#[local] Existing Instance ServersExample.lib_documented.

Lemma Serve_refines_witness :
  ∃ srv', server_at TlsExample.machine ServersExample.mware None ProcessExample.srv srv' ∧
    autogen_GracefulStop srv' (Err (ErrMulti graceful_stop_msg [ProcessExample.failure])).
Proof.
  destruct (Serve_refines TlsExample.machine ServersExample.text (λ _, "") ServersExample.mware None ProcessExample.srv
    ProcessExample.trace (ProcessExample.state 7) (Some (ErrMulti graceful_stop_msg [ProcessExample.failure])) eq_refl)
    as [(Hn&_)|[_ H]].
  - apply (ProcessExample.state_runs 7); [reflexivity|]. eexists. reflexivity.
  - reflexivity.
  - destruct Hn. unfold ProcessExample.trace. rewrite !elem_of_cons. auto.
  - exact H.
Defined.

Lemma Serve_ends_witness :
  eventually (process_next TlsExample.machine ServersExample.text (λ _, "") ServersExample.mware None ProcessExample.srv)
    (λ p, is_exited (pr_main p) = true) (ProcessExample.state 2).
Proof.
  apply (Serve_ends TlsExample.machine ServersExample.text (λ _, "") ServersExample.mware None ProcessExample.srv
    (take 2 ProcessExample.trace)); [reflexivity| |left; reflexivity].
  apply (ProcessExample.state_runs 2); [reflexivity|]. eexists. reflexivity.
Defined.
