(* ===== verification/ReaderBuilder.v ===== *)
(** * Building a reader of configuration: src/config/configreaderbuilder.go, and how
    core/serve.go reads an application's configuration with it

    Builders are values that share a pointer to one viper, an object that lives in a
    store here. A configuration file that cannot be read or parsed ends the process.
    Viper itself is a parameter. The reading in [LoadCustomConfig] is shown to be what
    [Bootstrap] takes it for. *)

From S2P Require Export Bootstrap.

Class Viper (C : Type) := {
  V : Type;
  FS : Type;
  viper_New : V;
  SetEnvPrefix : string → V → V;
  AutomaticEnv : V → V;
  SetEnvKeyReplacer : string → string → V → V;
  SetFs : FS → V → V;
  SetConfigFile : string → V → V;
  SetConfigName : string → V → V;
  AddConfigPath : string → V → V;
  SetDefault : string → value → V → V;
  MergeInConfig : V → V * option error;
  ReadInConfig : V → V * option error;
  viper_Get : V → string → option value;
  viper_Unmarshal : V → error + C * list string   (* with the keys that have no place *)
}.

Section builder.
Context {C : Type} `{Viper C}.

Notation viper_heap := (gmap loc V).
Definition viper_at (h : viper_heap) (p : loc) : V := default viper_New (h !! p).

Record ConfigReaderBuilder := mkConfigReaderBuilder {
  crb_envVars : loc;
  crb_strictMode : bool;
  crb_strictModeIgnoredKeys : list string
}.

Definition NewConfigReaderBuilder (h : viper_heap) : ConfigReaderBuilder * viper_heap :=
  let p := fresh (dom h) in (mkConfigReaderBuilder p false [], <[p := viper_New]> h).

Definition on_viper (f : V → V) (b : ConfigReaderBuilder) (h : viper_heap) : ConfigReaderBuilder * viper_heap :=
  (b, <[crb_envVars b := f (viper_at h (crb_envVars b))]> h).

Definition AttachEnvPrefix (appName : string) : ConfigReaderBuilder → viper_heap → ConfigReaderBuilder * viper_heap :=
  on_viper (λ v, SetEnvKeyReplacer "." "_" (AutomaticEnv (SetEnvPrefix appName v))).
Definition WithFs (fs : FS) : ConfigReaderBuilder → viper_heap → ConfigReaderBuilder * viper_heap :=
  on_viper (SetFs fs).
Definition WithDefaults (setDefaults : list (string * value)) :
    ConfigReaderBuilder → viper_heap → ConfigReaderBuilder * viper_heap :=
  on_viper (λ v, foldl (λ v kv, SetDefault kv.1 kv.2 v) v setDefaults).

(** [None]: [log.Fatalln] ends the process. *)
Definition or_exit {A} (f : V → V * option error) (a : A) (p : loc) (h : viper_heap) : option (A * viper_heap) :=
  match f (viper_at h p) with
  | (_, Some _) => None
  | (v, None) => Some (a, <[p := v]> h)
  end.
Definition WithConfigFile (configFile : string) (b : ConfigReaderBuilder) (h : viper_heap) :
    option (ConfigReaderBuilder * viper_heap) :=
  or_exit (λ v, MergeInConfig (SetConfigFile configFile v)) b (crb_envVars b) h.
Definition WithConfigName (configName : string) (configPath : list string) (b : ConfigReaderBuilder) (h : viper_heap) :
    option (ConfigReaderBuilder * viper_heap) :=
  or_exit (λ v, MergeInConfig (foldl (λ v path, AddConfigPath path v) (SetConfigName configName v) configPath))
    b (crb_envVars b) h.
Definition Builder_WithStrictMode (strict : bool) (ignoredKeys : list string) (b : ConfigReaderBuilder) : ConfigReaderBuilder :=
  mkConfigReaderBuilder (crb_envVars b) strict ignoredKeys.

(** A reader has the pointer as well; what it reads is what viper holds then. *)
Definition Build (b : ConfigReaderBuilder) (h : viper_heap) : option (ConfigReaderBuilder * viper_heap) :=
  or_exit ReadInConfig b (crb_envVars b) h.
Definition reader_at (h : viper_heap) (b : ConfigReaderBuilder) : configReaderImpl :=
  mk_configReaderImpl (viper_Get (viper_at h (crb_envVars b))) (crb_strictMode b) (crb_strictModeIgnoredKeys b).

(** ** The reading in LoadCustomConfig *)

(** The file system and the path of a source. *)
Context (source_fs : config_source → FS) (cast_ToStringE : value → option string).
Definition source_path (src : config_source) : string :=
  match src with FromYaml _ => "config.yaml" | FromFile path => path end.

Definition read_custom_config (src : config_source) (h : viper_heap) : option (res C * viper_heap) :=
  let '(b, h) := NewConfigReaderBuilder h in
  let '(b, h) := WithFs (source_fs src) b h in
  '(b, h) ← WithConfigFile (source_path src) b h;
  let '(b, h) := WithDefaults SetDefaults b h in
  let b := Builder_WithStrictMode true [envPrefixConfigKey] b in
  '(rd, h) ← Build b h;
  let '(b, h) :=
    match configReader_GetString cast_ToStringE (reader_at h rd) envPrefixConfigKey with
    | Ok env => if bool_decide (0 < String.length env)%nat then AttachEnvPrefix env b h else (b, h)
    | _ => (b, h)
    end in
  '(rd, h) ← Build b h;
  Some (configReader_Unmarshal (viper_Unmarshal (viper_at h (crb_envVars rd))) (reader_at h rd), h).

(** ** What it comes to for a source *)

Definition read_in (v : V) : option V := match ReadInConfig v with (_, Some _) => None | (v, None) => Some v end.
(** Viper with the file and the defaults of a source, and then with a prefix. *)
Definition source_viper (src : config_source) : option V :=
  match MergeInConfig (SetConfigFile (source_path src) (SetFs (source_fs src) viper_New)) with
  | (_, Some _) => None
  | (v, None) => read_in (foldl (λ v kv, SetDefault kv.1 kv.2 v) v SetDefaults)
  end.
Definition prefixed_viper (src : config_source) (prefix : option string) : option V :=
  v ← source_viper src;
  read_in (match prefix with
           | Some env => SetEnvKeyReplacer "." "_" (AutomaticEnv (SetEnvPrefix env v))
           | None => v
           end).

(** The parameters of [Bootstrap], made with viper. *)
Definition unreadable : error := ErrText "unreadable".
Definition source_envPrefix (src : config_source) : res string :=
  match source_viper src with
  | Some v => configReader_GetString cast_ToStringE (mk_configReaderImpl (viper_Get v) true [envPrefixConfigKey]) envPrefixConfigKey
  | None => Err unreadable
  end.
Definition source_decode (src : config_source) (prefix : option string) : error + C * list string :=
  match prefixed_viper src prefix with Some v => viper_Unmarshal v | None => inl unreadable end.

Lemma viper_at_insert p v h : viper_at (<[p := v]> h) p = v.
Proof. unfold viper_at. by rewrite lookup_insert_eq. Qed.

Lemma or_exit_at {A} (f : V → V * option error) (a : A) p v h :
  or_exit f a p (<[p := v]> h) =
  match f v with (_, Some _) => None | (v, None) => Some (a, <[p := v]> h) end.
Proof. unfold or_exit. rewrite viper_at_insert. destruct (f v) as [v' []]; [done|]. by rewrite insert_insert_eq. Qed.

(** Every operation of a builder works on the one viper, and on no other. *)
Lemma WithFs_at fs b v h :
  WithFs fs b (<[crb_envVars b := v]> h) = (b, <[crb_envVars b := SetFs fs v]> h).
Proof. unfold WithFs, on_viper. by rewrite viper_at_insert insert_insert_eq. Qed.
Lemma WithDefaults_at ds b v h :
  WithDefaults ds b (<[crb_envVars b := v]> h) =
  (b, <[crb_envVars b := foldl (λ v kv, SetDefault kv.1 kv.2 v) v ds]> h).
Proof. unfold WithDefaults, on_viper. by rewrite viper_at_insert insert_insert_eq. Qed.
Lemma AttachEnvPrefix_at env b v h :
  AttachEnvPrefix env b (<[crb_envVars b := v]> h) =
  (b, <[crb_envVars b := SetEnvKeyReplacer "." "_" (AutomaticEnv (SetEnvPrefix env v))]> h).
Proof. unfold AttachEnvPrefix, on_viper. by rewrite viper_at_insert insert_insert_eq. Qed.
Lemma reader_at_insert b v h :
  reader_at (<[crb_envVars b := v]> h) b =
  mk_configReaderImpl (viper_Get v) (crb_strictMode b) (crb_strictModeIgnoredKeys b).
Proof. unfold reader_at. by rewrite viper_at_insert. Qed.
Lemma Build_at b v h :
  Build b (<[crb_envVars b := v]> h) = (λ v, (b, <[crb_envVars b := v]> h)) <$> read_in v.
Proof. unfold Build, read_in. rewrite or_exit_at. by destruct (ReadInConfig v) as [v' []]. Qed.

(** The prefix a source asks for. *)
Definition prefix_of (src : config_source) : option string :=
  match source_envPrefix src with
  | Ok env => if bool_decide (0 < String.length env)%nat then Some env else None
  | _ => None
  end.

Lemma read_custom_config_spec src h :
  read_custom_config src h =
  (v ← prefixed_viper src (prefix_of src);
   Some (configReader_Unmarshal (viper_Unmarshal v)
           (mk_configReaderImpl (viper_Get v) true [envPrefixConfigKey]),
         <[fresh (dom h) := v]> h)).
Proof.
  unfold read_custom_config, NewConfigReaderBuilder, prefixed_viper, prefix_of, source_envPrefix, source_viper.
  set (b := mkConfigReaderBuilder (fresh (dom h)) false []).
  change (fresh (dom h)) with (crb_envVars b). rewrite WithFs_at. unfold WithConfigFile. rewrite or_exit_at.
  destruct (MergeInConfig _) as [v []]; [done|]. cbn [mbind option_bind].
  rewrite WithDefaults_at. set (b' := Builder_WithStrictMode true [envPrefixConfigKey] b).
  change (crb_envVars b) with (crb_envVars b'). rewrite Build_at.
  destruct (read_in (foldl _ v SetDefaults)) as [v1|]; [|done]. cbn [mbind option_bind fmap option_fmap option_map].
  rewrite reader_at_insert. change (crb_strictMode b') with true. change (crb_strictModeIgnoredKeys b') with [envPrefixConfigKey].
  assert (∀ v2, ('(rd, h0) ← Build b' (<[crb_envVars b' := v2]> h);
      Some (configReader_Unmarshal (viper_Unmarshal (viper_at h0 (crb_envVars rd))) (reader_at h0 rd), h0)) =
    (v3 ← read_in v2; Some (configReader_Unmarshal (viper_Unmarshal v3)
      (mk_configReaderImpl (viper_Get v3) true [envPrefixConfigKey]), <[crb_envVars b' := v3]> h))) as Hend.
  { intros v2. rewrite Build_at. destruct (read_in v2); [|done].
    cbn [mbind option_bind fmap option_fmap option_map]. by rewrite viper_at_insert reader_at_insert. }
  destruct (configReader_GetString _ _ _); [case_bool_decide; [rewrite AttachEnvPrefix_at|]|..]; apply Hend.
Qed.
(** The text of the key for the prefix, if it has a value that is a text. *)
Definition envPrefix_text (v : V) : option string :=
  match viper_Get v envPrefixConfigKey with None | Some VNil => None | Some x => cast_ToStringE x end.

(** What viper is asked for a source, step by step, if every step succeeds: the file of
    the source is merged, the defaults are set and the file is read once more; if the
    key for it then has a text that is not empty, that becomes the prefix of the
    environment variables; and the file is read for the last time. *)
Inductive viper_reads (src : config_source) : V → Prop :=
| viper_reads_intro v1 v2 v3 :
    MergeInConfig (SetConfigFile (source_path src) (SetFs (source_fs src) viper_New)) = (v1, None) →
    ReadInConfig (foldl (λ v kv, SetDefault kv.1 kv.2 v) v1 SetDefaults) = (v2, None) →
    ReadInConfig
      match envPrefix_text v2 with
      | Some (String c env) => SetEnvKeyReplacer "." "_" (AutomaticEnv (SetEnvPrefix (String c env) v2))
      | _ => v2
      end = (v3, None) →
    viper_reads src v3.

Lemma read_in_Some v v' : read_in v = Some v' ↔ ReadInConfig v = (v', None).
Proof. unfold read_in. destruct (ReadInConfig v) as [v0 []]; split; congruence. Qed.

Lemma prefix_text src v2 :
  source_viper src = Some v2 →
  prefix_of src = match envPrefix_text v2 with
                  | Some (String c env) => Some (String c env) | _ => None end.
Proof.
  intros Hv. unfold prefix_of, source_envPrefix. rewrite Hv. unfold configReader_GetString, configReader_Get. cbn.
  unfold envPrefix_text. destruct (viper_Get v2 envPrefixConfigKey) as [x|]; [|done].
  destruct x; try done; cbn; by destruct (cast_ToStringE _) as [[]|].
Qed.

Lemma prefixed_viper_reads src v : prefixed_viper src (prefix_of src) = Some v ↔ viper_reads src v.
Proof.
  unfold prefixed_viper. split.
  - intros (v2&Hv2&Hr)%bind_Some. rewrite (prefix_text src v2 Hv2) in Hr. apply read_in_Some in Hr.
    unfold source_viper in Hv2. destruct (MergeInConfig _) as [v1 []] eqn:Hm; [done|]. apply read_in_Some in Hv2.
    econstructor; [done..|]. by destruct (envPrefix_text v2) as [[]|].
  - intros [v1 v2 v3 Hm Hd Hr]. assert (source_viper src = Some v2) as Hv2.
    { unfold source_viper. rewrite Hm. by apply read_in_Some. }
    rewrite Hv2 (prefix_text src v2 Hv2). cbn. apply read_in_Some. by destruct (envPrefix_text v2) as [[]|].
Qed.
End builder.

(** C28. An application's configuration is read through builders that share one viper. If
    every step of viper's succeeds, the outcome is the strict decoding of what viper
    then holds, with the key of the prefix left out of the check, which is what
    [LoadCustomConfig] of the bootstrap gives for the source; the viper is a new one
    and all others stay as they are. If a step fails, because the file cannot be read
    or parsed, the process ends, and in no other case. *)
Theorem read_custom_config_refines {App} `{Viper (CustomConfig App)} source_fs cast_ToStringE Args ctx src h :
  config_source_of Args ctx = Ok src →
  match read_custom_config source_fs cast_ToStringE src h with
  | Some (r, h') => ∃ v, viper_reads source_fs cast_ToStringE src v ∧
      r = configReader_Unmarshal (viper_Unmarshal v) (mk_configReaderImpl (viper_Get v) true [envPrefixConfigKey]) ∧
      r = LoadCustomConfig Args (source_envPrefix source_fs cast_ToStringE) (source_decode source_fs) ctx ∧
      h !! fresh (dom h) = None ∧ h' = <[fresh (dom h) := v]> h
  | None => ∀ v, ¬ viper_reads source_fs cast_ToStringE src v
  end ∧
  ((∃ v, viper_reads source_fs cast_ToStringE src v) ↔ is_Some (read_custom_config source_fs cast_ToStringE src h)).
Proof.
  intros Hsrc. rewrite read_custom_config_spec. setoid_rewrite <- (prefixed_viper_reads source_fs cast_ToStringE src).
  destruct (prefixed_viper _ _ _) as [v|] eqn:Hv; cbn [mbind option_bind].
  2: { split; [intros v Hr%prefixed_viper_reads; congruence|]. split; [by intros [v ?]|by intros []]. }
  split; [|split; [by eexists|by exists v]]. exists v. split; [by apply prefixed_viper_reads|]. split; [done|]. split; [|split; [|done]].
  - unfold LoadCustomConfig. rewrite Hsrc. cbn [mbind res_bind]. unfold prefix_of in Hv. unfold source_decode.
    by rewrite Hv.
  - apply not_elem_of_dom, is_fresh.
Qed.

(** ** A viper that holds what is set, and reads files of one pair each *)
Module ReaderBuilderExample.
Definition App : Type := string.
Record tiny := mk_tiny { ty_fs : string → option (string * value); ty_file : string; ty_env : string;
                         ty_values : list (string * value) }.
Definition read (v : tiny) : tiny * option error :=
  match ty_fs v (ty_file v) with
  | Some kv => (mk_tiny (ty_fs v) (ty_file v) (ty_env v) (kv :: ty_values v), None)
  | None => (v, Some (ErrText "no such file"))
  end.
Definition tiny_get (v : tiny) (key : string) : option value :=
  snd <$> list_find (λ kv, kv.1 = key) (ty_values v) ≫= λ p, Some p.2.
Definition config (env : string) : CustomConfig App :=
  mkCustomConfig _ zero_LibraryConfig None zero_UpstreamConfig VNil None env.
Definition unused (v : tiny) : list string :=
  map ToLower (filter (λ k, k = envPrefixConfigKey) (ty_values v).*1). (* viper's keys are in lower case *)
#[export] Instance tiny_viper : Viper (CustomConfig App) := {|
  V := tiny; FS := string → option (string * value);
  viper_New := mk_tiny (λ _, None) "" "" [];
  SetEnvPrefix env v := mk_tiny (ty_fs v) (ty_file v) env (ty_values v);
  AutomaticEnv v := v; SetEnvKeyReplacer _ _ v := v;
  SetFs fs v := mk_tiny fs (ty_file v) (ty_env v) (ty_values v);
  SetConfigFile f v := mk_tiny (ty_fs v) f (ty_env v) (ty_values v);
  SetConfigName _ v := v; AddConfigPath _ v := v;
  SetDefault k x v := mk_tiny (ty_fs v) (ty_file v) (ty_env v) (ty_values v ++ [(k, x)]);
  MergeInConfig := read; ReadInConfig := read;
  viper_Get := tiny_get;
  viper_Unmarshal v := inr (config (ty_env v), unused v)
|}.
Definition source_fs (src : config_source) : @FS (CustomConfig App) tiny_viper := λ path,
  match src with
  | FromFile "absent.yaml" => None
  | _ => Some ("envPrefix", VString "PAY")
  end.
Definition to_string (v : value) : option string := match v with VString s => Some s | _ => None end.
End ReaderBuilderExample.

Lemma read_custom_config_refines_witness :
  let read := read_custom_config ReaderBuilderExample.source_fs ReaderBuilderExample.to_string in
  let load := LoadCustomConfig ["app"; "pay.yaml"]
    (source_envPrefix ReaderBuilderExample.source_fs ReaderBuilderExample.to_string)
    (source_decode ReaderBuilderExample.source_fs) Background in
  load = Ok (ReaderBuilderExample.config "PAY") ∧
  (∃ h', read (FromFile "pay.yaml") ∅ = Some (load, h')) ∧ read (FromFile "absent.yaml") ∅ = None.
Proof.
  intros read load. pose proof (read_custom_config_refines ReaderBuilderExample.source_fs
    ReaderBuilderExample.to_string ["app"; "pay.yaml"] Background (FromFile "pay.yaml") ∅ eq_refl) as Href.
  split; [vm_compute; reflexivity|]. split; [|vm_compute; reflexivity].
  assert (match read (FromFile "pay.yaml") ∅ with Some _ => true | None => false end = true) as E by (vm_compute; reflexivity).
  fold read in Href. destruct (read (FromFile "pay.yaml") ∅) as [[r h']|]; [|discriminate E].
  destruct Href as [(v&_&_&->&_) _]. by exists h'.
Defined.
