(* ===== verification/Downstream.v ===== *)
(** * Clients of downstream services, and small conversions:
    src/core/downstreambuilder.go, src/core/temporal.go, src/convert, src/restlib/common.go

    How the generated code gets its HTTP, gRPC and temporal clients, what their
    transports do, and how parameters of requests are converted. *)

From S2P Require Export AuthRules RestLib Durations.

(** ** HTTP clients *)

(** What [client.Transport] may be: nil, one made by config, one an application
    brings, or one of these with the logging round tripper or the application's
    own around it. *)
Inductive transport `{Crypto} :=
| TransportNil
| TransportDefault (t : http_Transport)
| TransportApp (name : string)
| TransportLogging (serviceName : string) (base : transport)
| TransportHook (serviceName serviceURL : string) (original : transport).

Record client `{Crypto} := mkClient { cl_Timeout : Z; cl_Transport : transport }.
Arguments mkClient {_}.

Record HTTPHooks `{Crypto} := mkHTTPHooks {
  hh_HTTPClientBuilder : option (string → res (client * string));
  hh_DownstreamRoundTripper : bool
}.
Arguments mkHTTPHooks {_}.

Section http_client.
Context `{Crypto} (m : Machine) (url_Parse : string → error + string)
  (ProxyFromEnvironment : string → error + option string).

Definition BuildDownstreamHTTPClient (serviceName : string) (hooks : option HTTPHooks)
    (cfg : option CommonDownstreamData) : res (client * string) :=
  '(c, serviceURL) ←
    match hooks ≫= hh_HTTPClientBuilder with
    | Some build => build serviceName
    | None =>
        c ← DefaultHTTPClient m url_Parse ProxyFromEnvironment cfg;
        Ok (mkClient (hc_Timeout c) (TransportDefault (hc_Transport c)),
            match cfg with Some cfg => cdd_ServiceURL cfg | None => "" end)
    end;
  let t := TransportLogging serviceName (cl_Transport c) in
  let t := if match hooks with Some h => hh_DownstreamRoundTripper h | None => false end
           then TransportHook serviceName serviceURL t else t in
  Ok (mkClient (cl_Timeout c) t, serviceURL).

(** A round trip through a transport. [net/http]'s own transport and the
    application's are parameters; a nil one is dereferenced. *)
Section round_trip.
Context {S : Type} `{!HasMonitors S}.
Context (http_RoundTrip : http_Transport → @RoundTripper S) (app_RoundTrip : string → @RoundTripper S)
  (hook_RoundTrip : string → string → @RoundTripper S → @RoundTripper S).
Fixpoint RoundTrip (t : transport) : @RoundTripper S :=
  match t with
  | TransportNil => λ _ s, (s, Panic nil_dereference)
  | TransportDefault t => http_RoundTrip t
  | TransportApp name => app_RoundTrip name
  | TransportLogging _ base => tempRoundtripper_RoundTrip (RoundTrip base)
  | TransportHook name url original => hook_RoundTrip name url (RoundTrip original)
  end.
End round_trip.

(** ** gRPC clients: [Dial] is [grpc.Dial] *)

Definition BuildDownstreamGRPCClient {Conn} (Dial : string → list grpc_option → res Conn) (serviceName : string)
    (hooks : AuthHooks) (cfg : option CommonGRPCDownstreamData) : res Conn :=
  opts ← ResolveGrpcDialOptions m serviceName hooks cfg;
  cfg ← deref cfg;
  Dial (cgd_ServiceAddress cfg) opts.
End http_client.

(** ** Temporal clients *)

Record client_Options := mk_client_Options {
  co_HostPort : string;
  co_Namespace : string;
  co_Identity : string
}.

Record TemporalClientHooks (C : Type) := mkTemporalClientHooks {
  tch_ValidateOptions : option (client_Options → client_Options * option error);
  tch_Builder : option (string → client_Options → res C)
}.
Arguments tch_ValidateOptions {C}.
Arguments tch_Builder {C}.

Definition BuildDownstreamTemporalClient {C} (Dial : client_Options → res C) (serviceName : string)
    (hooks : TemporalClientHooks C) (cfg : CommonTemporalDownstreamData) : res C :=
  let clientOptions := mk_client_Options (ctd_HostPort cfg) (ctd_Namespace cfg) (ctd_Identity cfg) in
  clientOptions ← match tch_ValidateOptions hooks with
                  | Some f => let '(o, err) := f clientOptions in _ ← of_option_err err; Ok o
                  | None => Ok clientOptions
                  end;
  match tch_Builder hooks with
  | Some build => build serviceName clientOptions
  | None => Dial clientOptions
  end.

(** [StartWorkflowOptions]: the task queue, and the rest. *)
Record StartWorkflowOptions := mkStartWorkflowOptions { swo_TaskQueue : string; swo_ID : string }.

Definition ExecuteWorkflow {R} (execute : StartWorkflowOptions → string → list value → res R)
    (option : StartWorkflowOptions) (tq name : string) (args : list value) : res R :=
  w ← execute (mkStartWorkflowOptions tq (swo_ID option)) name args; Ok w.

Definition GetOptionFromClientIntf (options : list StartWorkflowOptions) : res StartWorkflowOptions :=
  match options with
  | [o] => Ok o
  | [] => Ok (mkStartWorkflowOptions "" "")
  | _ => Panic (PanicString "more than one option is defined")
  end.

(** The activity options of a workflow's context: task queue and timeout. *)
Record activity_options := mk_activity_options { ao_TaskQueue : string; ao_StartToCloseTimeout : Z }.
Definition ExecuteActivity (ctx : activity_options) (tq : string) : activity_options :=
  let ctx := mk_activity_options tq (ao_StartToCloseTimeout ctx) in
  if bool_decide (ao_StartToCloseTimeout ctx = 0)%Z then mk_activity_options tq (5 * Second) else ctx.

(** ** convert.go *)

(** [strconv.ParseInt(input, 10, 64)]. *)
Definition StringToIntPtr (ctx : Context) (input : string) : res (option Z) :=
  if bool_decide (input = "") then Ok None
  else match Atoi input with
       | None => Err (CreateError ctx InternalError ("invalid integer format: " +:+ input) None)
       | Some result => Ok (Some result)
       end.

Definition StringToBoolPtr (ctx : Context) (input : string) : res (option bool) :=
  if bool_decide (input = "") then Ok None
  else if EqualFold input "true" then Ok (Some true)
  else if EqualFold input "false" then Ok (Some false)
  else Err (CreateError ctx InternalError ("invalid boolean format: " +:+ input) None).

Definition StringToStringPtr (ctx : Context) (input : string) : res (option string) :=
  if bool_decide (input = "") then Ok None else Ok (Some input).

(** [time.Parse], for a layout and a text, is the standard library's; [T] a time. *)
Section times.
Context {T : Type} (time_Parse : string → string → error + T).
Definition json_layout : string := "2006-01-02T15:04:05.000-0700".
Definition RFC3339 : string := "2006-01-02T15:04:05Z07:00".

Definition parse_two (s s' : string) : error + T :=
  match time_Parse json_layout s with
  | inl _ => time_Parse RFC3339 s'
  | inr t => inr t
  end.

Definition StringToTimePtr (ctx : Context) (input : string) : res (option T) :=
  if bool_decide (input = "") then Ok None
  else match parse_two input input with
       | inl err => Err (CreateError ctx InternalError ("invalid time format: " +:+ input) (Some err))
       | inr t => Ok (Some t)
       end.

(** [strings.ReplaceAll(string(data), quote, "")]. *)
Fixpoint drop_quotes (s : string) : string :=
  match s with
  | "" => ""
  | String c s => if bool_decide (c = "034"%char) then drop_quotes s else String c (drop_quotes s)
  end.

(** [JSONTime.UnmarshalJSON]; the second attempt is made on the data, quotes and all. *)
Definition JSONTime_UnmarshalJSON (data : string) : error + T := parse_two (drop_quotes data) data.

(** [JSONTime.MarshalJSON]; [Format] is the standard library's. *)
Definition JSONTime_MarshalJSON (Format : string → T → string) (t : T) : string :=
  String "034" "" +:+ Format json_layout t +:+ String "034" "".

(** [restlib.GetQueryParamForTime]; it parses the name of the parameter. *)
Definition GetQueryParamForTime (query : string → string) (key : string) : error + T := parse_two key key.
End times.

(** ** query.go *)

Inductive query_value := QNil | QSlice (l : list value) | QScalar (v : value).

(** [url.Values] as an association list; [Sprint] is [fmt.Sprint]. *)
Definition EncodeQueryParam (Sprint : value → string) (params : list (string * string)) (key : string)
    (v : query_value) : list (string * string) :=
  match v with
  | QNil => params
  | QSlice l => params ++ ((λ x, (key, Sprint x)) <$> l)
  | QScalar v => params ++ [(key, Sprint v)]
  end.

(** ** restlib/common.go: parameters by name *)

Section params.
(** [chi.URLParam], and the query of the URL. *)
Context (URLParam : string → string) (query : string → string) (ParseBool : string → error + bool).
Definition GetURLParam (key : string) : string := URLParam key.
(** [strconv.ParseInt] gives the nearest bound when the number is out of range, and
    zero on a syntax error; the error is dropped. *)
Definition ParseInt_value (s : string) : Z :=
  match parse_decimal s with
  | None => 0
  | Some n => Z.max (- 2 ^ 63) (Z.min n (2 ^ 63 - 1))
  end.
Definition GetURLParamForInt (key : string) : Z := ParseInt_value (URLParam key).
Definition GetQueryParam (key : string) : string := query key.
Definition GetQueryParamForInt (key : string) : res Z :=
  match Atoi (query key) with None => Err (ErrText "strconv.ParseInt") | Some n => Ok n end.
Definition GetQueryParamForBool (key : string) : res bool :=
  match ParseBool (query key) with inl err => Err err | inr b => Ok b end.
Definition GetHeaderParam (h : Header) (key : string) : string := header_get h key.
End params.

(** * Lemmas *)

Lemma DefaultHTTPClient_Ok `{Crypto} (m : Machine) up pe cfg c :
  DefaultHTTPClient m up pe cfg = Ok c →
  let d := default DefaultCommonDownstreamData cfg in
  hc_Timeout c = cdd_ClientTimeout d ∧
  MakeTLSConfig m (tr_ClientTLS (cdd_ClientTransport d)) = Ok (ht_TLSClientConfig (hc_Transport c)).
Proof.
  unfold DefaultHTTPClient, defaultHTTPTransport. intros (t&(tc&Htc&[= <-])%res_bind_Ok&[= <-])%res_bind_Ok.
  by cbn.
Qed.

(** A client for a downstream has the timeout, the TLS settings and the URL of its
    configuration, or of the default one, unless the application builds it; every
    request goes through the logging round tripper, directly around the client's
    own transport, and through the application's round tripper outside of it. *)
Theorem BuildDownstreamHTTPClient_spec `{Crypto} (m : Machine) up pe name hooks cfg c url :
  BuildDownstreamHTTPClient m up pe name hooks cfg = Ok (c, url) →
  ∃ base, cl_Transport c =
      (if match hooks with Some h => hh_DownstreamRoundTripper h | None => false end
       then TransportHook name url (TransportLogging name base) else TransportLogging name base) ∧
    match hooks ≫= hh_HTTPClientBuilder with
    | Some build => build name = Ok (mkClient (cl_Timeout c) base, url)
    | None => let d := default DefaultCommonDownstreamData cfg in
        cl_Timeout c = cdd_ClientTimeout d ∧ url = cdd_ServiceURL d ∧
        ∃ t, base = TransportDefault t ∧ MakeTLSConfig m (tr_ClientTLS (cdd_ClientTransport d)) = Ok (ht_TLSClientConfig t)
    end.
Proof.
  unfold BuildDownstreamHTTPClient. intros ([c0 url0]&Hc&[= <- <-])%res_bind_Ok.
  exists (cl_Transport c0). cbn -[DefaultCommonDownstreamData]. split; [done|].
  destruct (hooks ≫= hh_HTTPClientBuilder) as [build|]; [by destruct c0|].
  apply res_bind_Ok in Hc as (hc&Hhc&[= <- <-]). apply DefaultHTTPClient_Ok in Hhc as [Ht Htls].
  cbn -[DefaultCommonDownstreamData] in *. split_and!; [done|by destruct cfg|by eexists].
Qed.

(** A client from the application with no transport, which [net/http] takes for
    the default one, does not work: the logging round tripper is put around the
    nil transport, and every request panics. *)
Theorem nil_transport_panics `{Crypto} {S} `{!HasMonitors S} (m : Machine) up pe name build url timeout cfg
    http_RoundTrip app_RoundTrip hook_RoundTrip req (s : S) :
  build name = Ok (mkClient timeout TransportNil, url) →
  ∃ c, BuildDownstreamHTTPClient m up pe name (Some (mkHTTPHooks (Some build) false)) cfg = Ok (c, url) ∧
    (RoundTrip http_RoundTrip app_RoundTrip hook_RoundTrip (cl_Transport c) req s).2 = Panic nil_dereference.
Proof.
  intros Hb. eexists. unfold BuildDownstreamHTTPClient. cbn. rewrite Hb. cbn. split; [done|]. by cbn.
Qed.

(** The default timeout of a downstream client is not one its own validation tag
    accepts. *)
Theorem default_ClientTimeout_invalid :
  timeoutValidatorFunc ClientTimeout_tag (Some (cdd_ClientTimeout DefaultCommonDownstreamData)) = false.
Proof. vm_compute. reflexivity. Qed.

Lemma drop_quotes_quoted s : drop_quotes s = s → drop_quotes (quote +:+ s +:+ quote) = s.
Proof.
  intros Hs. cbn. enough (∀ u, drop_quotes (u +:+ quote) = drop_quotes u) as -> by done.
  clear. induction u as [|c u IH]; [done|]. cbn. by rewrite IH.
Qed.

(** A time that is printed in JSON is read back as what its layout keeps of it, which
    is whatever [time.Parse] makes of the text that [Format] gives. *)
Lemma JSONTime_roundtrip {T} (time_Parse : string → string → error + T) (Format : string → T → string) t t' :
  drop_quotes (Format json_layout t) = Format json_layout t → time_Parse json_layout (Format json_layout t) = inr t' →
  JSONTime_UnmarshalJSON time_Parse (JSONTime_MarshalJSON (T := T) Format t) = inr t'.
Proof.
  intros Hq Hp. unfold JSONTime_UnmarshalJSON, parse_two, JSONTime_MarshalJSON.
  rewrite (drop_quotes_quoted _ Hq). by rewrite Hp.
Qed.

(** A time in JSON is read in the layout with milliseconds only: the fallback to
    RFC 3339 is tried on the text with its quotes, so it never reads a JSON string. *)
Theorem JSONTime_UnmarshalJSON_fallback {T} (time_Parse : string → string → error + T) s :
  (∀ t, ∃ err, time_Parse RFC3339 (String "034"%char t) = inl err) →
  drop_quotes s = s →
  (∃ err, time_Parse json_layout s = inl err) →
  ∃ err, JSONTime_UnmarshalJSON time_Parse (quote +:+ s +:+ quote) = inl err.
Proof.
  intros Hq Hs [err Hjson]. unfold JSONTime_UnmarshalJSON, parse_two.
  rewrite (drop_quotes_quoted s Hs) Hjson. apply Hq.
Qed.

(** The query is not looked at. *)
Theorem GetQueryParamForTime_ignores_query {T} (time_Parse : string → string → error + T) query query' key :
  GetQueryParamForTime time_Parse query key = GetQueryParamForTime time_Parse query' key.
Proof. reflexivity. Qed.

(** An optional parameter is absent exactly if its text is empty; an integer is
    read exactly if it is a number in base ten that fits in 64 bits, a boolean
    exactly if it is true or false in any case, and anything else is an internal
    error. *)
Theorem optional_params_spec ctx input :
  (StringToIntPtr ctx input = Ok None ↔ input = "") ∧
  (∀ n, StringToIntPtr ctx input = Ok (Some n) ↔ input ≠ "" ∧ parse_decimal input = Some n ∧ in_int64 n) ∧
  (StringToBoolPtr ctx input = Ok None ↔ input = "") ∧
  (∀ b : bool, StringToBoolPtr ctx input = Ok (Some b) ↔ input ≠ "" ∧ EqualFold input (if b then "true" else "false")) ∧
  (∀ s, StringToStringPtr ctx input = Ok (Some s) ↔ input ≠ "" ∧ s = input).
Proof.
  assert (∀ n, Atoi input = Some n ↔ parse_decimal input = Some n ∧ in_int64 n) as HA.
  { intros n. unfold Atoi, in_int64, minInt64, maxInt64. destruct (parse_decimal input) as [k|]; cbn; [|naive_solver].
    case_bool_decide; split; [by intros [= ->]|by intros [[= ->] _]|done|intros [[= ->] ?]; lia]. }
  unfold StringToIntPtr, StringToBoolPtr, StringToStringPtr. split_and!.
  - case_bool_decide; [done|]. by destruct (Atoi input).
  - intros n. case_bool_decide; [naive_solver|]. rewrite -HA. destruct (Atoi input); naive_solver.
  - case_bool_decide; [done|]. by destruct (EqualFold input "true"), (EqualFold input "false").
  - intros b. case_bool_decide; [naive_solver|].
    destruct (EqualFold input "true") eqn:Et.
    + destruct b; [naive_solver|]. split; [done|]. intros [_ Hf]. exfalso.
      apply Is_true_true in Hf. unfold EqualFold in *. apply bool_decide_eq_true in Et, Hf.
      rewrite Et in Hf. done.
    + destruct b; [split; [by case_match|intros [_ Hf]; by rewrite Et in Hf]|].
      destruct (EqualFold input "false"); naive_solver.
  - intros s. case_bool_decide; naive_solver.
Qed.

(** ** Clients *)
Module DownstreamExample.
#[local] Existing Instance TlsExample.crypto.
Definition cfg : CommonDownstreamData :=
  mkCommonDownstreamData "http://backend" (cdd_ClientTransport DefaultCommonDownstreamData) Second ∅.
Definition made : res (client * string) :=
  BuildDownstreamHTTPClient TlsExample.machine (λ s, inr s) (λ _, inr None) "backend" None (Some cfg).
Definition c : client := match made with Ok (c, _) => c | _ => mkClient 0 TransportNil end.
Lemma made_Ok : made = Ok (c, "http://backend").
Proof. reflexivity. Defined.
(** A parser that knows one time in each layout. *)
Definition time_Parse (layout s : string) : error + Z :=
  if bool_decide (layout = RFC3339 ∧ s = "2012-11-01T22:08:41+00:00") then inr 1351807721%Z
  else inl (ErrText "cannot parse").
End DownstreamExample.
#[local] Existing Instance TlsExample.crypto.
#[local] Existing Instance RestLibExample.monitors_only.

Lemma BuildDownstreamHTTPClient_spec_witness :
  cl_Timeout DownstreamExample.c = Second ∧
  ∃ base, cl_Transport DownstreamExample.c = TransportLogging "backend" base.
Proof.
  destruct (BuildDownstreamHTTPClient_spec TlsExample.machine (λ s, inr s) (λ _, inr None) "backend" None
    (Some DownstreamExample.cfg) DownstreamExample.c "http://backend" DownstreamExample.made_Ok)
    as (base&E&H&_&_).
  split; [exact H|]. exists base. exact E.
Defined.

Lemma nil_transport_panics_witness :
  ∃ c, (RoundTrip (λ _ _ s, (s, Panic nil_dereference)) (λ _ _ s, (s, Panic nil_dereference)) (λ _ _ r, r)
    (cl_Transport c) (mkRequest Background "GET" "/" ∅ "") (∅ : gmap loc monitor)).2
    = Panic nil_dereference.
Proof.
  destruct (nil_transport_panics TlsExample.machine (λ s, inr s) (λ _, inr None) "backend"
    (λ _, Ok (mkClient 0 TransportNil, "http://backend")) "http://backend" 0 None
    (λ _ _ s, (s, Panic nil_dereference)) (λ _ _ s, (s, Panic nil_dereference)) (λ _ _ r, r)
    (mkRequest Background "GET" "/" ∅ "") (∅ : gmap loc monitor) eq_refl) as (c&_&H).
  exists c. exact H.
Defined.

Lemma JSONTime_UnmarshalJSON_fallback_witness :
  DownstreamExample.time_Parse RFC3339 "2012-11-01T22:08:41+00:00" = inr 1351807721%Z ∧
  ∃ err, JSONTime_UnmarshalJSON DownstreamExample.time_Parse
    (quote +:+ "2012-11-01T22:08:41+00:00" +:+ quote) = inl err.
Proof.
  split; [reflexivity|].
  apply (JSONTime_UnmarshalJSON_fallback DownstreamExample.time_Parse "2012-11-01T22:08:41+00:00").
  - intros t. eexists. unfold DownstreamExample.time_Parse. rewrite bool_decide_false; [by intros [_ ?]|reflexivity].
  - reflexivity.
  - eexists. reflexivity.
Defined.
