(* ===== verification/HeaderChecks.v ===== *)
(** * The header checks of the end-to-end tests: src/testutil/e2e/utils.go

    Which headers a test accepts. The order in which Go walks a map is a parameter;
    package strings folds case by Unicode's tables, which are a parameter too. *)

From S2P Require Export Http.

Section header_checks.
Context (range_strings : gmap string string → list (string * string))
  (range_header : Header → list (string * list string))
  (EqualFold : string → string → bool).
(** The variable [IgnoreHeaders], which a test may set. *)
Context (IgnoreHeaders : list string).

Definition errDefault : error := ErrText "".

Definition makeHeader (vals : gmap string string) : Header :=
  foldl (λ head kv, header_add head kv.1 kv.2) ∅ (range_strings vals).

(** The empty string when the values are the same. *)
Definition equalFold (key : string) (actualVal expectedVal : list string) : string :=
  let actualStr := Join actualVal ", " in
  let expectedStr := Join expectedVal ", " in
  if negb (EqualFold expectedStr actualStr)
  then key +:+ ": '" +:+ actualStr +:+ "'!='" +:+ expectedStr +:+ "'"
  else "".

Definition shouldSkipTestingHeader (hdr : string) : bool :=
  range_any (λ v, EqualFold v hdr) IgnoreHeaders.

(** The bodies of the two loops. *)
Definition iterate_actual (expectedHeaders : Header) (acc : list string * list string)
    (kv : string * list string) : list string * list string :=
  let '(extra, valMismatch) := acc in
  let '(k, v) := kv in
  if shouldSkipTestingHeader k then acc
  else
    match expectedHeaders !! k with
    | None => (extra ++ [k], valMismatch)
    | Some expectedVal =>
        let mismatch := equalFold k v expectedVal in
        if negb (bool_decide (mismatch = "")) then (extra, valMismatch ++ [mismatch]) else acc
    end.
Definition iterate_expected (actualHeader : Header) (missing : list string) (kv : string * list string) : list string :=
  let k := kv.1 in
  if shouldSkipTestingHeader k then missing
  else match actualHeader !! k with None => missing ++ [k] | Some _ => missing end.

(** What is extra, what is missing and which values differ; a nil slice is []. *)
Definition iterateHeaders (actualHeader expectedHeaders : Header) : list string * list string * list string :=
  let '(extra, valMismatch) := foldl (iterate_actual expectedHeaders) ([], []) (range_header actualHeader) in
  let missing := foldl (iterate_expected actualHeader) [] (range_header expectedHeaders) in
  (extra, missing, valMismatch).

(** [fmt]'s %v of a slice of strings. *)
Definition print_strings (l : list string) : string := "[" +:+ Join l " " +:+ "]".
Definition newline : string := String "010" "".

Definition verifyHeaders (expected actual : Header) (checkForExtra : list bool) : option error :=
  let '(extra, missing, valMismatch) := iterateHeaders actual expected in
  let errorStr := "" in
  let errorStr :=
    if match checkForExtra, extra with true :: _, _ :: _ => true | _, _ => false end
    then errorStr +:+ "the following header fields were not expected: '" +:+ print_strings extra +:+ "'" +:+ newline
    else errorStr in
  let errorStr :=
    match missing with
    | _ :: _ => errorStr +:+ "the following header fields were expected but missing: '" +:+
                print_strings missing +:+ "'" +:+ newline
    | [] => errorStr
    end in
  let errorStr :=
    match valMismatch with
    | _ :: _ => errorStr +:+ "the following header fields were received with incorrect values: '" +:+
                print_strings valMismatch +:+ "'" +:+ newline
    | [] => errorStr
    end in
  if negb (bool_decide (errorStr = "")) then Some (ErrWrap (errorStr +:+ " ") errDefault) else None.

(** The names among [headers] that are not, or are, in a header. *)
Definition absent (actual : Header) (headers : list string) : list string :=
  foldl (λ missing h, match actual !! CanonicalHeaderKey h with None => missing ++ [h] | Some _ => missing end) [] headers.
Definition present (actual : Header) (headers : list string) : list string :=
  foldl (λ extra h, match actual !! CanonicalHeaderKey h with None => extra | Some _ => extra ++ [h] end) [] headers.
Definition error_of_names (msg : string) (names : list string) : option error :=
  match names with [] => None | _ => Some (ErrText (msg +:+ print_strings names)) end.

Definition expectHeadersExistImp (headers : list string) (actual : Header) : option error :=
  error_of_names "Expected headers were missing: " (absent actual headers).
Definition expectHeadersDoNotExistImp (headers : list string) (actual : Header) : option error :=
  error_of_names "Headers were expected to be missing: " (present actual headers).

(** The keys of the map [m] are the canonical names. *)
Definition canonical_names (headers : list string) : gset string :=
  list_to_set (map CanonicalHeaderKey headers).
Definition expectHeadersExistExactlyImp (headers : list string) (actual : Header) : option error * option error :=
  let m := canonical_names headers in
  let missing := absent actual headers in
  let extra := foldl (λ extra kv, if bool_decide (kv.1 ∈ m) then extra else extra ++ [kv.1]) [] (range_header actual) in
  (error_of_names "Expected headers were missing: " missing,
   error_of_names "Extra headers were found: " extra).
End header_checks.

(** ** The loops collect what a filter keeps *)

Lemma foldl_collect {A} (p : A → bool) (g : A → string) (l : list A) acc :
  foldl (λ acc x, if p x then acc ++ [g x] else acc) acc l = acc ++ (g <$> filter (λ x, p x = true) l).
Proof.
  revert acc. induction l as [|x l IH]; intros acc; [by rewrite app_nil_r|].
  rewrite filter_cons. cbn [foldl]. rewrite IH. destruct (p x); cbn; [by rewrite -app_assoc|done].
Qed.

Lemma foldl_ext_fun {A B} (f g : A → B → A) l a : (∀ a b, f a b = g a b) → foldl f a l = foldl g a l.
Proof. intros H. revert a. induction l as [|x l IH]; intros a; cbn; [done|]. by rewrite H IH. Qed.

Lemma collect_nil {A} (p : A → bool) (g : A → string) l :
  g <$> filter (λ x, p x = true) l = [] ↔ ∀ x, x ∈ l → p x = false.
Proof.
  trans (filter (λ x, p x = true) l = []); [by destruct (filter _ l)|].
  rewrite filter_is_nil list.Forall_forall. by setoid_rewrite not_true_iff_false.
Qed.

Lemma error_of_names_None msg l : error_of_names msg l = None ↔ l = [].
Proof. by destruct l. Qed.

Lemma absent_nil actual l : absent actual l = [] ↔ ∀ h, h ∈ l → is_Some (actual !! CanonicalHeaderKey h).
Proof.
  unfold absent. trans (foldl (λ acc h, if bool_decide (actual !! CanonicalHeaderKey h = None)
                                       then acc ++ [id h] else acc) [] l = []).
  { f_equiv. apply foldl_ext_fun. intros acc h. by destruct (actual !! CanonicalHeaderKey h). }
  rewrite foldl_collect collect_nil. setoid_rewrite bool_decide_eq_false.
  by setoid_rewrite not_eq_None_Some.
Qed.

Lemma present_nil actual l : present actual l = [] ↔ ∀ h, h ∈ l → actual !! CanonicalHeaderKey h = None.
Proof.
  unfold present. trans (foldl (λ acc h, if bool_decide (is_Some (actual !! CanonicalHeaderKey h))
                                        then acc ++ [id h] else acc) [] l = []).
  { f_equiv. apply foldl_ext_fun. intros acc h. by destruct (actual !! CanonicalHeaderKey h). }
  rewrite foldl_collect collect_nil. setoid_rewrite bool_decide_eq_false.
  by setoid_rewrite eq_None_not_Some.
Qed.

(** ** What a test accepts *)
Section accepted.
Context (range_header : Header → list (string * list string)) (EqualFold : string → string → bool)
  (IgnoreHeaders : list string).
Hypothesis range_header_perm : ∀ h, range_header h ≡ₚ map_to_list h.
#[local] Set Default Proof Using "All".

Notation skip := (shouldSkipTestingHeader EqualFold IgnoreHeaders).

Lemma elem_of_range (h : Header) k v : (k, v) ∈ range_header h ↔ h !! k = Some v.
Proof. by rewrite range_header_perm elem_of_map_to_list. Qed.

Lemma append_not_empty s c t : s +:+ String c t ≠ "".
Proof. by destruct s. Qed.

Lemma equalFold_empty k v v' : equalFold EqualFold k v v' = "" ↔ EqualFold (Join v' ", ") (Join v ", ") = true.
Proof.
  unfold equalFold. destruct (EqualFold _ _); [done|]. split; [|done].
  intros H. by apply append_not_empty in H.
Qed.

(** The loop over the actual header, as one loop for each of its two results. *)
Definition mismatch (expected : Header) (kv : string * list string) : string :=
  equalFold EqualFold kv.1 kv.2 (default [] (expected !! kv.1)).
Definition differs (expected : Header) (kv : string * list string) : bool :=
  negb (skip kv.1) && bool_decide (expected !! kv.1 ≠ None) && negb (bool_decide (mismatch expected kv = "")).

Lemma iterate_actual_split expected l acc :
  foldl (iterate_actual EqualFold IgnoreHeaders expected) acc l =
  (foldl (λ e kv, if negb (skip kv.1) && bool_decide (expected !! kv.1 = None) then e ++ [kv.1] else e) acc.1 l,
   foldl (λ m kv, if differs expected kv then m ++ [mismatch expected kv] else m) acc.2 l).
Proof.
  revert acc. induction l as [|[k v] l IH]; intros [e m]; [done|].
  cbn [foldl]. rewrite IH. unfold iterate_actual, differs, mismatch. cbn [fst snd].
  destruct (skip k); [done|]. destruct (expected !! k) as [v'|]; [|done]. unfold default, id.
  rewrite (bool_decide_false (Some v' = None)) // (bool_decide_true (Some v' ≠ None)) //. cbn [negb andb].
  destruct (decide (equalFold EqualFold k v v' = "")).
  - by rewrite !(bool_decide_true (equalFold EqualFold k v v' = "")).
  - by rewrite !(bool_decide_false (equalFold EqualFold k v v' = "")).
Qed.

Lemma iterate_expected_fold actual l acc :
  foldl (iterate_expected EqualFold IgnoreHeaders actual) acc l =
  foldl (λ acc kv, if negb (skip kv.1) && bool_decide (actual !! kv.1 = None) then acc ++ [kv.1] else acc) acc l.
Proof.
  apply foldl_ext_fun. intros e kv. unfold iterate_expected.
  by destruct (skip kv.1), (actual !! kv.1).
Qed.

Lemma append_empty s t : s +:+ t = "" ↔ s = "" ∧ t = "".
Proof. destruct s; naive_solver. Qed.

Lemma verifyHeaders_None expected actual checkForExtra :
  let '(extra, missing, valMismatch) :=
    iterateHeaders range_header EqualFold IgnoreHeaders actual expected in
  verifyHeaders range_header EqualFold IgnoreHeaders expected actual checkForExtra = None ↔
  (head checkForExtra = Some true → extra = []) ∧ missing = [] ∧ valMismatch = [].
Proof.
  unfold verifyHeaders. destruct (iterateHeaders _ _ _ _ _) as [[extra missing] valMismatch].
  assert (∀ s, (if negb (bool_decide (s = "")) then Some (ErrWrap (s +:+ " ") errDefault) else None) = None ↔ s = "") as ->.
  { intros s. by destruct (decide (s = "")) as [->|?]; [|rewrite bool_decide_false]. }
  destruct checkForExtra as [|[] ?], extra, missing, valMismatch; rewrite /= ?append_empty; naive_solver.
Qed.

Lemma all_there (h h' : Header) :
  (∀ kv, kv ∈ range_header h → negb (skip kv.1) && bool_decide (h' !! kv.1 = None) = false) ↔
  ∀ k, is_Some (h !! k) → skip k = false → is_Some (h' !! k).
Proof.
  split; intros H.
  - intros k [v Hk%elem_of_range] Hskip. specialize (H _ Hk). cbn in H. rewrite Hskip in H.
    apply bool_decide_eq_false in H. by apply not_eq_None_Some.
  - intros [k v] Hk%elem_of_range. cbn. destruct (skip k) eqn:Hskip; [done|].
    apply bool_decide_eq_false, not_eq_None_Some. eauto.
Qed.

Lemma all_same expected actual :
  (∀ kv, kv ∈ range_header actual → differs expected kv = false) ↔
  ∀ k v v', actual !! k = Some v' → expected !! k = Some v → skip k = false →
    EqualFold (Join v ", ") (Join v' ", ") = true.
Proof.
  unfold differs, mismatch. split; intros H.
  - intros k v v' Hk%elem_of_range Hv Hskip. specialize (H _ Hk). cbn in H.
    rewrite Hskip Hv (bool_decide_true (Some v ≠ None)) // in H. cbn in H.
    by apply negb_false_iff, bool_decide_eq_true, equalFold_empty in H.
  - intros [k v'] Hk%elem_of_range. cbn. destruct (skip k) eqn:Hskip; [done|].
    destruct (expected !! k) as [v|] eqn:Hv; [|by destruct (bool_decide_reflect (None (A := list string) ≠ None))].
    rewrite (bool_decide_true (Some v ≠ None)) //. apply negb_false_iff, bool_decide_eq_true, equalFold_empty.
    by eapply H.
Qed.

(** A header passes the check iff every expected header that is not ignored is
    there and has the expected values up to case, joined with commas, and, if asked
    to, no other header is. The order of the maps plays no part. *)
Theorem verifyHeaders_spec expected actual checkForExtra :
  verifyHeaders range_header EqualFold IgnoreHeaders expected actual checkForExtra = None ↔
  (∀ k v, expected !! k = Some v → skip k = false →
     ∃ v', actual !! k = Some v' ∧ EqualFold (Join v ", ") (Join v' ", ") = true) ∧
  (head checkForExtra = Some true → ∀ k, is_Some (actual !! k) → skip k = false → is_Some (expected !! k)).
Proof.
  pose proof (verifyHeaders_None expected actual checkForExtra) as Hnone.
  unfold iterateHeaders in Hnone. rewrite iterate_actual_split iterate_expected_fold in Hnone.
  rewrite {}Hnone !foldl_collect !collect_nil !all_there all_same. split.
  - intros (Hextra & Hmissing & Hsame). split; [|done]. intros k v Hv Hskip.
    destruct (Hmissing k) as [v' Hv']; [by eauto|done|]. exists v'. eauto.
  - intros [Hin Hextra]. split; [done|]. split.
    + intros k [v Hv] Hskip. destruct (Hin k v Hv Hskip) as (v'&?&_). by exists v'.
    + intros k v v' Hv' Hv Hskip. destruct (Hin k v Hv Hskip) as (v''&?&?). congruence.
Qed.

Lemma extra_nil headers (actual : Header) :
  foldl (λ extra kv, if bool_decide (kv.1 ∈ canonical_names headers) then extra else extra ++ [kv.1])
    [] (range_header actual) = [] ↔
  ∀ k, is_Some (actual !! k) → k ∈ canonical_names headers.
Proof.
  trans (foldl (λ extra kv, if negb (bool_decide (kv.1 ∈ canonical_names headers))
                            then extra ++ [kv.1] else extra) [] (range_header actual) = []).
  { f_equiv. apply foldl_ext_fun. intros e kv.
    by destruct (decide (kv.1 ∈ canonical_names headers)); [rewrite !bool_decide_true|rewrite !bool_decide_false]. }
  rewrite foldl_collect collect_nil. setoid_rewrite negb_false_iff. setoid_rewrite bool_decide_eq_true.
  split; [intros H k [v Hk%elem_of_range]; by apply (H (k, v))|].
  intros H [k v] Hk%elem_of_range. eauto.
Qed.

(** The exact check wants the canonical forms of the names it is given to be the
    names of the header: both errors are nil just then. *)
Theorem expectHeadersExistExactly_spec headers actual :
  expectHeadersExistExactlyImp range_header headers actual = (None, None) ↔
  dom actual = list_to_set (map CanonicalHeaderKey headers).
Proof.
  unfold expectHeadersExistExactlyImp. rewrite pair_equal_spec !error_of_names_None absent_nil extra_nil.
  change (list_to_set (map CanonicalHeaderKey headers)) with (canonical_names headers).
  rewrite set_eq. setoid_rewrite elem_of_dom. unfold canonical_names. setoid_rewrite elem_of_list_to_set.
  setoid_rewrite list_elem_of_fmap. split.
  - intros [Hin Hextra] k. split; [by apply Hextra|]. intros (h&->&?). by apply Hin.
  - intros Hdom. split; [|by intros k ?%Hdom]. intros h Hh. apply Hdom. eauto.
Qed.
End accepted.
