(* ===== verification/E2E.v ===== *)
(** * End-to-end tests: src/testutil/e2e/

    The mock downstream servers of a test and the expectations they hold, the tests
    an expectation is made of, and the tester that gives a service its mock servers.
    A failed assertion is an event of the test; an assertion of testify that compares
    bodies is a parameter, as is the router of chi. *)

From S2P Require Export HeaderChecks Downstream.

(** What a test reports to the [syslgo.TestingT], a [*testing.T]: [Log], [Errorf],
    with the name of what failed in place of testify's message, and [Fatal]. *)
Inductive t_event :=
| TLog (msg : string)
| TErrorf (what : string)
| TFatal (v : panicval).

(** [FailNow] and [Fatal] end the goroutine, running its deferred functions. *)
Inductive control := Returned | Goexit | Panicked (p : panicval).

(** A request's body: [net/http] gives an error when it is read after [Close], except
    for [http.NoBody], which is always at its end. *)
Inductive body := BodyNil | NoBody | BodyOpen (rest : string) | BodyClosed.
Definition ErrBodyReadAfterClose : error := ErrText "http: invalid Read on closed Body".

Record tstate := mk_tstate { ts_log : list t_event; ts_body : body; ts_rw : RW }.
Definition ts_event (e : t_event) (st : tstate) : tstate :=
  mk_tstate (ts_log st ++ [e]) (ts_body st) (ts_rw st).
Definition ts_set_body (b : body) (st : tstate) : tstate := mk_tstate (ts_log st) b (ts_rw st).
Definition ts_set_rw (w : RW) (st : tstate) : tstate := mk_tstate (ts_log st) (ts_body st) w.

(** [type Tests]. *)
Definition Tests := Request → tstate → tstate * control.

Definition assert_that (b : bool) (what : string) (st : tstate) : tstate :=
  if b then st else ts_event (TErrorf what) st.
Definition assert_NoError (e : option error) (what : string) (st : tstate) : tstate :=
  assert_that (bool_decide (e = None)) what st.

(** [GetResponseBodyAndClose]: [None] is a nil slice; the bytes of a buffer that was
    read into are not nil, even when there are none. *)
Definition GetResponseBodyAndClose (b : body) : body * res (option string) :=
  match b with
  | BodyNil => (BodyNil, Ok None)
  | NoBody => (NoBody, Ok (Some ""))
  | BodyOpen rest => (BodyClosed, Ok (Some rest))
  | BodyClosed => (BodyClosed, Panic (PanicError ErrBodyReadAfterClose))
  end.
Definition close_body_of (b : body) : body := match b with BodyNil => BodyNil | NoBody => NoBody | _ => BodyClosed end.

Section tests.
Context (range_strings : gmap string string → list (string * string))
  (range_header : Header → list (string * list string))
  (EqualFold : string → string → bool) (IgnoreHeaders : list string).
(** testify's comparisons of byte slices and of JSON documents. *)
Context (assert_Equal_bytes : option string → option string → bool) (assert_JSONEq : string → string → bool).

(** ** tests.go; [loc] is what [GetTestLine] found when the test was made *)

Definition ExpectHeaders (loc : string) (headers : gmap string string) (checkForExtra : list bool) : Tests :=
  let hdrs := makeHeader range_strings headers in
  λ r st, (assert_NoError (verifyHeaders range_header EqualFold IgnoreHeaders hdrs (req_Header r) checkForExtra) loc st,
           Returned).
Definition ExpectHeadersExist (loc : string) (headers : list string) : Tests := λ r st,
  (assert_NoError (expectHeadersExistImp headers (req_Header r)) loc st, Returned).
Definition ExpectHeadersDoNotExist (loc : string) (headers : list string) : Tests := λ r st,
  (assert_NoError (expectHeadersDoNotExistImp headers (req_Header r)) loc st, Returned).
Definition ExpectHeadersExistExactly (loc : string) (headers : list string) : Tests := λ r st,
  let '(missingError, extraError) := expectHeadersExistExactlyImp range_header headers (req_Header r) in
  (assert_NoError extraError loc (assert_NoError missingError loc st), Returned).
Definition ExpectURLParam (URLParam : Request → string → string) (loc key expected : string) : Tests := λ r st,
  (assert_that (bool_decide (expected = GetURLParam (URLParam r) key)) loc st, Returned).
Definition ExpectURLParamForInt (URLParam : Request → string → string) (loc key : string) (expected : Z) : Tests := λ r st,
  (assert_that (bool_decide (expected = GetURLParamForInt (URLParam r) key)) loc st, Returned).

Definition with_body (f : option string → tstate → tstate) : Tests := λ _ st,
  let '(b, got) := GetResponseBodyAndClose (ts_body st) in
  let st := ts_set_body b st in
  match got with
  | Ok bytes => (f bytes st, Returned)
  | Err e => (st, Panicked (PanicError e))
  | Panic p => (st, Panicked p)
  end.
Definition ExpectBody (loc : string) (expected : option string) : Tests :=
  with_body (λ body, assert_that (assert_Equal_bytes expected body) loc).
Definition ExpectJSONBody (loc : string) (expected : option string) : Tests :=
  with_body (λ body, assert_that (assert_JSONEq (default "" expected) (default "" body)) loc).

Definition Response (code : Z) (headers : gmap string string) (body : option string) : Tests := λ _ st,
  let w := foldl (λ w kv, rw_set_header kv.1 kv.2 w) (ts_rw st) (range_strings headers) in
  (ts_set_rw (rw_write (default "" body) (rw_write_header code w)) st, Returned).

(** ** rest_ordered_handlers.go *)

Definition failedTestStatusCode : Z := 599.

(** The queue of handlers, which the mutex guards. *)
Definition restOrderedHandlers := list Tests.
Definition add (h : Tests) (o : restOrderedHandlers) : restOrderedHandlers := o ++ [h].

Definition unexpected_call : Tests := λ _ st,
  let st := ts_event (TLog "Unexpected downstream call") st in
  (ts_set_rw (rw_write "TEST FAILED" (rw_write_header failedTestStatusCode (ts_rw st))) st, Returned).

(** A handler that does not return leaves the queue as it is. *)
Definition ServeHTTP (o : restOrderedHandlers) : Request → tstate → restOrderedHandlers * tstate * control := λ r st,
  match o with
  | [] => let '(st, c) := unexpected_call r st in (o, st, c)
  | h :: o' => let '(st, c) := h r st in (match c with Returned => o' | _ => o end, st, c)
  end.

Definition un_hit (hostname methodAndPath : string) : string :=
  "Endpoint '" +:+ hostname +:+ " -> " +:+ methodAndPath +:+ "' has un-hit expected calls".
Definition assertCompleted (o : restOrderedHandlers) (hostname methodAndPath : string) (log : list t_event) : list t_event :=
  match o with [] => log | _ => log ++ [TErrorf (un_hit hostname methodAndPath)] end.

(** [for _, testFn := range tests { testFn(o.t, w, r) }]. *)
Fixpoint run_tests (tests : list Tests) : Tests := λ r st,
  match tests with
  | [] => (st, Returned)
  | testFn :: tests =>
      match testFn r st with (st, Returned) => run_tests tests r st | stop => stop end
  end.

(** The handler [Expect] adds, with its deferred function. *)
Definition expectation (tests : list Tests) : Tests := λ r st,
  let '(st, c) := run_tests tests r st in
  let st := ts_set_body (close_body_of (ts_body st)) st in
  match c with
  | Panicked p => match recover p with Some p => (ts_event (TFatal p) st, Goexit) | None => (st, Returned) end
  | _ => (st, c)
  end.
Definition Expect (tests : list Tests) (o : restOrderedHandlers) (log : list t_event) :
    restOrderedHandlers * list t_event * control :=
  match tests with
  | [] => (o, log ++ [TErrorf "No tests supplied"], Goexit)
  | _ => (add (expectation tests) o, log, Returned)
  end.

Definition ContentTypeKey : string := "Content-Type".
Definition simple_tests (loc : string) (expectedHeaders : gmap string string) (expectedBody : option string)
    (returnCode : Z) (returnHeaders : gmap string string) (returnBody : option string) (extraTests : list Tests) : list Tests :=
  let body_test :=
    match expectedHeaders !! ContentTypeKey with
    | Some ct =>
        if Contains ct "application/json" && negb (bool_decide (String.length (default "" expectedBody) = 0%nat))
        then ExpectJSONBody loc expectedBody
        else ExpectBody loc expectedBody
    | None => ExpectBody loc expectedBody
    end in
  [ExpectHeaders loc expectedHeaders []] ++ [body_test] ++ extraTests ++ [Response returnCode returnHeaders returnBody].
Definition ExpectSimple loc expectedHeaders expectedBody returnCode returnHeaders returnBody extraTests :=
  Expect (simple_tests loc expectedHeaders expectedBody returnCode returnHeaders returnBody extraTests).
End tests.

(** ** The calls an endpoint serves

    The server gives each request a body of its own, [http.NoBody] when the request
    has none, and a fresh writer. *)
Definition body_of (r : Request) : body :=
  if bool_decide (req_Body r = "") then NoBody else BodyOpen (req_Body r).
Definition incoming (log : list t_event) (r : Request) : tstate :=
  mk_tstate log (body_of r) rw_empty.

Fixpoint serve_calls (o : restOrderedHandlers) (log : list t_event) (rs : list Request) :
    restOrderedHandlers * list (tstate * control) :=
  match rs with
  | [] => (o, [])
  | r :: rs =>
      let '(o, st, c) := ServeHTTP o r (incoming log r) in
      let '(o, outs) := serve_calls o (ts_log st) rs in
      (o, (st, c) :: outs)
  end.

Definition is_returned (out : tstate * control) : bool := match out.2 with Returned => true | _ => false end.
(** How many of the calls returned. *)
Definition completed (outs : list (tstate * control)) : nat := length (filter (λ out, is_returned out = true) outs).
(** What the test had reported before the last of the calls. *)
Definition log_after (log : list t_event) (outs : list (tstate * control)) : list t_event :=
  match list.last outs with Some out => ts_log out.1 | None => log end.

Lemma ServeHTTP_spec o r st :
  let '(o', st', c) := ServeHTTP o r st in
  (st', c) = default unexpected_call (o !! 0%nat) r st ∧
  o' = drop (if is_returned (st', c) then 1 else 0) o.
Proof.
  destruct o as [|h o]; [done|]. cbn. destruct (h r st) as [st' []]; by rewrite /= ?drop_0.
Qed.

Lemma completed_cons out outs :
  completed (out :: outs) = ((if is_returned out then 1 else 0) + completed outs)%nat.
Proof. unfold completed. rewrite filter_cons. by destruct (is_returned out). Qed.

Lemma log_after_cons log out outs :
  log_after log (out :: outs) = log_after (ts_log out.1) outs.
Proof. unfold log_after. rewrite last_cons. by destruct (list.last outs). Qed.

Lemma completed_take_S outs i out :
  outs !! i = Some out → completed (take (S i) outs) = (completed (take i outs) + if is_returned out then 1 else 0)%nat.
Proof.
  intros Hi. rewrite (take_S_r _ _ _ Hi). unfold completed. rewrite list.filter_app length_app filter_cons.
  by destruct (is_returned out).
Qed.

(** Whether an expectation is over, once its tests have come to [c]: if they return, and
    also if they panic with what [recover] does not see. *)
Definition is_over (c : control) : bool :=
  match c with Returned => true | Goexit => false | Panicked p => bool_decide (recover p = None) end.

Lemma expectation_returned tests r st : is_returned (expectation tests r st) = is_over (run_tests tests r st).2.
Proof. unfold expectation. destruct (run_tests tests r st) as [st' [| |p]]; [done..|]. cbn. by destruct (recover p). Qed.

(** Tests that return whatever they find, as those that only assert do. *)
Lemma run_tests_return tests r st : (∀ t st, t ∈ tests → (t r st).2 = Returned) → (run_tests tests r st).2 = Returned.
Proof.
  revert st. induction tests as [|t tests IH]; intros st Ht; [done|]. cbn.
  pose proof (Ht t st ltac:(by left)) as Hret. destruct (t r st) as [st' c]. cbn in Hret. subst c.
  apply IH. intros t' st0 Hin. apply Ht. by right.
Qed.

(** C38. The calls to an endpoint are served in order: each is answered by the first
    expectation that no earlier call has completed, and with status 599 when there is
    none. An expectation is completed, and gone, when its tests return, whether or not
    their assertions failed; where they end the goroutine, or panic, it stays at the
    head. What is left at the end are the expectations no call has completed, and
    closing the server reports a failure iff there are any. *)
Theorem endpoint_serves_in_order hs log rs :
  let '(o, outs) := serve_calls hs log rs in
  length outs = length rs ∧
  (∀ i r out, rs !! i = Some r → outs !! i = Some out →
     let st := incoming (log_after log (take i outs)) r in
     out = default unexpected_call (hs !! completed (take i outs)) r st ∧
     ∀ tests, hs !! completed (take i outs) = Some (expectation tests) →
       completed (take (S i) outs) = (completed (take i outs) + if is_over (run_tests tests r st).2 then 1 else 0)%nat ∧
       ((∀ t st, t ∈ tests → (t r st).2 = Returned) → completed (take (S i) outs) = S (completed (take i outs)))) ∧
  o = drop (completed outs) hs ∧
  ∀ host endpoint log', assertCompleted o host endpoint log' ≠ log' ↔ (completed outs < length hs)%nat.
Proof.
  assert (∀ hs log, let '(o, outs) := serve_calls hs log rs in
    length outs = length rs ∧
    (∀ i r out, rs !! i = Some r → outs !! i = Some out →
       out = default unexpected_call (hs !! completed (take i outs)) r (incoming (log_after log (take i outs)) r)) ∧
    o = drop (completed outs) hs) as H.
  { clear. induction rs as [|r rs IH]; intros hs log; [done|]. cbn [serve_calls].
    pose proof (ServeHTTP_spec hs r (incoming log r)) as Hr.
    destruct (ServeHTTP hs r (incoming log r)) as [[o st] c]. destruct Hr as [Hout Ho].
    specialize (IH o (ts_log st)). destruct (serve_calls o (ts_log st) rs) as [o' outs].
    destruct IH as (Hlen&Hcalls&Hleft). split; [by rewrite /= Hlen|]. split.
    - intros [|i] r' out Hr Hi; simplify_eq/=; [done|].
      rewrite completed_cons log_after_cons /= -lookup_drop. by apply Hcalls.
    - by rewrite completed_cons Hleft Ho drop_drop. }
  specialize (H hs log). destruct (serve_calls hs log rs) as [o outs]. destruct H as (?&Hcalls&Hleft).
  split; [done|]. split.
  { intros i r out Hr Ho. pose proof (Hcalls i r out Hr Ho) as Hout. split; [done|]. intros tests Ht.
    rewrite Ht in Hout. cbn in Hout. rewrite (completed_take_S _ _ _ Ho) Hout expectation_returned. split; [done|].
    intros Hret. rewrite run_tests_return //. cbn. lia. }
  split; [done|]. intros host endpoint log'.
  assert (length o = length hs - completed outs)%nat as Ho by (by rewrite Hleft length_drop).
  destruct o as [|h o]; cbn in Ho |- *; [split; [done|lia]|]. split; [lia|]. intros _ Heq.
  apply (f_equal length) in Heq. rewrite length_app /= in Heq. lia.
Qed.

Section simple.
Context (range_strings : gmap string string → list (string * string))
  (range_header : Header → list (string * list string))
  (EqualFold : string → string → bool) (IgnoreHeaders : list string)
  (assert_Equal_bytes : option string → option string → bool) (assert_JSONEq : string → string → bool).

Notation simple := (simple_tests range_strings range_header EqualFold IgnoreHeaders assert_Equal_bytes assert_JSONEq).
Notation check_headers := (verifyHeaders range_header EqualFold IgnoreHeaders).

(** Whether a body is compared as JSON. *)
Definition compares_json (headers : gmap string string) (expected : option string) : bool :=
  match headers !! ContentTypeKey with
  | Some ct => Contains ct "application/json" && negb (bool_decide (String.length (default "" expected) = 0%nat))
  | None => false
  end.
Definition body_matches (headers : gmap string string) (expected : option string) (got : string) : bool :=
  if compares_json headers expected then assert_JSONEq (default "" expected) got
  else assert_Equal_bytes expected (Some got).
Definition set_headers (headers : gmap string string) (h : Header) : Header :=
  foldl (λ h kv, header_set h kv.1 kv.2) h (range_strings headers).

Lemma fold_rw_set_header l w :
  foldl (λ w kv, rw_set_header kv.1 kv.2 w) w l =
  mkRW (foldl (λ h kv, header_set h kv.1 kv.2) (rw_header w) l) (rw_calls w).
Proof. revert w. induction l as [|kv l IH]; intros w; [by destruct w|]. by rewrite /= IH. Qed.

Lemma assert_that_log b what st :
  assert_that b what st = mk_tstate (ts_log st ++ if b then [] else [TErrorf what]) (ts_body st) (ts_rw st).
Proof. destruct st, b; cbn; by rewrite ?app_nil_r. Qed.

Lemma GetResponseBodyAndClose_body_of r :
  GetResponseBodyAndClose (body_of r) = (close_body_of (body_of r), Ok (Some (req_Body r))).
Proof. unfold body_of. by destruct (decide (req_Body r = "")) as [->|?]; [|rewrite bool_decide_false]. Qed.

Lemma body_test_run loc headers expected r st :
  ts_body st = body_of r →
  (match headers !! ContentTypeKey with
   | Some ct =>
       if Contains ct "application/json" && negb (bool_decide (String.length (default "" expected) = 0%nat))
       then ExpectJSONBody assert_JSONEq loc expected
       else ExpectBody assert_Equal_bytes loc expected
   | None => ExpectBody assert_Equal_bytes loc expected
   end) r st =
  (assert_that (body_matches headers expected (req_Body r)) loc (ts_set_body (close_body_of (body_of r)) st), Returned).
Proof.
  intros Hb. unfold body_matches, compares_json.
  destruct (headers !! ContentTypeKey); [destruct (_ && _)|];
    by rewrite /ExpectJSONBody /ExpectBody /with_body Hb GetResponseBodyAndClose_body_of.
Qed.

(** What the tests of [ExpectSimple] do up to the extra ones. *)
Lemma simple_tests_run loc headers expected code rheaders rbody extra r st :
  ts_body st = body_of r →
  run_tests (simple loc headers expected code rheaders rbody extra) r st =
  run_tests (extra ++ [Response range_strings code rheaders rbody]) r
    (assert_that (body_matches headers expected (req_Body r)) loc (ts_set_body (close_body_of (body_of r))
      (assert_NoError (check_headers (makeHeader range_strings headers) (req_Header r) []) loc st))).
Proof.
  intros Hb. unfold simple_tests. cbn [app run_tests ExpectHeaders]. rewrite (body_test_run _ _ _ _ _); [|done].
  unfold assert_NoError. by rewrite assert_that_log.
Qed.

(** An endpoint set up with ExpectSimple answers a request with the status, the
    headers and the body it was given, whatever the request is, and reports a failure
    unless the headers pass the check and the body is the expected one; a further test
    that reads a body that was sent finds it closed, and ends the test with nothing written. *)
Theorem ExpectSimple_answers loc headers expected code rheaders rbody r log :
  let hdrs := set_headers rheaders ∅ in
  let run extra := expectation (simple loc headers expected code rheaders rbody extra) r (incoming log r) in
  (run []).2 = Returned ∧
  ts_rw (run []).1 = mkRW hdrs [CallWriteHeader code hdrs; CallWrite (default "" rbody)] ∧
  (ts_log (run []).1 = log ↔
     check_headers (makeHeader range_strings headers) (req_Header r) [] = None ∧
     body_matches headers expected (req_Body r) = true) ∧
  (req_Body r ≠ "" → ∀ loc' expected', (run [ExpectBody assert_Equal_bytes loc' expected']).2 = Goexit ∧
    ts_rw (run [ExpectBody assert_Equal_bytes loc' expected']).1 = rw_empty).
Proof.
  intros hdrs run.
  assert (run [] = (mk_tstate
    (log ++ (if bool_decide (check_headers (makeHeader range_strings headers) (req_Header r) [] = None) then [] else [TErrorf loc])
         ++ (if body_matches headers expected (req_Body r) then [] else [TErrorf loc]))
    (close_body_of (body_of r)) (mkRW hdrs [CallWriteHeader code hdrs; CallWrite (default "" rbody)]), Returned)) as ->.
  { unfold run, expectation. rewrite (simple_tests_run _ _ _ _ _ _ _ _ (incoming log r) eq_refl).
    rewrite /assert_NoError !assert_that_log /= fold_rw_set_header app_assoc.
    unfold body_of. by destruct (bool_decide _). }
  split; [done|]. split; [done|]. split.
  - cbn [fst ts_log]. rewrite -{2}(app_nil_r log). case_bool_decide; destruct (body_matches _ _ _); naive_solver.
  - intros Hsent loc' expected'. unfold run, expectation.
    rewrite (simple_tests_run _ _ _ _ _ _ _ _ (incoming log r) eq_refl).
    rewrite /assert_NoError !assert_that_log /= /with_body /=.
    by rewrite /body_of (bool_decide_false (req_Body r = "")).
Qed.
End simple.

(** ** tests.go: what is asked of the response of the service *)
Section responses.
Context (range_strings : gmap string string → list (string * string))
  (range_header : Header → list (string * list string))
  (EqualFold : string → string → bool) (IgnoreHeaders : list string).

(** [type ResponseTest], on the header of the response and what the test has reported. *)
Definition ResponseTest := Header → tstate → tstate.

Definition ExpectResponseHeaders (loc : string) (headers : gmap string string) (checkForExtra : list bool) : ResponseTest :=
  let hdrs := makeHeader range_strings headers in
  λ actual, assert_NoError (verifyHeaders range_header EqualFold IgnoreHeaders hdrs actual checkForExtra) loc.
Definition ExpectResponseHeadersExist (loc : string) (headers : list string) : ResponseTest := λ actual,
  assert_NoError (expectHeadersExistImp headers actual) loc.
Definition ExpectResponseHeadersDoNotExist (loc : string) (headers : list string) : ResponseTest := λ actual,
  assert_NoError (expectHeadersDoNotExistImp headers actual) loc.
Definition ExpectResponseHeadersExistExactly (loc : string) (headers : list string) : ResponseTest := λ actual st,
  let '(missingError, extraError) := expectHeadersExistExactlyImp range_header headers actual in
  assert_NoError extraError loc (assert_NoError missingError loc st).
End responses.

(** ** rest_downstream.go and e2e_tester.go

    The servers of [httptest], the queues of the endpoints and what the test has
    reported are shared by all who hold a pointer to them: they are one world. [G] is
    the type of the gRPC servers of the library. *)

Definition DownstreamTimeout : Z := 400 * Millisecond.

Record httptest_Server := mk_httptest_Server { hs_open : bool; hs_client_Timeout : Z }.
Inductive grpc_call := GServe | GStop | GGracefulStop.

Record restDownstream := mk_restDownstream {
  rd_server : nat;                               (* its httptest server *)
  rd_r : list (string * string * loc);           (* the calls of chi's Method *)
  rd_hostname : string;
  rd_handlers : gmap string loc
}.

Section tester.
Context {G : Type}.

Record Tester := mkTester {
  b_restServer : option nat;
  b_restDownstreams : gmap string restDownstream;
  b_restCfgBasePath : string;
  b_grpcServer : option G;
  w_servers : list httptest_Server;
  w_queues : gmap loc restOrderedHandlers;
  w_log : list t_event;
  w_grpc : list (G * grpc_call)
}.

Definition set_downstreams d (b : Tester) : Tester :=
  mkTester (b_restServer b) d (b_restCfgBasePath b) (b_grpcServer b) (w_servers b) (w_queues b) (w_log b) (w_grpc b).
Definition set_rest s base (b : Tester) : Tester :=
  mkTester s (b_restDownstreams b) base (b_grpcServer b) (w_servers b) (w_queues b) (w_log b) (w_grpc b).
Definition set_grpc g (b : Tester) : Tester :=
  mkTester (b_restServer b) (b_restDownstreams b) (b_restCfgBasePath b) g (w_servers b) (w_queues b) (w_log b) (w_grpc b).
Definition set_servers s (b : Tester) : Tester :=
  mkTester (b_restServer b) (b_restDownstreams b) (b_restCfgBasePath b) (b_grpcServer b) s (w_queues b) (w_log b) (w_grpc b).
Definition set_queues q (b : Tester) : Tester :=
  mkTester (b_restServer b) (b_restDownstreams b) (b_restCfgBasePath b) (b_grpcServer b) (w_servers b) q (w_log b) (w_grpc b).
Definition set_log l (b : Tester) : Tester :=
  mkTester (b_restServer b) (b_restDownstreams b) (b_restCfgBasePath b) (b_grpcServer b) (w_servers b) (w_queues b) l (w_grpc b).
Definition call_grpc c (b : Tester) : Tester :=
  match b_grpcServer b with
  | None => b
  | Some g => mkTester (b_restServer b) (b_restDownstreams b) (b_restCfgBasePath b) (b_grpcServer b) (w_servers b)
                (w_queues b) (w_log b) (w_grpc b ++ [(g, c)])
  end.

Definition NewTester : Tester := mkTester None ∅ "" None [] ∅ [] [].

(** [httptest.NewServer] and [Server.Close]. *)
Definition start_server (timeout : Z) (b : Tester) : nat * Tester :=
  (length (w_servers b), set_servers (w_servers b ++ [mk_httptest_Server true timeout]) b).
Definition close_server (i : nat) (b : Tester) : Tester :=
  set_servers (alter (λ s, mk_httptest_Server false (hs_client_Timeout s)) i (w_servers b)) b.

Definition newBackEnd (hostname : string) (b : Tester) : restDownstream * Tester :=
  let '(i, b) := start_server DownstreamTimeout b in
  (mk_restDownstream i [] hostname ∅, b).

(** [be.init], on the map's own downstream; it gives a pointer to the new queue. *)
Definition init (host method path : string) (d : restDownstream) (b : Tester) : loc * Tester :=
  let l := fresh (dom (w_queues b)) in
  let d := mk_restDownstream (rd_server d) (rd_r d ++ [(method, path, l)]) (rd_hostname d)
             (<[method +:+ " " +:+ path := l]> (rd_handlers d)) in
  (l, set_downstreams (<[host := d]> (b_restDownstreams b)) (set_queues (<[l := []]> (w_queues b)) b)).

Definition downstream_not_expected (host : string) : panicval :=
  PanicString ("downstream " +:+ host +:+ " not expected").
Definition NewDownstream (host method path : string) (b : Tester) : res loc * Tester :=
  match b_restDownstreams b !! host with
  | None => (Panic (downstream_not_expected host), b)
  | Some be => let '(l, b) := init host method path be b in (Ok l, b)
  end.

(** The hook for the clients of downstream services: the client and the URL of the
    host's server. *)
Definition HTTPClientGetter (host : string) (b : Tester) : nat * Tester :=
  match b_restDownstreams b !! host with
  | Some be => (rd_server be, b)
  | None =>
      let '(be, b) := newBackEnd host b in
      (rd_server be, set_downstreams (<[host := be]> (b_restDownstreams b)) b)
  end.

(** The hooks for listeners; the tester is the server they give. *)
Definition prepareServerListener (basePath : string) (b : Tester) : Tester :=
  let '(i, b) := start_server 0 b in set_rest (Some i) basePath b.
Definition prepareGrpcServerListener (server : G) (b : Tester) : Tester := set_grpc (Some server) b.

(** [Expect] through the pointer [NewDownstream] gave. *)
Definition Endpoint_Expect (l : loc) (tests : list Tests) (b : Tester) : control * Tester :=
  match w_queues b !! l with
  | None => (Panicked nil_dereference, b)
  | Some o =>
      let '(o, log, c) := Expect tests o (w_log b) in
      (c, set_log log (set_queues (<[l := o]> (w_queues b)) b))
  end.

Context (range_handlers : gmap string loc → list (string * loc))
  (range_downstreams : gmap string restDownstream → list (string * restDownstream)).

(** [restDownstream.close]. *)
Definition check_handler (hostname : string) (b : Tester) (kv : string * loc) : Tester :=
  set_log (assertCompleted (default [] (w_queues b !! kv.2)) hostname kv.1 (w_log b)) b.
Definition close_downstream (b : Tester) (kv : string * restDownstream) : Tester :=
  let d := kv.2 in
  close_server (rd_server d) (foldl (check_handler (rd_hostname d)) b (range_handlers (rd_handlers d))).

Definition Tester_Close (b : Tester) : Tester :=
  let b := foldl close_downstream b (range_downstreams (b_restDownstreams b)) in
  let b := match b_restServer b with Some i => close_server i b | None => b end in
  call_grpc GStop b.

(** Serving goes on in a goroutine, which panics if [Serve] fails. *)
Definition Tester_Start (b : Tester) : Tester * option error := (call_grpc GServe b, None).
Definition Tester_GracefulStop (b : Tester) : Tester * option error :=
  (Tester_Close (set_grpc None (call_grpc GGracefulStop b)), None).
Definition Tester_Stop (b : Tester) : Tester * option error := (Tester_Close b, None).
Definition Tester_GetName : string := "Test Server".

(** ** What closing the tester reports *)

Definition endpoint_errors (queues : gmap loc restOrderedHandlers) (d : restDownstream) : list t_event :=
  range_handlers (rd_handlers d) ≫= λ kv,
    match default [] (queues !! kv.2) with [] => [] | _ => [TErrorf (un_hit (rd_hostname d) kv.1)] end.
Definition un_hit_errors (b : Tester) : list t_event :=
  range_downstreams (b_restDownstreams b) ≫= λ kv, endpoint_errors (w_queues b) kv.2.

Lemma check_handlers_spec host l b :
  foldl (check_handler host) b l =
  set_log (w_log b ++ (l ≫= λ kv,
    match default [] (w_queues b !! kv.2) with [] => [] | _ => [TErrorf (un_hit host kv.1)] end)) b.
Proof.
  revert b. induction l as [|kv l IH]; intros b; [by destruct b; rewrite /= app_nil_r|].
  cbn [foldl]. rewrite IH bind_cons. unfold check_handler, assertCompleted.
  destruct (default [] (w_queues b !! kv.2)) eqn:E; cbn [set_log w_log w_queues]; [done|].
  by rewrite -app_assoc.
Qed.

Lemma close_downstreams_spec l b :
  let b' := foldl close_downstream b l in
  w_log b' = w_log b ++ (l ≫= λ kv, endpoint_errors (w_queues b) kv.2) ∧
  w_queues b' = w_queues b ∧ b_restServer b' = b_restServer b ∧ b_grpcServer b' = b_grpcServer b ∧
  w_grpc b' = w_grpc b ∧ b_restDownstreams b' = b_restDownstreams b ∧
  length (w_servers b') = length (w_servers b) ∧
  ∀ i s, w_servers b' !! i = Some s → hs_open s = true →
    (∃ s0, w_servers b !! i = Some s0 ∧ hs_open s0 = true) ∧ Forall (λ kv, rd_server kv.2 ≠ i) l.
Proof.
  revert b. induction l as [|kv l IH]; intros b; cbn zeta.
  { rewrite /= app_nil_r. do 7 (split; [done|]). eauto. }
  cbn [foldl]. specialize (IH (close_downstream b kv)).
  destruct IH as (->&->&->&->&->&->&->&Hopen). unfold close_downstream in *.
  rewrite check_handlers_spec in Hopen |- *.
  rewrite bind_cons /= -app_assoc length_alter. do 7 (split; [done|]).
  intros i s Hi Hs. destruct (Hopen i s Hi Hs) as [(s0&Hi0&Hs0) Hl]. cbn in Hi0.
  destruct (decide (rd_server kv.2 = i)) as [<-|Hne].
  - rewrite list_lookup_alter_eq in Hi0. apply fmap_Some in Hi0 as (?&?&->). done.
  - rewrite list_lookup_alter_ne // in Hi0. split; [by eauto|]. by constructor.
Qed.

(** Closing the tester reports each endpoint of its downstream servers with an
    expectation that no call has completed, and nothing else; it closes the servers of
    the downstreams and the service's own. *)
Theorem Tester_Close_spec b :
  (∀ m, range_downstreams m ≡ₚ map_to_list m) →
  let b' := Tester_Close b in
  w_log b' = w_log b ++ un_hit_errors b ∧
  (∀ host d i, b_restDownstreams b !! host = Some d → w_servers b' !! rd_server d = Some i → hs_open i = false) ∧
  (∀ i s, b_restServer b = Some i → w_servers b' !! i = Some s → hs_open s = false) ∧
  w_grpc b' = w_grpc b ++ match b_grpcServer b with Some g => [(g, GStop)] | None => [] end.
Proof.
  intros Hrange. cbn zeta. unfold Tester_Close.
  pose proof (close_downstreams_spec (range_downstreams (b_restDownstreams b)) b) as H. cbn zeta in H.
  set (b1 := foldl _ _ _) in *. destruct H as (Hlog&Hq&Hrest&Hgrpc&Hcalls&Hd&Hlen&Hopen).
  rewrite Hrest. set (b2 := match b_restServer b with Some i => close_server i b1 | None => b1 end).
  assert (w_log b2 = w_log b1 ∧ b_grpcServer b2 = b_grpcServer b1 ∧ w_grpc b2 = w_grpc b1) as (Hl2&Hg2&Hc2).
  { unfold b2. by destruct (b_restServer b). }
  assert (∀ i s, w_servers b2 !! i = Some s → hs_open s = true →
    w_servers b1 !! i = Some s ∧ b_restServer b ≠ Some i) as Hopen2.
  { intros i s Hi Hs. unfold b2 in Hi. destruct (b_restServer b) as [j|]; [|done]. cbn in Hi.
    destruct (decide (j = i)) as [->|Hne]; [|rewrite list_lookup_alter_ne // in Hi; naive_solver].
    rewrite list_lookup_alter_eq in Hi. by apply fmap_Some in Hi as (?&?&->). }
  assert (w_servers (call_grpc GStop b2) = w_servers b2) as -> by (by unfold call_grpc; destruct (b_grpcServer b2)).
  split; [|split; [|split]].
  - transitivity (w_log b2); [by unfold call_grpc; destruct (b_grpcServer b2)|]. by rewrite Hl2 Hlog.
  - intros host d i Hd' Hi. destruct (hs_open i) eqn:Ho; [|done].
    destruct (Hopen2 _ _ Hi Ho) as [Hi1 _]. destruct (Hopen _ _ Hi1 Ho) as [_ Hall].
    rewrite list.Forall_forall in Hall. destruct (Hall (host, d)); [|done].
    rewrite Hrange. by apply elem_of_map_to_list.
  - intros i s Hi Hs. destruct (hs_open s) eqn:Ho; [|done]. by destruct (Hopen2 _ _ Hs Ho).
  - unfold call_grpc. rewrite Hg2 Hgrpc. destruct (b_grpcServer b); rewrite /= Hc2 Hcalls ?app_nil_r //.
Qed.

(** Which endpoints are reported. *)
Lemma elem_of_un_hit_errors b e :
  (∀ m, range_downstreams m ≡ₚ map_to_list m) → (∀ m, range_handlers m ≡ₚ map_to_list m) →
  e ∈ un_hit_errors b ↔
  ∃ host d endpoint l h o, b_restDownstreams b !! host = Some d ∧ rd_handlers d !! endpoint = Some l ∧
    w_queues b !! l = Some (h :: o) ∧ e = TErrorf (un_hit (rd_hostname d) endpoint).
Proof.
  intros Hd Hh. unfold un_hit_errors, endpoint_errors. rewrite list_elem_of_bind. split.
  - intros ([host d]&He&Hin). rewrite Hd elem_of_map_to_list in Hin.
    apply list_elem_of_bind in He as ([endpoint l]&He&Hl). rewrite Hh elem_of_map_to_list in Hl. cbn in He.
    destruct (w_queues b !! l) as [[|h o]|] eqn:Hq; cbn in He; [by apply elem_of_nil in He| |by apply elem_of_nil in He].
    apply list_elem_of_singleton in He. eauto 12.
  - intros (host&d&endpoint&l&h&o&Hd'&Hl&Hq&->). exists (host, d). split.
    + apply list_elem_of_bind. exists (endpoint, l). cbn. rewrite Hq Hh elem_of_map_to_list. split; [|done].
      by apply list_elem_of_singleton.
    + by rewrite Hd elem_of_map_to_list.
Qed.

(** The client of a host is made once: further calls give the same server. *)
Lemma HTTPClientGetter_idemp host b :
  let '(i, b') := HTTPClientGetter host b in HTTPClientGetter host b' = (i, b').
Proof.
  unfold HTTPClientGetter. destruct (b_restDownstreams b !! host) as [be|] eqn:E; [by rewrite E|].
  by rewrite /= lookup_insert_eq.
Qed.

(** Every endpoint has its queue and every downstream a server, which no other has. *)
Record tester_ok (b : Tester) : Prop := {
  ok_queue : ∀ host d endpoint l, b_restDownstreams b !! host = Some d → rd_handlers d !! endpoint = Some l →
    is_Some (w_queues b !! l);
  ok_queue_inj : ∀ host d endpoint host' d' endpoint' l,
    b_restDownstreams b !! host = Some d → rd_handlers d !! endpoint = Some l →
    b_restDownstreams b !! host' = Some d' → rd_handlers d' !! endpoint' = Some l →
    host = host' ∧ endpoint = endpoint';
  ok_server : ∀ host d, b_restDownstreams b !! host = Some d →
    (rd_server d < length (w_servers b))%nat ∧ b_restServer b ≠ Some (rd_server d);
  ok_server_inj : ∀ host d host' d', b_restDownstreams b !! host = Some d → b_restDownstreams b !! host' = Some d' →
    rd_server d = rd_server d' → host = host';
  ok_restServer : ∀ i, b_restServer b = Some i → (i < length (w_servers b))%nat
}.

Lemma fresh_queue (m : gmap loc restOrderedHandlers) : m !! fresh (dom m) = None.
Proof. apply not_elem_of_dom. apply is_fresh. Qed.

Lemma NewTester_ok : tester_ok NewTester.
Proof. split; cbn; try (intros *; by rewrite lookup_empty); done. Qed.

(** The operations that leave the downstreams as they are, and the queues that are in use. *)
Lemma tester_ok_same b b' :
  tester_ok b → b_restDownstreams b' = b_restDownstreams b →
  (∀ l, is_Some (w_queues b !! l) → is_Some (w_queues b' !! l)) →
  (length (w_servers b) ≤ length (w_servers b'))%nat →
  (b_restServer b' = b_restServer b ∨
   ∃ i, b_restServer b' = Some i ∧ (length (w_servers b) ≤ i < length (w_servers b'))%nat) →
  tester_ok b'.
Proof.
  intros [Hq Hqi Hs Hsi Hr] Hd Hq' Hlen Hrest. split; rewrite ?Hd; [by eauto|done| |done|].
  - intros host d Hhost. destruct (Hs _ _ Hhost) as [Hlt Hne]. split; [lia|].
    destruct Hrest as [->|(i&->&?)]; [done|]. intros [= ->]. lia.
  - intros i Hi. destruct Hrest as [Heq|(j&Hj&?)]; [rewrite Heq in Hi; apply Hr in Hi; lia|].
    rewrite Hj in Hi. injection Hi as <-. lia.
Qed.

Lemma HTTPClientGetter_ok host b : tester_ok b → tester_ok (HTTPClientGetter host b).2.
Proof.
  intros [Hq Hqi Hs Hsi Hr]. unfold HTTPClientGetter. destruct (b_restDownstreams b !! host) eqn:Hhost; [done|].
  split; cbn; rewrite ?length_app /=.
  - intros host' d endpoint l [[_ <-]|[_ ?]]%lookup_insert_Some; [by rewrite lookup_empty|by eauto].
  - intros host1 d1 e1 host2 d2 e2 l [[_ <-]|[_ ?]]%lookup_insert_Some; [by rewrite lookup_empty|].
    intros ? [[_ <-]|[_ ?]]%lookup_insert_Some; [by rewrite lookup_empty|by eauto].
  - intros host' d [[_ <-]|[_ Hd]]%lookup_insert_Some; cbn.
    + split; [lia|]. intros Hi%Hr. lia.
    + destruct (Hs _ _ Hd). split; [lia|done].
  - intros host1 d1 host2 d2 [[<- <-]|[? Hd1]]%lookup_insert_Some [[<- <-]|[? Hd2]]%lookup_insert_Some; cbn; try done.
    + intros Heq. destruct (Hs _ _ Hd2). lia.
    + intros Heq. destruct (Hs _ _ Hd1). lia.
    + by eauto.
  - intros i Hi%Hr. lia.
Qed.

Lemma NewDownstream_ok host method path b : tester_ok b → tester_ok (NewDownstream host method path b).2.
Proof.
  intros [Hq Hqi Hs Hsi Hr]. unfold NewDownstream. destruct (b_restDownstreams b !! host) as [d|] eqn:Hd; [|done].
  pose proof (fresh_queue (w_queues b)) as Hfresh. cbn. set (l := fresh (dom (w_queues b))) in *.
  assert (∀ host' d' endpoint l', b_restDownstreams b !! host' = Some d' → rd_handlers d' !! endpoint = Some l' → l' ≠ l)
    as Hnew by (intros host' d' e l' H1 H2 ->; destruct (Hq _ _ _ _ H1 H2); congruence).
  split; cbn.
  - intros host' d' endpoint l' Hd' Hl'. apply lookup_insert_is_Some'.
    apply lookup_insert_Some in Hd' as [[_ <-]|[_ Hd']]; [|by eauto].
    cbn in Hl'. apply lookup_insert_Some in Hl' as [[_ <-]|[_ Hl']]; [by left|by eauto].
  - intros h1 d1 e1 h2 d2 e2 l' H1 L1 H2 L2.
    apply lookup_insert_Some in H1 as [[<- <-]|[? H1]], H2 as [[<- <-]|[? H2]]; cbn in L1, L2.
    + apply lookup_insert_Some in L1 as [[<- <-]|[? L1]], L2 as [[<- ?]|[? L2]]; [done|..].
      * by destruct (Hnew _ _ _ _ Hd L2).
      * subst. by destruct (Hnew _ _ _ _ Hd L1).
      * by eauto.
    + apply lookup_insert_Some in L1 as [[<- <-]|[? L1]]; [by destruct (Hnew _ _ _ _ H2 L2)|by eauto].
    + apply lookup_insert_Some in L2 as [[<- <-]|[? L2]]; [by destruct (Hnew _ _ _ _ H1 L1)|by eauto].
    + by eauto.
  - intros h' d' [[_ <-]|[_ H1]]%lookup_insert_Some; cbn; by eauto.
  - intros h1 d1 h2 d2 [[<- <-]|[? H1]]%lookup_insert_Some [[<- <-]|[? H2]]%lookup_insert_Some; cbn; by eauto.
  - done.
Qed.

Lemma Endpoint_Expect_ok l tests b : tester_ok b → tester_ok (Endpoint_Expect l tests b).2.
Proof.
  intros Hok. unfold Endpoint_Expect. destruct (w_queues b !! l); [|done].
  destruct (Expect tests _ _) as [[o' log] c].
  apply (tester_ok_same b); [done..| |done|by left].
  intros l' ?. apply lookup_insert_is_Some'. by right.
Qed.

Lemma close_server_ok i b : tester_ok b → tester_ok (close_server i b).
Proof.
  intros Hok. apply (tester_ok_same b); [done|done|done| |by left]. by rewrite /= length_alter.
Qed.

Lemma close_downstreams_ok l b : tester_ok b → tester_ok (foldl close_downstream b l).
Proof.
  revert b. induction l as [|kv l IH]; intros b Hok; [done|]. apply IH. unfold close_downstream.
  apply close_server_ok. rewrite check_handlers_spec. by apply (tester_ok_same b); [done..|left].
Qed.

Lemma call_grpc_ok c b : tester_ok b → tester_ok (call_grpc c b).
Proof. intros Hok. unfold call_grpc. destruct (b_grpcServer b); [|done]. by apply (tester_ok_same b); [done..|left]. Qed.

Lemma Tester_Close_ok b : tester_ok b → tester_ok (Tester_Close b).
Proof.
  intros Hok. unfold Tester_Close. apply call_grpc_ok.
  assert (tester_ok (foldl close_downstream b (range_downstreams (b_restDownstreams b)))) as Hc
    by by apply close_downstreams_ok.
  destruct (b_restServer _); [by apply close_server_ok|done].
Qed.

(** The calls that the service, the endpoints and the test make to a tester. *)
Inductive tester_op :=
| OpHTTPClientGetter (host : string)
| OpNewDownstream (host method path : string)
| OpExpect (l : loc) (tests : list Tests)
| OpServe (l : loc) (r : Request) (st : tstate)
| OpServerListener (basePath : string)
| OpGrpcServerListener (server : G)
| OpStart | OpStop | OpGracefulStop | OpClose.

(** A request to the server of an endpoint: its queue moves on. *)
Definition serve_endpoint (l : loc) (r : Request) (st : tstate) (b : Tester) : Tester :=
  match w_queues b !! l with
  | None => b
  | Some o =>
      let '(o, st, _) := ServeHTTP o r (mk_tstate (w_log b) (ts_body st) (ts_rw st)) in
      set_log (ts_log st) (set_queues (<[l := o]> (w_queues b)) b)
  end.

Definition tester_step (b : Tester) (op : tester_op) : Tester :=
  match op with
  | OpHTTPClientGetter host => (HTTPClientGetter host b).2
  | OpNewDownstream host method path => (NewDownstream host method path b).2
  | OpExpect l tests => (Endpoint_Expect l tests b).2
  | OpServe l r st => serve_endpoint l r st b
  | OpServerListener base => prepareServerListener base b
  | OpGrpcServerListener g => prepareGrpcServerListener g b
  | OpStart => (Tester_Start b).1
  | OpStop => (Tester_Stop b).1
  | OpGracefulStop => (Tester_GracefulStop b).1
  | OpClose => Tester_Close b
  end.

(** C39. Whatever is done to a tester, each endpoint has a queue of expectations and
    each downstream a server, and no two of them have the same one, nor is a
    downstream's server the service's own: what one endpoint is sent never meets the
    expectations of another. *)
Theorem tester_always_ok ops : tester_ok (foldl tester_step NewTester ops).
Proof.
  assert (∀ b, tester_ok b → tester_ok (foldl tester_step b ops)) as H; [|by apply H, NewTester_ok].
  induction ops as [|op ops IH]; intros b Hok; [done|]. apply IH.
  destruct op as [| | |l r st|base| | | | |]; cbn -[Tester_Close].
  - by apply HTTPClientGetter_ok.
  - by apply NewDownstream_ok.
  - by apply Endpoint_Expect_ok.
  - unfold serve_endpoint. destruct (w_queues b !! l); [|done]. destruct (ServeHTTP _ _ _) as [[o' st'] c].
    apply (tester_ok_same b); [done..| |done|by left]. intros l' ?. apply lookup_insert_is_Some'. by right.
  - apply (tester_ok_same b); [done..| |]; cbn; rewrite length_app /=; [lia|]. right. eexists. split; [done|]. lia.
  - by apply (tester_ok_same b); [done..|left].
  - by apply call_grpc_ok.
  - by apply Tester_Close_ok.
  - apply Tester_Close_ok. apply (tester_ok_same (call_grpc GGracefulStop b)); [by apply call_grpc_ok|done..|by left].
  - by apply Tester_Close_ok.
Qed.

(** What [NewDownstream] did when it returned. *)
Lemma NewDownstream_Ok host method path b l b' :
  NewDownstream host method path b = (Ok l, b') →
  l = fresh (dom (w_queues b)) ∧ w_queues b' = <[l := []]> (w_queues b) ∧ w_log b' = w_log b ∧
  ∃ d d', b_restDownstreams b !! host = Some d ∧
    b_restDownstreams b' = <[host := d']> (b_restDownstreams b) ∧ rd_hostname d' = rd_hostname d ∧
    rd_handlers d' = <[method +:+ " " +:+ path := l]> (rd_handlers d).
Proof.
  unfold NewDownstream. destruct (b_restDownstreams b !! host) as [d|]; [|done].
  intros [= <- <-]. do 3 (split; [done|]). exists d. eexists. by do 3 (split; [done|]).
Qed.

Lemma un_hit_errors_nil b :
  (∀ m, range_downstreams m ≡ₚ map_to_list m) → (∀ m, range_handlers m ≡ₚ map_to_list m) →
  un_hit_errors b = [] ↔
  ∀ host d endpoint l o, b_restDownstreams b !! host = Some d → rd_handlers d !! endpoint = Some l →
    w_queues b !! l = Some o → o = [].
Proof.
  intros Hd Hh. split.
  - intros Hnil host d endpoint l [|h o] Hd' Hl Hq; [done|]. exfalso.
    apply (list.not_elem_of_nil (TErrorf (un_hit (rd_hostname d) endpoint))). rewrite -Hnil.
    apply elem_of_un_hit_errors; [done..|]. eauto 10.
  - intros H. destruct (un_hit_errors b) as [|e es] eqn:E; [done|].
    assert (e ∈ un_hit_errors b) as Hin by (rewrite E; left).
    apply elem_of_un_hit_errors in Hin as (host&d&endpoint&l&h&o&Hd'&Hl&Hq&_); [|done..].
    by specialize (H _ _ _ _ _ Hd' Hl Hq).
Qed.

(** An endpoint that is set up a second time gets a new queue in place of the one
    it had: what the first still expects is not reported any more. *)
Theorem NewDownstream_replaces host method path b l1 b1 tests c b2 l2 b3 :
  (∀ m, range_downstreams m ≡ₚ map_to_list m) → (∀ m, range_handlers m ≡ₚ map_to_list m) →
  tester_ok b → un_hit_errors b = [] →
  NewDownstream host method path b = (Ok l1, b1) → Endpoint_Expect l1 tests b1 = (c, b2) → tests ≠ [] →
  NewDownstream host method path b2 = (Ok l2, b3) →
  c = Returned ∧ un_hit_errors b2 ≠ [] ∧ un_hit_errors b3 = [].
Proof.
  intros Hrd Hrh Hok Hnil (->&Hq1&_&d&d1&Hd&Hd1&_&Hh1)%NewDownstream_Ok Hexpect Htests
    (->&Hq3&_&d2&d3&Hd2&Hd3&_&Hh3)%NewDownstream_Ok.
  pose proof (fresh_queue (w_queues b)) as Hfresh. set (l1 := fresh (dom (w_queues b))) in *.
  unfold Endpoint_Expect in Hexpect. rewrite Hq1 lookup_insert_eq in Hexpect.
  destruct tests as [|t ts]; [done|]. cbn in Hexpect. injection Hexpect as <- Hb2.
  assert (w_queues b2 = <[l1 := [expectation (t :: ts)]]> (w_queues b)) as Hq2.
  { rewrite -Hb2 /= insert_insert_eq //. }
  assert (b_restDownstreams b2 = <[host := d1]> (b_restDownstreams b)) as Hds2 by (by rewrite -Hb2 /= Hd1).
  rewrite Hds2 lookup_insert_eq in Hd2. injection Hd2 as <-. rewrite Hds2 insert_insert_eq in Hd3.
  pose proof (fresh_queue (w_queues b2)) as Hfresh2. set (l2 := fresh (dom (w_queues b2))) in *.
  split; [done|]. split.
  - rewrite un_hit_errors_nil //. intros H.
    specialize (H host d1 (method +:+ " " +:+ path) l1 [expectation (t :: ts)]).
    rewrite Hds2 Hh1 Hq2 !lookup_insert_eq in H. by specialize (H eq_refl eq_refl eq_refl).
  - rewrite un_hit_errors_nil // in Hnil. rewrite un_hit_errors_nil // Hd3 Hq3 Hq2.
    assert (∀ host' d' endpoint l o, b_restDownstreams b !! host' = Some d' → rd_handlers d' !! endpoint = Some l →
      <[l2 := []]> (<[l1 := [expectation (t :: ts)]]> (w_queues b)) !! l = Some o → o = []) as Hold.
    { intros host' d' endpoint l o Hd' Hl. destruct (ok_queue _ Hok _ _ _ _ Hd' Hl) as [o' Ho'].
      destruct (decide (l2 = l)) as [<-|Hne2]; [rewrite lookup_insert_eq; congruence|].
      rewrite lookup_insert_ne //. destruct (decide (l1 = l)) as [<-|Hne1]; [congruence|].
      rewrite lookup_insert_ne //. by eapply Hnil. }
    intros host' d' endpoint l o. destruct (decide (host = host')) as [<-|Hne].
    + rewrite lookup_insert_eq. intros [= <-]. rewrite Hh3 Hh1 insert_insert_eq.
      destruct (decide (method +:+ " " +:+ path = endpoint)) as [<-|Hne].
      * rewrite lookup_insert_eq. intros [= <-]. rewrite lookup_insert_eq. congruence.
      * rewrite lookup_insert_ne //. by apply (Hold host d endpoint).
    + rewrite lookup_insert_ne //. by apply Hold.
Qed.
End tester.

(** ** A test with one downstream endpoint *)
Module E2EExample.
Definition same_bytes (expected actual : option string) : bool := bool_decide (expected = actual).
Definition same_json (expected actual : string) : bool := bool_decide (expected = actual).
Definition req (body : string) : Request := mkRequest Background "POST" "/v1/pay" {["X-Id" := ["ab"]]} body.
Definition pay (status : Z) : Tests :=
  expectation (simple_tests map_to_list map_to_list EqualFold [] same_bytes same_json "pay_test.go:1"
    {["x-id" := "AB"]} (Some "100") status {["x-kind" := "receipt"]} (Some "paid") []).
(** The second call fails the check of the body, the third is unexpected. *)
Definition served : restOrderedHandlers * list (tstate * control) :=
  serve_calls [pay 201; pay 202] [] [req "100"; req "1"; req "100"].
Definition receipt : Header := {["X-Kind" := ["receipt"]]}.
Example served_answers :
  map (λ out, rw_calls (ts_rw out.1)) served.2 =
  [[CallWriteHeader 201 receipt; CallWrite "paid"]; [CallWriteHeader 202 receipt; CallWrite "paid"];
   [CallWriteHeader 599 ∅; CallWrite "TEST FAILED"]] ∧
  log_after [] served.2 = [TErrorf "pay_test.go:1"; TLog "Unexpected downstream call"].
Proof. split; vm_compute; reflexivity. Qed.

(** A tester whose service has asked for a client, whose endpoint expects a call. *)
Definition client_made : Tester := (HTTPClientGetter "bank" (NewTester (G := string))).2.
Definition with_endpoint : Tester := (NewDownstream "bank" "POST" "/v1/pay" client_made).2.
Definition expecting : Tester :=
  prepareGrpcServerListener "grpc" (prepareServerListener "/api"
    (Endpoint_Expect 1%positive [pay 201] with_endpoint).2).
End E2EExample.

Lemma verifyHeaders_spec_witness :
  let expected : Header := makeHeader map_to_list {["x-id" := "AB"]} in
  let actual : Header := {["X-Id" := ["ab"]; "Accept" := ["*/*"]]} in
  verifyHeaders map_to_list EqualFold [] expected actual [] = None ∧
  ∃ v', actual !! "X-Id" = Some v' ∧ EqualFold (Join ["AB"] ", ") (Join v' ", ") = true.
Proof.
  intros expected actual.
  assert (verifyHeaders map_to_list EqualFold [] expected actual [] = None) as H by (vm_compute; reflexivity).
  split; [done|].
  destruct (proj1 (verifyHeaders_spec map_to_list EqualFold [] (λ h, reflexivity _) expected actual []) H) as [Hin _].
  apply (Hin "X-Id"); vm_compute; reflexivity.
Defined.

Lemma expectHeadersExistExactly_spec_witness :
  expectHeadersExistExactlyImp map_to_list ["x-id"] {["X-Id" := ["ab"]]} = (None, None).
Proof.
  refine (proj2 (expectHeadersExistExactly_spec map_to_list EqualFold [] (λ h, reflexivity _) ["x-id"] {["X-Id" := ["ab"]]}) _). vm_compute. reflexivity.
Defined.

Lemma Tester_Close_spec_witness :
  let b' := Tester_Close map_to_list map_to_list E2EExample.expecting in
  w_log b' = [TErrorf "Endpoint 'bank -> POST /v1/pay' has un-hit expected calls"] ∧
  w_grpc b' = [("grpc", GStop)].
Proof.
  intros b'. destruct (Tester_Close_spec map_to_list map_to_list E2EExample.expecting (λ m, reflexivity _))
    as (Hlog&_&_&Hgrpc). split.
  - etrans; [exact Hlog|]. vm_compute. reflexivity.
  - etrans; [exact Hgrpc|]. vm_compute. reflexivity.
Defined.

Lemma result_is {A B} (p : A * B) a : p.1 = a → p = (a, p.2).
Proof. destruct p. by intros <-. Qed.

Lemma NewDownstream_replaces_witness :
  let b2 := (Endpoint_Expect 1%positive [E2EExample.pay 201] E2EExample.with_endpoint).2 in
  let b3 := (NewDownstream "bank" "POST" "/v1/pay" b2).2 in
  un_hit_errors map_to_list map_to_list b2 ≠ [] ∧ un_hit_errors map_to_list map_to_list b3 = [].
Proof.
  intros b2 b3.
  apply (NewDownstream_replaces map_to_list map_to_list "bank" "POST" "/v1/pay" E2EExample.client_made 1%positive
    E2EExample.with_endpoint [E2EExample.pay 201] Returned b2 2%positive b3 (λ m, reflexivity _) (λ m, reflexivity _)).
  - apply HTTPClientGetter_ok, NewTester_ok.
  - vm_compute. reflexivity.
  - apply result_is. vm_compute. reflexivity.
  - apply result_is. vm_compute. reflexivity.
  - discriminate.
  - apply result_is. vm_compute. reflexivity.
Defined.
