(* ===== verification/TestCalls.v ===== *)
(** * Calls of a test to the service: src/testutil/e2e/e2e_tester.go ([Do], [Do2] and the
    making of a tester) and GetTestLine of utils.go

    The client of the test server is a parameter, and so are testify's comparisons and
    the printer of YAML. *)

From S2P Require Export E2E.

(** ** Where an expectation was made *)

(** [filepath.Base] of a path with an element after its last slash. *)
Definition Base (path : string) : string := default "" (list.last (Split "/" path)).

(** [GetTestLine]: [Caller i] is the file and the line, printed, of the i-th caller. *)
Fixpoint test_line (Caller : nat → option (string * string)) (callers : list nat) : string :=
  match callers with
  | [] => ""
  | i :: callers =>
      match Caller i with
      | None => ""
      | Some (file, line) =>
          let base := Base file in
          if HasSuffix base "_test.go" then "Expectation At:  " +:+ base +:+ ":" +:+ line
          else test_line Caller callers
      end
  end.
Definition GetTestLine (Caller : nat → option (string * string)) : string := test_line Caller (seq 1 9).

(** ** The configuration of the service under test *)

Inductive test_config :=
| ConfigBytes (data : string)
| ConfigString (data : string)
| ConfigValue (type : string) (v : value).   (* any pointers to it followed *)

Definition ConfigToYamlData (Marshal : value → error + string) (cfg : test_config) (appCfgType : string) : error + string :=
  match cfg with
  | ConfigBytes data | ConfigString data => inr data
  | ConfigValue type v =>
      Marshal (if bool_decide (type = appCfgType) then VMap [("app", v)] else v)
  end.

(** ** Do and Do2 *)

(** The response of the service; [Some] error: its body cannot be read to the end. *)
Record service_response := mk_service_response {
  sr_StatusCode : Z; sr_Header : Header; sr_Body : string; sr_ReadError : option error
}.

(** The functions of a test are given what they look at, and report to the test. *)
Record TestCall := mkTestCall {
  tc_Method : string; tc_URL : string; tc_Headers : gmap string string; tc_Body : string;
  tc_ExpectedCode : Z; tc_ExpectedBody : string;
  tc_TestCodeFn : option (Z → Z → list t_event);
  tc_TestBodyFn : option (string → string → list t_event)
}.
Record TestCall2 := mkTestCall2 {
  tc2_Method : string; tc2_URL : string; tc2_Headers : gmap string string; tc2_Body : option string;
  tc2_ExpectedCode : option Z; tc2_ExpectedBody : option string;
  tc2_TestCodeFn : option (Z → list t_event);
  tc2_TestBodyFn : option (string → list t_event);
  tc2_TestRespFns : list (service_response → list t_event)
}.

Section calls.
Context (range_strings : gmap string string → list (string * string))
  (assert_Equal_bytes : option string → option string → bool) (assert_JSONEq : string → string → bool).
(** [http.NewRequestWithContext], and the client of the test server, which gets the
    method, the URL, the headers and the body. *)
Context (NewRequest : string → string → option error)
  (client_Do : string → string → Header → option string → error + service_response).

Definition assert_event (b : bool) (what : string) : list t_event := if b then [] else [TErrorf what].

(** The response to a call, or the failure that ends the test. *)
Definition call_service (b_URL method url : string) (headers : gmap string string) (body : option string) :
    list t_event * option service_response :=
  match NewRequest method (b_URL +:+ url) with
  | Some _ => ([TErrorf "NewRequest"], None)
  | None =>
      match client_Do method (b_URL +:+ url) (makeHeader range_strings headers) body with
      | inl _ => ([TErrorf "Do"], None)
      | inr resp => ([], Some resp)
      end
  end.

(** [EndpointURL] dereferences the REST server. *)
Definition Do (b_URL : option string) (tc : TestCall) : list t_event * control :=
  match b_URL with
  | None => ([], Panicked nil_dereference)
  | Some b_URL =>
    match call_service b_URL (tc_Method tc) (tc_URL tc) (tc_Headers tc) (Some (tc_Body tc)) with
    | (log, None) => (log, Goexit)
    | (_, Some resp) =>
        let code_log := match tc_TestCodeFn tc with
                        | Some f => f (tc_ExpectedCode tc) (sr_StatusCode resp)
                        | None => assert_event (bool_decide (tc_ExpectedCode tc = sr_StatusCode resp)) "code"
                        end in
        match sr_ReadError resp with
        | Some err => (code_log, Panicked (PanicError err))
        | None =>
            (code_log ++ match tc_TestBodyFn tc with
                         | Some f => f (tc_ExpectedBody tc) (sr_Body resp)
                         | None => assert_event (assert_JSONEq (tc_ExpectedBody tc) (sr_Body resp)) "body"
                         end, Returned)
        end
    end
  end.

(** How a body is compared; [ct[0]] of an empty list of values panics. *)
Definition body_check (resp : service_response) (expected : string) : res (list t_event) :=
  match sr_Header resp !! ContentTypeKey with
  | Some [] => Panic index_out_of_range
  | Some (ct :: _) =>
      if Contains ct "application/json" then Ok (assert_event (assert_JSONEq expected (sr_Body resp)) "body")
      else Ok (assert_event (assert_Equal_bytes (Some expected) (Some (sr_Body resp))) "body")
  | None => Ok (assert_event (assert_Equal_bytes (Some expected) (Some (sr_Body resp))) "body")
  end.

(** What [Do2] does once it has the response. *)
Definition Do2_response (tc : TestCall2) (resp : service_response) : list t_event * control :=
  let code_log := match tc2_ExpectedCode tc with
                  | Some code => assert_event (bool_decide (code = sr_StatusCode resp)) "code"
                  | None => []
                  end ++ match tc2_TestCodeFn tc with Some f => f (sr_StatusCode resp) | None => [] end in
  match sr_ReadError resp with
  | Some err => (code_log, Panicked (PanicError err))
  | None =>
      match match tc2_ExpectedBody tc with Some expected => body_check resp expected | None => Ok [] end with
      | Err err => (code_log, Panicked (PanicError err))
      | Panic p => (code_log, Panicked p)
      | Ok body_log =>
          (code_log ++ body_log ++
           match tc2_TestBodyFn tc with Some f => f (sr_Body resp) | None => [] end ++
           foldl (λ log f, log ++ f resp) [] (tc2_TestRespFns tc), Returned)
      end
  end.
Definition Do2 (b_URL : option string) (tc : TestCall2) : list t_event * control :=
  match b_URL with
  | None => ([], Panicked nil_dereference)
  | Some b_URL =>
    match call_service b_URL (tc2_Method tc) (tc2_URL tc) (tc2_Headers tc) (tc2_Body tc) with
    | (log, None) => (log, Goexit)
    | (_, Some resp) => Do2_response tc resp
    end
  end.

(** ** When a call passes *)

Lemma assert_event_nil b what : assert_event b what = [] ↔ b = true.
Proof. by destruct b. Qed.

Lemma fold_events_nil {A} (fs : list (A → list t_event)) x :
  foldl (λ log f, log ++ f x) [] fs = [] ↔ Forall (λ f, f x = []) fs.
Proof.
  assert (∀ acc, foldl (λ log f, log ++ f x) acc fs = acc ++ (fs ≫= λ f, f x)) as ->.
  { induction fs as [|f fs IH]; intros acc; cbn; [by rewrite app_nil_r|]. by rewrite IH -app_assoc. }
  rewrite app_nil_l. induction fs as [|f fs IH]; [by split|].
  by rewrite bind_cons list.Forall_cons -IH app_nil.
Qed.

Lemma code_log_nil tc resp :
  match tc2_ExpectedCode tc with
  | Some code => assert_event (bool_decide (code = sr_StatusCode resp)) "code"
  | None => []
  end ++ match tc2_TestCodeFn tc with Some f => f (sr_StatusCode resp) | None => [] end = [] ↔
  (∀ code, tc2_ExpectedCode tc = Some code → sr_StatusCode resp = code) ∧
  (∀ f, tc2_TestCodeFn tc = Some f → f (sr_StatusCode resp) = []).
Proof.
  rewrite app_nil. f_equiv.
  - destruct (tc2_ExpectedCode tc); [|naive_solver]. rewrite assert_event_nil bool_decide_eq_true. naive_solver.
  - destruct (tc2_TestCodeFn tc); naive_solver.
Qed.

(** Whether the body is the expected one. *)
Definition body_ok (resp : service_response) (expected : string) : Prop :=
  match sr_Header resp !! ContentTypeKey with
  | Some [] => False
  | Some (ct :: _) => if Contains ct "application/json" then assert_JSONEq expected (sr_Body resp) = true
                      else assert_Equal_bytes (Some expected) (Some (sr_Body resp)) = true
  | None => assert_Equal_bytes (Some expected) (Some (sr_Body resp)) = true
  end.

Lemma body_check_nil resp expected : body_check resp expected = Ok [] ↔ body_ok resp expected.
Proof.
  unfold body_check, body_ok. destruct (sr_Header resp !! ContentTypeKey) as [[|ct cts]|]; [done|destruct (Contains _ _)|];
    rewrite -(assert_event_nil _ "body"); split; congruence.
Qed.

Lemma last_logs_nil tc resp :
  match tc2_TestBodyFn tc with Some f => f (sr_Body resp) | None => [] end ++
    foldl (λ log f, log ++ f resp) [] (tc2_TestRespFns tc) = [] ↔
  (∀ f, tc2_TestBodyFn tc = Some f → f (sr_Body resp) = []) ∧ Forall (λ f, f resp = []) (tc2_TestRespFns tc).
Proof.
  rewrite app_nil fold_events_nil. f_equiv. destruct (tc2_TestBodyFn tc); naive_solver.
Qed.

Lemma Do2_response_passes tc resp :
  Do2_response tc resp = ([], Returned) ↔
  ((∀ code, tc2_ExpectedCode tc = Some code → sr_StatusCode resp = code) ∧
   (∀ f, tc2_TestCodeFn tc = Some f → f (sr_StatusCode resp) = [])) ∧
  sr_ReadError resp = None ∧
  (∀ expected, tc2_ExpectedBody tc = Some expected → body_ok resp expected) ∧
  ((∀ f, tc2_TestBodyFn tc = Some f → f (sr_Body resp) = []) ∧ Forall (λ f, f resp = []) (tc2_TestRespFns tc)).
Proof.
  clear NewRequest client_Do. rewrite -code_log_nil -last_logs_nil. unfold Do2_response.
  destruct (sr_ReadError resp); [naive_solver|].
  assert (match tc2_ExpectedBody tc with Some expected => body_check resp expected | None => Ok [] end = Ok [] ↔
    ∀ expected, tc2_ExpectedBody tc = Some expected → body_ok resp expected) as <-.
  { setoid_rewrite <-body_check_nil. destruct (tc2_ExpectedBody tc); naive_solver. }
  set (code_log := _ ++ match tc2_TestCodeFn tc with Some f => _ | None => _ end).
  set (last_log := _ ++ foldl _ _ _).
  destruct (match tc2_ExpectedBody tc with Some expected => body_check resp expected | None => Ok [] end) as [log|e|pv];
    [|naive_solver..].
  trans (code_log ++ log ++ last_log = []); [split; congruence|]. rewrite !app_nil. split.
  - by intros (?&->&?).
  - by intros (?&_&[= ->]&?).
Qed.

(** A call passes, nothing being reported, iff the request can be made and
    answered, the answer has the expected status and the expected body, compared as
    JSON if that is its type, and every function of the test finds it in order. *)
Theorem Do2_passes url tc :
  Do2 (Some url) tc = ([], Returned) ↔
  NewRequest (tc2_Method tc) (url +:+ tc2_URL tc) = None ∧
  ∃ resp, client_Do (tc2_Method tc) (url +:+ tc2_URL tc) (makeHeader range_strings (tc2_Headers tc)) (tc2_Body tc) = inr resp ∧
    (∀ code, tc2_ExpectedCode tc = Some code → sr_StatusCode resp = code) ∧
    (∀ f, tc2_TestCodeFn tc = Some f → f (sr_StatusCode resp) = []) ∧
    sr_ReadError resp = None ∧
    (∀ expected, tc2_ExpectedBody tc = Some expected → body_ok resp expected) ∧
    (∀ f, tc2_TestBodyFn tc = Some f → f (sr_Body resp) = []) ∧
    Forall (λ f, f resp = []) (tc2_TestRespFns tc).
Proof.
  unfold Do2, call_service. destruct (NewRequest _ _); [naive_solver|]. destruct (client_Do _ _ _ _) as [e|resp]; [naive_solver|].
  rewrite Do2_response_passes. split; [intros ([]&?&?&[]); split; [done|]; exists resp; by split_and!|].
  intros (_&?&[= <-]&?); naive_solver.
Qed.
End calls.
