(* ===== verification/QueryValues.v ===== *)
(** * Query parameters: src/restlib/urlencode.go and src/testutil/e2e/tests.go

    [url.Values] as both files use it, the encoding of forms, and the tests of an
    end-to-end test that the other files do not need: the expected query parameters
    and the downstream that is too late. *)

From stdpp Require Import sorting.
From S2P Require Export TestCalls.

(** ** net/url *)

Definition upper_hex_digit (n : N) : ascii := ascii_of_N (if (n <? 10)%N then 48 + n else 55 + n)%N.

(** [!shouldEscape(c, encodeQueryComponent)]. *)
Definition unreserved (c : ascii) : bool :=
  is_lower c || is_upper c || is_digit c || bool_decide (c ∈ ["-"; "_"; "."; "~"]%char).

Definition query_escape_byte (c : ascii) : string :=
  if bool_decide (c = " "%char) then "+"
  else if unreserved c then String c ""
  else String "%" (String (upper_hex_digit (byte_N c / 16)) (String (upper_hex_digit (byte_N c mod 16)) "")).

Fixpoint QueryEscape (s : string) : string :=
  match s with "" => "" | String c s => query_escape_byte c +:+ QueryEscape s end.

Definition Values := gmap string (list string).

(** [Encode]: the keys are sorted, the values of each keep their order. *)
Definition values_pairs (v : Values) : list (string * string) :=
  merge_sort String.le (map_to_list v).*1 ≫= λ k, (k,.) <$> default [] (v !! k).
Definition pair_text (p : string * string) : string := QueryEscape p.1 +:+ String "=" (QueryEscape p.2).
Definition Values_Encode (v : Values) : string := Join (pair_text <$> values_pairs v) "&".

(** ** urlencode.go; [query.Values] reads the fields of a structure *)
Definition urlencode {V} (query_Values : V → error + Values) (v : V) : error + string :=
  match query_Values v with
  | inl err => inl err
  | inr values => inr (Values_Encode values)
  end.

(** ** tests.go *)

(** [r.URL.Query()] is a parameter. *)
Definition ExpectQueryParams (URL_Query : Request → Values) (loc : string) (query : Values) : Tests := λ r st,
  let expected := Values_Encode query in
  let actual := Values_Encode (URL_Query r) in
  (assert_that (bool_decide (expected = actual)) loc st, Returned).

(** How long the downstream waits; then it is done. *)
Definition ForceDownstreamTimeout : Z * Tests := ((DownstreamTimeout + 100 * Millisecond)%Z, λ _ st, (st, Returned)).

(** * Lemmas *)

(** What [url.QueryUnescape] does with a well-formed text. *)
Definition hex_value (c : ascii) : N := (if is_digit c then byte_N c - 48 else byte_N c - 55)%N.
Fixpoint unescape (s : string) : string :=
  match s with
  | String c s1 =>
      if bool_decide (c = "+"%char) then String " " (unescape s1)
      else if bool_decide (c = "%"%char) then
        match s1 with
        | String h (String l s2) => String (ascii_of_N (hex_value h * 16 + hex_value l)) (unescape s2)
        | _ => ""
        end
      else String c (unescape s1)
  | "" => ""
  end.

Lemma unescape_byte c s : unescape (query_escape_byte c +:+ s) = String c (unescape s).
Proof. destruct c as [[] [] [] [] [] [] [] []]; reflexivity. Qed.

Lemma QueryUnescape_Escape s : unescape (QueryEscape s) = s.
Proof. induction s as [|c s IH]; [done|]. cbn [QueryEscape]. by rewrite unescape_byte IH. Qed.

Lemma no_byte_app sep a b : no_byte sep (a +:+ b) = no_byte sep a && no_byte sep b.
Proof. unfold no_byte. induction a as [|c a IH]; [done|]. cbn. by rewrite IH andb_assoc. Qed.

Lemma escape_no_byte sep s : sep ∈ ["&"; "="]%char → no_byte sep (QueryEscape s) = true.
Proof.
  intros Hsep. assert (sep = "&"%char ∨ sep = "="%char) as [-> | ->] by set_solver; clear Hsep.
  all: induction s as [|c s IH]; [done|]; cbn [QueryEscape]; rewrite no_byte_app IH andb_true_r.
  all: clear; destruct c as [[] [] [] [] [] [] [] []]; reflexivity.
Qed.

#[export] Instance pair_text_inj : Inj (=) (=) pair_text.
Proof.
  intros p q E. apply (f_equal (Split "=")) in E. unfold pair_text in E.
  rewrite !Split_app_sep ?Split_no_sep in E; try (apply escape_no_byte; set_solver).
  injection E as E1 E2. apply (f_equal unescape) in E1, E2. rewrite !QueryUnescape_Escape in E1, E2.
  destruct p, q; cbn in *; congruence.
Qed.

Lemma pair_text_no_amp p : no_byte "&" (pair_text p) = true.
Proof.
  unfold pair_text. rewrite no_byte_app. assert (∀ s, no_byte "&" (String "=" s) = no_byte "&" s) as -> by done.
  by rewrite !escape_no_byte; try set_solver.
Qed.

Lemma Split_texts p l : Split "&" (Join (pair_text <$> (p :: l)) "&") = pair_text <$> (p :: l).
Proof.
  apply (Split_Join "&"); [done|]. apply list.Forall_fmap, list.Forall_forall. intros q _. apply pair_text_no_amp.
Qed.

Lemma texts_not_empty p l : Join (pair_text <$> (p :: l)) "&" ≠ "".
Proof.
  intros E. apply (f_equal (Split "&")) in E. rewrite Split_texts in E. injection E as E _.
  unfold pair_text in E. by destruct (QueryEscape p.1).
Qed.

Lemma pairs_of_text l l' : Join (pair_text <$> l) "&" = Join (pair_text <$> l') "&" → l = l'.
Proof.
  intros E. destruct l as [|p l], l' as [|p' l'].
  - done.
  - symmetry in E. by apply texts_not_empty in E.
  - by apply texts_not_empty in E.
  - apply (f_equal (Split "&")) in E. rewrite !Split_texts in E. by apply (inj (fmap pair_text)) in E.
Qed.

Lemma filter_pairs (k k' : string) (xs : list string) :
  filter (λ p, p.1 = k) ((k',.) <$> xs) = if bool_decide (k' = k) then (k',.) <$> xs else [].
Proof.
  induction xs as [|x xs IH]; [by case_bool_decide|]. rewrite fmap_cons filter_cons IH.
  case_bool_decide as Hk; [by rewrite decide_True|by rewrite decide_False].
Qed.

Lemma values_of_keys (v : Values) (ks : list string) k :
  NoDup ks →
  filter (λ p, p.1 = k) (ks ≫= λ k, (k,.) <$> default [] (v !! k)) =
    if bool_decide (k ∈ ks) then (k,.) <$> default [] (v !! k) else [].
Proof.
  induction 1 as [|k' ks Hk' _ IH]; [done|]. cbn [mbind list_bind]. rewrite list.filter_app IH.
  destruct (decide (k' = k)) as [->|Hne].
  - assert (bool_decide (k ∈ k :: ks) = true) as -> by (apply bool_decide_true; set_solver). rewrite bool_decide_false // app_nil_r.
    by rewrite filter_pairs bool_decide_true.
  - rewrite filter_pairs bool_decide_false //.
    cbn. assert (bool_decide (k ∈ k' :: ks) = bool_decide (k ∈ ks)) as ->; [|done].
    apply bool_decide_ext. rewrite elem_of_cons. naive_solver.
Qed.

Lemma sorted_keys_NoDup (v : Values) : NoDup (merge_sort String.le (map_to_list v).*1).
Proof. rewrite merge_sort_Permutation. apply NoDup_fst_map_to_list. Qed.

Lemma sorted_keys_elem (v : Values) k : k ∈ merge_sort String.le (map_to_list v).*1 ↔ is_Some (v !! k).
Proof.
  rewrite merge_sort_Permutation list_elem_of_fmap. split.
  - intros ([k' x]&->&Hx%elem_of_map_to_list). by eexists.
  - intros [x Hx]. exists (k, x). split; [done|]. by apply elem_of_map_to_list.
Qed.

Lemma values_of_pairs v k : filter (λ p, p.1 = k) (values_pairs v) = (k,.) <$> default [] (v !! k).
Proof.
  unfold values_pairs. rewrite (values_of_keys _ _ _ (sorted_keys_NoDup v)). case_bool_decide as Hk; [done|].
  rewrite sorted_keys_elem in Hk. by rewrite (proj2 (eq_None_not_Some _) Hk).
Qed.

Lemma StronglySorted_filter {A} (R : relation A) (P : A → Prop) `{!∀ x, Decision (P x)} l :
  StronglySorted R l → StronglySorted R (filter P l).
Proof.
  induction 1 as [|x l _ IH Hx]; [constructor|]. rewrite filter_cons. case_decide; [|done]. constructor; [done|].
  apply list.Forall_forall. intros y [_ Hy]%list_elem_of_filter. revert y Hy. by apply list.Forall_forall.
Qed.

(** Keys with no values do not show. *)
Lemma pairs_nonempty v : values_pairs v = values_pairs (filter (λ kx, kx.2 ≠ []) v).
Proof.
  set (v' := filter (λ kx, kx.2 ≠ []) v). unfold values_pairs.
  assert (merge_sort String.le (map_to_list v').*1 =
    filter (λ k, default [] (v !! k) ≠ []) (merge_sort String.le (map_to_list v).*1)) as ->.
  { apply (StronglySorted_unique String.le).
    - apply StronglySorted_merge_sort; apply _.
    - apply StronglySorted_filter, StronglySorted_merge_sort; apply _.
    - apply NoDup_Permutation; [apply sorted_keys_NoDup|apply list.NoDup_filter, sorted_keys_NoDup|].
      intros k. rewrite list_elem_of_filter !sorted_keys_elem. split.
      + intros [x [Hx Hne]%map_lookup_filter_Some]. rewrite Hx. split; [done|by eexists].
      + intros [Hne [x Hx]]. rewrite Hx in Hne. exists x. by apply map_lookup_filter_Some. }
  induction (merge_sort String.le (map_to_list v).*1) as [|k ks IH]; [done|]. rewrite filter_cons.
  cbn [mbind list_bind]. destruct (decide (default [] (v !! k) ≠ [])) as [Hne|Hne].
  - cbn [mbind list_bind]. rewrite -IH. f_equal. destruct (v !! k) as [x|] eqn:Hx; [|done].
    assert (v' !! k = Some x) as ->; [|done]. by apply map_lookup_filter_Some.
  - apply dec_stable in Hne. rewrite Hne /=. exact IH.
Qed.

Lemma Encode_values v v' :
  Values_Encode v = Values_Encode v' ↔ ∀ k, default [] (v !! k) = default [] (v' !! k).
Proof.
  split.
  - intros E%pairs_of_text k. pose proof (values_of_pairs v k) as Hv. rewrite E values_of_pairs in Hv.
    by apply (inj (fmap (k,.))) in Hv.
  - intros Hk. unfold Values_Encode. rewrite (pairs_nonempty v) (pairs_nonempty v').
    assert (filter (λ kx, kx.2 ≠ []) v = filter (λ kx, kx.2 ≠ []) v') as ->; [|done].
    unfold Values in *. apply map_eq. intros k. specialize (Hk k). apply option_eq. intros xs. rewrite !map_lookup_filter_Some.
    destruct (v !! k) as [x|], (v' !! k) as [y|]; cbn in Hk; subst; [reflexivity| | |reflexivity].
    + split; [by intros [[= <-] ?]|by intros [? ?]].
    + split; [by intros [? ?]|by intros [[= <-] ?]].
Qed.

(** * Properties *)

(** The test on query parameters passes exactly if the request has, for every key,
    the values that are expected, in their order, whatever bytes they are made of and
    in whatever order the keys came; a key without values counts as no key at all.
    It reports nothing then, and one failure otherwise. *)
Theorem ExpectQueryParams_spec URL_Query loc query r st :
  let ok := ∀ k, default [] (query !! k) = default [] (URL_Query r !! k) in
  let '(st', c) := ExpectQueryParams URL_Query loc query r st in
  c = Returned ∧ (ok → st' = st) ∧ (¬ ok → ts_log st' = ts_log st ++ [TErrorf loc]).
Proof.
  cbn zeta. unfold ExpectQueryParams, assert_that. split; [done|]. case_bool_decide as E; rewrite Encode_values in E.
  - by split.
  - by split.
Qed.

(** A form is encoded so that no two of them are confused: [urlencode] gives the same
    text for two structures exactly if their fields have the same values, and it fails
    only if the structure cannot be read. *)
Theorem urlencode_spec {V} (query_Values : V → error + Values) v :
  match query_Values v with
  | inl err => urlencode query_Values v = inl err
  | inr values =>
      urlencode query_Values v = inr (Values_Encode values) ∧
      ∀ v' values', query_Values v' = inr values' →
        (urlencode query_Values v' = urlencode query_Values v ↔
         ∀ k, default [] (values' !! k) = default [] (values !! k))
  end.
Proof.
  unfold urlencode. destruct (query_Values v) as [err|values]; [done|]. split; [done|].
  intros v' values' ->. rewrite -Encode_values. split; [by intros [= ->]|by intros ->].
Qed.

(** The mock downstream outlives its own client's timeout. *)
Example too_late : (DownstreamTimeout < ForceDownstreamTimeout.1)%Z.
Proof. reflexivity. Qed.
Example encoded :
  Values_Encode {["q" := ["a b"; "1+1=2"]; "lang" := ["\"]; "x" := []]} = "lang=%5C&q=a+b&q=1%2B1%3D2".
Proof. vm_compute. reflexivity. Qed.
