(* ===== verification/TestHooks.v ===== *)
(** * Services under test: src/testutil/e2e/utils.go (the patching of hooks) and
    src/testutil/temporal_tester/

    How the hooks of a service are replaced by those of a test, the mocks that stand
    for Temporal workflows, and the mock client that starts them. Temporal's test
    environment is a parameter; environments live in a store. *)

From S2P Require Export E2E AuthRules.

(** ** The hooks that tests replace

    Of [core.Hooks]; the builders are values of any type, and [hk_others] is all the
    other fields. A validation may change the configuration. *)
Definition ValidateConfigHook := Context → DefaultConfig → res (DefaultConfig * option error).

Section hooks.
Context `{Crypto} {ClientBuilder WorkerBuilder HTTPBuilder ServerBuilder GrpcBuilder Others Args Svc : Type}.

Record Hooks := mkHooks {
  hk_ExperimentalTemporalClientBuilder : option ClientBuilder;
  hk_ExperimentalTemporalWorkerBuilder : option WorkerBuilder;
  hk_HTTPClientBuilder : option HTTPBuilder;
  hk_StoppableServerBuilder : option ServerBuilder;
  hk_StoppableGrpcServerBuilder : option GrpcBuilder;
  hk_AdditionalGrpcDialOptions : option (list grpc_option);   (* a slice, possibly nil *)
  hk_OverrideGrpcDialOptions : option (string → option CommonGRPCDownstreamData → res (list grpc_option));
  hk_ValidateConfig : option ValidateConfigHook;
  hk_ShouldSetGrpcGlobalLogger : option bool;
  hk_others : Others
}.

(** The closure that overrides the dial options. *)
Definition override_with (override : string → option CommonGRPCDownstreamData → res (list grpc_option))
    (additionalGrpcDialOptions : list grpc_option) (serviceName : string) (cfg : option CommonGRPCDownstreamData) :
    res (list grpc_option) :=
  options ← override serviceName cfg;
  Ok (options ++ additionalGrpcDialOptions).

Definition patch_dial_options (h testHooks : Hooks) :
    option (list grpc_option) * option (string → option CommonGRPCDownstreamData → res (list grpc_option)) :=
  match hk_OverrideGrpcDialOptions testHooks with
  | None => (hk_AdditionalGrpcDialOptions h, hk_OverrideGrpcDialOptions h)
  | Some override =>
      match hk_AdditionalGrpcDialOptions h with
      | None => (None, Some override)
      | Some additional => (None, Some (override_with override additional))
      end
  end.

(** The test's validation runs first, and its error is dropped; what it did to the
    configuration is not. A nil hook panics when it is called. *)
Definition patch_ValidateConfig (users tests : option ValidateConfigHook) : option ValidateConfigHook :=
  match users with
  | None => tests
  | Some usersValidateConfig => Some (λ ctx cfg,
      match tests with
      | None => Panic nil_dereference
      | Some testsValidateConfig =>
          '(cfg, _) ← testsValidateConfig ctx cfg;
          usersValidateConfig ctx cfg
      end)
  end.

Definition patch_hooks (h testHooks : Hooks) : Hooks :=
  let '(additional, override) := patch_dial_options h testHooks in
  mkHooks (hk_ExperimentalTemporalClientBuilder testHooks) (hk_ExperimentalTemporalWorkerBuilder testHooks)
    (hk_HTTPClientBuilder testHooks) (hk_StoppableServerBuilder testHooks) (hk_StoppableGrpcServerBuilder testHooks)
    additional override
    (patch_ValidateConfig (hk_ValidateConfig h) (hk_ValidateConfig testHooks))
    (match hk_ShouldSetGrpcGlobalLogger h with None => hk_ShouldSetGrpcGlobalLogger testHooks | own => own end)
    (hk_others h).

(** The service's hooks are changed in place: what is given back is what they are then. *)
Definition CreateServiceWithTestHooksPatched (createService : Args → Svc * option Hooks * option error)
    (testHooks : Hooks) : Args → Svc * option Hooks * option error := λ args,
  match createService args with
  | (svc, h, Some err) => (svc, h, Some err)
  | (svc, None, None) => (svc, Some testHooks, None)
  | (svc, Some h, None) => (svc, Some (patch_hooks h testHooks), None)
  end.

(** The patch for services that use Temporal: temporal_tester/hooks.go. *)
Definition PatchedService (createService : Context → Args → Svc * option Hooks * option error) (testHooks : Hooks)
    (EmptyClientsBuilder : ClientBuilder) (MockWorkerBuilder : WorkerBuilder) (withActualDownstreams : bool) :
    Context → Args → list t_event * control * option (Svc * Hooks) := λ ctx ac,
  match createService ctx ac with
  | (_, _, Some _) => ([TErrorf "createService"], Goexit, None)
  | (_, None, None) => ([], Panicked nil_dereference, None)
  | (svc, Some h, None) =>
      ([], Returned, Some (svc, mkHooks
        (if withActualDownstreams then hk_ExperimentalTemporalClientBuilder h else Some EmptyClientsBuilder)
        (if withActualDownstreams then hk_ExperimentalTemporalWorkerBuilder h else Some MockWorkerBuilder)
        (hk_HTTPClientBuilder testHooks) (hk_StoppableServerBuilder testHooks) (hk_StoppableGrpcServerBuilder testHooks)
        (hk_AdditionalGrpcDialOptions h) (hk_OverrideGrpcDialOptions h)
        (hk_ValidateConfig testHooks) (hk_ShouldSetGrpcGlobalLogger testHooks) (hk_others h)))
  end.

(** ** What a patched service does *)

(** The hooks [ResolveGrpcDialOptions] looks at. *)
Definition dial_hooks (h : Hooks) : AuthHooks :=
  mkAuthHooks _ (default [] (hk_AdditionalGrpcDialOptions h)) (hk_OverrideGrpcDialOptions h) [] None None.

Lemma patch_dial_options_spec (m : Machine) (h testHooks : Hooks) name cfg :
  ResolveGrpcDialOptions m name (dial_hooks (patch_hooks h testHooks)) cfg =
  match hk_OverrideGrpcDialOptions testHooks with
  | Some override => options ← override name cfg; Ok (options ++ default [] (hk_AdditionalGrpcDialOptions h))
  | None => ResolveGrpcDialOptions m name (dial_hooks h) cfg
  end.
Proof.
  unfold patch_hooks, patch_dial_options. destruct (hk_OverrideGrpcDialOptions testHooks) as [override|]; [|done].
  destruct (hk_AdditionalGrpcDialOptions h); cbn; [done|].
  destruct (override name cfg); cbn; by rewrite ?app_nil_r.
Qed.

Lemma patch_hooks_ValidateConfig (h testHooks : Hooks) :
  hk_ValidateConfig (patch_hooks h testHooks) = patch_ValidateConfig (hk_ValidateConfig h) (hk_ValidateConfig testHooks).
Proof. unfold patch_hooks. by destruct (patch_dial_options h testHooks). Qed.

(** A service under test dials with the options of the test, if the test overrides
    them, and with its own additional options after those, and never runs into the
    error of overriding and adding at once; its validation sees the configuration as
    the test's left it and decides alone, but panics if the test has none. *)
Theorem CreateServiceWithTestHooksPatched_spec (m : Machine) createService (testHooks h h' : Hooks) args svc svc' :
  createService args = (svc, Some h, None) →
  CreateServiceWithTestHooksPatched createService testHooks args = (svc', Some h', None) →
  svc' = svc ∧ hk_HTTPClientBuilder h' = hk_HTTPClientBuilder testHooks ∧
  (∀ override name cfg, hk_OverrideGrpcDialOptions testHooks = Some override →
     ResolveGrpcDialOptions m name (dial_hooks h') cfg =
       (options ← override name cfg; Ok (options ++ default [] (hk_AdditionalGrpcDialOptions h)))) ∧
  (∀ name cfg, hk_OverrideGrpcDialOptions testHooks = None →
     ResolveGrpcDialOptions m name (dial_hooks h') cfg = ResolveGrpcDialOptions m name (dial_hooks h) cfg) ∧
  ∀ users ctx cfg, hk_ValidateConfig h = Some users →
    ∃ patched, hk_ValidateConfig h' = Some patched ∧
      match hk_ValidateConfig testHooks with
      | None => patched ctx cfg = Panic nil_dereference
      | Some tests => ∀ cfg' err, tests ctx cfg = Ok (cfg', err) → patched ctx cfg = users ctx cfg'
      end.
Proof.
  unfold CreateServiceWithTestHooksPatched. intros -> [= -> <-].
  split; [done|]. split; [unfold patch_hooks; by destruct (patch_dial_options h testHooks)|].
  split; [intros override name cfg H'; by rewrite patch_dial_options_spec H'|].
  split; [intros name cfg H'; by rewrite patch_dial_options_spec H'|].
  intros users ctx cfg Husers. rewrite patch_hooks_ValidateConfig Husers. eexists. split; [done|]. cbn.
  destruct (hk_ValidateConfig testHooks); [|done]. by intros cfg' err ->.
Qed.
End hooks.

(** ** Mocks of workflows and activities: mock_client.go *)
Section mock_base.
Context {Resp : Type} (zero_Resp : Resp).
(** testify's comparison of two values. *)
Context (ObjectsAreEqual : value → value → bool).

Record MockBase := mkMockBase {
  mb_requests : option (list value);   (* None is a nil slice *)
  mb_opt : StartWorkflowOptions;
  mb_mocked : bool;
  mb_expecting : bool;
  mb_mockResp : Resp;
  mb_mockErr : option error
}.
Definition NewMockWorkflowBase : MockBase := mkMockBase None (mkStartWorkflowOptions "" "") false false zero_Resp None.

(** The arguments of a variadic call: a nil slice when there are none. *)
Definition variadic (req : list value) : option (list value) := match req with [] => None | _ => Some req end.

Definition ExpectRequest (req : list value) (m : MockBase) : MockBase :=
  mkMockBase (variadic req) (mb_opt m) (mb_mocked m) true (mb_mockResp m) (mb_mockErr m).
Definition ExpectOptions (opt : StartWorkflowOptions) (m : MockBase) : MockBase :=
  mkMockBase (mb_requests m) opt (mb_mocked m) true (mb_mockResp m) (mb_mockErr m).
Definition IsMocked (m : MockBase) : bool := mb_mocked m.
Definition MockErrorOnlyResponse (err : option error) (m : MockBase) : MockBase :=
  mkMockBase (mb_requests m) (mb_opt m) true (mb_expecting m) (mb_mockResp m) err.
Definition MockResponse (resp : Resp) (err : option error) (m : MockBase) : MockBase :=
  mkMockBase (mb_requests m) (mb_opt m) true (mb_expecting m) resp err.

(** The loop over the expected requests; [actual] has as many. *)
Definition mock_mismatch : t_event := TErrorf "expected and actual requests differ".
Fixpoint check_requests (expected actual : list value) : list t_event * control :=
  match expected, actual with
  | e :: expected, a :: actual =>
      if ObjectsAreEqual e a then check_requests expected actual else ([mock_mismatch], Goexit)
  | [], _ => ([], Returned)
  | _ :: _, [] => ([], Panicked index_out_of_range)
  end.
Definition CheckExpectations (m : MockBase) (actual : list value) : list t_event * control :=
  match mb_requests m, mb_expecting m with
  | None, _ | _, false => ([], Returned)
  | Some requests, true =>
      if negb (bool_decide (length actual = length requests))
      then ([], Panicked (PanicString "actual and expected requests are of different length"))
      else check_requests requests actual
  end.

(** The workflow or activity a mock builds; without a return value it gives the error only. *)
Definition mockWithResponse (m : MockBase) (a : list value) : list t_event * control * option (Resp * option error) :=
  let '(log, c) := CheckExpectations m a in
  (log, c, match c with Returned => Some (mb_mockResp m, mb_mockErr m) | _ => None end).
Definition mockWithoutResponse (m : MockBase) (a : list value) : list t_event * control * option (option error) :=
  let '(log, c) := CheckExpectations m a in
  (log, c, match c with Returned => Some (mb_mockErr m) | _ => None end).

(** ** What a mock that was set up by any calls does *)

Inductive mock_op :=
| OpExpectRequest (req : list value)
| OpExpectOptions (opt : StartWorkflowOptions)
| OpMockErrorOnlyResponse (err : option error)
| OpMockResponse (resp : Resp) (err : option error).
Definition run_mock_op (m : MockBase) (op : mock_op) : MockBase :=
  match op with
  | OpExpectRequest req => ExpectRequest req m
  | OpExpectOptions opt => ExpectOptions opt m
  | OpMockErrorOnlyResponse err => MockErrorOnlyResponse err m
  | OpMockResponse resp err => MockResponse resp err m
  end.
Definition set_up (ops : list mock_op) : MockBase := foldl run_mock_op NewMockWorkflowBase ops.

(** The last of the calls that say something of a kind. *)
Definition last_of {A} (f : mock_op → option A) (ops : list mock_op) : option A := list.last (omap f ops).
Definition expected_request (ops : list mock_op) : list value :=
  default [] (last_of (λ op, match op with OpExpectRequest req => Some req | _ => None end) ops).
Definition mocked_response (ops : list mock_op) : Resp :=
  default zero_Resp (last_of (λ op, match op with OpMockResponse resp _ => Some resp | _ => None end) ops).
Definition mocked_error (ops : list mock_op) : option error :=
  default None (last_of (λ op, match op with OpMockResponse _ err | OpMockErrorOnlyResponse err => Some err | _ => None end) ops).

Lemma last_of_snoc {A} (f : mock_op → option A) ops op :
  last_of f (ops ++ [op]) = match f op with Some a => Some a | None => last_of f ops end.
Proof.
  unfold last_of. rewrite omap_app /=. destruct (f op); [by rewrite last_snoc|by rewrite app_nil_r].
Qed.

Lemma set_up_spec ops :
  mb_requests (set_up ops) = variadic (expected_request ops) ∧
  mb_mockResp (set_up ops) = mocked_response ops ∧ mb_mockErr (set_up ops) = mocked_error ops ∧
  (mb_requests (set_up ops) ≠ None → mb_expecting (set_up ops) = true).
Proof.
  unfold set_up, expected_request, mocked_response, mocked_error.
  induction ops as [|op ops (Hr&Hresp&Herr&He)] using rev_ind; [done|].
  rewrite foldl_snoc !last_of_snoc. destruct op; cbn; by repeat split.
Qed.

Lemma check_requests_spec expected actual :
  length actual = length expected →
  (check_requests expected actual = ([], Returned) ∧ Forall2 (λ e a, ObjectsAreEqual e a = true) expected actual) ∨
  (check_requests expected actual = ([mock_mismatch], Goexit) ∧ ¬ Forall2 (λ e a, ObjectsAreEqual e a = true) expected actual).
Proof.
  revert actual. induction expected as [|e expected IH]; intros [|a actual] Hlen; try done; [by left|]. cbn.
  destruct (ObjectsAreEqual e a) eqn:E.
  - destruct (IH actual ltac:(cbn in Hlen; lia)) as [[-> H]|[-> H]]; [left|right]; (split; [done|]).
    + by constructor.
    + intros H'. by inversion H'.
  - right. split; [done|]. intros H'. inversion H'. congruence.
Qed.

(** However it was set up, a mock answers with the response and the error of the
    last calls that gave them, if the arguments are those of the last call of
    ExpectRequest, or if that was never called or with no arguments; other arguments
    end the test, and another number of them panics. The options given to
    ExpectOptions are never compared with anything. *)
Theorem MockBase_spec ops actual :
  let answer := Some (mocked_response ops, mocked_error ops) in
  let out := mockWithResponse (set_up ops) actual in
  match expected_request ops with
  | [] => out = ([], Returned, answer)
  | requests =>
      if bool_decide (length actual = length requests)
      then (out = ([], Returned, answer) ∧ Forall2 (λ e a, ObjectsAreEqual e a = true) requests actual) ∨
           (out = ([mock_mismatch], Goexit, None) ∧ ¬ Forall2 (λ e a, ObjectsAreEqual e a = true) requests actual)
      else ∃ msg, out = ([], Panicked (PanicString msg), None)
  end.
Proof.
  cbn zeta. unfold mockWithResponse, CheckExpectations.
  destruct (set_up_spec ops) as (Hr&->&->&He). rewrite Hr in He |- *.
  destruct (expected_request ops) as [|q qs]; cbn [variadic] in *; [done|]. rewrite He //.
  case_bool_decide as Hlen; cbn [negb]; [|by eexists].
  destruct (check_requests_spec (q :: qs) actual Hlen) as [[-> H]|[-> H]]; [left|right]; by split.
Qed.
End mock_base.

(** ** The mock client, its workers and the builders: mock_client.go, mock_worker.go,
    tester.go

    [Env] is the state of the SDK's [testsuite.TestWorkflowEnvironment], with the
    operations that are called on it; each changes the environment it is called on
    and gives that one back. Clients, runs and workers hold pointers to environments. *)
Class TestEnv := {
  Env : Type;
  NewTestWorkflowEnvironment : Env;
  SetStartWorkflowOptions : StartWorkflowOptions → Env → Env;
  SetWorkerOptions : string → Env → Env;
  RegisterWorkflowWithOptions : value → string → Env → Env;
  EnvExecuteWorkflow : string → list value → Env → Env;
  GetWorkflowResult : Env → res value
}.

Section mock_client.
Context `{TestEnv}.

Definition env_heap := gmap loc Env.

Record MockClient := mkMockClient { mc_Env : loc }.
Record MockWorkflowRun := mkMockWorkflowRun { mr_Env : loc; mr_ID : string }.
Definition GetID (m : MockWorkflowRun) : string := mr_ID m.
Definition GetRunID (m : MockWorkflowRun) : string := "".
Definition MockWorkflowRun_Get (m : MockWorkflowRun) (h : env_heap) : res value :=
  env ← deref (h !! mr_Env m); GetWorkflowResult env.

(** A workflow and the name it is registered under. *)
Record MockWorkflow := mkMockWorkflow { mw_Workflow : value; mw_Option : string }.
Definition new_env (env : Env) (h : env_heap) : loc * env_heap :=
  let p := fresh (dom h) in (p, <[p := env]> h).
Definition NewEnvWithWorkflows (wfs : list MockWorkflow) (h : env_heap) : loc * env_heap :=
  new_env (foldl (λ env wf, RegisterWorkflowWithOptions (mw_Workflow wf) (mw_Option wf) env)
             NewTestWorkflowEnvironment wfs) h.
Definition NewTemporalMockClient (env : loc) : MockClient := mkMockClient env.

Definition MockClient_ExecuteWorkflow (uuid_New : string) (options : StartWorkflowOptions) (workflow : string)
    (args : list value) (m : MockClient) (h : env_heap) : MockWorkflowRun * env_heap :=
  let options := if bool_decide (swo_ID options = "")
                 then mkStartWorkflowOptions (swo_TaskQueue options) uuid_New else options in
  (mkMockWorkflowRun (mc_Env m) (swo_ID options),
   alter (λ env, EnvExecuteWorkflow workflow args (SetStartWorkflowOptions options env)) (mc_Env m) h).

(** A client is a mock or one of the SDK's; the worker is one for the mock's environment. *)
Definition MockWorkerBuilder {C} (client : MockClient + C) (options : string) (h : env_heap) : res (MockClient * env_heap) :=
  match client with
  | inr _ => Panic (PanicString "MockWorker needs MockClient")
  | inl mockClient => Ok (mockClient, alter (SetWorkerOptions options) (mc_Env mockClient) h)
  end.

(** The environments are made here, one for each mock: a [MockedWorker] is its name and
    its workflows. *)
Definition add_env (st : gmap string loc * env_heap) (m : string * list MockWorkflow) : gmap string loc * env_heap :=
  let '(envs, h) := st in
  let '(p, h) := NewEnvWithWorkflows m.2 h in
  (<[m.1 := p]> envs, h).
(** The closure that gives the clients. *)
Definition client_of (envs : gmap string loc) (s : string) : res MockClient :=
  match envs !! s with
  | None => Panic (PanicString ("mock environment for " +:+ s +:+ " does not exist"))
  | Some env => Ok (NewTemporalMockClient env)
  end.
Definition MockClientsBuilder (mocks : list (string * list MockWorkflow)) (h : env_heap) :
    (string → res MockClient) * env_heap :=
  let '(envs, h) := foldl add_env (∅, h) mocks in (client_of envs, h).
Definition EmptyClientsBuilder (h : env_heap) : res MockClient * env_heap :=
  let '(p, h) := new_env NewTestWorkflowEnvironment h in (Ok (NewTemporalMockClient p), h).

Lemma add_envs_spec mocks envs h envs' h' s :
  foldl add_env (envs, h) mocks = (envs', h') →
  h ⊆ h' ∧
  match list.last (filter (λ m, m.1 = s) mocks) with
  | Some m => ∃ p, envs' !! s = Some p ∧ h !! p = None ∧
      h' !! p = Some (foldl (λ env wf, RegisterWorkflowWithOptions (mw_Workflow wf) (mw_Option wf) env)
                        NewTestWorkflowEnvironment m.2)
  | None => envs' !! s = envs !! s
  end.
Proof.
  revert envs' h'. induction mocks as [|m mocks IH] using rev_ind; intros envs' h'; [by intros [= <- <-]|].
  rewrite foldl_snoc list.filter_app filter_cons filter_nil.
  destruct (foldl add_env (envs, h) mocks) as [envs1 h1]. destruct (IH _ _ eq_refl) as [Hsub IH'].
  set (p := fresh (dom h1)). assert (h1 !! p = None) as Hp by apply not_elem_of_dom, is_fresh.
  intros [= <- <-]. assert (h1 ⊆ <[p := foldl (λ env wf, RegisterWorkflowWithOptions (mw_Workflow wf) (mw_Option wf) env)
    NewTestWorkflowEnvironment m.2]> h1) as Hsub1 by by apply insert_subseteq.
  split; [by etrans|]. destruct (decide (m.1 = s)) as [<-|Hne].
  - rewrite last_snoc. exists p. rewrite !lookup_insert_eq. split; [done|]. split; [|done].
    destruct (h !! p) eqn:E; [|done]. by rewrite (lookup_weaken _ _ _ _ E Hsub) in Hp.
  - rewrite app_nil_r lookup_insert_ne //. destruct (list.last _) as [m'|]; [|done].
    destruct IH' as (q&?&?&Hq). exists q. split; [done|]. split; [done|]. by eapply lookup_weaken.
Qed.

(** The client of a task queue has an environment of its own, made with the workflows of
    the last mock of that name. *)
Lemma MockClientsBuilder_spec mocks h s :
  let '(build, h') := MockClientsBuilder mocks h in
  match list.last (filter (λ m, m.1 = s) mocks) with
  | Some m => ∃ p, build s = Ok (mkMockClient p) ∧ h !! p = None ∧
      h' !! p = Some (foldl (λ env wf, RegisterWorkflowWithOptions (mw_Workflow wf) (mw_Option wf) env)
                        NewTestWorkflowEnvironment m.2)
  | None => ∃ msg, build s = Panic (PanicString msg)
  end.
Proof.
  unfold MockClientsBuilder, client_of. destruct (foldl add_env (∅, h) mocks) as [envs h'] eqn:E.
  destruct (add_envs_spec _ _ _ _ _ s E) as [_ Hs]. destruct (list.last _) as [m|].
  - destruct Hs as (p&Hp&?&?). exists p. by rewrite Hp.
  - rewrite Hs lookup_empty. by eexists.
Qed.

(** Runs of one client share its environment: after a second run the first one's result
    is the second's, though each has the ID it was started with, or a fresh one. *)
Lemma MockWorkflowRun_shares uuid1 o1 wf1 args1 uuid2 o2 wf2 args2 m h env :
  h !! mc_Env m = Some env →
  let '(run1, h1) := MockClient_ExecuteWorkflow uuid1 o1 wf1 args1 m h in
  let '(run2, h2) := MockClient_ExecuteWorkflow uuid2 o2 wf2 args2 m h1 in
  MockWorkflowRun_Get run1 h2 = MockWorkflowRun_Get run2 h2 ∧
  GetID run1 = (if bool_decide (swo_ID o1 = "") then uuid1 else swo_ID o1) ∧
  ∃ env1, h1 !! mc_Env m = Some env1 ∧ MockWorkflowRun_Get run1 h1 = GetWorkflowResult env1.
Proof.
  intros Henv. unfold MockClient_ExecuteWorkflow, MockWorkflowRun_Get. cbn. split; [done|].
  split; [by destruct (bool_decide _)|]. rewrite lookup_alter_eq Henv. by eexists.
Qed.
End mock_client.

(** ** A service whose hooks are patched *)
Module TestHooksExample.
#[local] Existing Instance TlsExample.crypto.
Definition service_options : option (list grpc_option) := Some [].
Definition own_validation : ValidateConfigHook := λ _ cfg, Ok (cfg, None).
Definition test_validation : ValidateConfigHook := λ _ cfg, Ok (cfg, Some (ErrText "dropped")).
Definition override (_ : string) (_ : option CommonGRPCDownstreamData) : res (list grpc_option) := Ok [].
Definition TheHooks := @Hooks _ () () () () () ().
Definition own : TheHooks := mkHooks None None None None None service_options None (Some own_validation) None ().
Definition tests : TheHooks :=
  mkHooks (Some ()) (Some ()) (Some ()) (Some ()) (Some ()) None (Some override) (Some test_validation) (Some false) ().
Definition createService (_ : ()) : () * option TheHooks * option error := ((), Some own, None).
Definition patched : TheHooks := patch_hooks own tests.
End TestHooksExample.

Lemma CreateServiceWithTestHooksPatched_spec_witness :
  let h' := TestHooksExample.patched in
  hk_HTTPClientBuilder h' = Some () ∧
  ResolveGrpcDialOptions TlsExample.machine "bank" (dial_hooks h') None = Ok [] ∧
  ∃ patched, hk_ValidateConfig h' = Some patched ∧
    ∀ cfg' err, TestHooksExample.test_validation Background zero_DefaultConfig = Ok (cfg', err) →
      patched Background zero_DefaultConfig = TestHooksExample.own_validation Background cfg'.
Proof.
  intros h'. pose proof (CreateServiceWithTestHooksPatched_spec TlsExample.machine TestHooksExample.createService
    TestHooksExample.tests TestHooksExample.own h' () () () eq_refl eq_refl) as (_&Hclient&Hover&_&Hvalidate).
  split; [exact Hclient|]. split; [exact (Hover _ "bank" None eq_refl)|].
  exact (Hvalidate _ Background zero_DefaultConfig eq_refl).
Defined.
