(* ===== verification/TemporalTester.v ===== *)
(** * The mock client as a Temporal client: src/testutil/temporal_tester/mock_client.go and
    mock_worker.go, and the typed results of src/core/temporal.go

    Every method of the SDK's client as the mock has it, the worker that registers
    with the mock's environment, and the results as they are read through the
    generic wrappers. The test environments of the SDK are a parameter. *)

From S2P Require Export TestHooks.

(** What else is called on the SDK's environments: of workflows, and of activities. *)
Class TestEnvCalls `{TestEnv} := {
  SignalWorkflowByID : string → string → value → Env → Env * option error;
  CancelWorkflow : Env → Env;
  QueryWorkflowByID : string → string → list value → Env → res value;
  RegisterWorkflow : value → Env → Env;
  RegisterActivity : value → Env → Env;
  RegisterActivityWithOptions : value → string → Env → Env;
  ActEnv : Type;
  NewTestActivityEnvironment : ActEnv;
  ActEnv_SetWorkerOptions : string → ActEnv → ActEnv
}.

Section client.
Context `{TestEnv, !TestEnvCalls}.

(** ** The calls of a client

    One constructor for each method of [client.Client]; the requests of the methods that
    look at none of them are values. *)
Inductive client_call :=
| ExecuteWorkflow_call (uuid_New : string) (options : StartWorkflowOptions) (workflow : string) (args : list value)
| GetWorkflow_call (workflowID runID : string)
| SignalWorkflow_call (workflowID runID signalName : string) (arg : value)
| SignalWithStartWorkflow_call (workflowID signalName : string) (signalArg : value)
    (options : StartWorkflowOptions) (workflow : string) (workflowArgs : list value)
| CancelWorkflow_call (workflowID runID : string)
| TerminateWorkflow_call (workflowID runID reason : string) (details : list value)
| GetWorkflowHistory_call (workflowID runID : string) (isLongPoll : bool) (filterType : Z)
| CompleteActivity_call (taskToken : string) (result : value) (err : option error)
| CompleteActivityByID_call (namespace workflowID runID activityID : string) (result : value) (err : option error)
| RecordActivityHeartbeat_call (taskToken : string) (details : list value)
| RecordActivityHeartbeatByID_call (namespace workflowID runID activityID : string) (details : list value)
| ListClosedWorkflow_call (request : value)
| ListOpenWorkflow_call (request : value)
| ListWorkflow_call (request : value)
| ListArchivedWorkflow_call (request : value)
| ScanWorkflow_call (request : value)
| CountWorkflow_call (request : value)
| GetSearchAttributes_call
| QueryWorkflow_call (workflowID runID queryType : string) (args : list value)
| QueryWorkflowWithOptions_call (request : value)
| DescribeWorkflowExecution_call (workflowID runID : string)
| DescribeTaskQueue_call (taskqueue : string) (taskqueueType : Z)
| ResetWorkflowExecution_call (request : value)
| UpdateWorkerBuildIdCompatibility_call (options : value)
| GetWorkerBuildIdCompatibility_call (options : value)
| GetWorkflowUpdateHandle_call (ref : value)
| CheckHealth_call (request : value)
| UpdateWorkflow_call (workflowID workflowRunID updateName : string) (args : list value)
| UpdateWorkflowWithOptions_call (request : value)
| WorkflowService_call
| OperatorService_call
| ScheduleClient_call
| Close_call
| GetWorkerTaskReachability_call (options : value).

(** What a call gives back; [Nothing] is a nil, or two of them, or no result at all. *)
Inductive client_answer :=
| Started (run : MockWorkflowRun)
| Signalled (err : option error)
| Queried (v : res value)
| Nothing.

Definition MockClient_SignalWorkflow (workflowID signalName : string) (arg : value) (m : MockClient) (h : env_heap) :
    client_answer * env_heap :=
  match h !! mc_Env m with
  | Some env => let '(env, err) := SignalWorkflowByID workflowID signalName arg env in
                (Signalled err, <[mc_Env m := env]> h)
  | None => (Nothing, h)
  end.

Definition MockClient_CancelWorkflow (m : MockClient) (h : env_heap) : client_answer * env_heap :=
  (Nothing, alter CancelWorkflow (mc_Env m) h).

Definition MockClient_QueryWorkflow (workflowID queryType : string) (args : list value) (m : MockClient) (h : env_heap) :
    client_answer :=
  Queried (env ← deref (h !! mc_Env m); QueryWorkflowByID workflowID queryType args env).

(** All the methods of the mock. *)
Definition MockClient_call (c : client_call) (m : MockClient) (h : env_heap) : client_answer * env_heap :=
  match c with
  | ExecuteWorkflow_call uuid_New options workflow args =>
      let '(run, h) := MockClient_ExecuteWorkflow uuid_New options workflow args m h in (Started run, h)
  | SignalWorkflow_call workflowID _ signalName arg => MockClient_SignalWorkflow workflowID signalName arg m h
  | CancelWorkflow_call _ _ => MockClient_CancelWorkflow m h
  | QueryWorkflow_call workflowID _ queryType args => (MockClient_QueryWorkflow workflowID queryType args m h, h)
  | _ => (Nothing, h)
  end.

(** Calls one after the other. *)
Definition MockClient_calls (cs : list client_call) (m : MockClient) (h : env_heap) : env_heap :=
  foldl (λ h c, (MockClient_call c m h).2) h cs.

(** ** The worker of a mock client *)

Record MockWorker := mkMockWorker { mw_actEnv : ActEnv; mw_mockClient : MockClient }.

Definition MockWorkerBuilder_worker {C} (client : MockClient + C) (options : string) (h : env_heap) :
    res (MockWorker * env_heap) :=
  '(mockClient, h) ← MockWorkerBuilder client options h;
  Ok (mkMockWorker (ActEnv_SetWorkerOptions options NewTestActivityEnvironment) mockClient, h).

(** [Start], [Run] and [Stop] do nothing. *)
Definition MockWorker_Start : option error := None.
Definition MockWorker_Run (interruptCh : ()) : option error := None.
Definition MockWorker_Stop (h : env_heap) : env_heap := h.

Definition MockWorker_RegisterWorkflow (w : value) (mw : MockWorker) (h : env_heap) : env_heap :=
  alter (RegisterWorkflow w) (mc_Env (mw_mockClient mw)) h.
Definition MockWorker_RegisterWorkflowWithOptions (w : value) (options : string) (mw : MockWorker) (h : env_heap) : env_heap :=
  alter (RegisterWorkflowWithOptions w options) (mc_Env (mw_mockClient mw)) h.
Definition MockWorker_RegisterActivity (a : value) (mw : MockWorker) (h : env_heap) : env_heap :=
  alter (RegisterActivity a) (mc_Env (mw_mockClient mw)) h.
Definition MockWorker_RegisterActivityWithOptions (a : value) (options : string) (mw : MockWorker) (h : env_heap) : env_heap :=
  alter (RegisterActivityWithOptions a options) (mc_Env (mw_mockClient mw)) h.
Definition GetTestActivityEnv (mw : MockWorker) : ActEnv := mw_actEnv mw.
End client.

(** ** Results by type

    A getter of the SDK is given a pointer and may write through it, also when it fails:
    from what the pointed-to variable holds to what it then holds, and an error. *)
Section results.
Context {T : Type} (zero : T).
Definition getter := T → T * option error.

Definition Run_Get (get : getter) : T * option error := let '(t, err) := get zero in (t, err).
Definition Run_GetWithOptions {Options} (get : Options → getter) (options : Options) : T * option error :=
  let '(t, err) := get options zero in (t, err).
Definition Future_Get (get : getter) : T * option error := let '(t, err) := get zero in (t, err).
Definition TestFuture_Get (get : getter) : T * option error := let '(v, err) := get zero in (v, err).

(** [ExecuteTestActivity]: the future comes with the error. *)
Definition ExecuteTestActivity {Env} (ExecuteActivity : Env → string → list value → getter * option error)
    (env : Env) (name : string) (params : list value) : getter * option error :=
  let '(r, err) := ExecuteActivity env name params in (r, err).

(** Reading a result of the mock's environment: [decode] is the SDK's conversion of a
    result into a variable of the type. *)
Definition run_getter `{TestEnv} (decode : value → T → T * option error) (m : MockWorkflowRun) (h : env_heap) : getter :=
  λ t, match MockWorkflowRun_Get m h with
       | Ok v => decode v t
       | Err e => (t, Some e)
       | Panic p => (t, Some (ErrText "panic"))
       end.
End results.

(** * Properties *)

Section properties.
Context `{TestEnv, !TestEnvCalls}.

(** The four methods that the mock implements. *)
Definition implemented (c : client_call) : bool :=
  match c with
  | ExecuteWorkflow_call _ _ _ _ | SignalWorkflow_call _ _ _ _ | CancelWorkflow_call _ _ | QueryWorkflow_call _ _ _ _ => true
  | _ => false
  end.

Lemma call_frame c m h p :
  p ≠ mc_Env m → (MockClient_call c m h).2 !! p = h !! p.
Proof.
  intros Hp. unfold env_heap in *. destruct c; try done; cbn.
  - by rewrite lookup_alter_ne.
  - unfold MockClient_SignalWorkflow, env_heap in *. destruct (h !! mc_Env m) as [env|]; [|done].
    destruct (SignalWorkflowByID _ _ _ _). cbn. by rewrite lookup_insert_ne.
  - by rewrite lookup_alter_ne.
Qed.

Lemma call_dom c m h : dom (MockClient_call c m h).2 = dom h.
Proof.
  unfold env_heap in *. destruct c; try done; cbn; [by rewrite dom_alter_L| |by rewrite dom_alter_L].
  unfold MockClient_SignalWorkflow, env_heap in *. destruct (h !! mc_Env m) as [env|] eqn:E; [|done].
  destruct (SignalWorkflowByID _ _ _ _). cbn. by rewrite dom_insert_lookup_L.
Qed.

(** Whatever a service calls on a mock client, in whatever order, only the client's own
    environment changes and no environment appears or goes away; the calls that the
    mock does not implement give nil for a result and nil for an error, and can be
    left out of the sequence. *)
Theorem MockClient_calls_frame cs m h :
  let h' := MockClient_calls cs m h in
  dom h' = dom h ∧ (∀ p, p ≠ mc_Env m → h' !! p = h !! p) ∧
  h' = MockClient_calls (filter (λ c, implemented c = true) cs) m h ∧
  (∀ c, implemented c = false → MockClient_call c m h = (Nothing, h)).
Proof.
  cbn zeta. split_and!; [| |revert h|intros []; done].
  - revert h. induction cs as [|c cs IH]; intros h; [done|]. cbn. by rewrite IH call_dom.
  - revert h. induction cs as [|c cs IH]; intros h p Hp; [done|]. cbn. by rewrite IH // call_frame.
  - induction cs as [|c cs IH]; intros h; [done|]. rewrite filter_cons. case_decide as Hc; cbn; [apply IH|].
    assert ((MockClient_call c m h).2 = h) as -> by (by destruct c). apply IH.
Qed.

(** A worker of the mock registers with the environment in which the client then runs
    its workflows: the run sees what was registered before it. *)
Theorem MockWorker_registers {C} m options h w name uuid o wf args env :
  h !! mc_Env m = Some env →
  ∃ mw h1, MockWorkerBuilder_worker (C := C) (inl m) options h = Ok (mw, h1) ∧
    let h2 := MockWorker_RegisterWorkflowWithOptions w name mw h1 in
    let '(run, h3) := MockClient_ExecuteWorkflow uuid o wf args m h2 in
    MockWorkflowRun_Get run h3 =
      GetWorkflowResult (EnvExecuteWorkflow wf args
        (SetStartWorkflowOptions
           (mkStartWorkflowOptions (swo_TaskQueue o) (if bool_decide (swo_ID o = "") then uuid else swo_ID o))
           (RegisterWorkflowWithOptions w name (SetWorkerOptions options env)))).
Proof.
  intros Henv. unfold MockWorkerBuilder_worker. cbn. eexists _, _. split; [done|].
  unfold MockWorker_RegisterWorkflowWithOptions, MockClient_ExecuteWorkflow, MockWorkflowRun_Get. cbn.
  rewrite !lookup_alter_eq Henv /=. case_bool_decide; [done|]. by destruct o.
Qed.

(** Through the typed wrapper of a run the caller gets what the result of the client's
    last workflow converts to, and no error, or the zero value of the type, as long as
    the conversion writes nothing when it fails, and the error. *)
Theorem Run_Get_mock {T} (zero : T) decode m h env t :
  h !! mr_Env m = Some env →
  (∀ v t t' e, decode v t = (t', Some e) → t' = t) →
  let r := Run_Get zero (run_getter decode m h) in
  (r = (t, None) ↔ ∃ v, GetWorkflowResult env = Ok v ∧ decode v zero = (t, None)) ∧
  (is_Some r.2 → r.1 = zero).
Proof.
  intros Henv Hd. unfold Run_Get, run_getter, MockWorkflowRun_Get. rewrite Henv /=.
  destruct (GetWorkflowResult env) as [v|e|p]; cbn; [|split; [split; [done|by intros (v&?&?)]|done]..].
  destruct (decode v zero) as [t' [e|]] eqn:E; cbn.
  - split; [split; [done|intros (v'&[= <-]&E'); congruence]|]. intros _. by eapply Hd.
  - split; [|by intros []]. split; [intros [= ->]; by exists v|]. intros (v'&[= <-]&E'). congruence.
Qed.
End properties.

(** ** An environment that counts *)

Module TemporalTesterExample.
(** The names that are registered, and the last workflow that ran. *)
#[export] Instance env : TestEnv := {|
  Env := list string * option string;
  NewTestWorkflowEnvironment := ([], None);
  SetStartWorkflowOptions := λ _ e, e;
  SetWorkerOptions := λ _ e, e;
  RegisterWorkflowWithOptions := λ _ name e, (name :: e.1, e.2);
  EnvExecuteWorkflow := λ wf _ e, (e.1, Some wf);
  GetWorkflowResult := λ e, match e.2 with
                            | Some wf => if bool_decide (wf ∈ e.1) then Ok (VString wf) else Err (ErrText "not registered")
                            | None => Err (ErrText "not completed")
                            end
|}.
#[export] Instance calls : TestEnvCalls := {|
  SignalWorkflowByID := λ _ _ _ e, (e, None);
  CancelWorkflow := λ e, (e.1, None);
  QueryWorkflowByID := λ _ _ _ _, Ok VNil;
  RegisterWorkflow := λ _ e, e;
  RegisterActivity := λ _ e, e;
  RegisterActivityWithOptions := λ _ _ e, e;
  ActEnv := ();
  NewTestActivityEnvironment := ();
  ActEnv_SetWorkerOptions := λ _ e, e
|}.
Definition client : MockClient := NewTemporalMockClient 1%positive.
Definition heap : env_heap := {[1%positive := ([], None); 2%positive := (["other"], None)]}.
Definition decode (v : value) (s : string) : string * option error :=
  match v with VString s => (s, None) | _ => (s, Some (ErrText "not a string")) end.
End TemporalTesterExample.
Import TemporalTesterExample.

Lemma MockWorker_registers_witness :
  ∃ mw h1, MockWorkerBuilder_worker (C := ()) (inl client) "opts" heap = Ok (mw, h1) ∧
    let '(run, h3) := MockClient_ExecuteWorkflow "id" (mkStartWorkflowOptions "q" "") "Pay" []
      client (MockWorker_RegisterWorkflowWithOptions VFunc "Pay" mw h1) in
    MockWorkflowRun_Get run h3 = Ok (VString "Pay").
Proof.
  exact (MockWorker_registers (C := ()) client "opts" heap VFunc "Pay" "id" (mkStartWorkflowOptions "q" "") "Pay" []
    ([], None) eq_refl).
Defined.

Lemma Run_Get_mock_witness :
  let h : env_heap := {[1%positive := (["Pay"], Some "Pay")]} in
  Run_Get "" (run_getter decode (mkMockWorkflowRun 1%positive "id") h) = ("Pay", None).
Proof.
  intros h. destruct (Run_Get_mock "" decode (mkMockWorkflowRun 1%positive "id") h (["Pay"], Some "Pay") "Pay"
    eq_refl) as [[_ H] _].
  - by intros [] t t' e [=].
  - apply H. exists (VString "Pay"). split; reflexivity.
Defined.
