(* ===== verification/ServiceHandler.v ===== *)
(** * Generated service handlers: src/codegen/arrai/auto/svc_handler.arrai and
    src/codegen/arrai/auto/grpc_handler.arrai

    The handler of an endpoint, as the generator writes it for any endpoint: it
    checks the authorization rule, reads the parameters of the request, validates
    it, calls the service, and sends what it returns. This is where packages
    common, convert, restlib, authrules and jwtauth meet. An endpoint is described
    by what the templates ask about it; [DbHandler] has what the templates add for a
    database, and the map of temporal clients in a context is left out. *)

From S2P Require Export Downstream Middleware Support.

(** ** What the generator knows of an endpoint *)

Inductive body_kind := BodyBytes | BodyString | BodyJSON.
Inductive opt_type := OptInt | OptBool | OptTime | OptString.
Inductive header_check := CheckNone | CheckRegex (regex : string) | CheckTag (tag : string).

Record header_param := mk_header_param {
  hp_name : string;
  hp_required : bool;
  hp_check : header_check
}.

(** What the endpoint may return; [rs_validate] if it is a structured type. *)
Record return_spec := mk_return_spec {
  rs_validate : bool;
  rs_contentType : string;
  rs_code : Z
}.

(** Parameters are pairs of a field of the request and the name it is sent under. *)
Record EndpointSpec := mkEndpointSpec {
  ep_method : string;
  ep_rule : option string;
  ep_body : option body_kind;
  ep_urlInts : list (string * string);
  ep_urlStrings : list (string * string);
  ep_queryStrings : list (string * string);
  ep_queryInts : list (string * string);
  ep_queryBools : list (string * string);
  ep_queryTimes : list (string * string);
  ep_optQueries : list (string * string * opt_type);
  ep_headers : list header_param;
  ep_returns : list return_spec;
  ep_permitInvalidResponse : bool
}.

(** ** The request structure: a field by its name *)

Section fields.
Context {T : Type}.
Inductive field :=
| FBytes (b : string)
| FString (s : string)
| FJSON (v : value)
| FInt (z : Z)
| FBool (b : bool)
| FTime (t : T)
| FIntPtr (z : option Z)
| FBoolPtr (b : option bool)
| FTimePtr (t : option T)
| FStringPtr (s : option string).
End fields.
Arguments field : clear implicits.
Notation fields T := (gmap string (field T)).

(** What a handler reports when it gives up. *)
Record failure := mk_failure {
  fl_kind : Z;
  fl_message : string;
  fl_cause : option error
}.

(** ** The state of an application *)

(** What services and middleware share: the monitors of response bodies, the response
    headers and statuses of requests, and the application's own state. *)
Record SvcState (U : Type) := mkSvcState {
  sv_monitors : gmap loc monitor;
  sv_resp : resp_heap;
  sv_user : U
}.
Arguments mkSvcState {U}.
Arguments sv_monitors {U}.
Arguments sv_resp {U}.
Arguments sv_user {U}.

#[export] Instance SvcState_monitors U : HasMonitors (SvcState U) := {
  get_monitors s := sv_monitors s;
  set_monitors m s := mkSvcState m (sv_resp s) (sv_user s);
  get_set_monitors _ _ := eq_refl
}.

(** With it, the authenticator of each endpoint that has a rule; only the handler of
    the endpoint reaches it. *)
Record AppState `{Jose} (U : Type) := mkAppState {
  ap_svc : SvcState U;
  ap_auth : gmap string (StdAuthenticator RemoteJWKSIssuer)
}.
Arguments mkAppState {_ U}.
Arguments ap_svc {_ U}.
Arguments ap_auth {_ U}.

#[export] Instance AppState_monitors `{Jose} U : HasMonitors (AppState U) := {
  get_monitors s := sv_monitors (ap_svc s);
  set_monitors m s := mkAppState (set_monitors m (ap_svc s)) (ap_auth s);
  get_set_monitors _ _ := eq_refl
}.

(** ** What the generated code calls outside this repository

    [time.Parse]; [io.ReadAll] and the JSON decoder on a body; [chi.URLParam], the
    query and [strconv.ParseBool]; a regular expression of common/regex.go; the
    validator on a string, a request and a response; the encoders of responses and
    of error documents; the order in which a header is ranged over; the text of a
    panic value; the world while a request is served; and [Err()] of a context with
    a timeout. *)
Class Platform `{Jose} (T U : Type) := mkPlatform {
  time_Parse : string → string → error + T;
  ReadAll : Request → error + string;
  json_Decode : Request → error + value;
  URLParam : Request → string → string;
  query : Request → string → string;
  ParseBool : string → error + bool;
  regex_match : string → string → res bool;
  valid_string : string → string → option error;
  valid_request : fields T → option error;
  valid_response : payload → option error;
  xml_Encode : payload → option string;
  json_Encode : payload → option string;
  json_text : marshal_target → string;
  range_header : Header → list (string * list string);
  fmt_panic : panicval → string;
  world : Request → RemoteEnv;
  timeout_Err : Z → Context → SvcState U → option error
}.

(** ** Calls of [common.HandleError] with a context that may be nil

    [CreateError] asks the context for its error before anything else, once the
    cause is known not to write itself. *)
Definition HandleError_ptr (json_text : marshal_target → string) (ctx : option Context) (w : RW) (kind : Z)
    (message : string) (cause : option error) (mapper : option ErrorMapper) (writer : option HTTPErrorWriter) :
    RW * res () :=
  match ctx with
  | Some ctx => (HandleError json_text ctx w kind message cause mapper writer, Ok ())
  | None =>
    match cause ≫= ErrorWriter with
    | Some write => let '(handled, w') := write w in (w', if handled then Ok () else Panic nil_dereference)
    | None => (w, Panic nil_dereference)
    end
  end.

(** A writer panics on a status it does not accept, with nothing of it sent. *)
Fixpoint good_calls (l : list rwcall) : list rwcall :=
  match l with
  | [] => []
  | c :: l => if bad_code c then [] else c :: good_calls l
  end.
Definition checked (r : RW * res ()) : RW * res () :=
  let '(w, out) := r in
  if existsb bad_code (rw_calls w) then (mkRW (rw_header w) (good_calls (rw_calls w)), Panic invalid_code) else (w, out).

(** ** Reading the request *)

Section stages.
Context `{Jose} {T U : Type} `{!Platform T U}.

(** A stage reads the request into the structure, or reports a failure. *)
Definition stage := Context → Request → fields T → res (failure + fields T).

Fixpoint run_stages (l : list stage) : stage := λ ctx r req,
  match l with
  | [] => Ok (inr req)
  | st :: l =>
      x ← st ctx r req;
      match x with inl f => Ok (inl f) | inr req => run_stages l ctx r req end
  end.

Definition set_field (name : string) (get : Request → field T) : stage := λ _ r req, Ok (inr (<[name := get r]> req)).

(** [req.F, err = f(...); if err != nil { HandleError(..., BadRequestError, message, err, ...) }]. *)
Definition conv_field (message name : string) (get : Context → Request → res (field T)) : stage := λ ctx r req,
  match get ctx r with
  | Ok v => Ok (inr (<[name := v]> req))
  | Err err => Ok (inl (mk_failure BadRequestError message (Some err)))
  | Panic p => Panic p
  end.

Definition of_sum {A} (x : error + A) : res A := match x with inl e => Err e | inr a => Ok a end.

Definition body_stage (k : body_kind) : stage :=
  conv_field "Error reading request body" "Request" (λ _ r,
    match k with
    | BodyBytes => FBytes <$> of_sum (ReadAll r)
    | BodyString => FString <$> of_sum (ReadAll r)
    | BodyJSON => FJSON <$> of_sum (json_Decode r)
    end).

Definition opt_stage (p : string * string * opt_type) : stage :=
  conv_field "Invalid request" p.1.1 (λ ctx r,
    let s := GetQueryParam (query r) p.1.2 in
    match p.2 with
    | OptInt => FIntPtr <$> StringToIntPtr ctx s
    | OptBool => FBoolPtr <$> StringToBoolPtr ctx s
    | OptTime => FTimePtr <$> StringToTimePtr time_Parse ctx s
    | OptString => FStringPtr <$> StringToStringPtr ctx s
    end).

Definition bad_header (message : string) (cause : error) : res (failure + fields T) :=
  Ok (inl (mk_failure BadRequestError message (Some cause))).

(** The causes are errors of types of their own, which tell their text and their own
    cause here. *)
Definition check_header (p : header_param) (v : string) (req : fields T) : res (failure + fields T) :=
  match hp_check p with
  | CheckNone => Ok (inr req)
  | CheckRegex regex =>
      ok ← regex_match regex v;
      if ok : bool then Ok (inr req)
      else bad_header (hp_name p +:+ " header does not fit the required regex")
             (ErrText (InvalidHeaderError_Error (NewInvalidHeaderError (hp_name p) None)))
  | CheckTag tag =>
      match valid_string v tag with
      | None => Ok (inr req)
      | Some errs => bad_header (hp_name p +:+ " header does not fit the required validations")
                       (ErrWrap (InvalidHeaderError_Error (NewInvalidHeaderError (hp_name p) (Some errs))) errs)
      end
  end.

Definition header_stage (p : header_param) : stage := λ _ r req,
  let v := GetHeaderParam (req_Header r) (hp_name p) in
  if bool_decide (v = "") then
    if hp_required p then
      bad_header (hp_name p +:+ " header length is zero")
        (ErrText (ZeroHeaderLengthError_Error (NewZeroHeaderLengthError (hp_name p))))
    else Ok (inr req)
  else check_header p v req.

Definition stages_of (ep : EndpointSpec) : list stage :=
  (match ep_body ep with Some k => [body_stage k] | None => [] end) ++
  ((λ p, set_field p.1 (λ r, FInt (GetURLParamForInt (URLParam r) p.2))) <$> ep_urlInts ep) ++
  ((λ p, set_field p.1 (λ r, FString (GetURLParam (URLParam r) p.2))) <$> ep_urlStrings ep) ++
  ((λ p, set_field p.1 (λ r, FString (GetQueryParam (query r) p.2))) <$> ep_queryStrings ep) ++
  ((λ p, conv_field "Invalid request" p.1 (λ _ r, FInt <$> GetQueryParamForInt (query r) p.2)) <$> ep_queryInts ep) ++
  ((λ p, conv_field "Invalid request" p.1 (λ _ r, FBool <$> GetQueryParamForBool (query r) ParseBool p.2)) <$> ep_queryBools ep) ++
  ((λ p, conv_field "Invalid request" p.1 (λ _ r, FTime <$> of_sum (GetQueryParamForTime time_Parse (query r) p.2))) <$> ep_queryTimes ep) ++
  (opt_stage <$> ep_optQueries ep) ++
  (header_stage <$> ep_headers ep).
End stages.

(** ** The REST handler *)

Section rest_handler.
Context `{Jose} {T U R : Type} `{!Platform T U}.

Notation St := (StdAuthenticator RemoteJWKSIssuer).

(** [Cfg] of the callback is the upstream configuration. *)
Record ServiceHandler := mkServiceHandler {
  sh_genCallback : Callback UpstreamConfig R;
  sh_authorizationRules : gmap string (Rule St RemoteEnv)
}.

(** A method of the service interface, which the application may leave nil. *)
Definition ServiceMethod := Context → fields T → SvcState U → SvcState U * res (list payload).

Section with_callback.
Context (g : Callback UpstreamConfig R).

Definition handle_error (ctx : option Context) (w : RW) (f : failure) : RW * res () :=
  checked (HandleError_ptr json_text ctx w (fl_kind f) (fl_message f) (fl_cause f)
             (Some (Callback_MapError g)) (Some (Callback_WriteError json_text g))).

Definition DownstreamTimeoutContext (ctx : Context) (s : SvcState U) : Context :=
  mkContext (timeout_Err (cb_DownstreamTimeout g) ctx s) (ctx_Value ctx).

(** Of several types of responses the ones that are not nil are validated. *)
Fixpoint invalid_response (several : bool) (returns : list return_spec) (responses : list payload) : option error :=
  match returns, responses with
  | rs :: returns, p :: responses =>
      let checked := rs_validate rs && (negb several || match p with PayNil => false | _ => true end) in
      match (if checked then valid_response p else None) with
      | Some err => Some err
      | None => invalid_response several returns responses
      end
  | _, _ => None
  end.

Definition all_equal {A} `{EqDecision A} (l : list A) : bool :=
  match l with [] => true | x :: l => forallb (λ y, bool_decide (y = x)) l end.

(** The chain [if a != nil { ... } else if b != nil { ... }]. *)
Fixpoint first_returned {A} (returns : list A) (responses : list payload) : option A :=
  match returns, responses with
  | a :: returns, PayNil :: responses => first_returned returns responses
  | a :: _, _ :: _ => Some a
  | _, _ => None
  end.

Definition default_content_type (returns : list return_spec) (responses : list payload) : option string :=
  match returns with
  | [] => Some "application/json"
  | rs :: _ => if all_equal (rs_contentType <$> returns) then Some (rs_contentType rs)
               else rs_contentType <$> first_returned returns responses
  end.

Definition default_status (returns : list return_spec) (responses : list payload) : Z :=
  match returns with
  | [] => StatusOK
  | rs :: _ => if all_equal (rs_code <$> returns) then rs_code rs
               else default StatusOK (rs_code <$> first_returned returns responses)
  end.

(** From the validation of the response to its sending. The header map is the
    request's own: nobody sees it afterwards. *)
Definition send_response (ep : EndpointSpec) (ctx : Context) (responses : list payload) (s : SvcState U) (w : RW) :
    RW * res () :=
  let invalid := if ep_permitInvalidResponse ep then None
                 else invalid_response (bool_decide (1 < length (ep_returns ep))%nat) (ep_returns ep) responses in
  match invalid with
  | Some valErr => handle_error (Some ctx) w (mk_failure InternalError "Invalid response" (Some valErr))
  | None =>
    let '(headermap, httpstatus) := RespHeaderAndStatusFromContext ctx (sv_resp s) in
    let set := match default_content_type (ep_returns ep) responses with
               | Some ct => if bool_decide (nil_header_get headermap "Content-Type" = "") then Some ct else None
               | None => None
               end in
    match set, headermap with
    | Some _, None => (w, Panic nil_map_write)
    | _, _ =>
        let headermap := match set with
                         | Some ct => header_set (default ∅ headermap) "Content-Type" ct
                         | None => default ∅ headermap
                         end in
        let httpstatus := if bool_decide (httpstatus = 0)%Z then default_status (ep_returns ep) responses else httpstatus in
        let w := SetHeaders (range_header headermap) w in
        checked (SendHTTPResponse xml_Encode json_Encode httpstatus
                   (match ep_returns ep with [] => [PayNil] | _ => responses end) w)
    end
  end.

(** The deferred function that recovers. *)
Definition recovered_call (ctx : Context) (r : RW * res ()) : RW * res () :=
  match r with
  | (w, Panic p) =>
    match recover p with
    | Some rec =>
        let err := match rec with PanicError e => e | _ => ErrText ("Unknown error: " +:+ fmt_panic rec) end in
        handle_error (Some ctx) w (mk_failure InternalError "Unexpected panic" (Some err))
    | None => (w, Ok ())
    end
  | _ => r
  end.

(** The call of the service, under that deferred function; time passes meanwhile. *)
Definition call_service (ep : EndpointSpec) (service : ServiceMethod) (ctx : Context) (req : fields T)
    (s : SvcState U) (w : RW) : SvcState U * RW * res () :=
  let '(s, out) := service (DownstreamTimeoutContext ctx s) req s in
  let ctx := DownstreamTimeoutContext ctx s in
  let '(w, out) := recovered_call ctx
    match out with
    | Ok responses => send_response ep ctx responses s w
    | Err err => handle_error (Some ctx) w (mk_failure InternalError "Handler error" (Some err))
    | Panic p => (w, Panic p)
    end in
  (s, w, out).

(** What follows the authorization, around the call. *)
Definition ServiceCall := Context → fields T → SvcState U → RW → SvcState U * RW * res ().
Definition serve_with (ep : EndpointSpec) (call : ServiceCall) (ctx : Context) (r : Request)
    (s : SvcState U) (w : RW) : SvcState U * RW * res () :=
  let '(ctx, resp) := RespHeaderAndStatusToContext ctx (Some ∅) 0 (sv_resp s) in
  let s := mkSvcState (sv_monitors s) resp (sv_user s) in
  match run_stages (stages_of ep) ctx r ∅ with
  | Panic p => (s, w, Panic p)
  | Err e => (s, w, Ok ()) (* no stage returns an error *)
  | Ok (inl f) => let '(w, out) := handle_error (Some ctx) w f in (s, w, out)
  | Ok (inr req) =>
      match valid_request req with
      | Some valErr =>
          let ctx := DownstreamTimeoutContext ctx s in
          let '(w, out) := handle_error (Some ctx) w (mk_failure BadRequestError "Invalid request" (Some valErr)) in
          (s, w, out)
      | None => call ctx req s w
      end
  end.
Definition serve_request (ep : EndpointSpec) (service : ServiceMethod) : Context → Request → SvcState U → RW →
    SvcState U * RW * res () := serve_with ep (call_service ep service).
End with_callback.

Definition nil_parent : panicval := PanicString "cannot create context from nil parent".

(** The decision on a request: what its rule makes of it and of the endpoint's
    authenticator. A rule returns its error next to a context. *)
Definition decision := res (option Context * option error).
Definition run_rule (rule : Rule St RemoteEnv) (method : string) (ctx : Context) (r : Request) (s : AppState U) :
    AppState U * decision :=
  let '(a, out) := rule (world r) ctx (default (mkStdAuthenticator ∅) (ap_auth s !! method)) in
  (mkAppState (ap_svc s) (<[method := a]> (ap_auth s)), out).

(** The handler around the call; without one the method is nil. *)
Definition handler_with (h : ServiceHandler) (ep : EndpointSpec) (call : option ServiceCall) :
    Handler (AppState U) := λ r s w,
  let g := sh_genCallback h in
  let report s ctx f := let '(w, out) := handle_error g ctx w f in (s, w, out) in
  match call with
  | None => report s (Some (req_ctx r)) (mk_failure InternalError "not implemented" None)
  | Some call =>
    let ctx := RequestHeaderToContext range_header (req_ctx r) (Some (req_Header r)) in
    let serve ctx s :=
      match ctx with
      | None => (s, w, Panic nil_parent)
      | Some ctx => let '(s', w', out) := serve_with g ep call ctx r (ap_svc s) w in
                    (mkAppState s' (ap_auth s), w', out)
      end in
    match ep_rule ep with
    | None => serve (Some ctx) s
    | Some _ =>
      match sh_authorizationRules h !! ep_method ep with
      | None => report s (Some (req_ctx r))
          (mk_failure InternalError ("authorization rule for method " +:+ ep_method ep +:+ " not implemented") None)
      | Some rule =>
        let '(s, out) := run_rule rule (ep_method ep) ctx r s in
        match out with
        | Panic p => (s, w, Panic p)
        | Err e => report s None (mk_failure UnauthorizedError "Auth error" (Some e))
        | Ok (ctx, Some e) => report s ctx (mk_failure UnauthorizedError "Auth error" (Some e))
        | Ok (ctx, None) => serve ctx s
        end
      end
    end
  end.
Definition MethodHandler (h : ServiceHandler) (ep : EndpointSpec) (service : option ServiceMethod) :
    Handler (AppState U) := handler_with h ep (call_service (sh_genCallback h) ep <$> service).
End rest_handler.
Arguments mkServiceHandler {_ R}.
Arguments sh_genCallback {_ R}.
Arguments sh_authorizationRules {_ R}.

(** ** The constructor: a rule, and an authenticator, for each endpoint that has one *)

Section constructor.
Context `{Crypto, Jose} {R : Type}.
Notation St := (StdAuthenticator RemoteJWKSIssuer).
(** [core.ResolveRESTAuthorizationRule] or its gRPC counterpart, with the context and
    the hooks of the application. *)
Context (resolve : string → string → res (Rule St RemoteEnv * St)).

Fixpoint make_rules (eps : list (string * option string)) (rules : gmap string (Rule St RemoteEnv))
    (auth : gmap string St) : res (gmap string (Rule St RemoteEnv) * gmap string St) :=
  match eps with
  | [] => Ok (rules, auth)
  | (method, None) :: eps => make_rules eps rules auth
  | (method, Some expr) :: eps =>
      '(authRule, a) ← resolve method expr;
      make_rules eps (<[method := authRule]> rules) (<[method := a]> auth)
  end.

Definition NewServiceHandler (genCallback : Callback UpstreamConfig R) (eps : list EndpointSpec) :
    res (ServiceHandler (R := R) * gmap string St) :=
  '(rules, auth) ← make_rules ((λ ep, (ep_method ep, ep_rule ep)) <$> eps) ∅ ∅;
  Ok (mkServiceHandler genCallback rules, auth).
End constructor.

(** ** The gRPC handler *)

Definition Unimplemented : Z := 12.

Section grpc_handler.
Context `{Jose} {T U R Req Resp : Type} `{!Platform T U}.
Notation St := (StdAuthenticator RemoteJWKSIssuer).
(** The world while a call is served. *)
Context (g : Callback UpstreamConfig R) (rules : gmap string (Rule St RemoteEnv)).

Definition GrpcMethod (method : string) (has_rule : bool)
    (service : option (Context → Req → SvcState U → SvcState U * res Resp)) (env : RemoteEnv) (ctx : Context)
    (req : Req) (s : AppState U) : AppState U * res Resp :=
  match service with
  | None => (s, Err (ErrStatus Unimplemented ("method " +:+ method +:+ " not implemented")))
  | Some f =>
    let ctx := DownstreamTimeoutContext g ctx (ap_svc s) in
    let serve ctx s :=
      match ctx with
      | Some ctx => let '(sv, out) := f ctx req (ap_svc s) in (mkAppState sv (ap_auth s), out)
      | None => (s, Panic nil_dereference) (* for the service to dereference *)
      end in
    if has_rule then
      match rules !! method with
      | None => (s, Err (ErrStatus Unimplemented ("authorization rule for method " +:+ method +:+ " not implemented")))
      | Some rule =>
        let '(a, out) := rule env ctx (default (mkStdAuthenticator ∅) (ap_auth s !! method)) in
        let s := mkAppState (ap_svc s) (<[method := a]> (ap_auth s)) in
        match out with
        | Panic p => (s, Panic p)
        | Err err | Ok (_, Some err) => (s, Err err)
        | Ok (ctx, None) => serve ctx s
        end
      end
    else serve (Some ctx) s
  end.
End grpc_handler.

(** * What a generated handler does *)

Definition plain_cause (cause : option error) : bool :=
  match cause with
  | Some (ErrWrapped _ _) => false
  | Some e => bool_decide (ErrorWriter e = None)
  | None => true
  end.

Definition writer_ok (w : RW) : Prop := existsb bad_code (rw_calls w) = false.

Lemma checked_ok w out : writer_ok w → checked (w, out) = (w, out).
Proof. unfold checked, writer_ok. by intros ->. Qed.

Lemma existsb_app_false {A} (f : A → bool) l k :
  existsb f l = false → existsb f k = false → existsb f (l ++ k) = false.
Proof. rewrite existsb_app. by intros -> ->. Qed.

Section handler_properties.
Context `{Jose} {T U R : Type} `{!Platform T U}.

(** The default hooks of a callback. *)
Definition default_hooks (g : Callback UpstreamConfig R) : Prop :=
  cb_MapErrorFunc g = None ∧ cb_WriteErrorFunc g = None.

Lemma default_hooks_handle g ctx w kind message cause :
  default_hooks g →
  HandleError json_text ctx w kind message cause (Some (Callback_MapError g)) (Some (Callback_WriteError json_text g)) =
  HandleError json_text ctx w kind message cause None None.
Proof.
  intros [Hm Hw]. unfold HandleError.
  assert (∀ w, handle_mapped json_text ctx w kind message cause (Some (Callback_MapError g)) (Some (Callback_WriteError json_text g)) =
    handle_mapped json_text ctx w kind message cause None None) as E.
  2: { destruct (cause ≫= ErrorWriter) as [wr|]; rewrite ?E //. destruct (wr w) as [[] u]; by rewrite ?E. }
  intros u. rewrite !handle_mapped_unwrapped. destruct (unwrapped cause) as [e fields]. cbn zeta.
  unfold Callback_WriteError, resolveErrorAsHTTPError, Callback_MapError. by rewrite Hw /= Hm.
Qed.

(** With the default hooks a failure is one response, of the status its kind and
    cause come to. *)
Lemma handle_error_response g ctx w f :
  default_hooks g → writer_ok w → plain_cause (fl_cause f) = true →
  valid_code (spec_status ctx (fl_kind f) (fl_cause f)) = true →
  ∃ body, handle_error g (Some ctx) w f =
    (mkRW (json_headers w) (rw_calls w ++
       [CallWriteHeader (spec_status ctx (fl_kind f) (fl_cause f)) (json_headers w); CallWrite body]), Ok ()).
Proof.
  intros Hg Hw Hp Hv. unfold handle_error, HandleError_ptr. rewrite default_hooks_handle //.
  pose proof (handle_mapped_response json_text ctx w (fl_kind f) (fl_message f) (fl_cause f)) as Hr.
  assert (unwrapped (fl_cause f) = (fl_cause f, [])) as Hu by (revert Hp; by destruct (fl_cause f) as [[]|]).
  rewrite Hu in Hr. destruct Hr as (code&body&E&Hcode).
  assert (fl_cause f ≫= ErrorWriter = None) as Hn.
  { revert Hp. destruct (fl_cause f) as [e|]; [|done]. cbn. destruct e; try done; by case_bool_decide. }
  unfold HandleError. rewrite Hn E. destruct Hcode as [->|(_&_&[])]; [|constructor].
  exists body. rewrite checked_ok //. unfold writer_ok. cbn. apply existsb_app_false; [done|]. cbn. by rewrite Hv.
Qed.

(** Without a context the failure itself panics. *)
Lemma handle_error_nil (g : Callback UpstreamConfig R) w f :
  fl_cause f ≫= ErrorWriter = None → writer_ok w → handle_error g None w f = (w, Panic nil_dereference).
Proof. intros Hf Hw. unfold handle_error, HandleError_ptr. by rewrite Hf checked_ok. Qed.

Implicit Types h : ServiceHandler (R := R).
Implicit Types f : ServiceMethod (T := T) (U := U).

(** *** The rule decides *)

(** A request is granted if the rule returned no error. *)
Definition granted (out : decision) : Prop := ∃ ctx', out = Ok (Some ctx', None).

Definition header_ctx (r : Request) : Context := RequestHeaderToContext range_header (req_ctx r) (Some (req_Header r)).

Definition decide_request (h : ServiceHandler (R := R)) (ep : EndpointSpec) (r : Request) (s : AppState U) :
    option (AppState U * decision) :=
  match ep_rule ep, sh_authorizationRules h !! ep_method ep with
  | Some _, Some rule => Some (run_rule rule (ep_method ep) (header_ctx r) r s)
  | _, _ => None
  end.

(** An endpoint with a rule reaches its service only for a request that the rule
    grants: otherwise nothing depends on what the service is. *)
Lemma handler_with_guarded h ep (call call' : ServiceCall (T := T) (U := U)) r s w :
  is_Some (ep_rule ep) →
  (∀ s' out, decide_request h ep r s = Some (s', out) → ¬ granted out) →
  (∀ s' out, decide_request h ep r s = Some (s', out) → out ≠ Ok (None, None)) →
  handler_with h ep (Some call) r s w = handler_with h ep (Some call') r s w.
Proof.
  intros [expr He] Hg Hn. unfold decide_request, handler_with, header_ctx in *. rewrite He in Hg Hn |- *.
  destruct (sh_authorizationRules h !! ep_method ep) as [rule|]; [|done].
  destruct (run_rule _ _ _ _ _) as [s' out]. specialize (Hg _ _ eq_refl). specialize (Hn _ _ eq_refl).
  destruct out as [[[ctx'|] [e|]]|e|p]; try done. destruct Hg. by eexists.
Qed.

Lemma MethodHandler_guarded h ep f f' r s w :
  is_Some (ep_rule ep) →
  (∀ s' out, decide_request h ep r s = Some (s', out) → ¬ granted out) →
  (∀ s' out, decide_request h ep r s = Some (s', out) → out ≠ Ok (None, None)) →
  MethodHandler h ep (Some f) r s w = MethodHandler h ep (Some f') r s w.
Proof. apply handler_with_guarded. Qed.

(** What the handler does to the authenticators: only its rule's own changes. *)
Lemma MethodHandler_auth h ep svc r s w :
  ap_auth (MethodHandler (T := T) h ep svc r s w).1.1 = ap_auth s ∨
  ∃ s' out, decide_request h ep r s = Some (s', out) ∧ ap_auth (MethodHandler h ep svc r s w).1.1 = ap_auth s'.
Proof.
  unfold decide_request, MethodHandler, handler_with, header_ctx. destruct svc as [f|]; cbn [fmap option_fmap option_map].
  2: { left. by destruct (handle_error _ _ _ _). }
  destruct (ep_rule ep).
  2: { left. cbn -[handle_error serve_with]. by destruct (serve_with _ _ _ _ _ _ _) as [[??]?]. }
  destruct (sh_authorizationRules h !! ep_method ep) as [rule|].
  2: { left. by destruct (handle_error _ _ _ _). }
  right. destruct (run_rule _ _ _ _ _) as [s' out]. exists s', out. split; [done|].
  destruct out as [[[ctx'|] [e|]]|e|p]; cbn -[handle_error serve_with];
    by repeat match goal with |- context [let '(_, _) := ?x in _] => destruct x as [??] end.
Qed.

(** A request whose token is refused, for any reason a rule gives next to a context,
    is answered 401. *)
Lemma MethodHandler_refused h ep f r s w s' ctx' e :
  default_hooks (sh_genCallback h) → writer_ok w →
  decide_request h ep r s = Some (s', Ok (Some ctx', Some e)) →
  is_deadline_exceeded ctx' = false → ErrorKinder e = None → plain_cause (Some e) = true →
  (∀ fields, e ≠ ErrCustom fields) →
  ∃ body, MethodHandler h ep (Some f) r s w =
    (s', mkRW (json_headers w) (rw_calls w ++ [CallWriteHeader StatusUnauthorized (json_headers w); CallWrite body]), Ok ()).
Proof.
  intros Hg Hw Hd Hdl Hk Hp Hc. unfold decide_request, header_ctx in Hd. unfold MethodHandler, handler_with.
  destruct (ep_rule ep); [|done]. destruct (sh_authorizationRules h !! ep_method ep) as [rule|]; [|done].
  injection Hd as ->.
  assert (spec_status ctx' UnauthorizedError (Some e) = StatusUnauthorized) as Hs.
  { unfold spec_status. rewrite Hdl Hk. assert (kind_status UnauthorizedError = StatusUnauthorized) as Hu by (vm_compute; reflexivity).
    destruct e; try exact Hu; [by edestruct Hc|done]. }
  destruct (handle_error_response (sh_genCallback h) ctx' w (mk_failure UnauthorizedError "Auth error" (Some e)) Hg Hw Hp)
    as [body E]; [by rewrite Hs|].
  exists body. cbn [fl_kind fl_cause] in E. by rewrite E Hs.
Qed.

Lemma header_ctx_token r :
  getBearerTokenFromIncomingRESTContext (header_ctx r) =
  match bearer_token (header_get (canonicalized range_header (req_Header r)) "Authorization") with
  | Some raw => Ok raw
  | None => Err (ErrAuth AuthErrCodeInvalidJWT (ErrText "no Authorization header containing bearer token"))
  end.
Proof.
  unfold getBearerTokenFromIncomingRESTContext, header_ctx, RequestHeaderToContext, RequestHeaderFromContext.
  by rewrite WithValue_same.
Qed.

(** A token that does not parse is refused, with the context. *)
Lemma decide_request_unparsed h ep r s authRule raw err :
  is_Some (ep_rule ep) →
  sh_authorizationRules h !! ep_method ep = Some (MakeRESTJWTAuthorizationRule authRule) →
  bearer_token (header_get (canonicalized range_header (req_Header r)) "Authorization") = Some raw →
  ParseSigned raw = inl err →
  ∃ s', ap_svc s' = ap_svc s ∧ decide_request h ep r s =
    Some (s', Ok (Some (header_ctx r), Some (ErrAuth AuthErrCodeInvalidJWT (ErrWrap "jwt parse error" err)))).
Proof.
  intros [expr He] Hr Hb Hp. unfold decide_request. rewrite He Hr. eexists (mkAppState _ _). split; [done|].
  unfold run_rule, MakeRESTJWTAuthorizationRule, jwt_rule. rewrite header_ctx_token Hb.
  unfold authorize, Authenticate, remote_authenticator, StdAuthenticator_Authenticator, StdAuthenticator_Authenticate.
  by rewrite Hp.
Qed.

(** A request with no bearer token is not answered at all: its rule gives no context
    to go on with, and [HandleError] dereferences it. *)
Lemma MethodHandler_no_token h ep f r s w authRule :
  is_Some (ep_rule ep) →
  sh_authorizationRules h !! ep_method ep = Some (MakeRESTJWTAuthorizationRule authRule) →
  bearer_token (header_get (canonicalized range_header (req_Header r)) "Authorization") = None → writer_ok w →
  ∃ s', ap_svc s' = ap_svc s ∧ MethodHandler h ep (Some f) r s w = (s', w, Panic nil_dereference).
Proof.
  intros [expr He] Hr Hb Hw. unfold MethodHandler, handler_with. rewrite He Hr. unfold run_rule, MakeRESTJWTAuthorizationRule, jwt_rule.
  fold (header_ctx r). rewrite header_ctx_token Hb.
  cbn -[handle_error]. rewrite handle_error_nil //. by eexists (mkAppState _ _).
Qed.

(** *** What a request that gets through is answered *)

Lemma SetHeaders_calls hs w : rw_calls (SetHeaders hs w) = rw_calls w.
Proof.
  unfold SetHeaders. revert w. induction hs as [|[k vs] hs IH]; intros w; [done|]. cbn. rewrite IH. cbn.
  clear. revert w. induction vs as [|v vs IH]; intros w; [done|]. cbn. by rewrite IH.
Qed.

(** The status a response is sent with: the one the service set, else the
    specification's. *)
Definition response_status (ep : EndpointSpec) (responses : list payload) (status : Z) : Z :=
  if bool_decide (status = 0)%Z then default_status (ep_returns ep) responses else status.

(** A response is one header with that status, and at most one body. *)
Lemma send_response_calls (g : Callback UpstreamConfig R) ep ctx responses (s : SvcState U) w l header status :
  writer_ok w → (ep_permitInvalidResponse ep = true ∨ ∀ p, valid_response p = None) →
  getRespHeaderAndStatusContext ctx (sv_resp s) = Some (l, mk_respHeaderAndStatus (Some header) status) →
  valid_code (response_status ep responses status) = true →
  let '(w', out) := send_response g ep ctx responses s w in
  ∃ hdr bodies, (length bodies ≤ 1)%nat ∧
    rw_calls w' = rw_calls w ++ CallWriteHeader (response_status ep responses status) hdr :: (CallWrite <$> bodies).
Proof.
  intros Hw Hvalid Hget Hcode. unfold send_response.
  assert ((if ep_permitInvalidResponse ep then None
    else invalid_response (bool_decide (1 < length (ep_returns ep))%nat) (ep_returns ep) responses) = None) as ->.
  { destruct Hvalid as [->|Hv]; [done|]. destruct (ep_permitInvalidResponse ep); [done|].
    generalize (bool_decide (1 < length (ep_returns ep))%nat). intros b. generalize responses.
    induction (ep_returns ep) as [|rs rss IH]; intros [|p ps]; [done..|]. cbn. rewrite Hv. case_match; [|by apply IH].
    by case_match. }
  unfold RespHeaderAndStatusFromContext. rewrite Hget /=. fold (response_status ep responses status).
  set (set := match default_content_type _ _ with Some _ => _ | None => _ end). clearbody set.
  assert (∀ hm, let '(w', out) := checked (SendHTTPResponse xml_Encode json_Encode (response_status ep responses status)
      (match ep_returns ep with [] => [PayNil] | _ => responses end) (SetHeaders (range_header hm) w)) in
    ∃ hdr bodies, (length bodies ≤ 1)%nat ∧
    rw_calls w' = rw_calls w ++ CallWriteHeader (response_status ep responses status) hdr :: (CallWrite <$> bodies)) as Hsend.
  { intros hm. destruct (SendHTTPResponse _ _ _ _ _) as [w1 out1] eqn:E. apply SendHTTPResponse_calls in E as (bodies&?&E).
    rewrite SetHeaders_calls in E.
    assert (writer_ok w1) as Hw1.
    { unfold writer_ok. rewrite E. apply existsb_app_false; [done|]. cbn. rewrite Hcode /=. clear. by induction bodies. }
    rewrite checked_ok //. by eexists _, bodies. }
  destruct set as [ct|]; apply Hsend.
Qed.

(** *** Parameters that do not parse *)

Lemma opt_int_fails (name key : string) ctx r (req : fields T) :
  query r key ≠ "" → Atoi (query r key) = None →
  opt_stage (U := U) ((name, key), OptInt) ctx r req =
    Ok (inl (mk_failure BadRequestError "Invalid request"
      (Some (CreateError ctx InternalError ("invalid integer format: " +:+ query r key) None)))).
Proof.
  intros Hq Hp. unfold opt_stage, conv_field, GetQueryParam, StringToIntPtr. cbn -[CreateError String.append].
  rewrite bool_decide_false // Hp. done.
Qed.

Lemma int_fails (name key : string) ctx r (req : fields T) :
  Atoi (query r key) = None →
  conv_field (T := T) "Invalid request" name (λ _ r, FInt <$> GetQueryParamForInt (query r) key) ctx r req =
    Ok (inl (mk_failure BadRequestError "Invalid request" (Some (ErrText "strconv.ParseInt")))).
Proof. intros Hp. unfold conv_field, GetQueryParamForInt. cbn. by rewrite Hp. Qed.

(** An integer parameter of the query that is no integer is answered 400 if the
    parameter is required and 500 if it is optional: the handler reports a bad
    request both times, but the conversion of an optional one makes an internal
    error of its own, and an error that has a kind keeps it. *)
Theorem malformed_parameter_status g (name key : string) ctx r (req : fields T) w :
  default_hooks g → writer_ok w → is_deadline_exceeded ctx = false →
  query r key ≠ "" → Atoi (query r key) = None →
  let status_of (st : stage (T := T)) (status : Z) := ∃ fl body, st ctx r req = Ok (inl fl) ∧
    fl_kind fl = BadRequestError ∧
    handle_error g (Some ctx) w fl = (mkRW (json_headers w)
      (rw_calls w ++ [CallWriteHeader status (json_headers w); CallWrite body]), Ok ()) in
  status_of (opt_stage (U := U) ((name, key), OptInt)) 500%Z ∧
  status_of (conv_field "Invalid request" name (λ _ r, FInt <$> GetQueryParamForInt (query r) key)) 400%Z.
Proof.
  intros Hg Hw Hd Hq Hp status_of. split.
  - destruct (handle_error_response g ctx w (mk_failure BadRequestError "Invalid request"
      (Some (CreateError ctx InternalError ("invalid integer format: " +:+ query r key) None))) Hg Hw) as [body E].
    1,2: unfold CreateError, CheckContextTimeout, spec_status; rewrite Hd; reflexivity.
    eexists _, body. split; [by apply opt_int_fails|]. split; [done|]. rewrite E.
    unfold CreateError, CheckContextTimeout, spec_status. by rewrite Hd.
  - destruct (handle_error_response g ctx w (mk_failure BadRequestError "Invalid request"
      (Some (ErrText "strconv.ParseInt"))) Hg Hw) as [body E].
    1,2: unfold spec_status; rewrite ?Hd; reflexivity.
    eexists _, body. split; [by apply int_fails|]. split; [done|]. rewrite E.
    unfold spec_status. by rewrite Hd.
Qed.
End handler_properties.
