(* ===== verification/DbHandler.v ===== *)
(** * Generated handlers of services with a database:
    src/codegen/arrai/auto/svc_handler.arrai

    If the specification has tables, the handler of an endpoint takes a connection,
    prepares the endpoint's statements on it, and runs the service in a serializable
    transaction, which it commits before the response is sent and rolls back if the
    service fails. Package database/sql is an interface; the rest of the handler is that
    of [ServiceHandler]. *)

From S2P Require Export ServiceHandler.

(** ** database/sql

    What an application's state [U] has of it: the contents [D] that everybody sees, the
    working copy of the open transaction, and the connections and statements in use. *)
Class Database (U D : Type) := {
  DB_Conn : U → U * option error;
  Conn_PrepareContext : string → U → U * option error;
  Conn_BeginTx : U → U * option error;
  Tx_Commit : U → U * option error;
  Tx_Rollback : U → U;
  Conn_Close : U → U;
  committed : U → D;
  working : U → option D;
  connections : U → nat;
  statements : U → nat
}.

(** A transaction that is over can be ended again, which is an error and changes nothing;
    one whose commit fails is over as well. *)
Class DatabaseLaws (U D : Type) `{!Database U D} : Prop := {
  Conn_law : ∀ u, let '(u', err) := DB_Conn u in
    committed u' = committed u ∧ working u' = working u ∧ statements u' = statements u ∧
    connections u' = match err with None => S (connections u) | Some _ => connections u end;
  Prepare_law : ∀ q u, let '(u', err) := Conn_PrepareContext q u in
    committed u' = committed u ∧ working u' = working u ∧ connections u' = connections u ∧
    statements u' = match err with None => S (statements u) | Some _ => statements u end;
  Begin_law : ∀ u, let '(u', err) := Conn_BeginTx u in
    committed u' = committed u ∧ connections u' = connections u ∧ statements u' = statements u ∧
    working u' = match err with None => Some (committed u) | Some _ => working u end;
  Commit_law : ∀ u, let '(u', err) := Tx_Commit u in
    working u' = None ∧ connections u' = connections u ∧ statements u' = statements u ∧
    match working u, err with
    | Some d, None => committed u' = d
    | Some d, Some _ => committed u' = committed u ∨ committed u' = d
    | None, err => is_Some err ∧ committed u' = committed u
    end;
  Rollback_law : ∀ u, let u' := Tx_Rollback u in
    working u' = None ∧ committed u' = committed u ∧ connections u' = connections u ∧ statements u' = statements u;
  Close_law : ∀ u, working u = None → let u' := Conn_Close u in
    working u' = None ∧ committed u' = committed u ∧ connections u' = pred (connections u) ∧ statements u' = statements u
}.

(** ** The handler *)

Section db_handler.
Context `{Jose} {T U D R : Type} `{!Platform T U, !Database U D}.
Notation St := (SvcState U).
Notation ServiceMethod := (ServiceMethod (T := T) (U := U)).

Definition on_db (f : U → U) (s : St) : St := mkSvcState (sv_monitors s) (sv_resp s) (f (sv_user s)).
Definition on_db_err (f : U → U * option error) (s : St) : St * option error :=
  let '(u, err) := f (sv_user s) in (mkSvcState (sv_monitors s) (sv_resp s) u, err).

(** [sqlStatements]: names and texts, in the order of the names. *)
Fixpoint prepare_statements (stmts : list (string * string)) (s : St) : St * option failure :=
  match stmts with
  | [] => (s, None)
  | (name, text) :: stmts =>
      match on_db_err (Conn_PrepareContext text) s with
      | (s, Some dberr) =>
          (s, Some (mk_failure InternalError ("could not parse the sql query with the name " +:+ name) (Some dberr)))
      | (s, None) => prepare_statements stmts s
      end
  end.

(** On the connection: the statements, then the transaction. *)
Definition begin_transaction (stmts : list (string * string)) (s : St) : St * option failure :=
  match prepare_statements stmts s with
  | (s, Some f) => (s, Some f)
  | (s, None) =>
      match on_db_err Conn_BeginTx s with
      | (s, Some dberr) => (s, Some (mk_failure DownstreamUnavailableError "DB Transaction could not be created" (Some dberr)))
      | (s, None) => (s, None)
      end
  end.

Section with_callback.
Context (g : Callback UpstreamConfig R).
Notation handle_error := (handle_error (T := T) (U := U) g).
Notation send_response := (send_response (T := T) g).
Notation Timeout_ctx := (DownstreamTimeoutContext (T := T) g).

(** The deferred function: what recovers from a panic rolls back first. *)
Definition db_recovered (ctx : Context) (r : St * RW * res ()) : St * RW * res () :=
  let '(s, w, out) := r in
  let s := match out with
           | Panic p => match recover p with Some _ => on_db Tx_Rollback s | None => s end
           | _ => s
           end in
  let '(w, out) := recovered_call (T := T) (U := U) g (Timeout_ctx ctx s) (w, out) in (s, w, out).

(** The service in its transaction, up to the response. *)
Definition in_transaction (ep : EndpointSpec) (service : ServiceMethod) (ctx : Context) (req : fields T) (s : St) (w : RW) :
    St * RW * res () :=
  let report s ctx f := let '(w, out) := handle_error (Some ctx) w f in (s, w, out) in
  let '(s, out) := service (Timeout_ctx ctx s) req s in
  match out with
  | Panic p => (s, w, Panic p)
  | Err err =>
      let s := on_db Tx_Rollback s in
      report s (Timeout_ctx ctx s) (mk_failure InternalError "Handler error" (Some err))
  | Ok responses =>
      match on_db_err Tx_Commit s with
      | (s, Some commitErr) =>
          report s (Timeout_ctx ctx s) (mk_failure InternalError "Failed to commit the transaction" (Some commitErr))
      | (s, None) => let '(w, out) := send_response ep (Timeout_ctx ctx s) responses s w in (s, w, out)
      end
  end.

(** The part of the handler from the connection on; the connection is closed last. *)
Definition db_call_service (stmts : list (string * string)) (ep : EndpointSpec) (service : ServiceMethod) :
    ServiceCall (T := T) (U := U) := λ ctx req s w,
  let report s f := let '(w, out) := handle_error (Some (Timeout_ctx ctx s)) w f in (s, w, out) in
  match on_db_err DB_Conn s with
  | (s, Some dberr) => report s (mk_failure InternalError "Database connection could not be retrieved" (Some dberr))
  | (s, None) =>
      let '(s, w, out) := match begin_transaction stmts s with
                          | (s, Some f) => report s f
                          | (s, None) => db_recovered ctx (in_transaction ep service ctx req s w)
                          end in
      (on_db Conn_Close s, w, out)
  end.
End with_callback.

Definition db_MethodHandler (h : ServiceHandler (R := R)) (stmts : list (string * string)) (ep : EndpointSpec)
    (service : option ServiceMethod) : Handler (AppState U) :=
  handler_with h ep (db_call_service (sh_genCallback h) stmts ep <$> service).
End db_handler.

(** The constructor opens the database before anything else. *)
Definition NewServiceHandler_db `{Crypto, Jose} {DB R} (GetDBHandle : res DB)
    (resolve : string → string → res (Rule (StdAuthenticator RemoteJWKSIssuer) RemoteEnv * StdAuthenticator RemoteJWKSIssuer))
    (genCallback : Callback UpstreamConfig R) (eps : list EndpointSpec) :
    res (DB * (ServiceHandler (R := R) * gmap string (StdAuthenticator RemoteJWKSIssuer))) :=
  db ← GetDBHandle;
  h ← NewServiceHandler resolve genCallback eps;
  Ok (db, h).

(** * Lemmas *)

Section db_properties.
Context `{Jose} {T U D R : Type} `{!Platform T U, !Database U D, !DatabaseLaws U D}.
Notation St := (SvcState U).
Notation ServiceMethod := (ServiceMethod (T := T) (U := U)).
Implicit Types (s : St) (g : Callback UpstreamConfig R).
Notation handle_error := (handle_error (T := T) (U := U)).
Notation recovered_call := (recovered_call (T := T) (U := U)).
Notation send_response := (send_response (T := T)).
Notation Timeout_ctx := (DownstreamTimeoutContext (T := T)).

(** What the database has besides the open transaction is as it was. *)
Definition same_connections (k : nat) s s' : Prop :=
  connections (sv_user s') = k + connections (sv_user s).
Definition untouched s s' : Prop :=
  committed (sv_user s') = committed (sv_user s) ∧ connections (sv_user s') = connections (sv_user s).

Lemma prepare_statements_spec stmts s s' f : prepare_statements stmts s = (s', f) →
  untouched s s' ∧ working (sv_user s') = working (sv_user s) ∧
  (f = None → statements (sv_user s') = length stmts + statements (sv_user s)).
Proof using DatabaseLaws0.
  revert s. induction stmts as [|[name text] stmts IH]; intros s; cbn [prepare_statements]; [by intros [= <- <-]|].
  unfold on_db_err. pose proof (Prepare_law text (sv_user s)) as Hlaw.
  destruct (Conn_PrepareContext text (sv_user s)) as [u [e|]]; destruct Hlaw as (Hc&Hw&Hn&Hs).
  - intros [= <- <-]. by repeat split.
  - intros ([Hc' Hn']&Hw'&Hs')%IH. cbn in *. split; [split; congruence|]. split; [congruence|]. intros Hf. rewrite (Hs' Hf) Hs. lia.
Qed.

Lemma begin_transaction_spec stmts s s' f : begin_transaction stmts s = (s', f) →
  untouched s s' ∧
  working (sv_user s') = match f with Some _ => working (sv_user s) | None => Some (committed (sv_user s)) end ∧
  (f = None → statements (sv_user s') = length stmts + statements (sv_user s)).
Proof using DatabaseLaws0.
  unfold begin_transaction. destruct (prepare_statements stmts s) as [s1 f1] eqn:E.
  apply prepare_statements_spec in E as ([Hc Hn]&Hw&Hs). destruct f1 as [f1|]; [intros [= <- <-]; by repeat split|].
  unfold on_db_err. pose proof (Begin_law (sv_user s1)) as Hlaw.
  destruct (Conn_BeginTx (sv_user s1)) as [u [e|]]; destruct Hlaw as (Hc'&Hn'&Hs'&Hw'); intros [= <- <-]; cbn.
  - split; [split; cbn; congruence|]. split; [congruence|done].
  - split; [split; cbn; congruence|]. split; [congruence|]. intros _. rewrite Hs'. by apply Hs.
Qed.

Lemma rollback_spec s : untouched s (on_db Tx_Rollback s) ∧ working (sv_user (on_db Tx_Rollback s)) = None ∧
  statements (sv_user (on_db Tx_Rollback s)) = statements (sv_user s).
Proof using DatabaseLaws0. pose proof (Rollback_law (sv_user s)) as (?&?&?&?). by repeat split. Qed.

(** The deferred function leaves what is already rolled back or committed. *)
Lemma db_recovered_done g ctx s w out : working (sv_user s) = None →
  ∃ s', db_recovered g ctx (s, w, out) = (s', (recovered_call g (Timeout_ctx g ctx s') (w, out)).1,
      (recovered_call g (Timeout_ctx g ctx s') (w, out)).2) ∧ untouched s s' ∧ working (sv_user s') = None ∧
    statements (sv_user s') = statements (sv_user s).
Proof using DatabaseLaws0.
  intros Hw. unfold db_recovered.
  set (s1 := match out with Panic _ => _ | _ => _ end). exists s1. split; [by destruct (recovered_call _ _ _)|].
  subst s1. destruct out as [| |p]; try by repeat split. destruct (recover p); [apply rollback_spec|by repeat split].
Qed.

(** A service works through the connection and the statements that it is given, and so
    changes nothing but the working copy, which is gone if the driver rolled back at the
    deadline; and it does not panic with nil, which Go 1.20 does not tell from no panic. *)
Definition keeps_database (service : ServiceMethod) : Prop := ∀ ctx req s,
  let '(s1, r) := service ctx req s in
  untouched s s1 ∧ statements (sv_user s1) = statements (sv_user s) ∧ r ≠ Panic (PanicOther VNil).

Definition answered_with_error g (w : RW) (r : RW * res ()) : Prop :=
  ∃ c c' f, r = handle_error g (Some c) w f ∨ r = recovered_call g c' (handle_error g (Some c) w f).

(** How the service's part ends. *)
Inductive transaction_end g ep (service : ServiceMethod) ctx req s0 w : St → RW * res () → Prop :=
| EndRolledBack s1 r : answered_with_error g w r → untouched s0 s1 →
    (∀ s2 responses, service (Timeout_ctx g ctx s0) req s0 ≠ (s2, Ok responses)) → transaction_end g ep service ctx req s0 w s1 r
| EndCommitFailed s1 s2 s3 responses e r : answered_with_error g w r →
    service (Timeout_ctx g ctx s0) req s0 = (s1, Ok responses) → on_db_err Tx_Commit s1 = (s2, Some e) →
    connections (sv_user s3) = connections (sv_user s0) →
    committed (sv_user s3) = committed (sv_user s0) ∨ working (sv_user s1) = Some (committed (sv_user s3)) →
    transaction_end g ep service ctx req s0 w s3 r
| EndCommitted s1 s2 s3 responses :
    service (Timeout_ctx g ctx s0) req s0 = (s1, Ok responses) → on_db_err Tx_Commit s1 = (s2, None) →
    connections (sv_user s3) = connections (sv_user s0) → working (sv_user s1) = Some (committed (sv_user s3)) →
    transaction_end g ep service ctx req s0 w s3
      (recovered_call g (Timeout_ctx g ctx s3) (send_response g ep (Timeout_ctx g ctx s2) responses s2 w)).

Lemma commit_end g ep service ctx req s0 w s1 responses :
  service (Timeout_ctx g ctx s0) req s0 = (s1, Ok responses) → untouched s0 s1 → statements (sv_user s1) = statements (sv_user s0) →
  let '(s', w', out) := db_recovered g ctx (in_transaction g ep service ctx req s0 w) in
  working (sv_user s') = None ∧ statements (sv_user s') = statements (sv_user s0) ∧
  transaction_end g ep service ctx req s0 w s' (w', out).
Proof using DatabaseLaws0.
  intros E [Hc Hn] Hs. unfold in_transaction. rewrite E. unfold on_db_err. pose proof (Commit_law (sv_user s1)) as Hlaw.
  destruct (Tx_Commit (sv_user s1)) as [u err] eqn:Hu. destruct Hlaw as (Hw'&Hn'&Hs'&Hd).
  set (s2 := mkSvcState _ _ u). assert (on_db_err Tx_Commit s1 = (s2, err)) as Hcommit by (unfold on_db_err; by rewrite Hu).
  destruct err as [e|].
  - destruct (handle_error g _ w _) as [w1 out1] eqn:Eh.
    destruct (db_recovered_done g ctx s2 w1 out1 Hw') as (s3&->&[Hc3 Hn3]&Hw3&Hs3). cbn in Hc3, Hn3, Hs3.
    split; [done|]. split; [congruence|]. rewrite -surjective_pairing. eapply EndCommitFailed; [|done..| |].
    + eexists _, _, _. right. by rewrite -Eh.
    + congruence.
    + rewrite Hc3. destruct (working (sv_user s1)) as [d|]; [|left; destruct Hd; congruence].
      destruct Hd as [->| ->]; [left; congruence|by right].
  - destruct (send_response g ep _ responses s2 w) as [w1 out1] eqn:Eh.
    destruct (db_recovered_done g ctx s2 w1 out1 Hw') as (s3&->&[Hc3 Hn3]&Hw3&Hs3). cbn in Hc3, Hn3, Hs3.
    split; [done|]. split; [congruence|]. rewrite -surjective_pairing -Eh. eapply EndCommitted; [done..| |].
    + congruence.
    + rewrite Hc3. destruct (working (sv_user s1)) as [d|]; [by rewrite Hd|by destruct Hd as [[]]].
Qed.

Lemma in_transaction_spec g ep service ctx req s0 w : keeps_database service →
  let '(s', w', out) := db_recovered g ctx (in_transaction g ep service ctx req s0 w) in
  working (sv_user s') = None ∧ statements (sv_user s') = statements (sv_user s0) ∧
  transaction_end g ep service ctx req s0 w s' (w', out).
Proof using DatabaseLaws0.
  intros Hk. specialize (Hk (Timeout_ctx g ctx s0) req s0).
  destruct (service _ req s0) as [s1 r] eqn:E. destruct Hk as ([Hc Hn]&Hs&Hnil).
  destruct r as [responses|err|p]; [by eapply commit_end|unfold in_transaction; rewrite E..].
  - destruct (handle_error g _ w _) as [w1 out1] eqn:Eh. destruct (rollback_spec s1) as ([Hc1 Hn1]&Hw1&Hs1).
    destruct (db_recovered_done g ctx (on_db Tx_Rollback s1) w1 out1 Hw1) as (s3&->&[Hc3 Hn3]&Hw3&Hs3).
    split; [done|]. split; [congruence|]. rewrite -surjective_pairing. apply EndRolledBack.
    + eexists _, _, _. right. by rewrite -Eh.
    + split; congruence.
    + intros s2 responses. congruence.
  - unfold db_recovered, recovered_call. assert (recover p = Some p) as -> by (destruct p as [| |[]]; done).
    destruct (rollback_spec s1) as ([Hc1 Hn1]&Hw1&Hs1). destruct (handle_error g _ w _) as [w1 out1] eqn:Eh.
    split; [done|]. split; [congruence|]. apply EndRolledBack.
    + eexists _, (Timeout_ctx g ctx s1), _. left. by rewrite -Eh.
    + split; congruence.
    + intros s2 responses. congruence.
Qed.

(** The state in which the service is called, or why it is not. *)
Definition opened (stmts : list (string * string)) s : St * option failure :=
  match on_db_err DB_Conn s with
  | (s, Some dberr) => (s, Some (mk_failure InternalError "Database connection could not be retrieved" (Some dberr)))
  | (s, None) => begin_transaction stmts s
  end.

Lemma close_spec s : working (sv_user s) = None →
  committed (sv_user (on_db Conn_Close s)) = committed (sv_user s) ∧ working (sv_user (on_db Conn_Close s)) = None ∧
  connections (sv_user (on_db Conn_Close s)) = pred (connections (sv_user s)) ∧
  statements (sv_user (on_db Conn_Close s)) = statements (sv_user s).
Proof using DatabaseLaws0. intros Hw. pose proof (Close_law (sv_user s) Hw) as (?&?&?&?). by repeat split. Qed.

(** C5. A request to an endpoint of a service with a database, whatever the database's
    operations come to: its connection is given back and no transaction stays open. If
    the service was not called the database is as before and the caller is told why. If
    it was, then it saw the committed contents; and either it failed, the contents are
    as before and the caller gets an error; or the commit failed, and the caller gets an
    error; or the contents are what the service left and its response is sent. *)
Theorem db_request_atomic g stmts ep service ctx req s w :
  keeps_database service → working (sv_user s) = None →
  let '(s', w', out) := db_call_service g stmts ep service ctx req s w in
  working (sv_user s') = None ∧ connections (sv_user s') = connections (sv_user s) ∧
  match opened stmts s with
  | (s0, Some f) => committed (sv_user s') = committed (sv_user s) ∧
      (w', out) = handle_error g (Some (Timeout_ctx g ctx s0)) w f
  | (s0, None) => committed (sv_user s0) = committed (sv_user s) ∧ working (sv_user s0) = Some (committed (sv_user s)) ∧
      ∃ s1, transaction_end g ep service ctx req s0 w s1 (w', out) ∧ committed (sv_user s') = committed (sv_user s1)
  end.
Proof using DatabaseLaws0.
  intros Hk Hw. unfold db_call_service, opened, on_db_err. pose proof (Conn_law (sv_user s)) as Hlaw.
  destruct (DB_Conn (sv_user s)) as [u [e|]]; destruct Hlaw as (Hc&Hwu&_&Hn).
  { destruct (handle_error g _ w _) as [w1 out1]. cbn. split; [congruence|]. by split. }
  destruct (begin_transaction stmts _) as [s0 f] eqn:Eb. apply begin_transaction_spec in Eb as ([Hc0 Hn0]&Hw0&_). cbn in Hc0, Hn0, Hw0.
  destruct f as [f|].
  - destruct (handle_error g _ w f) as [w1 out1]. destruct (close_spec s0) as (Hc1&Hw1&Hn1&_); [congruence|].
    split; [done|]. split; [rewrite Hn1 Hn0 Hn; done|]. split; [congruence|done].
  - pose proof (in_transaction_spec g ep service ctx req s0 w Hk) as Hin.
    destruct (db_recovered g ctx _) as [[s1 w1] out1]. destruct Hin as (Hw1&_&Hend).
    destruct (close_spec s1 Hw1) as (Hc2&Hw2&Hn2&_). split; [done|]. split.
    + rewrite Hn2. assert (connections (sv_user s1) = connections (sv_user s0)) as -> by (by inversion Hend as [??? [? ?]| |]).
      rewrite Hn0 Hn. done.
    + split; [congruence|]. split; [congruence|]. by exists s1.
Qed.

(** The statements of a request are never closed: those of every request stay prepared
    on the connection that goes back to the pool. *)
Theorem statements_stay_open g stmts ep service ctx req s w s0 :
  keeps_database service → working (sv_user s) = None → opened stmts s = (s0, None) →
  statements (sv_user (db_call_service g stmts ep service ctx req s w).1.1) = length stmts + statements (sv_user s).
Proof using DatabaseLaws0.
  intros Hk Hw. unfold db_call_service, opened, on_db_err. pose proof (Conn_law (sv_user s)) as Hlaw.
  destruct (DB_Conn (sv_user s)) as [u [e|]]; [done|]. destruct Hlaw as (_&_&Hs&_). intros Ho. rewrite Ho.
  apply begin_transaction_spec in Ho as (_&_&Hs0). cbn in Hs0.
  pose proof (in_transaction_spec g ep service ctx req s0 w Hk) as Hin.
  destruct (db_recovered g ctx _) as [[s1 w1] out1]. destruct Hin as (Hw1&Hs1&_).
  destruct (close_spec s1 Hw1) as (_&_&_&Hs2). cbn [fst]. by rewrite Hs2 Hs1 Hs0 // Hs.
Qed.

(** The response is validated only after the commit: a request that is answered with an
    error because of it has changed the database all the same. *)
Theorem invalid_response_after_commit g stmts ep service ctx req s w s0 s1 s2 responses err :
  keeps_database service → working (sv_user s) = None → opened stmts s = (s0, None) →
  service (Timeout_ctx g ctx s0) req s0 = (s1, Ok responses) → on_db_err Tx_Commit s1 = (s2, None) →
  ep_permitInvalidResponse ep = false →
  invalid_response (bool_decide (1 < length (ep_returns ep))%nat) (ep_returns ep) responses = Some err →
  let '(s', w', out) := db_call_service g stmts ep service ctx req s w in
  working (sv_user s1) = Some (committed (sv_user s')) ∧ answered_with_error g w (w', out).
Proof using DatabaseLaws0.
  intros Hk Hw Ho Hs Hc Hp Hi. pose proof (db_request_atomic g stmts ep service ctx req s w Hk Hw) as H'.
  destruct (db_call_service _ _ _ _ _ _ _ _) as [[s' w'] out]. rewrite Ho in H'. destruct H' as (_&_&_&_&s4&Hend&->).
  inversion Hend as [? ? ? ? Hno| ? ? ? ? ? ? ? Hs' Hc'| ? ? ? ? Hs' Hc' ? Hw']; subst.
  - by destruct (Hno s1 responses).
  - rewrite Hs in Hs'. injection Hs' as <- <-. congruence.
  - rewrite Hs in Hs'. injection Hs' as <- <-. rewrite Hc in Hc'. injection Hc' as <-. split; [done|]. unfold send_response. rewrite Hp Hi. eexists _, _, _. by right.
Qed.
End db_properties.

(** A request that the rule of its endpoint does not let through leaves the database, its
    connections and its transactions alone. *)
Theorem db_unauthorized_untouched `{Jose} {T U D R} `{!Platform T U, !Database U D} (h : ServiceHandler (R := R))
    stmts ep (f : ServiceMethod (T := T) (U := U)) r s w :
  is_Some (ep_rule ep) →
  (∀ s' out, decide_request h ep r s = Some (s', out) → ¬ granted out) →
  (∀ s' out, decide_request h ep r s = Some (s', out) → out ≠ Ok (None, None)) →
  sv_user (ap_svc (db_MethodHandler h stmts ep (Some f) r s w).1.1) = sv_user (ap_svc s).
Proof.
  intros He Hg Hn. unfold db_MethodHandler. cbn [fmap option_fmap option_map].
  rewrite (handler_with_guarded h ep _ (λ _ _ s w, (s, w, Ok ())) r s w He Hg Hn).
  destruct He as [expr He]. unfold handler_with, decide_request, header_ctx in *. rewrite He in Hg Hn |- *.
  destruct (sh_authorizationRules h !! ep_method ep) as [rule|].
  - assert (ap_svc (run_rule rule (ep_method ep) (RequestHeaderToContext range_header (req_ctx r) (Some (req_Header r))) r s).1 = ap_svc s)
      as Hs by (unfold run_rule; by destruct (rule _ _ _) as [??]).
    destruct (run_rule _ _ _ _ _) as [s' out]. specialize (Hg _ _ eq_refl). specialize (Hn _ _ eq_refl). cbn in Hs.
    destruct out as [[[ctx'|] [e|]]|e|p]; try (destruct (handle_error _ _ _ _)); cbn; try congruence.
    destruct Hg. by eexists.
  - by destruct (handle_error _ _ _ _).
Qed.

(** ** A database with one table, and a service that adds a row *)
Module DbExample.
#[local] Existing Instance Example.jose.
Record db := mk_db {
  db_rows : list string;
  db_work : option (list string);
  db_connections : nat;
  db_statements : nat;
  db_broken : bool  (* every commit fails *)
}.
Definition set_work (work : option (list string)) (d : db) : db :=
  mk_db (db_rows d) work (db_connections d) (db_statements d) (db_broken d).
Definition tx_done : error := ErrText "sql: transaction has already been committed or rolled back".
#[export] Instance database : Database db (list string) := {
  DB_Conn d := (mk_db (db_rows d) (db_work d) (S (db_connections d)) (db_statements d) (db_broken d), None);
  Conn_PrepareContext q d := (mk_db (db_rows d) (db_work d) (db_connections d) (S (db_statements d)) (db_broken d), None);
  Conn_BeginTx d := (set_work (Some (db_rows d)) d, None);
  Tx_Commit d :=
    match db_work d with
    | Some rows => if db_broken d then (set_work None d, Some (ErrText "driver: bad connection"))
                   else (mk_db rows None (db_connections d) (db_statements d) (db_broken d), None)
    | None => (d, Some tx_done)
    end;
  Tx_Rollback := set_work None;
  Conn_Close d := mk_db (db_rows d) (db_work d) (pred (db_connections d)) (db_statements d) (db_broken d);
  committed := db_rows;
  working := db_work;
  connections := db_connections;
  statements := db_statements
}.
#[export] Instance database_laws : DatabaseLaws db (list string).
Proof.
  split; try by (intros; cbn; repeat split). intros [rows [work|] n k []]; cbn; repeat split; by [left|eexists|].
Qed.
#[export] Instance platform : Platform string db := {
  time_Parse layout s := inl (ErrText "cannot parse");
  ReadAll r := inr (req_Body r);
  json_Decode r := inl (ErrText "EOF");
  URLParam r key := "";
  query r key := "";
  ParseBool s := inl (ErrText "strconv.ParseBool");
  regex_match re s := Ok true;
  valid_string s tag := None;
  valid_request req := None;
  valid_response p := None;
  xml_Encode p := None;
  json_Encode p := Some "{}";
  json_text t := "{}";
  range_header h := map_to_list h;
  fmt_panic p := "boom";
  world r := Example.day1;
  timeout_Err dt ctx s := None
}.
Definition callback : Callback UpstreamConfig () := mkCallback 30 "/" zero_UpstreamConfig None None None.
Definition endpoint : EndpointSpec := mkEndpointSpec "AddCompany" None None [] [] [] [] [] [] [] [] [] false.
Definition stmts : list (string * string) := [("insertCompany", "insert into company values($1)")].
Definition start (broken : bool) : SvcState db := mkSvcState ∅ ∅ (mk_db ["ANZ"] None 0 0 broken).
(** The service adds a row to what it works on, and ends as it is told. *)
Definition add_row (out : res (list payload)) : ServiceMethod (T := string) (U := db) := λ _ _ s,
  (on_db (λ d, set_work ((λ rows, rows ++ ["NAB"]) <$> db_work d) d) s, out).
Definition ctx : Context := WithValue Background KReqHeader (Some ∅).
Definition served (broken : bool) (out : res (list payload)) : db * list Z :=
  let '(s, w, _) := serve_with callback endpoint (db_call_service callback stmts endpoint (add_row out)) ctx
                      (mkRequest Background "POST" "/company" ∅ "") (start broken) rw_empty in
  (sv_user s, omap (λ c, match c with CallWriteHeader code _ => Some code | _ => None end) (rw_calls w)).
Example served_examples :
  served false (Ok []) = (mk_db ["ANZ"; "NAB"] None 0 1 false, [200%Z]) ∧
  served false (Err (ErrText "no")) = (mk_db ["ANZ"] None 0 1 false, [500%Z]) ∧
  served false (Panic nil_dereference) = (mk_db ["ANZ"] None 0 1 false, [500%Z]) ∧
  served true (Ok []) = (mk_db ["ANZ"] None 0 1 true, [500%Z]).
Proof. repeat split; by_vm. Qed.
Lemma add_row_keeps out : out ≠ Panic (PanicOther VNil) → keeps_database (add_row out).
Proof. intros Hout c q s. by repeat split. Qed.
End DbExample.

#[local] Existing Instance Example.jose.
#[local] Existing Instance DbExample.platform.
Import DbExample.

Lemma db_request_atomic_witness :
  let '(s', w', out) := db_call_service callback stmts endpoint (add_row (Err (ErrText "no"))) ctx ∅ (start false) rw_empty in
  working (sv_user s') = None ∧ connections (sv_user s') = 0.
Proof.
  pose proof (db_request_atomic callback stmts endpoint (add_row (Err (ErrText "no"))) ctx ∅ (start false) rw_empty) as H.
  destruct (db_call_service _ _ _ _ _ _ _ _) as [[s' w'] out]. destruct H as (Hw & Hn & _).
  - by apply add_row_keeps.
  - reflexivity.
  - by split.
Defined.
