(* ===== verification/GeneratedClient.v ===== *)
(** * Generated clients: src/codegen/arrai/auto/svc_service.arrai

    The client of a REST service as the generator writes it for any endpoint: the
    method that makes a request, calls it through [DoHTTPRequest], and returns what
    came of it; and the function that says what a response of a status is decoded
    into. Services call such methods, so this is the other half of [ServiceHandler]:
    what a caller is answered when a downstream fails goes through both. *)

From stdpp Require Import sorting.
From S2P Require Export ServiceHandler QueryValues.

(** ** What an endpoint returns (sysl.arrai) *)

(** A Go type of a response: its name, how [unmarshal] treats it, and whether it is a
    structure that the generator gives a method [Error], as it does to those that
    some endpoint returns as an error. *)
Inductive type_kind := KindString | KindBytes | KindOther (is_error : bool).
Record client_type := mk_client_type { ct_name : string; ct_kind : type_kind }.

#[export] Instance type_kind_eq_dec : EqDecision type_kind.
Proof. solve_decision. Defined.
#[export] Instance client_type_eq_dec : EqDecision client_type.
Proof. solve_decision. Defined.

Definition ct_target (t : client_type) : target :=
  match ct_kind t with KindString => TargetString | KindBytes => TargetBytes | KindOther _ => TargetStructPtr end.

(** The variable of a return statement: a status of three digits stands for ok or
    error. *)
Definition three_digits (v : string) : option Z :=
  match v with
  | String a (String b (String c "")) =>
      if is_digit a && is_digit b && is_digit c then parse_decimal v else None
  | _ => None
  end.
Definition classify (v : string) : option Z * string :=
  match three_digits v with
  | Some n => (Some n, match v with String "2" _ => "ok" | _ => "error" end)
  | None => (None, v)
  end.

(** A return of the endpoint: its variable, its type if it has one, and the statuses
    that the statements for the two name. *)
Record client_return := mk_client_return {
  cr_var : string;
  cr_type : option client_type;
  cr_codes : list Z
}.

(** The statements of an endpoint, merged by variable and type. They are given in the
    order of these, which is how the script sorts them. *)
Definition add_return (stmt : string * option client_type) (l : list client_return) : list client_return :=
  let '(code, var) := classify stmt.1 in
  let codes := match code with Some n => [n] | None => [] end in
  match l with
  | r :: l' =>
      if bool_decide (cr_var r = var) && bool_decide (cr_type r = stmt.2)
      then mk_client_return var (stmt.2) (codes ++ cr_codes r) :: l'
      else mk_client_return var (stmt.2) codes :: l
  | [] => [mk_client_return var (stmt.2) codes]
  end.
Definition returns_of (stmts : list (string * option client_type)) : list client_return := foldr add_return [] stmts.

(** ** The statuses and what they are decoded into *)

(** The statuses of a return; without any, the usual one. As a set: sorted, once. *)
Definition return_codes (r : client_return) : list Z :=
  match cr_codes r with
  | [] => if bool_decide (cr_var r = "error") then [400%Z] else [200%Z]
  | l => merge_sort Z.le (remove_dups l)
  end.

(** A case of the switch; of several returns with the same statuses the first counts. *)
Record response_case := mk_response_case { rc_codes : list Z; rc_type : client_type; rc_var : string }.

Definition add_case (r : client_return) (l : list response_case) : list response_case :=
  match cr_type r with
  | None => l
  | Some t => mk_response_case (return_codes r) t (cr_var r) ::
              filter (λ c, rc_codes c ≠ return_codes r) l
  end.
Definition response_cases (returns : list client_return) : list response_case := foldr add_case [] returns.

(** The case with the least status for a variable. *)
Definition least_code (c : response_case) : Z := default 0%Z (head (rc_codes c)).
Definition lesser (c : response_case) (best : option response_case) : option response_case :=
  match best with
  | Some b => if bool_decide (least_code c ≤ least_code b)%Z then Some c else best
  | None => Some c
  end.
Definition defaultResponse (cases : list response_case) (var : string) : option client_type :=
  rc_type <$> foldr lesser None (filter (λ c, rc_var c = var) cases).

(** The function [responses] of a method. *)
Definition responses (cases : list response_case) (statusCode : Z) : option client_type :=
  match find (λ c, bool_decide (statusCode ∈ rc_codes c)) cases with
  | Some c => Some (rc_type c)
  | None =>
      if is_success statusCode then defaultResponse cases "ok"
      else defaultResponse cases "error"
  end.

(** ** The method of an endpoint *)

(** The path is cut at its slashes: a part is written as it is, or is a parameter. *)
Record ClientSpec := mkClientSpec {
  cs_app : string;
  cs_method : string;
  cs_required : list string;
  cs_path : list (option string);
  cs_query : list string;
  cs_optQuery : list string;
  cs_body : bool;
  cs_returns : list client_return
}.

Record ClientRequest := mkClientRequest {
  crq_path : list value;
  crq_query : list query_value;
  crq_optQuery : list (option query_value);
  crq_Request : payload
}.

(** [Client]; what it sends with is a parameter. *)
Record Client := mkClient { cl_URL : string; cl_Headers : list (string * list string) }.
Definition NewClient (serviceURL : string) : Client := mkClient serviceURL [].

(** What a method returns in a position, next to a nil error: the zero value of its
    type, what was decoded, or the header of the response. *)
Inductive ret_val := RZero | RVal (d : decoded) | RHeader (h : Header).

Definition typed_returns (ep : ClientSpec) : list client_type :=
  omap (λ r, if bool_decide (cr_var r = "error") then None else cr_type r) (cs_returns ep).

(** Positions are in the order of the names of types. *)
Definition by_name (a b : client_type) : Prop := String.le (ct_name a) (ct_name b).
#[export] Instance by_name_dec a b : Decision (by_name a b) := _.
Definition positions (ep : ClientSpec) : list client_type := merge_sort by_name (typed_returns ep).

Definition has_return (ep : ClientSpec) (var : string) (typed : bool) : bool :=
  existsb (λ r, bool_decide (cr_var r = var) && bool_decide (bool_decide (is_Some (cr_type r)) = typed)) (cs_returns ep).

(** The part of the path, with the values of its parameters as [%v] prints them. *)
Fixpoint fill_path (Sprint : value → string) (segs : list (option string)) (vals : list value) : list string :=
  match segs with
  | [] => []
  | Some text :: segs => text :: fill_path Sprint segs vals
  | None :: segs => match vals with
                    | v :: vals => Sprint v :: fill_path Sprint segs vals
                    | [] => "%!v(MISSING)" :: fill_path Sprint segs []
                    end
  end.
Definition url_text (Sprint : value → string) (c : Client) (ep : ClientSpec) (rq : ClientRequest) : string :=
  cl_URL c +:+ Join (fill_path Sprint (cs_path ep) (crq_path rq)) "/".

(** The rest results of requests are shared objects, as their monitors are. *)
Class HasRest (S : Type) := {
  get_rest : S → rest_heap;
  set_rest : rest_heap → S → S
}.

Section method.
(** What [DoHTTPRequest] is given, as in [RestLib]. *)
Context (json_Unmarshal : string → error + value) (json_Marshal : payload → error + string)
  (query_Encode : payload → error + string) (gunzip : string → error + string).
Context {S : Type} `{!HasMonitors S, !HasRest S}.
Context (Do : Request → S → S * res HTTPResponse) (check_request : string → string → option error)
  (ContentLength : HTTPResponse → Z) (read_error : HTTPResponse → option error).
(** [net/url]: [Parse], [Query], an assignment to [RawQuery] and [String]; [fmt.Sprint]
    of a parameter and [%+v] of an error structure; [validator.Validate]; the method
    of the request that a response answers; and [Err()] of a context as time passes. *)
Context {URL : Type} (url_Parse : string → error + URL) (url_Query : URL → list (string * string))
  (set_RawQuery : string → URL → URL) (url_String : URL → string)
  (Sprint : value → string) (Sprint_error : decoded → string) (Validate : decoded → option error)
  (request_Method : HTTPResponse → string) (ctx_Err_now : S → Context → option error).

Definition ctx_now (ctx : Context) (s : S) : Context := mkContext (ctx_Err_now s ctx) (ctx_Value ctx).

(** [url.Values] of pairs, each key with its values in order. *)
Definition pairs_Values (l : list (string * string)) : Values :=
  foldl (λ v kv, <[kv.1 := default [] (v !! kv.1) ++ [kv.2]]> v) ∅ l.

(** The query: required parameters, then the optional ones that are not nil. *)
Definition encode_query (ep : ClientSpec) (rq : ClientRequest) (q : list (string * string)) : list (string * string) :=
  let q := foldl (λ q kv, EncodeQueryParam Sprint q kv.1 kv.2) q (zip (cs_query ep) (crq_query rq)) in
  foldl (λ q kv, match kv.2 with Some v => EncodeQueryParam Sprint q kv.1 v | None => q end) q
    (zip (cs_optQuery ep) (crq_optQuery rq)).
Definition with_query (ep : ClientSpec) (rq : ClientRequest) (u : URL) : URL :=
  match cs_query ep ++ cs_optQuery ep with
  | [] => u
  | _ => set_RawQuery (Values_Encode (pairs_Values (encode_query ep rq (url_Query u)))) u
  end.

Definition response_of (r : HTTPResult) : CommonErrors.Response :=
  mkResponse (request_Method (hres_HTTPResponse r)) (hr_url (hres_HTTPResponse r)) (hr_StatusCode (hres_HTTPResponse r)).
(** [common.CreateDownstreamError(ctx, kind, var.HTTPResponse, var.Body, err)]. *)
Definition downstream_error (ctx : Context) (kind : Z) (r : HTTPResult) (cause : option error) : error :=
  CreateDownstreamError ctx kind (response_of r) (hres_Body r) cause.

(** An [*HTTPResult] as an error. *)
Definition result_error (r : HTTPResult) : error :=
  ErrHTTPResult (hr_StatusCode (hres_HTTPResponse r)) (hr_Header (hres_HTTPResponse r)) (hres_Body r).

(** What [Response] holds is nil, the raw text of an XML body, or a pointer to the type
    it was decoded into. *)
Definition dynamic_type (ep : ClientSpec) (r : HTTPResult) : option client_type :=
  match hres_Response r with
  | DecNil | DecXML _ => None
  | _ => responses (response_cases (cs_returns ep)) (hr_StatusCode (hres_HTTPResponse r))
  end.

(** [response.Response.(error)]; without the second result a failed assertion panics. *)
Definition assertion_panic : panicval := PanicError (ErrText "interface conversion").
Definition assert_error (ep : ClientSpec) (r : HTTPResult) : res error :=
  match dynamic_type ep r with
  | Some (mk_client_type _ (KindOther true)) => Ok (ErrForeign (Sprint_error (hres_Response r)) None None None)
  | _ => Panic assertion_panic
  end.

(** The call failed. *)
Definition call_failed (ctx : Context) (ep : ClientSpec) (url : string) (err : error) : error :=
  CreateError ctx DownstreamUnavailableError ("call failed: " +:+ cs_app ep +:+ " <- " +:+ cs_method ep +:+ " " +:+ url)
    (Some err).
Definition on_failure (ctx : Context) (ep : ClientSpec) (url : string) (r : HTTPResult) : res (list ret_val) :=
  if has_return ep "error" true then
    err ← assert_error ep r;
    Err (downstream_error ctx DownstreamResponseError r (Some err))
  else Err (call_failed ctx ep url (result_error r)).

(** Strings and byte slices are not validated. *)
Definition validated (t : client_type) (d : decoded) : option error :=
  if bool_decide (ct_name t ∈ ["string"; "[]byte"]) then None else Validate d.

(** The value in its position, the others zero. *)
Definition in_position (i n : nat) (d : decoded) : list ret_val := replicate i RZero ++ RVal d :: replicate (n - i - 1) RZero.

(** The type assertions, one for each position. *)
Fixpoint match_types (ctx : Context) (ep : ClientSpec) (r : HTTPResult) (i : nat) (types : list client_type) :
    option (res (list ret_val)) :=
  match types with
  | [] => None
  | t :: types =>
      if bool_decide (ct_name <$> dynamic_type ep r = Some (ct_name t)) then
        Some match validated t (hres_Response r) with
             | Some valErr => Err (downstream_error ctx DownstreamUnexpectedResponseError r (Some valErr))
             | None =>
                 if has_return ep "ok" false
                 then Ok [RVal (hres_Response r); RHeader (hr_Header (hres_HTTPResponse r))]
                 else Ok (in_position i (length (positions ep)) (hres_Response r))
             end
      else match_types ctx ep r (1 + i) types
  end.

Definition on_success (ctx : Context) (ep : ClientSpec) (r : HTTPResult) : res (list ret_val) :=
  if bool_decide (hr_StatusCode (hres_HTTPResponse r) = StatusUnauthorized)
  then Err (downstream_error ctx DownstreamUnauthorizedError r None)
  else
    match match_types ctx ep r 0 (positions ep) with
    | Some out => out
    | None =>
        if has_return ep "ok" true then Err (downstream_error ctx DownstreamUnexpectedResponseError r None)
        else if has_return ep "ok" false then Ok [RHeader (hr_Header (hres_HTTPResponse r))]
        else Ok []
    end.

(** From the results of [DoHTTPRequest] on. *)
Definition method_result (ctx : Context) (ep : ClientSpec) (url : string) (out : res fetched) : res (list ret_val) :=
  match out with
  | Panic p => Panic p
  | Err err => Err (call_failed ctx ep url err)
  | Ok (Failure r) => on_failure ctx ep url r
  | Ok (Success r) => on_success ctx ep r
  end.

Definition http_request (c : Client) (ep : ClientSpec) (rq : ClientRequest) (u : URL) : HTTPRequest :=
  mkHTTPRequest (cs_method ep) (url_String u) (if cs_body ep then crq_Request rq else PayNil) (cs_required ep)
    (λ status, match responses (response_cases (cs_returns ep)) status with Some t => ct_target t | None => TargetNil end)
    (cl_Headers c).

Definition client_method (c : Client) (ep : ClientSpec) (ctx : Context) (rq : ClientRequest) (s : S) :
    S * res (list ret_val) :=
  match url_Parse (url_text Sprint c ep rq) with
  | inl err => (s, Err (CreateError (ctx_now ctx s) InternalError "failed to parse url" (Some err)))
  | inr u =>
      let u := with_query ep rq u in
      let '(s, out) := DoHTTPRequest json_Unmarshal json_Marshal query_Encode gunzip Do check_request ContentLength
                         read_error (ctx_now ctx s) (http_request c ep rq u) s in
      let s := set_rest (OnRestResultHTTPResult ctx out (get_rest s)) s in
      (s, method_result (ctx_now ctx s) ep (url_String u) out)
  end.
End method.

(** ** What a call is to send

    As the specification has it, without regard to how the template writes it. *)

(** The parts of a path with the values of its parameters in order. *)
Inductive filled (Sprint : value → string) : list (option string) → list value → list string → Prop :=
| filled_nil : filled Sprint [] [] []
| filled_text text segs vals parts :
    filled Sprint segs vals parts → filled Sprint (Some text :: segs) vals (text :: parts)
| filled_param v segs vals parts :
    filled Sprint segs vals parts → filled Sprint (None :: segs) (v :: vals) (Sprint v :: parts).

(** The values that a key of the query is to have: each parameter of that name gives
    one, or one for each element of a list; an optional one that is nil gives none. *)
Definition query_texts (Sprint : value → string) (v : query_value) : list string :=
  match v with QNil => [] | QSlice l => Sprint <$> l | QScalar v => [Sprint v] end.
Definition query_sent (Sprint : value → string) (ep : ClientSpec) (rq : ClientRequest) (key : string) : list string :=
  (zip (cs_query ep) (crq_query rq) ≫= λ kv, if bool_decide (kv.1 = key) then query_texts Sprint kv.2 else []) ++
  (zip (cs_optQuery ep) (crq_optQuery rq) ≫= λ kv,
     if bool_decide (kv.1 = key) then match kv.2 with Some v => query_texts Sprint v | None => [] end else []).

(** The request structure of an endpoint has a field for each parameter. *)
Definition request_for (ep : ClientSpec) (rq : ClientRequest) : Prop :=
  length (crq_path rq) = length (filter (λ o : option string, o = None) (cs_path ep)).

(** * Lemmas *)

Section returns.
Implicit Types (r : client_return) (stmts : list (string * option client_type)).

Lemma is_digit_value c : is_digit c = true → ∃ d, digit_value c = Some d ∧ (0 ≤ d ≤ 9)%Z ∧ (d = 2%Z ↔ c = "2"%char).
Proof. intros H. unfold digit_value. rewrite H. eexists. split; [done|]. revert H. by destruct c as [[] [] [] [] [] [] [] []]. Qed.

Lemma three_digits_value v n : three_digits v = Some n →
  (∃ s, v = String "2" s) ∧ is_success n = true ∨ (∀ s, v ≠ String "2" s) ∧ is_success n = false.
Proof.
  destruct v as [|a [|b [|c [|? ?]]]]; try done. cbn. intros H. destruct (_ && _) eqn:Hd in H; [|done].
  apply andb_prop in Hd as [[Ha Hb]%andb_prop Hc].
  assert (a ≠ "+"%char ∧ a ≠ "-"%char) as [Hp Hm] by (split; intros ->; discriminate Ha). unfold parse_decimal in H.
  rewrite (bool_decide_false (a = "+"%char ∨ a = "-"%char)) in H; [naive_solver|]. apply is_digit_value in Ha as (x&Hx&?&H2).
  apply is_digit_value in Hb as (y&Hy&?&_). apply is_digit_value in Hc as (z&Hz&?&_).
  unfold parse_digits in H. rewrite Hx /= Hy /= Hz /= in H. injection H as <-. unfold is_success.
  destruct (decide (a = "2"%char)) as [->|Hne]; [left|right].
  - split; [by eexists|]. apply bool_decide_true. assert (x = 2%Z) by (by apply H2). lia.
  - split; [intros s; congruence|]. apply bool_decide_false. assert (x ≠ 2%Z) by tauto. lia.
Qed.

Lemma classify_code v n var : classify v = (Some n, var) →
  var = "ok" ∧ is_success n = true ∨ var = "error" ∧ is_success n = false.
Proof.
  unfold classify. destruct (three_digits v) as [m|] eqn:E; [|done]. intros [= -> <-].
  apply three_digits_value in E as [[[s ->] ?]|[Hne ?]]; [by left|right]. split; [|done].
  destruct v as [|[[] [] [] [] [] [] [] []] s]; try done. by destruct (Hne s).
Qed.

(** A return whose statuses are written out is ok or an error, and has the statuses of
    that. *)
Definition return_wf r : Prop :=
  Forall (λ n, cr_var r = "ok" ∧ is_success n = true ∨ cr_var r = "error" ∧ is_success n = false) (cr_codes r).

Lemma returns_of_wf stmts : Forall return_wf (returns_of stmts).
Proof.
  induction stmts as [|[v t] stmts IH]; [constructor|].
  change (returns_of ((v, t) :: stmts)) with (add_return (v, t) (returns_of stmts)). unfold add_return.
  cbn [fst snd]. destruct (classify v) as [code var] eqn:E.
  assert (Forall (λ n, var = "ok" ∧ is_success n = true ∨ var = "error" ∧ is_success n = false)
    match code with Some n => [n] | None => [] end) as Hc.
  { destruct code as [n|]; [|constructor]. apply list.Forall_singleton. by apply classify_code in E. }
  destruct (returns_of stmts) as [|r l]; [by apply list.Forall_singleton|]. apply list.Forall_cons in IH as [Hr Hl].
  destruct (_ && _) eqn:Hb; [|by constructor; [|constructor]]. apply andb_prop in Hb as [Hv%bool_decide_eq_true _]. subst var.
  constructor; [|done]. unfold return_wf. cbn. by apply list.Forall_app.
Qed.

Lemma return_codes_success r n : return_wf r → n ∈ return_codes r → (cr_var r = "error" ↔ is_success n = false).
Proof.
  unfold return_wf, return_codes. intros Hwf Hn. destruct (cr_codes r) as [|m l].
  - case_bool_decide as Hv; apply list_elem_of_singleton in Hn as ->; [by rewrite Hv|]. by split.
  - rewrite merge_sort_Permutation elem_of_remove_dups in Hn. rewrite list.Forall_forall in Hwf.
    destruct (Hwf _ Hn) as [[-> ->]|[-> ->]]; by split.
Qed.

Lemma response_cases_return returns c : c ∈ response_cases returns →
  ∃ r, r ∈ returns ∧ cr_type r = Some (rc_type c) ∧ rc_var c = cr_var r ∧ rc_codes c = return_codes r.
Proof.
  induction returns as [|r l IH]; [by intros ?%elem_of_nil|]. change (response_cases (r :: l)) with (add_case r (response_cases l)).
  unfold add_case. assert (c ∈ response_cases l → ∃ r', r' ∈ r :: l ∧ cr_type r' = Some (rc_type c) ∧
    rc_var c = cr_var r' ∧ rc_codes c = return_codes r') as Hl.
  { intros (r'&?&?)%IH. exists r'. split; [by right|done]. }
  destruct (cr_type r) as [t|] eqn:Ht; [|done].
  intros [->|[_ Hc]%list_elem_of_filter]%elem_of_cons; [|by apply Hl]. exists r. rewrite Ht. split; [by left|done].
Qed.

Lemma return_response_case returns r t : r ∈ returns → cr_type r = Some t →
  ∃ c, c ∈ response_cases returns ∧ rc_codes c = return_codes r.
Proof.
  intros Hr Ht. induction returns as [|r' l IH]; [by apply elem_of_nil in Hr|].
  change (response_cases (r' :: l)) with (add_case r' (response_cases l)). unfold add_case.
  apply elem_of_cons in Hr as [->|Hr].
  - rewrite Ht. eexists. split; [by left|done].
  - destruct (IH Hr) as (c&Hc&E). destruct (cr_type r') as [t'|]; [|by exists c].
    destruct (decide (return_codes r = return_codes r')) as [E'|Hne].
    + eexists. split; [by left|]. by rewrite E'.
    + exists c. split; [|done]. right. apply list_elem_of_filter. split; [|done]. by rewrite E.
Qed.

Lemma defaultResponse_spec cases var :
  match defaultResponse cases var with
  | Some t => ∃ c, c ∈ cases ∧ rc_var c = var ∧ rc_type c = t
  | None => ∀ c, c ∈ cases → rc_var c ≠ var
  end.
Proof.
  unfold defaultResponse. induction cases as [|c l IH]; [by intros c ?%elem_of_nil|]. rewrite filter_cons.
  destruct (foldr lesser None (filter _ l)) as [b|] eqn:E; cbn in IH.
  - destruct IH as (b'&?&?&?). case_decide as Hv; cbn; rewrite E; cbn.
    + case_bool_decide; cbn; [exists c|exists b']; (split; [|done]); [by left|by right].
    + exists b'. split; [by right|done].
  - case_decide as Hv; cbn; rewrite E; cbn; [by exists c; split; [left|]|].
    intros c' [->|?]%elem_of_cons; [done|by apply IH].
Qed.

(** What a response is decoded into: for a status that is a success the type of a
    return that is no error, for any other the type of an error; and there is one
    for every status that is a failure as soon as the endpoint has an error with a
    type. *)
Lemma responses_spec stmts status :
  let returns := returns_of stmts in
  match responses (response_cases returns) status with
  | Some t => ∃ r, r ∈ returns ∧ cr_type r = Some t ∧ (cr_var r = "error" ↔ is_success status = false)
  | None => is_success status = false → ∀ r, r ∈ returns → cr_var r = "error" → cr_type r = None
  end.
Proof.
  intros returns. pose proof (returns_of_wf stmts) as Hwf. fold returns in Hwf. rewrite list.Forall_forall in Hwf.
  assert (∀ c, c ∈ response_cases returns → ∃ r, r ∈ returns ∧ cr_type r = Some (rc_type c) ∧ rc_var c = cr_var r ∧
    (status ∈ rc_codes c → (cr_var r = "error" ↔ is_success status = false))) as Hcase.
  { intros c Hc. destruct (response_cases_return _ _ Hc) as (r&Hr&Ht&Hv&E). exists r. split_and!; try done.
    rewrite E. intros Hn. by apply return_codes_success; [apply Hwf|]. }
  unfold responses. destruct (find _ _) as [c|] eqn:Ef.
  - apply find_some in Ef as [Hc%list_elem_of_In Hn%bool_decide_eq_true].
    destruct (Hcase _ Hc) as (r&?&?&_&H). exists r. split_and!; try done; by apply H.
  - pose proof (defaultResponse_spec (response_cases returns) (if is_success status then "ok" else "error")) as Hd.
    destruct (is_success status).
    + destruct (defaultResponse _ "ok") as [t|]; [|done]. destruct Hd as (c&Hc&Hv&<-).
      destruct (Hcase _ Hc) as (r&?&?&E&_). exists r. split_and!; try done. by rewrite -E Hv.
    + destruct (defaultResponse _ "error") as [t|].
      * destruct Hd as (c&Hc&Hv&<-). destruct (Hcase _ Hc) as (r&?&?&E&_). exists r. split_and!; try done. by rewrite -E Hv.
      * intros _ r Hr Hv. destruct (cr_type r) as [t|] eqn:Ht; [|done].
        destruct (return_response_case _ _ _ Hr Ht) as (c&Hc&E). destruct (response_cases_return _ _ Hc) as (r'&Hr'&_&Hv'&E').
        assert (∃ n, n ∈ return_codes r) as [n Hn].
        { clear. unfold return_codes. destruct (cr_codes r) as [|m l].
          - case_bool_decide; eexists; by apply list_elem_of_singleton.
          - exists m. rewrite merge_sort_Permutation elem_of_remove_dups. by left. }
        pose proof (return_codes_success _ _ (Hwf _ Hr) Hn) as H1. rewrite -E E' in Hn.
        pose proof (return_codes_success _ _ (Hwf _ Hr') Hn) as H2. destruct (Hd _ Hc). rewrite Hv'. tauto.
Qed.
End returns.

Lemma pairs_Values_lookup l key : default [] (pairs_Values l !! key) = (filter (λ p, p.1 = key) l).*2.
Proof.
  unfold pairs_Values. assert (∀ l v, default [] (foldl (λ (v : Values) kv, <[kv.1 := default [] (v !! kv.1) ++ [kv.2]]> v) v l !! key) =
    default [] (v !! key) ++ (filter (λ p, p.1 = key) l).*2) as H; [|by rewrite H].
  clear l. intros l. induction l as [|[k x] l IH]; intros v; cbn [foldl fst snd]; [by rewrite app_nil_r|].
  rewrite IH filter_cons. case_decide as Hk; cbn in Hk |- *.
  - subst k. by rewrite lookup_insert_eq /= -app_assoc.
  - by rewrite lookup_insert_ne.
Qed.

Section method_properties.
Context (json_Unmarshal : string → error + value) (json_Marshal : payload → error + string)
  (query_Encode : payload → error + string) (gunzip : string → error + string).
Context {S : Type} `{!HasMonitors S, !HasRest S}.
Context (Do : Request → S → S * res HTTPResponse) (check_request : string → string → option error)
  (ContentLength : HTTPResponse → Z) (read_error : HTTPResponse → option error).
Context {URL : Type} (url_Parse : string → error + URL) (url_Query : URL → list (string * string))
  (set_RawQuery : string → URL → URL) (url_String : URL → string)
  (Sprint : value → string) (Sprint_error : decoded → string) (Validate : decoded → option error)
  (request_Method : HTTPResponse → string) (ctx_Err_now : S → Context → option error).
Notation DoHTTPRequest := (DoHTTPRequest json_Unmarshal json_Marshal query_Encode gunzip Do check_request ContentLength read_error).
Notation receive := (receive json_Unmarshal gunzip ContentLength read_error).
Notation client_method := (client_method json_Unmarshal json_Marshal query_Encode gunzip Do check_request ContentLength
  read_error url_Parse url_Query set_RawQuery url_String Sprint Sprint_error Validate request_Method ctx_Err_now).
Notation method_result := (method_result Sprint_error Validate request_Method).
Notation on_failure := (on_failure Sprint_error request_Method).
Notation on_success := (on_success Validate request_Method).
Notation match_types := (match_types Validate request_Method).
Notation ctx_now := (ctx_now ctx_Err_now).

(** The kind of the error that a failing call comes to. *)
Definition failure_kind (ep : ClientSpec) (out : res fetched) : Z :=
  match out with
  | Ok (Failure _) => if has_return ep "error" true then DownstreamResponseError else DownstreamUnavailableError
  | Ok (Success _) => DownstreamUnexpectedResponseError
  | _ => DownstreamUnavailableError
  end.

(** An error of one of the kinds of src/common, that does not write a response itself. *)
Definition kinded (e : error) (kind : Z) : Prop :=
  (∃ msg cause, e = ErrServer kind msg cause) ∨
  (∃ method url status body cause, e = ErrDownstream kind method url status body cause).

Lemma CreateError_kinded ctx kind msg err : passes_through err = false →
  kinded (CreateError ctx kind msg (Some err)) (if is_deadline_exceeded ctx then DownstreamTimeoutError else kind).
Proof.
  intros Hp. unfold CreateError, CheckContextTimeout. destruct (is_deadline_exceeded ctx); [|rewrite Hp].
  all: left; by eexists _, _.
Qed.

Lemma downstream_error_kinded ctx kind r cause :
  kinded (downstream_error request_Method ctx kind r cause) (if is_deadline_exceeded ctx then DownstreamTimeoutError else kind).
Proof.
  unfold downstream_error, CreateDownstreamError, CheckContextTimeout. destruct (is_deadline_exceeded ctx).
  - left. by eexists _, _.
  - right. by eexists _, _, _, _, _.
Qed.

(** A type assertion that holds, at its position. *)
Lemma match_types_spec ctx ep r types i out :
  match_types ctx ep r i types = Some out →
  ∃ j t, types !! j = Some t ∧ ct_name <$> dynamic_type ep r = Some (ct_name t) ∧
    match out with
    | Ok vals => validated Validate t (hres_Response r) = None ∧
        vals = if has_return ep "ok" false then [RVal (hres_Response r); RHeader (hr_Header (hres_HTTPResponse r))]
               else in_position (i + j) (length (positions ep)) (hres_Response r)
    | Err e => ∃ valErr, validated Validate t (hres_Response r) = Some valErr ∧
        e = downstream_error request_Method ctx DownstreamUnexpectedResponseError r (Some valErr)
    | Panic _ => False
    end.
Proof.
  revert i. induction types as [|t types IH]; intros i; [done|]. cbn. case_bool_decide as Ht.
  - intros [= <-]. exists 0%nat, t. split_and!; [done..|]. rewrite Nat.add_0_r.
    destruct (validated _ _ _) as [e|]; [by eexists|]. by destruct (has_return _ _ _).
  - intros (j&t'&?&?&H)%IH. exists (1 + j)%nat, t'. split_and!; [done..|]. by replace (i + (1 + j))%nat with (1 + i + j)%nat by lia.
Qed.

(** What becomes of a response that is no success. *)
Lemma on_failure_spec ctx ep url r out :
  on_failure ctx ep url r = out →
  match out with
  | Ok _ => False
  | Err e => kinded e (if is_deadline_exceeded ctx then DownstreamTimeoutError else failure_kind ep (Ok (Failure r)))
  | Panic p => p = assertion_panic ∧ has_return ep "error" true = true ∧
      ∀ name, dynamic_type ep r ≠ Some (mk_client_type name (KindOther true))
  end.
Proof.
  intros <-. unfold on_failure, failure_kind. destruct (has_return ep "error" true).
  - unfold assert_error. destruct (dynamic_type ep r) as [[name [| |[]]]|]; cbn; try by split_and!.
    apply downstream_error_kinded.
  - by apply CreateError_kinded.
Qed.

(** What becomes of a success; 401 is none. *)
Lemma on_success_spec ctx ep r out :
  is_success (hr_StatusCode (hres_HTTPResponse r)) = true → on_success ctx ep r = out →
  match out with
  | Ok vals =>
      (∃ j t, positions ep !! j = Some t ∧ ct_name <$> dynamic_type ep r = Some (ct_name t) ∧
         validated Validate t (hres_Response r) = None ∧
         vals = if has_return ep "ok" false then [RVal (hres_Response r); RHeader (hr_Header (hres_HTTPResponse r))]
                else in_position j (length (positions ep)) (hres_Response r)) ∨
      has_return ep "ok" true = false ∧
        vals = if has_return ep "ok" false then [RHeader (hr_Header (hres_HTTPResponse r))] else []
  | Err e => kinded e (if is_deadline_exceeded ctx then DownstreamTimeoutError else failure_kind ep (Ok (Success r)))
  | Panic _ => False
  end.
Proof.
  intros Hs <-. unfold on_success. rewrite bool_decide_false; [by intros E; rewrite E in Hs|].
  destruct (match_types ctx ep r 0 (positions ep)) as [out|] eqn:E.
  - apply match_types_spec in E as (j&t&?&?&H). destruct out as [vals|e|p]; [|destruct H as (?&_&->); apply downstream_error_kinded|done].
    left. destruct H as [? ->]. by exists j, t.
  - destruct (has_return ep "ok" true); [apply downstream_error_kinded|]. destruct (has_return ep "ok" false); by right.
Qed.

(** Its own errors are plain texts; the others are those of what it calls. *)
Section errors.
Context (P : error → Prop) (Htext : ∀ msg, P (ErrText msg)).
Context (HUnmarshal : ∀ b e, json_Unmarshal b = inl e → P e) (HMarshal : ∀ v e, json_Marshal v = inl e → P e)
  (Hquery : ∀ v e, query_Encode v = inl e → P e) (Hgunzip : ∀ b e, gunzip b = inl e → P e)
  (HDo : ∀ r s s1 e, Do r s = (s1, Err e) → P e) (Hcheck : ∀ m u e, check_request m u = Some e → P e)
  (Hread : ∀ r e, read_error r = Some e → P e).

Lemma marshalRequestBody_Err contentType v e :
  marshalRequestBody json_Marshal query_Encode contentType v = Err e → P e.
Proof using HMarshal Hquery Htext.
  unfold marshalRequestBody. intros H. repeat case_match; simplify_eq; try apply Htext; by [eapply HMarshal|eapply Hquery].
Qed.

Lemma prepare_request_Err ctx config e : prepare_request json_Marshal query_Encode check_request ctx config = Err e → P e.
Proof using HMarshal Hquery Htext Hcheck.
  unfold prepare_request. intros [H|(reader&_&H)]%res_bind_Err.
  { destruct (hreq_Body config); first done; by eapply marshalRequestBody_Err. }
  apply res_bind_Err in H as [H|(headers&_&H)].
  { unfold add_extra in H. by repeat case_match. }
  apply res_bind_Err in H as [H|([]&_&H)].
  { induction (hreq_Required config) as [|key keys IH]; [done|]. cbn in H. case_bool_decide; [by injection H as <-|by apply IH]. }
  apply res_bind_Err in H as [H|([]&_&H)]; [|done]. destruct (check_request _ _) eqn:E; [|done]. injection H as <-. by eapply Hcheck.
Qed.

Lemma receive_Err config resp e : receive config resp = Err e → P e.
Proof using HUnmarshal Hgunzip Hread.
  unfold RestLib.receive. cbv zeta. intros [H|(body&_&H)]%res_bind_Err.
  { destruct (_ && _); [|done]. destruct (gunzip _) eqn:E; [|done]. injection H as <-. by eapply Hgunzip. }
  apply res_bind_Err in H as [H|([]&_&H)].
  { destruct (read_error resp) eqn:E; [|done]. injection H as <-. by eapply Hread. }
  apply res_bind_Err in H as [H|(r&_&H)]; [|done]. unfold unmarshal in H. repeat case_match; simplify_eq. by eapply HUnmarshal.
Qed.

Lemma DoHTTPRequest_Err ctx config s s1 e : DoHTTPRequest ctx config s = (s1, Err e) → P e.
Proof using HMarshal Hquery Htext Hcheck HUnmarshal Hgunzip Hread HDo.
  unfold RestLib.DoHTTPRequest. destruct (prepare_request _ _ _ _ _) as [req|e'|p] eqn:Ep; [| |done].
  - destruct (Do req s) as [s2 [resp|e'|p]] eqn:Ed; [|by intros [= _ <-]; eapply HDo|done].
    intros [= _ H]. by eapply receive_Err.
  - intros [= _ <-]. by eapply prepare_request_Err.
Qed.
End errors.

(** What [DoHTTPRequest] gives to the method of an endpoint. *)
Lemma DoHTTPRequest_received ctx config s s1 f :
  DoHTTPRequest ctx config s = (s1, Ok f) → ∃ resp, receive config resp = Ok f.
Proof.
  unfold RestLib.DoHTTPRequest. destruct (prepare_request _ _ _ _ _) as [req|e|p]; [|done..].
  destruct (Do req s) as [s2 [resp|e|p]]; [|done..]. intros [= _ H]. by exists resp.
Qed.

Lemma DoHTTPRequest_fetched ctx config s s1 h b :
  DoHTTPRequest ctx config s = (s1, Ok ((if b : bool then Success else Failure) h)) →
  is_success (hr_StatusCode (hres_HTTPResponse h)) = b ∧
  unmarshal json_Unmarshal (Some (hres_HTTPResponse h)) (hres_Body h)
    (hreq_Responses config (hr_StatusCode (hres_HTTPResponse h))) = Ok h.
Proof.
  intros (resp&H)%DoHTTPRequest_received. apply receive_Ok in H as (body&dec&_&_&E&Hu).
  destruct (is_success (hr_StatusCode resp)) eqn:Hs, b; try discriminate E; injection E as ->; by split.
Qed.

(** A pointer to the type for the status, unless the response is XML. *)
Lemma decoded_type c ep rq u h :
  unmarshal json_Unmarshal (Some (hres_HTTPResponse h)) (hres_Body h)
    (hreq_Responses (http_request url_String c ep rq u) (hr_StatusCode (hres_HTTPResponse h))) = Ok h →
  dynamic_type ep h = responses (response_cases (cs_returns ep)) (hr_StatusCode (hres_HTTPResponse h)) ∨
  ∃ text, hres_Response h = DecXML text.
Proof.
  intros Hu. unfold dynamic_type. cbn in Hu. destruct (responses _ _) as [t|] eqn:Et.
  2: { left. by destruct (hres_Response h). }
  destruct (hres_Response h) eqn:Ed; try by [left|right; eexists].
  exfalso. revert Hu. unfold unmarshal, ct_target. destruct (ct_kind t); cbn.
  all: repeat case_match; intros E; simplify_eq; rewrite -E in Ed; discriminate Ed.
Qed.

(** The type for a failure is an error's. *)
Lemma failure_type ep stmts h :
  cs_returns ep = returns_of stmts → has_return ep "error" true = true →
  is_success (hr_StatusCode (hres_HTTPResponse h)) = false →
  ∃ r t, r ∈ cs_returns ep ∧ cr_var r = "error" ∧ cr_type r = Some t ∧
    responses (response_cases (cs_returns ep)) (hr_StatusCode (hres_HTTPResponse h)) = Some t.
Proof.
  intros Hep Hr Hs. pose proof (responses_spec stmts (hr_StatusCode (hres_HTTPResponse h))) as H. cbn zeta in H.
  rewrite -Hep in H. destruct (responses _ _) as [t|].
  - destruct H as (r&?&?&Hv). exists r, t. split_and!; try done. by apply Hv.
  - exfalso. unfold has_return in Hr. apply existsb_exists in Hr as (r&Hin%list_elem_of_In&[Hv%bool_decide_eq_true Ht%bool_decide_eq_true]%andb_prop).
    rewrite (H Hs _ Hin Hv) in Ht. by rewrite bool_decide_false in Ht.
Qed.

Lemma method_result_spec c ep stmts ctx ctx' rq u s s1 r out :
  cs_returns ep = returns_of stmts → DoHTTPRequest ctx (http_request url_String c ep rq u) s = (s1, r) →
  method_result ctx' ep (url_String u) r = out →
  match out with
  | Ok vals => ∃ h, r = Ok (Success h) ∧ is_success (hr_StatusCode (hres_HTTPResponse h)) = true ∧
      ((∃ j t, positions ep !! j = Some t ∧ ct_name <$> dynamic_type ep h = Some (ct_name t) ∧
         validated Validate t (hres_Response h) = None ∧
         vals = if has_return ep "ok" false then [RVal (hres_Response h); RHeader (hr_Header (hres_HTTPResponse h))]
                else in_position j (length (positions ep)) (hres_Response h)) ∨
       has_return ep "ok" true = false ∧
         vals = if has_return ep "ok" false then [RHeader (hr_Header (hres_HTTPResponse h))] else [])
  | Err e => (∀ err, r = Err err → passes_through err = false) →
      kinded e (if is_deadline_exceeded ctx' then DownstreamTimeoutError else failure_kind ep r)
  | Panic p => r = Panic p ∨
      p = assertion_panic ∧ has_return ep "error" true = true ∧ ∃ h, r = Ok (Failure h) ∧
        ((∃ text, hres_Response h = DecXML text) ∨
         ∃ ret t, ret ∈ cs_returns ep ∧ cr_var ret = "error" ∧ cr_type ret = Some t ∧ ct_kind t ≠ KindOther true)
  end.
Proof.
  intros Hep HDo. unfold GeneratedClient.method_result. destruct r as [[h|h]|err|p].
  - intros Hout. apply (DoHTTPRequest_fetched _ _ _ _ _ true) in HDo as [Hs _]. apply on_success_spec in Hout; [|done].
    destruct out as [vals|e|p]; [by exists h|done|done].
  - intros Hout%on_failure_spec. destruct out as [vals|e|p]; [done|done|]. destruct Hout as (->&Hr&Hn). right.
    split_and!; [done..|]. exists h. split; [done|].
    apply (DoHTTPRequest_fetched _ _ _ _ _ false) in HDo as [Hs Hu].
    destruct (decoded_type _ _ _ _ _ Hu) as [Hd|?]; [right|by left].
    destruct (failure_type _ _ _ Hep Hr Hs) as (ret&t&?&?&?&Ht). exists ret, t. split_and!; try done.
    intros Hk. apply (Hn (ct_name t)). rewrite Hd Ht -Hk. by destruct t.
  - intros <- Hp. apply CreateError_kinded. by apply Hp.
  - intros <-. by left.
Qed.

(** *** What is sent *)

Lemma fill_path_filled segs vals :
  length vals = length (filter (λ o : option string, o = None) segs) → filled Sprint segs vals (fill_path Sprint segs vals).
Proof using.
  revert vals. induction segs as [|[text|] segs IH]; intros vals; rewrite ?filter_cons; cbn.
  - destruct vals; [constructor|done].
  - intros H. constructor. by apply IH.
  - destruct vals as [|v vals]; [done|]. intros [= H]. constructor. by apply IH.
Qed.

Lemma encode_param_key key q kv :
  (filter (λ p, p.1 = key) (EncodeQueryParam Sprint q kv.1 kv.2)).*2 =
  (filter (λ p, p.1 = key) q).*2 ++ if bool_decide (kv.1 = key) then query_texts Sprint kv.2 else [].
Proof using.
  destruct kv as [k v]. cbn. assert (∀ xs : list string, (filter (λ p, p.1 = key) ((k,.) <$> xs)).*2 = if bool_decide (k = key) then xs else []) as Hk.
  { intros xs. rewrite filter_pairs. case_bool_decide; [|done]. rewrite -list_fmap_compose. apply list_fmap_id. }
  destruct v as [|l|v]; cbn; rewrite ?list.filter_app ?fmap_app.
  - by case_bool_decide; rewrite app_nil_r.
  - by rewrite -(Hk (Sprint <$> l)) -list_fmap_compose.
  - by rewrite -(Hk [Sprint v]).
Qed.

Lemma encode_query_key ep rq q key :
  default [] (pairs_Values (encode_query Sprint ep rq q) !! key) =
  (filter (λ p, p.1 = key) q).*2 ++ query_sent Sprint ep rq key.
Proof using.
  rewrite pairs_Values_lookup. unfold encode_query, query_sent. generalize (zip (cs_query ep) (crq_query rq)) as l1.
  generalize (zip (cs_optQuery ep) (crq_optQuery rq)) as l2. intros l2 l1.
  rewrite app_assoc. revert q. induction l1 as [|kv l1 IH]; intros q; cbn [mbind list_bind foldl].
  - rewrite app_nil_r. revert q. induction l2 as [|[k [v|]] l2 IH]; intros q; cbn [mbind list_bind foldl fst snd].
    + by rewrite app_nil_r.
    + rewrite IH (encode_param_key key q (k, v)) -app_assoc //.
    + rewrite IH. by case_bool_decide.
  - rewrite IH encode_param_key -!app_assoc //.
Qed.

(** *** What comes of a response *)

(** The first position whose type is that of the response. *)
Definition position_of (ep : ClientSpec) (h : HTTPResult) : option (nat * client_type) :=
  list_find (λ t, Some (ct_name t) = ct_name <$> dynamic_type ep h) (positions ep).

Lemma match_types_find ctx ep h types i :
  match_types ctx ep h i types =
  '(j, t) ← list_find (λ t, Some (ct_name t) = ct_name <$> dynamic_type ep h) types;
  Some match validated Validate t (hres_Response h) with
       | Some valErr => Err (downstream_error request_Method ctx DownstreamUnexpectedResponseError h (Some valErr))
       | None =>
           if has_return ep "ok" false
           then Ok [RVal (hres_Response h); RHeader (hr_Header (hres_HTTPResponse h))]
           else Ok (in_position (i + j) (length (positions ep)) (hres_Response h))
       end.
Proof using.
  revert i. induction types as [|t types IH]; intros i; [done|]. cbn [GeneratedClient.match_types list_find].
  case_bool_decide as Ht; case_decide as Hd; try congruence.
  - cbn. by rewrite Nat.add_0_r.
  - rewrite IH. destruct (list_find _ types) as [[j t']|]; [|done]. cbn. by replace (i + Datatypes.S j)%nat with (1 + i + j)%nat by lia.
Qed.

Lemma in_position_spec j n d i :
  (j < n)%nat → length (in_position j n d) = n ∧
  in_position j n d !! i = if bool_decide (i = j) then Some (RVal d) else if bool_decide (i < n)%nat then Some RZero else None.
Proof using.
  intros Hj. unfold in_position. split; [rewrite length_app /= !length_replicate; lia|].
  destruct (decide (i < j)%nat).
  - rewrite lookup_app_l ?length_replicate // bool_decide_false; [lia|]. rewrite bool_decide_true; [lia|]. by apply lookup_replicate_2.
  - rewrite lookup_app_r ?length_replicate; [lia|]. case_bool_decide; [subst; by rewrite Nat.sub_diag|].
    destruct (i - j)%nat as [|k] eqn:E; [lia|]. cbn. case_bool_decide.
    + apply lookup_replicate_2. lia.
    + apply lookup_ge_None_2. rewrite length_replicate. lia.
Qed.

(** What a method returns for what [DoHTTPRequest] came to. *)
Definition outcome_spec (ctx : Context) (ep : ClientSpec) (r : res fetched) (out : res (list ret_val)) : Prop :=
  let fails kind := ∃ e, out = Err e ∧ kinded e (if is_deadline_exceeded ctx then DownstreamTimeoutError else kind) in
  match r with
  | Panic p => out = Panic p
  | Err err => passes_through err = false → fails DownstreamUnavailableError
  | Ok (Failure h) =>
      if has_return ep "error" true then
        match dynamic_type ep h with
        | Some (mk_client_type _ (KindOther true)) => fails DownstreamResponseError
        | _ => out = Panic assertion_panic
        end
      else fails DownstreamUnavailableError
  | Ok (Success h) =>
      match position_of ep h with
      | Some (j, t) =>
          match validated Validate t (hres_Response h) with
          | None => ∃ vals, out = Ok vals ∧
              if has_return ep "ok" false
              then vals = [RVal (hres_Response h); RHeader (hr_Header (hres_HTTPResponse h))]
              else length vals = length (positions ep) ∧ vals !! j = Some (RVal (hres_Response h)) ∧
                   ∀ i, i ≠ j → (i < length vals)%nat → vals !! i = Some RZero
          | Some _ => fails DownstreamUnexpectedResponseError
          end
      | None =>
          if has_return ep "ok" true then fails DownstreamUnexpectedResponseError
          else out = Ok (if has_return ep "ok" false then [RHeader (hr_Header (hres_HTTPResponse h))] else [])
      end
  end.

Lemma method_result_outcome ctx ep url r :
  (∀ h, r = Ok (Success h) → is_success (hr_StatusCode (hres_HTTPResponse h)) = true) →
  outcome_spec ctx ep r (method_result ctx ep url r).
Proof using.
  intros Hs. destruct r as [[h|h]|err|p]; cbn.
  - specialize (Hs h eq_refl). unfold GeneratedClient.on_success.
    rewrite bool_decide_false; [by intros E; rewrite E in Hs|].
    rewrite match_types_find. fold (position_of ep h). destruct (position_of ep h) as [[j t]|] eqn:Ej; cbn.
    + destruct (validated _ _ _) as [valErr|]; [eexists; split; [done|apply downstream_error_kinded]|].
      destruct (has_return ep "ok" false); [by eexists|]. eexists. split; [done|].
      apply list_find_Some in Ej as (Hj%lookup_lt_Some&_&_).
      destruct (in_position_spec j _ (hres_Response h) j Hj) as [Hl Hv]. rewrite Hl Hv bool_decide_true //. split_and!; [done..|].
      intros i Hi Hlt. rewrite (proj2 (in_position_spec j _ (hres_Response h) i Hj)) bool_decide_false // bool_decide_true //.
    + destruct (has_return ep "ok" true); [eexists; split; [done|apply downstream_error_kinded]|]. by destruct (has_return ep "ok" false).
  - unfold GeneratedClient.on_failure, assert_error. destruct (has_return ep "error" true).
    + destruct (dynamic_type ep h) as [[name [| |[]]]|]; try done. cbn. eexists. split; [done|]. apply downstream_error_kinded.
    + eexists. split; [done|]. by apply CreateError_kinded.
  - intros Hp. eexists. split; [done|]. by apply CreateError_kinded.
  - done.
Qed.

(** C19. A method of a generated client, for any endpoint. It sends one request: to the
    path of the endpoint with its parameters in their places, with the query that each
    parameter says and what was in it, the method, the body if the endpoint has one,
    the required headers to check for, the client's extra headers, and for each status
    the kind of the type that the endpoint's statements have for it, of an error's type
    if and only if the status is no success. Of a success it returns the value in the
    position of its type, the others zero, or with the header where the endpoint returns
    one, once it is validated; a response of no type that the endpoint returns is an
    unexpected one, unless it returns nothing of a type. A failure is an error of the
    kind for it, or a timeout if the deadline has passed, and with a typed error that
    the response does not have, a panic. The call's result is there for [GetRestResult]
    on every path. *)
Theorem client_method_spec c ep stmts ctx rq s s' out :
  cs_returns ep = returns_of stmts → request_for ep rq → client_method c ep ctx rq s = (s', out) →
  ∃ parts, filled Sprint (cs_path ep) (crq_path rq) parts ∧
  match url_Parse (cl_URL c +:+ Join parts "/") with
  | inl err => s' = s ∧ out = Err (CreateError (ctx_now ctx s) InternalError "failed to parse url" (Some err))
  | inr u => let types := responses (response_cases (cs_returns ep)) in ∃ u' s1 r,
      (cs_query ep ++ cs_optQuery ep = [] ∧ u' = u ∨
       cs_query ep ++ cs_optQuery ep ≠ [] ∧ ∃ vs, u' = set_RawQuery (Values_Encode vs) u ∧
         ∀ key, default [] (vs !! key) = (filter (λ p, p.1 = key) (url_Query u)).*2 ++ query_sent Sprint ep rq key) ∧
      (∀ status t, types status = Some t →
         ∃ ret, ret ∈ cs_returns ep ∧ cr_type ret = Some t ∧ (cr_var ret = "error" ↔ is_success status = false)) ∧
      (∀ ret status, ret ∈ cs_returns ep → is_Some (cr_type ret) → cr_var ret = "error" → is_success status = false →
         is_Some (types status)) ∧
      DoHTTPRequest (ctx_now ctx s)
        (mkHTTPRequest (cs_method ep) (url_String u') (if cs_body ep then crq_Request rq else PayNil) (cs_required ep)
           (λ status, match types status with Some t => ct_target t | None => TargetNil end) (cl_Headers c)) s = (s1, r) ∧
      s' = set_rest (OnRestResultHTTPResult ctx r (get_rest s1)) s1 ∧
      outcome_spec (ctx_now ctx s') ep r out
  end.
Proof using.
  intros Hep Hrq. unfold GeneratedClient.client_method. exists (fill_path Sprint (cs_path ep) (crq_path rq)).
  split; [by apply fill_path_filled|]. fold (url_text Sprint c ep rq). destruct (url_Parse _) as [err|u]; [by simplify_eq|].
  destruct (DoHTTPRequest _ _ _) as [s1 r] eqn:HDo. simplify_eq.
  exists (with_query url_Query set_RawQuery Sprint ep rq u), s1, r.
  split_and!.
  - unfold with_query. destruct (cs_query ep ++ cs_optQuery ep); [by left|right]. split; [done|]. eexists. split; [done|]. intros key. apply encode_query_key.
  - intros status t Ht. pose proof (responses_spec stmts status) as H. cbv zeta in H. by rewrite -Hep Ht in H.
  - intros ret status Hin [t Ht] Hv Hs. pose proof (responses_spec stmts status) as H. cbv zeta in H. rewrite -Hep in H.
    destruct (responses _ _); [by eexists|]. by rewrite (H Hs ret Hin Hv) in Ht.
  - done.
  - done.
  - apply method_result_outcome. intros h ->. by apply (DoHTTPRequest_fetched _ _ _ _ h true) in HDo as [? _].
Qed.

(** The error for a 401 of a downstream, [DownstreamUnauthorizedError], never comes
    out of a method: the code compares the status where it is a success already. *)
Theorem client_method_never_unauthorized c ep stmts ctx rq s s' e :
  cs_returns ep = returns_of stmts → client_method c ep ctx rq s = (s', Err e) →
  (∀ err, url_Parse (url_text Sprint c ep rq) = inl err → passes_through err = false) →
  (∀ ctx config s s1 err, DoHTTPRequest ctx config s = (s1, Err err) → passes_through err = false) →
  ErrorKinder e ≠ Some DownstreamUnauthorizedError.
Proof.
  intros Hep Hm Hu HDo. unfold GeneratedClient.client_method in Hm.
  destruct (url_Parse _) as [err|u].
  - injection Hm as _ <-. specialize (Hu _ eq_refl). unfold CreateError, CheckContextTimeout. rewrite Hu. destruct (is_deadline_exceeded _); by vm_compute.
  - destruct (DoHTTPRequest _ _ _) as [s1 r] eqn:E. injection Hm as _ Hm.
    eapply (method_result_spec c ep stmts _ _ rq _ s s1 r (Err e) Hep E) in Hm.
    2: { intros err ->. by eapply HDo. }
    assert (∀ b k, k ≠ DownstreamUnauthorizedError → (if b : bool then DownstreamTimeoutError else k) ≠ DownstreamUnauthorizedError) as Hk
      by (intros [] k Hk; [done|exact Hk]).
    destruct Hm as [(msg&cause&->)|(?&?&?&?&?&->)]; intros [= Hm]; (eapply Hk; [|exact Hm]);
      unfold failure_kind; repeat case_match; by vm_compute.
Qed.

(** An endpoint with a typed error whose downstream answers with XML: the method
    does not return an error but panics, for an XML body is handed on as a string. *)
Theorem client_method_panics_on_XML c ep stmts ctx rq u s s1 req resp text name :
  let config := http_request url_String c ep rq (with_query url_Query set_RawQuery Sprint ep rq u) in
  cs_returns ep = returns_of stmts → has_return ep "error" true = true →
  url_Parse (url_text Sprint c ep rq) = inr u →
  prepare_request json_Marshal query_Encode check_request (ctx_now ctx s) config = Ok req →
  Do req s = (s1, Ok resp) →
  is_success (hr_StatusCode resp) = false → Contains (header_get (hr_Header resp) "Content-Type") "xml" = true →
  header_get (hr_Header resp) "Content-Encoding" = "" → hr_Body resp = text → text ≠ "" → read_error resp = None →
  responses (response_cases (cs_returns ep)) (hr_StatusCode resp) = Some (mk_client_type name (KindOther true)) →
  (client_method c ep ctx rq s).2 = Panic assertion_panic.
Proof.
  intros config Hep Hr Hu Hprep HDo Hs Hxml Henc <- Hne Hread Ht.
  assert (receive config resp = Ok (Failure (mkHTTPResult resp (hr_Body resp) (DecXML (hr_Body resp))))) as Hrec.
  { unfold RestLib.receive. rewrite Henc Hread /=. unfold unmarshal. rewrite Ht /=.
    rewrite bool_decide_false //= Hxml /=. by rewrite Hs. }
  unfold GeneratedClient.client_method. rewrite Hu. cbv zeta. fold config.
  unfold RestLib.DoHTTPRequest. rewrite Hprep HDo Hrec /=. unfold on_failure. by rewrite Hr.
Qed.
End method_properties.

(** Parameters of the path are written into the URL as they are, where those of the
    query are escaped: a slash in one makes the URL of another endpoint. *)
Lemma fill_path_app Sprint segs segs' vals vals' :
  length vals = length (filter (λ o : option string, o = None) segs) →
  fill_path Sprint (segs ++ segs') (vals ++ vals') = fill_path Sprint segs vals ++ fill_path Sprint segs' vals'.
Proof.
  revert vals. induction segs as [|[text|] segs IH]; intros vals; rewrite ?filter_cons; cbn.
  - by destruct vals.
  - intros H. by rewrite IH.
  - destruct vals as [|v vals]; [done|]. intros [= H]. cbn. by rewrite IH.
Qed.

Lemma Join_snoc2 l a b sep : Join (l ++ [a +:+ sep +:+ b]) sep = Join (l ++ [a; b]) sep.
Proof. induction l as [|x l IH]; [done|]. cbn -[Join]. destruct l as [|y l]; [done|]. cbn in IH |- *. by rewrite IH. Qed.

Theorem path_parameters_not_escaped Sprint c ep ep' rq rq' segs vals v v' text :
  cs_path ep = segs ++ [None] → cs_path ep' = segs ++ [None; Some text] →
  crq_path rq = vals ++ [v] → crq_path rq' = vals ++ [v'] →
  length vals = length (filter (λ o : option string, o = None) segs) →
  Sprint v = Sprint v' +:+ "/" +:+ text →
  url_text Sprint c ep rq = url_text Sprint c ep' rq'.
Proof.
  intros He He' Hr Hr' Hl Hv. unfold url_text. rewrite He He' Hr Hr' !fill_path_app //. cbn [fill_path].
  by rewrite Hv Join_snoc2.
Qed.

(** ** A service that calls a downstream, and what its own caller is answered *)

#[export] Instance SvcState_rest U `{!HasRest U} : HasRest (SvcState U) := {
  get_rest s := get_rest (sv_user s);
  set_rest h s := mkSvcState (sv_monitors s) (sv_resp s) (set_rest h (sv_user s))
}.

Section composition.
Context `{Jose} {T U R : Type} `{!Platform T U, !HasRest U}.
Context (json_Unmarshal : string → error + value) (json_Marshal : payload → error + string)
  (query_Encode : payload → error + string) (gunzip : string → error + string)
  (Do : Request → SvcState U → SvcState U * res HTTPResponse) (check_request : string → string → option error)
  (ContentLength : HTTPResponse → Z) (read_error : HTTPResponse → option error)
  {URL : Type} (url_Parse : string → error + URL) (url_Query : URL → list (string * string))
  (set_RawQuery : string → URL → URL) (url_String : URL → string)
  (Sprint : value → string) (Sprint_error : decoded → string) (Validate : decoded → option error)
  (request_Method : HTTPResponse → string) (ctx_Err_now : SvcState U → Context → option error).
Notation client_method := (client_method json_Unmarshal json_Marshal query_Encode gunzip Do check_request ContentLength
  read_error url_Parse url_Query set_RawQuery url_String Sprint Sprint_error Validate request_Method ctx_Err_now).

(** A service that makes a call and returns its error, [if err != nil { return nil, err }],
    or goes on with what it returned. *)
Definition calling_service (c : Client) (dep : ClientSpec) (request : gmap string (field T) → ClientRequest)
    (reply : list ret_val → SvcState U → SvcState U * res (list payload)) : ServiceMethod (T := T) (U := U) :=
  λ ctx req s,
  let '(s, r) := client_method c dep ctx (request req) s in
  match r with
  | Ok vals => reply vals s
  | Err err => (s, Err err)
  | Panic p => (s, Panic p)
  end.

(** What the caller of the service is answered when the call fails. *)
Definition failure_status (dep : ClientSpec) (out : res (list ret_val)) (r : res fetched) : Z :=
  match out with
  | Panic _ => 500%Z
  | _ => if bool_decide (failure_kind dep r = DownstreamUnavailableError) then 503%Z else 500%Z
  end.

Lemma kinded_status ctx e kind (b : bool) : kinded e (if b then DownstreamTimeoutError else kind) →
  b = is_deadline_exceeded ctx → (kind = DownstreamUnavailableError ∨ kind_status kind = 500%Z) →
  plain_cause (Some e) = true ∧ spec_status ctx InternalError (Some e) =
    if b then 504%Z else if bool_decide (kind = DownstreamUnavailableError) then 503%Z else 500%Z.
Proof.
  intros He -> Hk. assert (ErrorKinder e = Some (if is_deadline_exceeded ctx then DownstreamTimeoutError else kind) ∧
    plain_cause (Some e) = true) as [Hkind Hp].
  { destruct He as [(?&?&->)|(?&?&?&?&?&->)]; by split. }
  split; [done|]. unfold spec_status. destruct (is_deadline_exceeded ctx); [done|]. rewrite Hkind.
  assert (kind_status kind = if bool_decide (kind = DownstreamUnavailableError) then 503%Z else 500%Z) as Hs.
  { case_bool_decide as Hu; [by rewrite Hu|]. by destruct Hk. }
  by destruct e.
Qed.

Lemma failure_kind_status dep r :
  failure_kind dep r = DownstreamUnavailableError ∨ kind_status (failure_kind dep r) = 500%Z.
Proof. unfold failure_kind. repeat case_match; by [left|right]. Qed.

(** C6. Two generated parts together: a service whose call of a downstream fails, and
    which returns the error, as seen by its own caller. With the default hooks the
    caller gets one response: 504 if the deadline has passed, 503 if the downstream
    could not be reached or answered with a status that is no success, and 500 if its
    error has a type, if its response is not what was specified, or if the client
    panicked. No status of the downstream is passed on. *)
Theorem failing_downstream_status (g : Callback UpstreamConfig R) ep c dep stmts request reply ctx req s s' out w u :
  default_hooks g → writer_ok w → cs_returns dep = returns_of stmts →
  let ctx1 := DownstreamTimeoutContext g ctx s in
  (∀ s, ctx_Err_now s ctx1 = ctx_Err (DownstreamTimeoutContext g ctx s)) →
  url_Parse (url_text Sprint c dep (request req)) = inr u →
  client_method c dep ctx1 (request req) s = (s', out) → is_ok out = false →
  ∃ s1 r, DoHTTPRequest json_Unmarshal json_Marshal query_Encode gunzip Do check_request ContentLength read_error
      (ctx_now ctx_Err_now ctx1 s)
      (http_request url_String c dep (request req) (with_query url_Query set_RawQuery Sprint dep (request req) u)) s = (s1, r) ∧
    ((∀ err, r = Err err → passes_through err = false) → is_panic r = false →
     ∃ body, ServiceHandler.call_service g ep (calling_service c dep request reply) ctx req s w =
       (s', mkRW (json_headers w) (rw_calls w ++
          [CallWriteHeader (if is_deadline_exceeded (DownstreamTimeoutContext g ctx s') then 504%Z
                            else failure_status dep out r) (json_headers w); CallWrite body]), Ok ())).
Proof.
  intros Hg Hw Hdep ctx1 Hnow Hu Hm Hfail. pose proof Hm as Hm'.
  unfold GeneratedClient.client_method in Hm'. rewrite Hu in Hm'. cbv zeta in Hm'.
  destruct (DoHTTPRequest _ _ _ _ _ _ _ _ _ _ _) as [s1 r] eqn:HDo. injection Hm' as Hs' Hout.
  exists s1, r. split; [done|]. intros Hpass Hpanic. unfold ServiceHandler.call_service, calling_service. fold ctx1. rewrite Hm.
  pose proof Hout as Hr. eapply method_result_spec in Hr; [|exact Hdep|exact HDo].
  assert (is_deadline_exceeded (ctx_now ctx_Err_now ctx1 s') = is_deadline_exceeded (DownstreamTimeoutContext g ctx s')) as Hd
    by (unfold is_deadline_exceeded, ctx_now; cbn [ctx_Err]; by rewrite Hnow).
  rewrite Hs' Hd in Hr. destruct out as [vals|e|p]; [done| |].
  - destruct (kinded_status (DownstreamTimeoutContext g ctx s') e (failure_kind dep r) _ (Hr Hpass) eq_refl
      (failure_kind_status dep r)) as [Hp Hst].
    destruct (handle_error_response g (DownstreamTimeoutContext g ctx s') w (mk_failure InternalError "Handler error" (Some e))
      Hg Hw Hp) as [body E]; [by cbn; rewrite Hst; repeat case_match|].
    exists body. cbn in E |- *. by rewrite E Hst.
  - destruct Hr as [->|(->&_&_)]; [done|].
    assert (spec_status (DownstreamTimeoutContext g ctx s') InternalError (Some (ErrText "interface conversion")) =
      if is_deadline_exceeded (DownstreamTimeoutContext g ctx s') then 504%Z else 500%Z) as Hst
      by (unfold spec_status; by case_match).
    destruct (handle_error_response g (DownstreamTimeoutContext g ctx s') w
      (mk_failure InternalError "Unexpected panic" (Some (ErrText "interface conversion"))) Hg Hw eq_refl) as [body E];
      [by cbn; rewrite Hst; case_match|].
    exists body. cbn -[handle_error] in E |- *. by rewrite E Hst.
Qed.
End composition.

(** ** A backend whose error has a type (codegen/arrai/auto/tests/rest_error_downstream) *)
Module ClientExample.
#[export] Instance rest_of_heap : HasRest rest_heap := { get_rest h := h; set_rest h _ := h }.
#[local] Existing Instance Example.jose.
#[export] Instance platform : Platform string rest_heap := {
  time_Parse layout s := inl (ErrText "cannot parse");
  ReadAll r := inr (req_Body r);
  json_Decode r := inl (ErrText "EOF");
  URLParam r key := "";
  query r key := "";
  ParseBool s := inl (ErrText "strconv.ParseBool");
  regex_match re s := Ok true;
  valid_string s tag := None;
  valid_request req := None;
  valid_response p := None;
  xml_Encode p := None;
  json_Encode p := Some "{}";
  json_text t := "{}";
  range_header h := map_to_list h;
  fmt_panic p := "boom";
  world r := Example.day1;
  timeout_Err dt ctx s := None
}.
Notation St := (SvcState rest_heap).

Definition ErrorResponse : client_type := mk_client_type "ErrorResponse" (KindOther true).
Definition Doop : client_type := mk_client_type "Doop" (KindOther false).
Definition stmts : list (string * option client_type) := [("error", Some ErrorResponse); ("200", Some Doop)].
Definition dep : ClientSpec := mkClientSpec "Backend" "POST" [] [Some ""; Some "doop"; None] [] ["dry"] false (returns_of stmts).
Definition request : ClientRequest := mkClientRequest [VString "x"] [] [Some (QScalar (VBool true))] PayNil.
Definition client : Client := NewClient "http://backend".
(** What the backend answers: a teapot's error, in JSON or XML; a refusal; a success. *)
Definition json : Header := {["Content-Type" := ["application/json"]]}.
Definition teapot : HTTPResponse := mkHTTPResponse 418 json "{}" None "http://backend/doop/x?dry=1".
Definition xml_teapot : HTTPResponse := mkHTTPResponse 418 {["Content-Type" := ["text/xml"]]} "<teapot/>" None "http://backend/doop/x?dry=1".
Definition refusal : HTTPResponse := mkHTTPResponse 401 json "{}" None "http://backend/doop/x?dry=1".
Definition done_it : HTTPResponse := mkHTTPResponse 200 json "{}" None "http://backend/doop/x?dry=1".

Definition Do (resp : HTTPResponse) : Request → St → St * res HTTPResponse := λ r s, (s, Ok resp).
Definition unmarshal (s : string) : error + value := inr (VMap []).
Definition encode (p : payload) : error + string := inr "{}".
Definition gunzip (s : string) : error + string := inr s.
(** A URL is its text before the question mark and after it. *)
Definition URL : Type := string * string.
Definition url_Parse (s : string) : error + URL := inr (s, "").
Definition url_String (u : URL) : string := u.1 +:+ "?" +:+ u.2.
Definition Sprint (v : value) : string := match v with VString s => s | VBool true => "1" | _ => "0" end.

Definition method (resp : HTTPResponse) : Client → ClientSpec → Context → ClientRequest → St → St * res (list ret_val) :=
  client_method unmarshal encode encode gunzip (Do resp) (λ _ _, None) (λ _, 2%Z) (λ _, None) url_Parse (λ _, [])
    (λ q u, (u.1, q)) url_String Sprint (λ _, "{Error:}") (λ _, None) (λ _, "POST") (λ _ _, None).
Definition start : St := mkSvcState ∅ ∅ ∅.
Definition headers : Context := WithValue Background KReqHeader (Some ∅).
Definition call (resp : HTTPResponse) : St * res (list ret_val) := method resp client dep headers request start.

Definition downstream (kind : Z) (resp : HTTPResponse) (cause : error) : error :=
  ErrDownstream kind "POST" "http://backend/doop/x?dry=1" (hr_StatusCode resp) (hr_Body resp) (Some cause).

Example call_examples :
  (call teapot).2 = Err (downstream DownstreamResponseError teapot (ErrForeign "{Error:}" None None None)) ∧
  (call xml_teapot).2 = Panic assertion_panic ∧
  (call refusal).2 = Err (downstream DownstreamResponseError refusal (ErrForeign "{Error:}" None None None)) ∧
  (call done_it).2 = Ok [RVal (DecValue (VMap []))].
Proof. split_and!; by_vm. Defined.

(** What [DoHTTPRequest] made of the teapots. *)
Definition sent (resp : HTTPResponse) : res fetched :=
  (DoHTTPRequest unmarshal encode encode gunzip (Do resp) (λ _ _, None) (λ _, 2%Z) (λ _, None)
     (ctx_now (λ (_ : St) _, None) headers start)
     (http_request url_String client dep request ("http://backend/doop/x", "dry=1")) start).2.
Lemma sent_teapots :
  sent teapot = Ok (Failure (mkHTTPResult teapot "{}" (DecValue (VMap [])))) ∧
  sent xml_teapot = Ok (Failure (mkHTTPResult xml_teapot "<teapot/>" (DecXML "<teapot/>"))).
Proof. split; by_vm. Defined.

Lemma Do_errors resp ctx config s s1 err :
  DoHTTPRequest unmarshal encode encode gunzip (Do resp) (λ _ _, None) (λ _, 2%Z) (λ _, None) ctx config s = (s1, Err err) →
  passes_through err = false.
Proof. by eapply (DoHTTPRequest_Err unmarshal encode encode gunzip (Do resp) _ _ _ (λ e, passes_through e = false)). Defined.

Definition callback : Callback UpstreamConfig () := mkCallback 30 "/" zero_UpstreamConfig None None None.
Lemma no_deadline (s : St) : None = ctx_Err (DownstreamTimeoutContext (T := string) callback headers s).
Proof. reflexivity. Defined.
Definition endpoint : EndpointSpec := mkEndpointSpec "GetApiDoopList" None None [] [] [] [] [] [] [] [] [] false.
Definition service (resp : HTTPResponse) : ServiceMethod (T := string) (U := rest_heap) :=
  calling_service unmarshal encode encode gunzip (Do resp) (λ _ _, None) (λ _, 2%Z) (λ _, None) url_Parse (λ _, [])
    (λ q u, (u.1, q)) url_String Sprint (λ _, "{Error:}") (λ _, None) (λ _, "POST") (λ _ _, None)
    client dep (λ _, request) (λ vals s, (s, Ok [PayOther VNil])).
End ClientExample.
#[local] Existing Instance Example.jose.
#[local] Existing Instance ClientExample.platform.
#[local] Existing Instance ClientExample.rest_of_heap.

(** What comes of the teapot does not depend on where the request goes. *)
Lemma teapot_anywhere url :
  (DoHTTPRequest ClientExample.unmarshal ClientExample.encode ClientExample.encode ClientExample.gunzip
     (ClientExample.Do ClientExample.teapot) (λ _ _, None) (λ _, 2%Z) (λ _, None)
     (ctx_now (λ (_ : ClientExample.St) _, None) ClientExample.headers ClientExample.start)
     (mkHTTPRequest "POST" url PayNil []
        (λ status, match responses (response_cases (cs_returns ClientExample.dep)) status with
                   | Some t => ct_target t | None => TargetNil end) []) ClientExample.start).2 =
  Ok (Failure (mkHTTPResult ClientExample.teapot "{}" (DecValue (VMap [])))).
Proof. reflexivity. Defined.

Lemma client_method_spec_witness :
  ∃ e, (ClientExample.call ClientExample.teapot).2 = Err e ∧ kinded e DownstreamResponseError.
Proof.
  destruct (client_method_spec ClientExample.unmarshal ClientExample.encode ClientExample.encode ClientExample.gunzip
    (ClientExample.Do ClientExample.teapot) (λ _ _, None) (λ _, 2%Z) (λ _, None) ClientExample.url_Parse (λ _, [])
    (λ q u, (u.1, q)) ClientExample.url_String ClientExample.Sprint (λ _, "{Error:}") (λ _, None) (λ _, "POST") (λ _ _, None)
    ClientExample.client ClientExample.dep ClientExample.stmts ClientExample.headers ClientExample.request ClientExample.start
    (ClientExample.call ClientExample.teapot).1 (ClientExample.call ClientExample.teapot).2 eq_refl eq_refl
    (surjective_pairing _)) as (parts&_&u'&s1&r&_&_&_&HDo&_&H).
  assert (r = Ok (Failure (mkHTTPResult ClientExample.teapot "{}" (DecValue (VMap []))))) as ->.
  { rewrite -(teapot_anywhere (ClientExample.url_String u')). exact (f_equal snd (eq_sym HDo)). }
  exact H.
Defined.

Lemma client_method_never_unauthorized_witness :
  ErrorKinder (ClientExample.downstream DownstreamResponseError ClientExample.refusal (ErrForeign "{Error:}" None None None)) ≠
    Some DownstreamUnauthorizedError.
Proof.
  refine (client_method_never_unauthorized ClientExample.unmarshal ClientExample.encode ClientExample.encode ClientExample.gunzip
    (ClientExample.Do ClientExample.refusal) (λ _ _, None) (λ _, 2%Z) (λ _, None) ClientExample.url_Parse (λ _, [])
    (λ q u, (u.1, q)) ClientExample.url_String ClientExample.Sprint (λ _, "{Error:}") (λ _, None) (λ _, "POST") (λ _ _, None)
    ClientExample.client ClientExample.dep ClientExample.stmts ClientExample.headers ClientExample.request ClientExample.start
    (ClientExample.call ClientExample.refusal).1 _ eq_refl _ _ _).
  - rewrite -(proj1 (proj2 (proj2 ClientExample.call_examples))). apply surjective_pairing.
  - discriminate.
  - apply ClientExample.Do_errors.
Defined.

Lemma failing_downstream_status_witness :
  ∃ s' body, ServiceHandler.call_service ClientExample.callback ClientExample.endpoint
    (ClientExample.service ClientExample.xml_teapot) ClientExample.headers ∅ ClientExample.start rw_empty =
    (s', mkRW (json_headers rw_empty) [CallWriteHeader 500 (json_headers rw_empty); CallWrite body], Ok ()).
Proof.
  destruct (failing_downstream_status ClientExample.unmarshal ClientExample.encode ClientExample.encode ClientExample.gunzip
    (ClientExample.Do ClientExample.xml_teapot) (λ _ _, None) (λ _, 2%Z) (λ _, None) ClientExample.url_Parse (λ _, [])
    (λ q u, (u.1, q)) ClientExample.url_String ClientExample.Sprint (λ _, "{Error:}") (λ _, None) (λ _, "POST") (λ _ _, None)
    ClientExample.callback ClientExample.endpoint ClientExample.client ClientExample.dep ClientExample.stmts
    (λ _, ClientExample.request) (λ vals s, (s, Ok [PayOther VNil])) ClientExample.headers ∅ ClientExample.start
    (ClientExample.call ClientExample.xml_teapot).1 (ClientExample.call ClientExample.xml_teapot).2
    rw_empty ("http://backend/doop/x", "") (conj eq_refl eq_refl) eq_refl eq_refl ClientExample.no_deadline eq_refl
    (surjective_pairing _)) as (s1&r&HDo&H).
  - by rewrite (proj1 (proj2 ClientExample.call_examples)).
  - assert (r = Ok (Failure (mkHTTPResult ClientExample.xml_teapot "<teapot/>" (DecXML "<teapot/>")))) as ->.
    { rewrite -(proj2 ClientExample.sent_teapots). unfold ClientExample.sent. by rewrite HDo. }
    destruct H as [body H]; [discriminate|done|]. eexists _, body. rewrite (proj1 (proj2 ClientExample.call_examples)) in H. exact H.
Defined.
