(* ===== verification/ClientServer.v ===== *)
(** * Client and handler of one endpoint: the query parameters, from
    src/codegen/arrai/auto/svc_service.arrai to svc_handler.arrai

    The two templates make a client and a handler from the same specification. What a
    caller puts into the query parameters of a request goes through [EncodeQueryParam]
    of src/convert/query.go and [url.Values], and is read back with the functions of
    src/restlib/common.go and src/convert/convert.go. *)

From stdpp Require Import pretty.
From S2P Require Export GeneratedClient.

(** ** net/url and strconv *)

Definition hex_of (c : ascii) : option N :=
  if is_digit c then Some (byte_N c - 48)%N
  else if byte_between "A" "F" c then Some (byte_N c - 55)%N
  else if byte_between "a" "f" c then Some (byte_N c - 87)%N
  else None.
Fixpoint QueryUnescape (s : string) : option string :=
  match s with
  | "" => Some ""
  | String c s1 =>
      if bool_decide (c = "+"%char) then String " " <$> QueryUnescape s1
      else if bool_decide (c = "%"%char) then
        match s1 with
        | String h (String l s2) =>
            h ← hex_of h; l ← hex_of l; String (ascii_of_N (h * 16 + l)) <$> QueryUnescape s2
        | _ => None
        end
      else String c <$> QueryUnescape s1
  end.

(** [strings.Cut] at an equals sign. *)
Fixpoint cut_equals (s : string) : string * string :=
  match s with
  | "" => ("", "")
  | String c s => if bool_decide (c = "="%char) then ("", s)
                  else let '(k, v) := cut_equals s in (String c k, v)
  end.

(** [url.ParseQuery]: pairs that are malformed are left out. *)
Definition parse_pair (s : string) : option (string * string) :=
  if bool_decide (s = "") || negb (no_byte ";" s) then None
  else
    let '(k, v) := cut_equals s in
    k ← QueryUnescape k; v ← QueryUnescape v; Some (k, v).
Definition ParseQuery (s : string) : list (string * string) := omap parse_pair (Split "&" s).

(** [url.Values.Get]. *)
Definition Values_Get (l : list (string * string)) (key : string) : string :=
  match filter (λ p, p.1 = key) l with p :: _ => p.2 | [] => "" end.

(** [fmt.Sprint] of what a parameter may be here. *)
Definition Sprint_param (v : value) : string :=
  match v with VString s => s | VInt z => pretty z | VBool b => if b then "true" else "false" | _ => "" end.

(** ** Query parameters of a specification, as each template sees them *)

Inductive query_kind := QueryString | QueryInt | QueryBool.

(** The last field is the name that the attribute queryParamNames has for a parameter:
    the client's template writes it in place of the parameter's own, which is what the
    handler's template writes in any case. *)
Record query_param := mk_query_param {
  qp_field : string;
  qp_name : string;
  qp_optional : bool;
  qp_kind : query_kind;
  qp_queryParamNames : option string
}.
Definition queryParamName (p : query_param) : string :=
  match qp_queryParamNames p with Some name => name | None => qp_name p end.

Definition of_kind (k : query_kind) (p : query_param) : bool :=
  match k, qp_kind p with
  | QueryString, QueryString | QueryInt, QueryInt | QueryBool, QueryBool => true
  | _, _ => false
  end.
Definition required_of (k : query_kind) (l : list query_param) : list (string * string) :=
  (λ p, (qp_field p, qp_name p)) <$> filter (λ p, qp_optional p = false ∧ of_kind k p = true) l.
Definition opt_type_of (k : query_kind) : opt_type :=
  match k with QueryString => OptString | QueryInt => OptInt | QueryBool => OptBool end.

(** An endpoint with nothing but these, for the handler and for the client. *)
Definition handler_spec (method : string) (l : list query_param) : EndpointSpec :=
  mkEndpointSpec method None None [] [] (required_of QueryString l) (required_of QueryInt l) (required_of QueryBool l) []
    ((λ p, (qp_field p, qp_name p, opt_type_of (qp_kind p))) <$> filter (λ p, qp_optional p = true) l) [] [] false.
Definition client_spec (app method : string) (path : list (option string)) (l : list query_param) : ClientSpec :=
  mkClientSpec app method [] path (queryParamName <$> filter (λ p, qp_optional p = false) l)
    (queryParamName <$> filter (λ p, qp_optional p = true) l) false [].

(** The value of a parameter in a request structure, and as the client's template hands
    it on: a pointer that is not nil is dereferenced. *)
Inductive query_arg :=
| ArgString (s : string) | ArgInt (z : Z) | ArgBool (b : bool)
| ArgStringPtr (s : option string) | ArgIntPtr (z : option Z) | ArgBoolPtr (b : option bool).

Definition arg_ok (p : query_param) (a : query_arg) : Prop :=
  match qp_optional p, qp_kind p, a with
  | false, QueryString, ArgString _ | false, QueryBool, ArgBool _
  | true, QueryString, ArgStringPtr _ | true, QueryBool, ArgBoolPtr _ | true, QueryInt, ArgIntPtr None => True
  | false, QueryInt, ArgInt z | true, QueryInt, ArgIntPtr (Some z) => in_int64 z
  | _, _, _ => False
  end.
Definition arg_value (a : query_arg) : option query_value :=
  QScalar <$> match a with
              | ArgString s | ArgStringPtr (Some s) => Some (VString s)
              | ArgInt z | ArgIntPtr (Some z) => Some (VInt z)
              | ArgBool b | ArgBoolPtr (Some b) => Some (VBool b)
              | _ => None
              end.
Definition arg_field {T} (a : query_arg) : field T :=
  match a with
  | ArgString s => FString s | ArgInt z => FInt z | ArgBool b => FBool b
  | ArgStringPtr s => FStringPtr s | ArgIntPtr z => FIntPtr z | ArgBoolPtr b => FBoolPtr b
  end.
Definition client_request (args : query_param → query_arg) (l : list query_param) : ClientRequest :=
  mkClientRequest [] ((λ p, default QNil (arg_value (args p))) <$> filter (λ p, qp_optional p = false) l)
    ((λ p, arg_value (args p)) <$> filter (λ p, qp_optional p = true) l) PayNil.

(** What comes out: an optional string that is empty arrives as nil. *)
Definition received (a : query_arg) : query_arg :=
  match a with ArgStringPtr (Some "") => ArgStringPtr None | _ => a end.

(** * Lemmas *)

(** ** Numbers *)

Lemma pretty_char_digit x : (x < 10)%N → digit_value (pretty_N_char x) = Some (Z.of_N x).
Proof.
  intros Hx. assert (x = 0 ∨ x = 1 ∨ x = 2 ∨ x = 3 ∨ x = 4 ∨ x = 5 ∨ x = 6 ∨ x = 7 ∨ x = 8 ∨ x = 9)%N as H by lia.
  by destruct_or! H; subst.
Qed.

Lemma parse_pretty_go x s : parse_digits 0 (pretty_N_go x s) = parse_digits (Z.of_N x) s.
Proof.
  revert s. induction (N.lt_wf_0 x) as [x _ IH]; intros s.
  destruct (decide (x = 0)%N) as [->|Hx]; [done|]. rewrite pretty_N_go_step; [lia|].
  rewrite IH; [by apply N.div_lt; lia|]. cbn. rewrite pretty_char_digit; [by apply N.mod_lt|]. cbn. f_equal.
  pose proof (N.div_mod x 10). lia.
Qed.

Lemma parse_digits_decimal s n : s ≠ "" → parse_digits 0 s = Some n → parse_decimal s = Some n.
Proof.
  intros Hs Hp. destruct s as [|c s]; [done|]. unfold parse_decimal. rewrite bool_decide_false //.
  intros [-> | ->]; discriminate Hp.
Qed.

Lemma pretty_N_parse x : parse_digits 0 (pretty x) = Some (Z.of_N x) ∧ pretty x ≠ "".
Proof.
  unfold pretty, pretty_N. case_decide as Hx; [by subst|]. rewrite parse_pretty_go. split; [done|].
  intros E. pose proof (parse_pretty_go x "") as H. rewrite E in H. cbn in H. injection H as H. lia.
Qed.

Lemma pretty_Z_parse z : parse_decimal (pretty z) = Some z.
Proof.
  destruct z as [|p|p].
  - reflexivity.
  - destruct (pretty_N_parse (Npos p)) as [H Hne]. by apply parse_digits_decimal.
  - destruct (pretty_N_parse (Npos p)) as [H Hne].
    assert (pretty (Z.neg p) = String "-" (pretty (Npos p))) as -> by done. unfold parse_decimal.
    rewrite bool_decide_true; [by right|]. destruct (pretty (N.pos p)) as [|c s] eqn:E; [done|].
    rewrite H. done.
Qed.

Lemma pretty_Z_Atoi z : in_int64 z → Atoi (pretty z) = Some z.
Proof. intros Hz. unfold Atoi. rewrite pretty_Z_parse /=. rewrite bool_decide_true //. Qed.

Lemma pretty_Z_nonempty (z : Z) : pretty z ≠ "".
Proof. intros E. pose proof (pretty_Z_parse z) as H. by rewrite E in H. Qed.

(** ** The query in a URL *)

Lemma QueryUnescape_byte c s : QueryUnescape (query_escape_byte c +:+ s) = String c <$> QueryUnescape s.
Proof. destruct c as [[] [] [] [] [] [] [] []]; reflexivity. Qed.

Lemma QueryUnescape_QueryEscape s : QueryUnescape (QueryEscape s) = Some s.
Proof. induction s as [|c s IH]; [done|]. cbn [QueryEscape]. by rewrite QueryUnescape_byte IH. Qed.

Lemma escape_no_semicolon s : no_byte ";" (QueryEscape s) = true.
Proof.
  induction s as [|c s IH]; [done|]. cbn [QueryEscape]. rewrite no_byte_app IH andb_true_r. clear.
  destruct c as [[] [] [] [] [] [] [] []]; reflexivity.
Qed.

Lemma cut_equals_app a b : no_byte "=" a = true → cut_equals (a +:+ String "=" b) = (a, b).
Proof.
  unfold no_byte. induction a as [|c a IH]; [done|]. cbn. intros [Hc Ha]%andb_prop.
  rewrite bool_decide_false; [by apply negb_true_iff, bool_decide_eq_false in Hc|]. by rewrite IH.
Qed.

Lemma parse_pair_text p : parse_pair (pair_text p) = Some p.
Proof.
  unfold parse_pair. rewrite bool_decide_false.
  { unfold pair_text. by destruct (QueryEscape p.1). }
  assert (no_byte ";" (pair_text p) = true) as ->.
  { unfold pair_text. rewrite no_byte_app escape_no_semicolon. apply (escape_no_semicolon p.2). }
  cbn [negb orb]. unfold pair_text. rewrite cut_equals_app; [apply escape_no_byte; set_solver|].
  rewrite !QueryUnescape_QueryEscape /=. by destruct p.
Qed.

Lemma ParseQuery_Encode v : ParseQuery (Values_Encode v) = values_pairs v.
Proof.
  unfold ParseQuery, Values_Encode. destruct (values_pairs v) as [|p l]; [done|]. rewrite Split_texts.
  induction (p :: l) as [|q k IH]; [done|]. rewrite fmap_cons /= parse_pair_text. by f_equal.
Qed.

Lemma Values_Get_Encode v key :
  Values_Get (ParseQuery (Values_Encode v)) key = default "" (head (default [] (v !! key))).
Proof.
  unfold Values_Get. rewrite ParseQuery_Encode values_of_pairs. by destruct (default [] (v !! key)).
Qed.

(** ** What the client sends *)

Definition param_pairs (args : query_param → query_arg) (p : query_param) : list (string * string) :=
  EncodeQueryParam Sprint_param [] (queryParamName p) (default QNil (arg_value (args p))).

Lemma EncodeQueryParam_app q key v : EncodeQueryParam Sprint_param q key v = q ++ EncodeQueryParam Sprint_param [] key v.
Proof. destruct v; cbn; by rewrite ?app_nil_r. Qed.

Lemma encode_query_pairs app method path args l :
  encode_query Sprint_param (client_spec app method path l) (client_request args l) [] =
    (filter (λ p, qp_optional p = false) l ≫= param_pairs args) ++ (filter (λ p, qp_optional p = true) l ≫= param_pairs args).
Proof.
  unfold encode_query. cbn [client_spec client_request cs_query cs_optQuery crq_query crq_optQuery].
  assert (∀ l q, foldl (λ q kv, EncodeQueryParam Sprint_param q kv.1 kv.2) q
    (zip (queryParamName <$> l) ((λ p, default QNil (arg_value (args p))) <$> l)) = q ++ (l ≫= param_pairs args)) as H1.
  { clear l. intros l. induction l as [|p l IH]; intros q; [by rewrite app_nil_r|].
    cbn [fmap list_fmap zip zip_with foldl fst snd mbind list_bind]. rewrite IH EncodeQueryParam_app -app_assoc. done. }
  assert (∀ l q, foldl (λ q (kv : string * option query_value), match kv.2 with Some v => EncodeQueryParam Sprint_param q kv.1 v | None => q end) q
    (zip (queryParamName <$> l) ((λ p, arg_value (args p)) <$> l)) = q ++ (l ≫= param_pairs args)) as H2.
  { clear l H1. intros l. induction l as [|p l IH]; intros q; [by rewrite app_nil_r|].
    cbn [fmap list_fmap zip zip_with foldl fst snd mbind list_bind]. rewrite IH. unfold param_pairs at 2.
    destruct (arg_value (args p)) as [v|]; [|done]. by rewrite EncodeQueryParam_app -app_assoc. }
  by rewrite H1 H2.
Qed.

(** The text of a parameter that is sent. *)
Definition arg_text (a : query_arg) : option string :=
  match a with
  | ArgString s | ArgStringPtr (Some s) => Some s
  | ArgInt z | ArgIntPtr (Some z) => Some (pretty z)
  | ArgBool b | ArgBoolPtr (Some b) => Some (if b then "true" else "false")
  | _ => None
  end.

Lemma param_pairs_text args p : param_pairs args p = (queryParamName p,.) <$> option_list (arg_text (args p)).
Proof. unfold param_pairs. by destruct (args p) as [| | |[]|[]|[]]. Qed.

Lemma bind_filter_name args l p : NoDup (queryParamName <$> l) → p ∈ l →
  filter (λ q : string * string, q.1 = queryParamName p) (l ≫= param_pairs args) = param_pairs args p.
Proof.
  assert (∀ l key, key ∉ queryParamName <$> l → filter (λ q : string * string, q.1 = key) (l ≫= param_pairs args) = []) as Hnone.
  { clear. intros l key. induction l as [|p l IH]; [done|]. rewrite fmap_cons not_elem_of_cons. intros [Hne Hl].
    cbn [mbind list_bind]. rewrite list.filter_app (IH Hl) param_pairs_text filter_pairs bool_decide_false //. }
  induction l as [|p0 l IH]; [by intros _ ?%elem_of_nil|]. rewrite fmap_cons. intros [Hp0 Hnd]%list.NoDup_cons Hp.
  cbn [mbind list_bind]. rewrite list.filter_app. apply elem_of_cons in Hp as [->|Hp].
  - by rewrite (Hnone l (queryParamName p0) Hp0) app_nil_r param_pairs_text filter_pairs bool_decide_true.
  - rewrite (IH Hnd Hp) param_pairs_text filter_pairs bool_decide_false //.
    intros E. apply Hp0. rewrite E. by apply list_elem_of_fmap_2.
Qed.

(** The value that [URL.Query().Get] gives for the name that the client sent. *)
Lemma query_of_param args app method path l p :
  NoDup (queryParamName <$> l) → p ∈ l →
  Values_Get (ParseQuery (Values_Encode (pairs_Values
    (encode_query Sprint_param (client_spec app method path l) (client_request args l) [])))) (queryParamName p) =
  default "" (arg_text (args p)).
Proof.
  intros Hnd Hp. rewrite Values_Get_Encode pairs_Values_lookup encode_query_pairs.
  assert (filter (λ p, qp_optional p = false) l ++ filter (λ p, qp_optional p = true) l ≡ₚ l) as Hperm.
  { clear. induction l as [|p l IH]; [done|]. rewrite !filter_cons. destruct (qp_optional p).
    - case_decide; [done|]. case_decide; [|done]. rewrite -Permutation_middle. by apply perm_skip.
    - case_decide; [|done]. case_decide; [done|]. by apply perm_skip. }
  rewrite -bind_app bind_filter_name.
  - by rewrite Hperm.
  - by rewrite Hperm.
  - rewrite param_pairs_text. by destruct (arg_text (args p)).
Qed.

(** * What the handler reads *)

Lemma parameters_partition l :
  filter (λ p, qp_optional p = false ∧ of_kind QueryString p = true) l ++
  filter (λ p, qp_optional p = false ∧ of_kind QueryInt p = true) l ++
  filter (λ p, qp_optional p = false ∧ of_kind QueryBool p = true) l ++
  filter (λ p, qp_optional p = true) l ≡ₚ l.
Proof.
  induction l as [|[f n o k] l IH]; [done|]. rewrite !filter_cons.
  destruct o, k; cbn; repeat (first [rewrite decide_True; [naive_solver|] | rewrite decide_False; [naive_solver|]]).
  all: rewrite -?Permutation_middle; by apply perm_skip.
Qed.

Section round_trip.
Context `{Jose} {T U : Type} `{!Platform T U}.
Context (ctx : Context) (r : Request) (args : query_param → query_arg).

(** A stage that puts the parameter's value where it belongs. *)
Definition reads (st : stage) (p : query_param) : Prop :=
  ∀ req : fields T, st ctx r req = Ok (inr (<[qp_field p := arg_field (received (args p))]> req)).
Definition store (ps : list query_param) (req : fields T) : fields T :=
  foldl (λ req p, <[qp_field p := arg_field (received (args p))]> req) req ps.

Lemma run_reads sts ps req : Forall2 reads sts ps → run_stages sts ctx r req = Ok (inr (store ps req)).
Proof using.
  intros Hall. revert req. induction Hall as [|st p sts ps Hst _ IH]; intros req; [done|].
  cbn [run_stages]. rewrite Hst /= IH //.
Qed.

Lemma store_other ps req f : f ∉ qp_field <$> ps → store ps req !! f = req !! f.
Proof using.
  revert req. induction ps as [|p ps IH]; intros req; [done|]. rewrite fmap_cons not_elem_of_cons. intros [Hp Hps].
  unfold store. cbn [foldl]. fold (store ps (<[qp_field p:=arg_field (received (args p))]> req)).
  rewrite IH // lookup_insert_ne //.
Qed.

Lemma store_lookup ps req p :
  NoDup (qp_field <$> ps) → p ∈ ps → store ps req !! qp_field p = Some (arg_field (received (args p))).
Proof using.
  revert req. induction ps as [|p0 ps IH]; intros req; [by intros _ ?%elem_of_nil|].
  rewrite fmap_cons. intros [Hp0 Hnd]%list.NoDup_cons [->|Hp]%elem_of_cons; unfold store; cbn [foldl].
  - fold (store ps (<[qp_field p0:=arg_field (received (args p0))]> req)). by rewrite store_other // lookup_insert_eq.
  - by apply IH.
Qed.

Context (parse_true : ParseBool "true" = inr true) (parse_false : ParseBool "false" = inr false).

(** Each parameter of a kind, once the query holds what was sent for it. *)
Definition arrived (p : query_param) : Prop :=
  query r (qp_name p) = default "" (arg_text (args p)) ∧ arg_ok p (args p).

Lemma reads_string p : arrived p → qp_optional p = false → qp_kind p = QueryString →
  reads (set_field (qp_field p) (λ r, FString (GetQueryParam (query r) (qp_name p)))) p.
Proof using.
  intros [Hq Hok] Ho Hk req. unfold set_field, GetQueryParam. rewrite Hq. unfold arg_ok in Hok. rewrite Ho Hk in Hok.
  by destruct (args p).
Qed.

Lemma reads_int p : arrived p → qp_optional p = false → qp_kind p = QueryInt →
  reads (conv_field "Invalid request" (qp_field p) (λ _ r, FInt <$> GetQueryParamForInt (query r) (qp_name p))) p.
Proof using.
  intros [Hq Hok] Ho Hk req. unfold conv_field, GetQueryParamForInt. rewrite Hq. unfold arg_ok in Hok. rewrite Ho Hk in Hok.
  destruct (args p); try done. cbn [default arg_text]. by rewrite pretty_Z_Atoi.
Qed.

Lemma reads_bool p : arrived p → qp_optional p = false → qp_kind p = QueryBool →
  reads (conv_field "Invalid request" (qp_field p) (λ _ r, FBool <$> GetQueryParamForBool (query r) ParseBool (qp_name p))) p.
Proof using parse_false parse_true.
  intros [Hq Hok] Ho Hk req. unfold conv_field, GetQueryParamForBool. rewrite Hq. unfold arg_ok in Hok. rewrite Ho Hk in Hok.
  destruct (args p) as [| |[]| | |]; try done; cbn [default arg_text]; by rewrite ?parse_true ?parse_false.
Qed.

Lemma reads_optional p : arrived p → qp_optional p = true →
  reads (opt_stage (qp_field p, qp_name p, opt_type_of (qp_kind p))) p.
Proof using.
  intros [Hq Hok] Ho req. unfold opt_stage, conv_field, GetQueryParam. cbn [fst snd]. rewrite Hq. unfold arg_ok in Hok.
  rewrite Ho in Hok. destruct (qp_kind p), (args p) as [| | |[[|c s]|]|[z|]|[[]|]]; try done; cbn [default arg_text opt_type_of].
  unfold StringToIntPtr. rewrite bool_decide_false; [apply pretty_Z_nonempty|]. by rewrite pretty_Z_Atoi.
Qed.

Lemma reads_all f (P : query_param → Prop) `{!∀ p, Decision (P p)} l :
  (∀ p, p ∈ l → P p → reads (f p) p) → Forall2 reads (f <$> filter P l) (filter P l).
Proof using.
  intros Hf. apply Forall2_fmap_l, Forall_Forall2_diag, list.Forall_forall. intros p [HP Hp]%list_elem_of_filter. by apply Hf.
Qed.

Lemma handler_reads method l :
  (∀ p, p ∈ l → arrived p) →
  ∃ ps, ps ≡ₚ l ∧ Forall2 reads (stages_of (handler_spec method l)) ps.
Proof using parse_false parse_true.
  intros Hl. eexists. split; [apply parameters_partition|]. unfold stages_of, handler_spec, required_of. cbn.
  rewrite app_nil_r -!list_fmap_compose. repeat apply Forall2_app; apply reads_all; intros p Hp.
  - intros [Ho Hk]. apply reads_string; [by apply Hl|done|]. unfold of_kind in Hk. by destruct (qp_kind p).
  - intros [Ho Hk]. apply reads_int; [by apply Hl|done|]. unfold of_kind in Hk. by destruct (qp_kind p).
  - intros [Ho Hk]. apply reads_bool; [by apply Hl|done|]. unfold of_kind in Hk. by destruct (qp_kind p).
  - intros Ho. by apply reads_optional; [apply Hl|].
Qed.
End round_trip.

(** A parameter that the client sends under another name than its own, which no other
    parameter is sent under, does not arrive: a string is empty, a number or a boolean
    an invalid request, an optional one missing. *)
Lemma renamed_parameter_lost args app method path l p :
  qp_name p ∉ queryParamName <$> l →
  Values_Get (ParseQuery (Values_Encode (pairs_Values
    (encode_query Sprint_param (client_spec app method path l) (client_request args l) [])))) (qp_name p) = "".
Proof.
  intros Hp. rewrite Values_Get_Encode pairs_Values_lookup encode_query_pairs list.filter_app.
  assert (∀ ps, qp_name p ∉ queryParamName <$> ps →
    filter (λ q : string * string, q.1 = qp_name p) (ps ≫= param_pairs args) = []) as Hnone.
  { intros ps. induction ps as [|q ps IH]; [done|]. rewrite fmap_cons not_elem_of_cons. intros [Hne Hps].
    cbn [mbind list_bind]. rewrite list.filter_app (IH Hps) param_pairs_text filter_pairs bool_decide_false //. }
  assert (∀ P `{!∀ q, Decision (P q)}, qp_name p ∉ queryParamName <$> filter P l) as Hf.
  { intros P ? (q&Hq&[_ Hin]%list_elem_of_filter)%list_elem_of_fmap. apply Hp. rewrite Hq. by apply list_elem_of_fmap_2. }
  by rewrite !Hnone.
Qed.

(** C20. What a caller puts into the string, int64 and boolean query parameters of a
    generated client's request, required or optional, in any number and order, is what
    the generated handler of the endpoint hands to its service: strings of any bytes,
    and numbers of 64 bits; only an optional string that is empty arrives as none. The
    parameters are those that the attribute queryParamNames gives no other name, since
    the handler's template does not look at it; parameters of a time are not among
    them. *)
Theorem query_parameters_round_trip `{Jose} {T U URL} `{!Platform T U}
    (url_Query : URL → list (string * string)) (set_RawQuery : string → URL → URL) (RawQuery : URL → string)
    (Hset : ∀ q u, RawQuery (set_RawQuery q u) = q)
    (Htrue : ParseBool "true" = inr true) (Hfalse : ParseBool "false" = inr false)
    app method path l args u ctx (r : Request) :
  NoDup (qp_field <$> l) → NoDup (qp_name <$> l) → (∀ p, p ∈ l → arg_ok p (args p)) →
  (∀ p name, p ∈ l → qp_queryParamNames p = Some name → name = qp_name p) → url_Query u = [] →
  let sent := with_query url_Query set_RawQuery Sprint_param (client_spec app method path l) (client_request args l) u in
  (∀ key, query r key = Values_Get (ParseQuery (RawQuery sent)) key) →
  ∃ req, run_stages (stages_of (handler_spec method l)) ctx r (∅ : fields T) = Ok (inr req) ∧
    ∀ p, p ∈ l → req !! qp_field p = Some (arg_field (received (args p))).
Proof.
  intros Hf Hn Hok Hnames Hu sent Hq.
  assert (∀ p, p ∈ l → queryParamName p = qp_name p) as Hname.
  { intros p Hp. unfold queryParamName. destruct (qp_queryParamNames p) eqn:E; [by eapply Hnames|done]. }
  assert (queryParamName <$> l = qp_name <$> l) as Hl by (by apply list_fmap_ext; intros ? p Hp%list_elem_of_lookup_2; apply Hname).
  destruct (handler_reads ctx r args Htrue Hfalse method l) as (ps & Hps & Hall).
  - intros p Hp. split; [|by apply Hok]. rewrite Hq. unfold sent, with_query. rewrite Hu.
    assert (queryParamName p ∈ cs_query (client_spec app method path l) ++ cs_optQuery (client_spec app method path l)) as Hin.
    { cbn. rewrite elem_of_app !list_elem_of_fmap. setoid_rewrite list_elem_of_filter. destruct (qp_optional p) eqn:E; eauto. }
    destruct (_ ++ _); [by apply elem_of_nil in Hin|]. rewrite Hset -(Hname p Hp). apply query_of_param; [by rewrite Hl|done].
  - rewrite (run_reads _ _ _ _ _ _ Hall). eexists. split; [done|]. intros p Hp. apply store_lookup; by rewrite Hps.
Qed.

(** ** A search whose parameters need escaping *)
Module QueryExample.
#[local] Existing Instance Example.jose.
Definition limit : query_param := mk_query_param "Limit" "limit" false QueryInt None.
Definition text : query_param := mk_query_param "Q" "q&a" false QueryString None.
Definition deep : query_param := mk_query_param "Deep" "deep" true QueryBool (Some "deep").
Definition tag : query_param := mk_query_param "Tag" "tag" true QueryString None.
Definition params : list query_param := [deep; limit; text; tag].
Definition args (p : query_param) : query_arg :=
  if bool_decide (qp_field p = "Limit") then ArgInt (-9223372036854775808)
  else if bool_decide (qp_field p = "Q") then ArgString "50% & more; a=b"
  else if bool_decide (qp_field p = "Deep") then ArgBoolPtr (Some false) else ArgStringPtr (Some "").
Definition set_RawQuery (q : string) (u : string * string) : string * string := (u.1, q).
Definition sent : string * string :=
  with_query (λ _, []) set_RawQuery Sprint_param (client_spec "Backend" "GET" [Some "search"] params) (client_request args params)
    ("http://backend/search", "").
#[export] Instance platform : Platform string () := {
  time_Parse layout s := inl (ErrText "cannot parse");
  ReadAll r := inr (req_Body r);
  json_Decode r := inl (ErrText "EOF");
  URLParam r key := "";
  query r key := Values_Get (ParseQuery sent.2) key;
  ParseBool s := if bool_decide (s = "true") then inr true else if bool_decide (s = "false") then inr false
                 else inl (ErrText "strconv.ParseBool");
  regex_match re s := Ok true;
  valid_string s tag := None;
  valid_request req := None;
  valid_response p := None;
  xml_Encode p := None;
  json_Encode p := Some "{}";
  json_text t := "{}";
  range_header h := map_to_list h;
  fmt_panic p := "boom";
  world r := Example.day1;
  timeout_Err dt ctx s := None
}.
Definition request : Request := mkRequest Background "GET" "/search" ∅ "".
Example sent_example : sent.2 = "deep=false&limit=-9223372036854775808&q%26a=50%25+%26+more%3B+a%3Db&tag=".
Proof. by_vm. Qed.
End QueryExample.

#[local] Existing Instance Example.jose.
#[local] Existing Instance QueryExample.platform.

Lemma query_parameters_round_trip_witness :
  ∃ req, run_stages (stages_of (handler_spec "GET" QueryExample.params)) Background QueryExample.request (∅ : fields string) =
      Ok (inr req) ∧
    req !! "Limit" = Some (FInt (-9223372036854775808)) ∧ req !! "Q" = Some (FString "50% & more; a=b") ∧
    req !! "Deep" = Some (FBoolPtr (Some false)) ∧ req !! "Tag" = Some (FStringPtr None).
Proof.
  assert (ParseBool "true" = inr true ∧ ParseBool "false" = inr false) as [Ht Hf] by done.
  destruct (query_parameters_round_trip (λ _ : string * string, []) QueryExample.set_RawQuery snd (λ _ _, eq_refl) Ht Hf
    "Backend" "GET" [Some "search"] QueryExample.params QueryExample.args ("http://backend/search", "") Background
    QueryExample.request) as (req & Hrun & Hreq).
  1-2: repeat constructor; set_solver.
  - intros p [->|[->|[->|[->|[]%elem_of_nil]%elem_of_cons]%elem_of_cons]%elem_of_cons]%elem_of_cons; cbn; try done.
  - intros p name [->|[->|[->|[->|[]%elem_of_nil]%elem_of_cons]%elem_of_cons]%elem_of_cons]%elem_of_cons; cbn; try done.
    by intros [= <-].
  - done.
  - done.
  - exists req. split; [exact Hrun|].
    split; [apply (Hreq QueryExample.limit)|split; [apply (Hreq QueryExample.text)|split; [apply (Hreq QueryExample.deep)|apply (Hreq QueryExample.tag)]]].
    all: unfold QueryExample.params; rewrite !elem_of_cons; tauto.
Defined.
