(* ===== verification/App.v ===== *)
(** * A generated application, from its configuration to its answers:
    src/codegen/arrai/auto/svc_app.arrai and src/codegen/arrai/auto/svc_router.arrai

    The function that a generated application gives to [core.NewServer], which puts
    a service handler, its router and the managers together; and what a request to
    such an application can rely on, from [NewServer] through [Start], the
    middleware and the rule of the endpoint to the service. *)

From S2P Require Export Bootstrap GeneratedClient Metrics.

(** ** The clients of an application's downstreams *)

Inductive dep_kind := DepHTTP | DepGRPC | DepTemporal.

(** [DownstreamConfig], a type that is generated: the settings of each dependency. *)
Record DownstreamConfig := mkDownstreamConfig {
  dc_HTTP : string → CommonDownstreamData;
  dc_GRPC : string → CommonGRPCDownstreamData;
  dc_Temporal : string → CommonTemporalDownstreamData
}.

(** A client: what it sends with and the generated one around it, or a pointer to the
    library's own. *)
Inductive downstream_client `{Crypto} :=
| DownHTTP (sender : Downstream.client) (c : GeneratedClient.Client)
| DownGRPC (conn : loc)
| DownTemporal (c : loc).
Notation DownstreamClients := (list (string * downstream_client)).

Section downstreams.
Context `{Crypto} (m : Machine) (url_Parse_proxy : string → error + string)
  (ProxyFromEnvironment : string → error + option string) (range_header : Header → list (string * list string)).
Context (grpc_Dial : string → list grpc_option → res loc) (temporal_Dial : client_Options → res loc).

Definition BuildDownstreamClient (http : HTTPHooks) (auth : AuthHooks) (temporal : TemporalClientHooks loc)
    (dc : DownstreamConfig) (dep : string * dep_kind) : res (string * downstream_client) :=
  let '(name, kind) := dep in
  client ← match kind with
           | DepHTTP =>
               '(c, url) ← BuildDownstreamHTTPClient m url_Parse_proxy ProxyFromEnvironment name (Some http) (Some (dc_HTTP dc name));
               Ok (DownHTTP c (GeneratedClient.mkClient url (range_header (cdd_Headers (dc_HTTP dc name)))))
           | DepGRPC => DownGRPC <$> BuildDownstreamGRPCClient m grpc_Dial name auth (Some (dc_GRPC dc name))
           | DepTemporal => DownTemporal <$> BuildDownstreamTemporalClient temporal_Dial name temporal (dc_Temporal dc name)
           end;
  Ok (name, client).

Definition BuildDownstreamClients (http : HTTPHooks) (auth : AuthHooks) (temporal : TemporalClientHooks loc)
    (dc : DownstreamConfig) (deps : list (string * dep_kind)) : res DownstreamClients :=
  mapM_res (BuildDownstreamClient http auth temporal dc) deps.
End downstreams.

Section app.
Context `{Crypto, Jose} {T U G App : Type} `{!Platform T U} (m : Machine).
Notation AppS := (AppState U).
Notation St := (StdAuthenticator RemoteJWKSIssuer).

(** What the generator writes into the application: its name and base path, its
    endpoints and their paths; and the timeout in the downstream configuration, a
    type of its own. *)
Context (appname basePathFromSpec : string) (endpoints : list (string * EndpointSpec))
  (downstream_ContextTimeout : value → Z).
(** Its dependencies, in order; the assertion that the downstream configuration is of
    its type, which panics if it is not, and makes an empty one of a nil pointer; and
    what dials. *)
Context (deps : list (string * dep_kind)) (downstream_of : value → res DownstreamConfig)
  (grpc_Dial : string → list grpc_option → res loc) (temporal_Dial : client_Options → res loc).

(** The fields of the hooks that are not read at bootstrap. *)
Record AppHooks := mkAppHooks {
  ah_auth : AuthHooks;
  ah_MapError : option ErrorMapper;
  ah_WriteError : option HTTPErrorWriter;
  ah_AddHTTPMiddleware : option (Context → Mux AppS → Mux AppS);
  ah_adminRoutes : list (string * Servers.endpoint);
  ah_HTTP : HTTPHooks;
  ah_Temporal : TemporalClientHooks loc
}.
(** An empty [core.Hooks]. *)
Definition no_hooks : AppHooks := mkAppHooks (mkAuthHooks _ [] None [] None None) None None None []
  (mkHTTPHooks None false) (mkTemporalClientHooks loc None None).
Context (hooks_of : BootHooks AppS G → AppHooks).
Definition default_hooks_of (hooks : option (BootHooks AppS G)) : AppHooks :=
  match hooks with Some h => hooks_of h | None => no_hooks end.

(** Package authrules and jwtauth's own parameters. *)
Context (ParseString : string → error + Expr) (url_Parse : string → option error) (issuer_env : string → RemoteEnv)
  (url_Parse_proxy : string → error + string) (ProxyFromEnvironment : string → error + option string).
Notation resolve := (ResolveRESTAuthorizationRule m ParseString url_Parse issuer_env url_Parse_proxy ProxyFromEnvironment).

(** A service interface: its methods by name; one may be nil. Each is given the clients. *)
Definition ServiceInterface := gmap string (DownstreamClients → ServiceMethod (T := T) (U := U)).

Definition app_clients (cfg : DefaultConfig) (hooks : AppHooks) : res DownstreamClients :=
  match deps with
  | [] => Ok []
  | _ =>
      dc ← downstream_of (gen_Downstream (cfg_GenCode cfg));
      BuildDownstreamClients m url_Parse_proxy ProxyFromEnvironment range_header grpc_Dial temporal_Dial
        (ah_HTTP hooks) (ah_auth hooks) (ah_Temporal hooks) dc deps
  end.

Definition app_callback (cfg : DefaultConfig) (hooks : AppHooks) : Callback UpstreamConfig (Mux AppS) :=
  let contextTimeout := downstream_ContextTimeout (gen_Downstream (cfg_GenCode cfg)) in
  let contextTimeout := if bool_decide (contextTimeout = 0)%Z then (30 * Second)%Z else contextTimeout in
  NewCallbackV3 (cfg_GenCode cfg) contextTimeout (ah_MapError hooks) (ah_WriteError hooks) (ah_AddHTTPMiddleware hooks).

Definition app_handler (ctx : Context) (cfg : DefaultConfig) (hooks : AppHooks) :
    res (ServiceHandler (R := Mux AppS) * gmap string St) :=
  NewServiceHandler (resolve ctx (ah_auth hooks)) (app_callback cfg hooks) endpoints.*2.

(** The sub-router that is mounted below the base path: first the application may add
    middleware, and routes of its own, then the endpoints get theirs. *)
Definition WireRoutes (ctx : Context) (g : Callback UpstreamConfig (Mux AppS)) : Mux AppS :=
  let basePath := SelectBasePath basePathFromSpec (Callback_BasePath g) in
  let r := Callback_AddMiddleware g ctx (mkMux [] (Some basePath) []) in
  add_routes ((λ e, (basePath +:+ e.1, EApplication (ep_method e.2))) <$> endpoints) r.

(** The function literal of the generated [NewServer], for a REST application. *)
Definition app_newManagers (c : BootContext) (serviceIntf : ServiceInterface) (hooks : option (BootHooks AppS G)) :
    res (option Manager * option (GrpcServerManager G)) :=
  cfg ← deref (GetDefaultConfig (bc_ctx c));
  let hooks := default_hooks_of hooks in
  let genCallbacks := app_callback cfg hooks in
  _ ← app_clients cfg hooks;
  '(serviceHandler, _) ← app_handler (bc_ctx c) cfg hooks;
  let upstream := gen_Upstream (cfg_GenCode cfg) in
  grpcServerOptions ← ResolveGrpcServerOptions (λ _, DefaultGrpcServerOptions m) (bc_ctx c) (ah_auth hooks) (Some (up_GRPC upstream));
  let grpcManager := mkGrpcServerManager grpcServerOptions [] (Some (up_GRPC upstream)) in
  let restManager := mkManager [mkHandlerInitialiser appname (mux_routes (WireRoutes (bc_ctx c) genCallbacks))] (Some (cfg_Library cfg))
    (admin_HTTP <$> cfg_Admin cfg) (Some upstream) (ah_adminRoutes hooks) in
  Ok (Some restManager, Some grpcManager).

(** What a route of the application serves: the handler of its method, looked up in
    the service interface, with the clients. *)
Definition app_endpoint (h : ServiceHandler (R := Mux AppS)) (clients : DownstreamClients) (svc : ServiceInterface)
    (ep : EndpointSpec) : Handler AppS :=
  MethodHandler h ep ((λ f, f clients) <$> svc !! ep_method ep).
End app.

(** What the clients are: one for each dependency, in order; a REST client has the URL,
    the headers and the timeout that are configured, unless the application builds
    it, and sends through the logging round tripper. *)
Lemma BuildDownstreamClients_spec `{Crypto} (m : Machine) up pe range_header grpc_Dial temporal_Dial http auth temporal dc deps clients :
  BuildDownstreamClients m up pe range_header grpc_Dial temporal_Dial http auth temporal dc deps = Ok clients →
  Forall2 (λ dep c, c.1 = dep.1 ∧
    match dep.2, c.2 with
    | DepHTTP, DownHTTP sender cl =>
        let cfg := dc_HTTP dc dep.1 in
        cl_Headers cl = range_header (cdd_Headers cfg) ∧
        (∃ base, cl_Transport sender =
           if hh_DownstreamRoundTripper http then TransportHook dep.1 (cl_URL cl) (TransportLogging dep.1 base)
           else TransportLogging dep.1 base) ∧
        (hh_HTTPClientBuilder http = None → cl_URL cl = cdd_ServiceURL cfg ∧ cl_Timeout sender = cdd_ClientTimeout cfg)
    | DepGRPC, DownGRPC _ | DepTemporal, DownTemporal _ => True
    | _, _ => False
    end) deps clients.
Proof.
  unfold BuildDownstreamClients. revert clients. induction deps as [|[name kind] deps IH]; intros clients; cbn [mapM_res].
  { intros [= <-]. constructor. }
  intros ([name' c]&Hc&(cs&Hcs&[= <-])%res_bind_Ok)%res_bind_Ok. constructor; [|by apply IH].
  unfold BuildDownstreamClient in Hc. apply res_bind_Ok in Hc as (c'&Hc&[= <- <-]). split; [done|]. destruct kind; cbn [fst snd].
  - apply res_bind_Ok in Hc as ([sender url]&Hs&[= <-]). apply BuildDownstreamHTTPClient_spec in Hs as (base&Ht&Hb).
    cbn in *. split_and!; [done|by exists base|]. intros Hn. rewrite Hn in Hb. by destruct Hb as (?&?&_).
  - by apply res_fmap_Ok in Hc as (?&_&->).
  - by apply res_fmap_Ok in Hc as (?&_&->).
Qed.

(** * The middleware between the server and a handler

    A middleware that is transparent hands on a request with the same header and the
    same configuration, in a state with the same authenticators, and depends on its
    next handler only through that; and it preserves what its next handler does. *)

Section transparent.
Context `{Jose} {U : Type}.
Notation AppS := (AppState U).
Implicit Types (r : Request) (s : AppS) (next : Handler AppS).

Definition derived (r : Request) (s : AppS) (r' : Request) (s' : AppS) : Prop :=
  req_Header r' = req_Header r ∧ GetDefaultConfig (req_ctx r') = GetDefaultConfig (req_ctx r) ∧ ap_auth s' = ap_auth s.

Lemma derived_trans r s r1 s1 r2 s2 : derived r s r1 s1 → derived r1 s1 r2 s2 → derived r s r2 s2.
Proof. unfold derived. intros (?&?&?) (?&?&?). split_and!; congruence. Qed.

Class Transparent (mw : Middleware AppS) : Prop := {
  transparent_next : ∀ next next' r s, (∀ r' s' w', derived r s r' s' → next r' s' w' = next' r' s' w') →
    ∀ w, mw next r s w = mw next' r s w;
  transparent_auth : ∀ (P : gmap string (StdAuthenticator RemoteJWKSIssuer) → Prop) next,
    (∀ r s w, P (ap_auth s) → P (ap_auth (next r s w).1.1)) → ∀ r s w, P (ap_auth s) → P (ap_auth (mw next r s w).1.1)
}.

Lemma chain_transparent ms next next' r s :
  Forall Transparent ms → (∀ r' s' w', derived r s r' s' → next r' s' w' = next' r' s' w') →
  ∀ w, chain ms next r s w = chain ms next' r s w.
Proof.
  intros Hms. revert r s. induction Hms as [|mw ms Hmw _ IH]; intros r s Hn w; [by apply Hn|]. cbn.
  apply transparent_next. intros r' s' w' Hd. apply IH. intros r2 s2 w2 Hd2. apply Hn. by eapply derived_trans.
Qed.

Lemma chain_auth ms (P : gmap string (StdAuthenticator RemoteJWKSIssuer) → Prop) next r s w :
  Forall Transparent ms → (∀ r s w, P (ap_auth s) → P (ap_auth (next r s w).1.1)) →
  P (ap_auth s) → P (ap_auth (chain ms next r s w).1.1).
Proof.
  intros Hms Hn. revert r s w. induction Hms as [|mw ms Hmw _ IH]; intros r s w; [by apply Hn|]. cbn.
  by apply transparent_auth.
Qed.

#[export] Instance Recoverer_transparent : Transparent (Recoverer (S := AppS)).
Proof.
  split.
  - intros next next' r s Hn w. unfold Recoverer. by rewrite Hn.
  - intros P next Hn r s w Hs. specialize (Hn r s w Hs). unfold Recoverer.
    destruct (next r s w) as [[s1 w1] [a|e|p]]; [done..|]. by destruct (recovered w1 p).
Qed.

#[export] Instance Timeout_transparent race th :
  (∀ r s w, ap_auth (th r s w).1.1 = ap_auth s) → Transparent (TimeoutMiddleware (S := AppS) race th).
Proof.
  intros Hth. split.
  - intros next next' r s Hn w. unfold TimeoutMiddleware. by rewrite Hn.
  - intros P next Hn r s w Hs. specialize (Hn r s rw_empty Hs). unfold TimeoutMiddleware.
    destruct (next r s rw_empty) as [[s1 tw] out0]. cbn in Hn.
    destruct (race r s); [by rewrite Hth|]. destruct (if existsb bad_code (rw_calls tw) then _ else _) as [?|?|p]; [done..|].
    destruct (recover p); [done|]. by rewrite Hth.
Qed.

#[export] Instance Traceability_transparent uuid_Parse uuid_New :
  Transparent (TraceabilityMiddleware (S := AppS) uuid_Parse uuid_New).
Proof.
  split.
  - intros next next' r s Hn w. unfold TraceabilityMiddleware. apply Hn. by destruct (uuid_Parse _).
  - intros P next Hn r s w Hs. by apply Hn.
Qed.

#[export] Instance Core_transparent : Transparent (CoreRequestContextMiddleware (S := AppS)).
Proof.
  split.
  - intros next next' r s Hn w. unfold CoreRequestContextMiddleware, AddResponseBodyMonitorToContext.
    by rewrite Hn.
  - intros P next Hn r s w Hs. unfold CoreRequestContextMiddleware, AddResponseBodyMonitorToContext.
    match goal with |- context [next ?r' ?s' w] => specialize (Hn r' s' w Hs); destruct (next r' s' w) as [[s1 w1] out] end.
    done.
Qed.

(** The metrics of an application are part of its own state. *)
#[export] Instance AppState_metrics `{!HasMetrics U} : HasMetrics AppS := {
  get_metrics s := get_metrics (sv_user (ap_svc s));
  set_metrics m s := mkAppState (mkSvcState (sv_monitors (ap_svc s)) (sv_resp (ap_svc s)) (set_metrics m (sv_user (ap_svc s)))) (ap_auth s);
  get_set_metrics m s := get_set_metrics m (sv_user (ap_svc s))
}.

#[export] Instance Metrics_transparent `{!HasMetrics U} getPathPattern elapsed :
  Transparent (MetricsMiddleware (S := AppS) getPathPattern elapsed).
Proof.
  assert (∀ r os s, ap_auth (observe elapsed r os s) = ap_auth s) as Hobs.
  { intros r os. unfold observe. induction os as [|o os IH]; intros s; [done|]. cbn. by rewrite IH. }
  split.
  - intros next next' r s Hn w. unfold MetricsMiddleware. by rewrite Hn.
  - intros P next Hn r s w Hs. unfold MetricsMiddleware. specialize (Hn r s (mkRW (rw_header w) []) Hs).
    destruct (next r s _) as [[s1 tw] out]. destruct (MonitorMetrics getPathPattern r (rw_ops tw) out w) as [[w' os] out'].
    cbn in *. by rewrite Hobs.
Qed.

Lemma prepared_transparent json_text race mm uuid_Parse uuid_New dt :
  (∀ mw, mm = Some mw → Transparent mw) →
  Forall Transparent (mw_public (prepareMiddleware (S := AppS) json_text race mm uuid_Parse uuid_New dt)).
Proof.
  intros Hmm.
  assert (Transparent (TimeoutMiddleware (race dt) (core_timeoutHandler (S := AppS) json_text))) as Ht by by apply Timeout_transparent.
  unfold prepareMiddleware. destruct mm as [mw|]; cbn;
    repeat (apply list.Forall_cons_2; [first [apply _|by apply Hmm]|]); by apply Forall_nil_2.
Qed.
End transparent.

(** * The rules and authenticators of an application *)

Section rules.
Context `{Crypto, Jose} (resolve : string → string →
  res (Rule (StdAuthenticator RemoteJWKSIssuer) RemoteEnv * StdAuthenticator RemoteJWKSIssuer)).

(** Each rule and each authenticator is one that was resolved for an endpoint. *)
Lemma make_rules_Ok all eps rules auth rules' auth' :
  eps ⊆ all → make_rules resolve eps rules auth = Ok (rules', auth') →
  let rule_ok method rule := ∃ expr a, (method, Some expr) ∈ all ∧ resolve method expr = Ok (rule, a) in
  let auth_ok (_ : string) a := ∃ method expr rule, resolve method expr = Ok (rule, a) in
  map_Forall rule_ok rules → map_Forall auth_ok auth →
  map_Forall rule_ok rules' ∧ map_Forall auth_ok auth'.
Proof.
  intros Hall Hmake rule_ok auth_ok. revert Hall rules auth Hmake. induction eps as [|[method [expr|]] eps IH];
    intros Hall rules auth Hmake Hr Ha; cbn in Hmake.
  - by injection Hmake as <- <-.
  - apply res_bind_Ok in Hmake as ([rule a]&Hres&Hmake).
    refine (IH _ _ _ Hmake _ _); [set_solver| |].
    + apply map_Forall_insert_2; [|done]. exists expr, a. split; [set_solver|done].
    + apply map_Forall_insert_2; [|done]. by exists method, expr, rule.
  - refine (IH _ _ _ Hmake Hr Ha). set_solver.
Qed.

(** With distinct names, the rule of an endpoint is the one for its expression. *)
Lemma NoDup_fst_inj {A B} (l : list (A * B)) a b b' : NoDup l.*1 → (a, b) ∈ l → (a, b') ∈ l → b = b'.
Proof.
  intros Hnd [i Hi]%list_elem_of_lookup [j Hj]%list_elem_of_lookup.
  assert (i = j) as <-; [|congruence].
  apply (NoDup_lookup l.*1 i j a Hnd); rewrite list_lookup_fmap ?Hi ?Hj //.
Qed.
End rules.

Lemma jwt_rule_not_nil {S Env} `{!Authenticator S Env} getToken authRule (env : Env) ctx (s : S) :
  (jwt_rule getToken authRule env ctx s).2 ≠ Ok (None, None).
Proof.
  unfold jwt_rule, authorize. destruct (getToken ctx); [|done..].
  destruct (Authenticate env s a) as [s' [claims|e|p]]; [|done..]. destruct (authRule ctx claims) as [[]|e|p]; [|done..].
  cbn. by destruct (AddClaimsToContext ctx claims).
Qed.

(** Each endpoint with a rule gets one. *)
Lemma make_rules_dom `{Jose} (resolve : string → string →
    res (Rule (StdAuthenticator RemoteJWKSIssuer) RemoteEnv * StdAuthenticator RemoteJWKSIssuer)) eps rules auth rules' auth' :
  make_rules resolve eps rules auth = Ok (rules', auth') →
  ∀ method, (is_Some (rules !! method) ∨ ∃ expr, (method, Some expr) ∈ eps) → is_Some (rules' !! method).
Proof.
  revert rules auth. induction eps as [|[method' [expr'|]] eps IH]; intros rules auth Hmake method Hm; cbn in Hmake.
  - injection Hmake as <- <-. destruct Hm as [?|[expr Hin]]; [done|]. by apply elem_of_nil in Hin.
  - apply res_bind_Ok in Hmake as ([rule a]&_&Hmake). apply (IH _ _ Hmake). destruct Hm as [Hm|[expr [?|?]%elem_of_cons]].
    + left. destruct (decide (method' = method)) as [->|]; [by rewrite lookup_insert_eq|by rewrite lookup_insert_ne].
    + left. simplify_eq. by rewrite lookup_insert_eq.
    + right. by exists expr.
  - apply (IH _ _ Hmake). destruct Hm as [Hm|[expr [?|?]%elem_of_cons]]; [by left|done|right; by exists expr].
Qed.

(** An authenticator that no request has used yet has no verifiers. *)
Lemma stored_authenticator_ok `{Crypto, Jose} W cfg (auth : gmap string (StdAuthenticator RemoteJWKSIssuer)) method :
  map_Forall (λ _ a, authenticator_ok W cfg a) auth →
  authenticator_ok W cfg (default (mkStdAuthenticator ∅) (auth !! method)).
Proof.
  intros Ha. destruct (auth !! method) as [a|] eqn:Hl; [by apply (Ha _ _ Hl)|].
  intros jwt _ name v Hv. by rewrite lookup_empty in Hv.
Qed.

(** ** What the servers' own middleware makes of a handler's end *)

Section stack.
Context `{Jose} {U : Type} (json_text : marshal_target → string) (race : Z → Request → AppState U → option error)
  (uuid_Parse : string → option string) (uuid_New : string) (dt : Z).
Notation AppS := (AppState U).
Notation public := (mw_public (prepareMiddleware (S := AppS) json_text race None uuid_Parse uuid_New dt)).

(** The request and the state that a handler sees behind the middleware. *)
Definition inner_request (r : Request) (s : AppS) : Request :=
  let r := match uuid_Parse (header_get (req_Header r) (getIncomingHeaderForID (req_ctx r))) with
           | None => WithContext (AddTraceIDToContext (req_ctx r) uuid_New false) r
           | Some val => WithContext (AddTraceIDToContext (req_ctx r) val true) r
           end in
  WithContext (AddResponseBodyMonitorToContext (req_ctx r) s).1 r.
Definition inner_state (s : AppS) : AppS := (AddResponseBodyMonitorToContext Background s).2.

Lemma inner_derived r s : derived r s (inner_request r s) (inner_state s).
Proof. unfold inner_request. by case_match. Qed.

Lemma chain_public next r s w :
  chain public next r s w =
  Recoverer (TimeoutMiddleware (race dt) (core_timeoutHandler json_text) (λ r' s' w',
    let '(s1, w1, out) := next (inner_request r' s') (inner_state s') w' in
    (s1, w1, deferred out (CheckForUnclosedResponses (req_ctx (inner_request r' s')) s1)))) r s w.
Proof.
  unfold prepareMiddleware. cbn. unfold inner_request, TraceabilityMiddleware, CoreRequestContextMiddleware.
  by f_equal.
Qed.

(** A handler that panics with an error, in time, is answered 500. *)
Lemma stack_panic next r s w s1 w1 e :
  (∀ s, race dt r s = None) → existsb bad_code (rw_calls w1) = false →
  next (inner_request r s) (inner_state s) rw_empty = (s1, w1, Panic (PanicError e)) →
  ∃ s' w', chain public next r s w = (s', w', Ok ()) ∧ one_response w w' StatusInternalServerError.
Proof.
  intros Hrace Hw1 Hn. rewrite chain_public. unfold Recoverer, TimeoutMiddleware. rewrite Hn Hrace Hw1.
  assert (∃ e', deferred (Panic (PanicError e)) (CheckForUnclosedResponses (req_ctx (inner_request r s)) s1) = Panic (A := ()) (PanicError e'))
    as [e' ->].
  { unfold CheckForUnclosedResponses. destruct (monitor_of _ s1) as [[l mon]|]; [|by eexists]. case_bool_decide; by eexists. }
  cbn [recover]. pose proof (recovered_spec w (PanicError e')) as Hrec.
  destruct (recovered w (PanicError e')) as [w2 out]. destruct Hrec as [-> Hone]. by exists s1, w2.
Qed.

(** A handler that sends one response, in time, and leaves the monitors alone: its
    response is the client's. *)
Lemma stack_response next r s w s1 hdr code body :
  (∀ s, race dt r s = None) → valid_code code = true →
  next (inner_request r s) (inner_state s) rw_empty =
    (s1, mkRW hdr [CallWriteHeader code hdr; CallWrite body], Ok ()) →
  get_monitors s1 = get_monitors (inner_state s) →
  ∃ w', chain public next r s w = (s1, w', Ok ()) ∧ one_response w w' code.
Proof.
  intros Hrace Hcode Hn Hmon.
  assert (CheckForUnclosedResponses (req_ctx (inner_request r s)) s1 = Ok ()) as Hchk.
  { unfold CheckForUnclosedResponses, monitor_of.
    assert (ctx_Value (req_ctx (inner_request r s)) KBodyMonitor = Some (fresh (dom (get_monitors s)))) as ->
      by apply (WithValue_same _ KBodyMonitor).
    assert (get_monitors (inner_state s) !! fresh (dom (get_monitors s)) = Some []) as Hl by apply lookup_insert_eq.
    rewrite Hmon. cbn -[fresh get_monitors inner_state]. by rewrite Hl. }
  rewrite chain_public. unfold Recoverer, TimeoutMiddleware. rewrite Hn Hchk Hrace /= Hcode.
  cbn. eexists. split; [done|].   pose proof (handler_response_one (rw_ops (mkRW hdr [CallWriteHeader code hdr; CallWrite body])) w) as Hone.
  cbn in Hone. by rewrite Hcode in Hone.
Qed.
End stack.

(** * From the configuration to the answers *)

Section application.
Context `{Crypto, Jose} {T U G App : Type} `{!Platform T U} (m : Machine).
Notation AppS := (AppState U).
Notation St := (StdAuthenticator RemoteJWKSIssuer).
Context (appname basePathFromSpec : string) (endpoints : list (string * EndpointSpec))
  (downstream_ContextTimeout : value → Z) (hooks_of : BootHooks AppS G → AppHooks (U := U)).
Context (deps : list (string * dep_kind)) (downstream_of : value → res DownstreamConfig)
  (grpc_Dial : string → list grpc_option → res loc) (temporal_Dial : client_Options → res loc).
Context (ParseString : string → error + Expr) (url_Parse : string → option error) (issuer_env : string → RemoteEnv)
  (url_Parse_proxy : string → error + string) (ProxyFromEnvironment : string → error + option string).
Notation resolve := (ResolveRESTAuthorizationRule m ParseString url_Parse issuer_env url_Parse_proxy ProxyFromEnvironment).
Notation authorized := (authorized ParseString).
Notation handler_of := (app_handler m endpoints downstream_ContextTimeout ParseString url_Parse issuer_env
  url_Parse_proxy ProxyFromEnvironment).
Notation clients_of := (app_clients m deps downstream_of grpc_Dial temporal_Dial url_Parse_proxy ProxyFromEnvironment).

(** The keys the issuers have served and the clocks: what the world may be. *)
Context (W : RemoteEnv → Prop).
Hypothesis issuers_W : ∀ n, W (issuer_env n).
Hypothesis world_W : ∀ r, W (world r).
Hypothesis world_clock : ∀ r, modern_clock (world r).
Hypothesis distinct_methods : NoDup (ep_method <$> endpoints.*2).

(** Proof of authorization of a request, in the world it is served in. *)
Definition request_authorized (cfg : DefaultConfig) (expr : string) (r : Request) : Prop :=
  ∃ r' rctx ctx', req_Header r' = req_Header r ∧
    RequestHeaderFromContext rctx = Some (canonicalized range_header (req_Header r)) ∧
    authorized W cfg expr (world r') rctx ctx'.

Section one_app.
Context (ctx : Context) (cfg : DefaultConfig) (hooks : AppHooks (U := U)) (h : ServiceHandler (R := Mux AppS)) (auth : gmap string St).
Hypothesis Hcfg : GetDefaultConfig ctx = Some cfg.
Hypothesis Hrules : rules_apply cfg (ah_auth hooks).
Hypothesis Hhandler : handler_of ctx cfg hooks = Ok (h, auth).

Definition auth_ok (a : gmap string St) : Prop := map_Forall (λ _ a, authenticator_ok W cfg a) a.

Lemma app_rules_Ok :
  map_Forall (λ method rule, ∃ expr a, (method, Some expr) ∈ (λ ep, (ep_method ep, ep_rule ep)) <$> endpoints.*2 ∧
    resolve ctx (ah_auth hooks) method expr = Ok (rule, a)) (sh_authorizationRules h) ∧ auth_ok auth.
Proof using Hcfg Hrules Hhandler issuers_W.
  unfold app_handler, NewServiceHandler in Hhandler.
  apply res_bind_Ok in Hhandler as ([rules auth']&Hmake&[= <- <-]).
  destruct (make_rules_Ok _ _ _ _ _ _ _ (reflexivity _) Hmake (map_Forall_empty _) (map_Forall_empty _)) as [Hr Ha].
  split; [done|]. intros method a Hm. destruct (Ha _ _ Hm) as (method'&expr&rule&Hres).
  by apply (resolved_authenticator_ok m _ _ _ _ _ W ctx (ah_auth hooks) method' expr rule a cfg Hcfg Hrules Hres).
Qed.

(** What the rule of an endpoint makes of a request. *)
Lemma decide_request_ok ep r s s' out :
  decide_request (T := T) h ep r s = Some (s', out) → auth_ok (ap_auth s) →
  auth_ok (ap_auth s') ∧ out ≠ Ok (None, None) ∧
  (ep ∈ endpoints.*2 → ttls_bounded cfg → granted out →
   ∀ expr, ep_rule ep = Some expr → ∃ ctx', authorized W cfg expr (world r) (header_ctx r) ctx').
Proof using Hcfg Hrules Hhandler issuers_W world_W world_clock distinct_methods.
  destruct app_rules_Ok as [Hr _]. unfold decide_request. destruct (ep_rule ep) as [expr|] eqn:He; [|done].
  destruct (sh_authorizationRules h !! ep_method ep) as [rule|] eqn:Hrule; [|done].
  destruct (Hr _ _ Hrule) as (expr'&a0&Hin&Hres). unfold run_rule. intros Hrun Ha.
  set (a := default _ _) in Hrun. destruct (rule (world r) (header_ctx r) a) as [a' o] eqn:E. injection Hrun as <- <-.
  assert (authenticator_ok W cfg a) as Hok by by apply stored_authenticator_ok.
  split; [|split].
  - apply map_Forall_insert_2; [|done].
    assert (Forall (λ q, W q.1) [(world r, header_ctx r)]) as Hw by (apply list.Forall_singleton, world_W).
    pose proof (resolved_state_ok m _ _ _ _ _ W ctx (ah_auth hooks) _ _ rule a0 cfg Hcfg Hrules Hres _ a Hw Hok) as Hp.
    cbn in Hp. by rewrite E in Hp.
  - destruct (resolved_rule m _ _ _ _ _ ctx (ah_auth hooks) _ _ rule a0 cfg Hcfg Hrules Hres) as (e&_&Heq).
    pose proof (jwt_rule_not_nil getBearerTokenFromIncomingRESTContext
      (λ ctx claims, Expr_Evaluate (MakeStandardJWTHasScope claims) e) (world r) (header_ctx r) a) as Hn.
    by rewrite -Heq E in Hn.
  - intros Hep Httl [ctx' ->] expr0 [= <-]. exists ctx'.
    assert (Some expr = Some expr') as [= <-].
    { apply (NoDup_fst_inj _ (ep_method ep) _ _) with (2 := list_elem_of_fmap_2 (λ ep, (ep_method ep, ep_rule ep)) _ _ Hep) in Hin;
        [by rewrite He in Hin|]. by rewrite -list_fmap_compose. }
    by apply (resolved_rule_authorizes m _ _ _ _ _ W ctx (ah_auth hooks) _ _ rule a0 cfg Hcfg Hrules Hres
      (world r) (header_ctx r) a a' ctx').
Qed.

Lemma app_endpoint_auth ep clients svc r s w :
  auth_ok (ap_auth s) → auth_ok (ap_auth (app_endpoint (T := T) h clients svc ep r s w).1.1).
Proof using Hcfg Hrules Hhandler issuers_W world_W world_clock distinct_methods.
  intros Ha. unfold app_endpoint.
  destruct (MethodHandler_auth h ep ((λ f, f clients) <$> svc !! ep_method ep) r s w) as [->|(s'&out&Hd&->)]; [done|].
  by apply (decide_request_ok _ _ _ _ _ Hd).
Qed.
End one_app.

Lemma app_newManagers_Ok c (svc : ServiceInterface (T := T) (U := U)) hooks manager grpc :
  app_newManagers m appname basePathFromSpec endpoints downstream_ContextTimeout deps downstream_of grpc_Dial temporal_Dial hooks_of ParseString url_Parse
    issuer_env url_Parse_proxy ProxyFromEnvironment c svc hooks = Ok (manager, grpc) →
  let hooks := default_hooks_of hooks_of hooks in
  ∃ cfg clients h auth, GetDefaultConfig (bc_ctx c) = Some cfg ∧ clients_of cfg hooks = Ok clients ∧
    handler_of (bc_ctx c) cfg hooks = Ok (h, auth) ∧
    manager = Some (mkManager
      [mkHandlerInitialiser appname (mux_routes (WireRoutes basePathFromSpec endpoints (bc_ctx c) (app_callback downstream_ContextTimeout cfg hooks)))]
      (Some (cfg_Library cfg)) (admin_HTTP <$> cfg_Admin cfg) (Some (gen_Upstream (cfg_GenCode cfg))) (ah_adminRoutes hooks)).
Proof.
  unfold app_newManagers. intros (cfg&Hcfg%deref_Ok&H1)%res_bind_Ok. apply res_bind_Ok in H1 as (clients&Hc&H1).
  apply res_bind_Ok in H1 as ([h auth]&Hh&H1). apply res_bind_Ok in H1 as (opts&_&[= <- <-]). by exists cfg, clients, h, auth.
Qed.

(** The public server of an application. *)
Lemma app_public_server json_text' race mm uuid_Parse uuid_New health (srv : autogenServer (S := AppS) (G := G)) servers handlers lib adm up routes :
  autogen_servers m (prepareMiddleware json_text' race mm uuid_Parse uuid_New) health srv = Ok servers →
  as_restManager srv = Some (mkManager handlers lib adm (Some up) routes) →
  as_hooks srv ≫= sh_StoppableServerBuilder = None →
  ∃ hs dt, ServerHTTP hs ∈ servers ∧ hs_cfg hs = up_HTTP up ∧
    mux_routes (srv_Handler (hs_server hs)) = handlers ≫= hi_routes ∧
    mux_middleware (srv_Handler (hs_server hs)) = mw_public (prepareMiddleware json_text' race mm uuid_Parse uuid_New dt).
Proof.
  intros (gm&admin&public&grpc&_&->&_&Hp&_&_)%autogen_servers_Ok Hm Hhooks.
  unfold public_servers in Hp. rewrite Hm in Hp. cbn in Hp. apply res_bind_Ok in Hp as (s1&Hs1&[= <-]).
  apply configurePublic_Ok in Hs1 as (tc&router&_&->&Hmw&Hr); [|done].
  eexists _, _. split; [rewrite !elem_of_app; right; left; by apply list_elem_of_singleton|].
  split_and!; [done|exact Hr|exact Hmw].
Qed.

(** A history of requests: the endpoint, the service there is then, and the request. *)
Definition served (mws : list (Middleware AppS)) (h : ServiceHandler (R := Mux AppS)) (clients : DownstreamClients)
    (hist : list (EndpointSpec * ServiceInterface (T := T) (U := U) * Request)) (s : AppS) : AppS :=
  foldl (λ s q, (chain mws (app_endpoint h clients q.1.2 q.1.1) q.2 s rw_empty).1.1) s hist.

Lemma served_auth_ok ctx cfg hooks h auth clients mws hist s :
  GetDefaultConfig ctx = Some cfg → rules_apply cfg (ah_auth hooks) → handler_of ctx cfg hooks = Ok (h, auth) →
  Forall Transparent mws → auth_ok cfg (ap_auth s) → auth_ok cfg (ap_auth (served mws h clients hist s)).
Proof using issuers_W world_W world_clock distinct_methods.
  intros Hcfg Hrules Hh Hmws. revert s. induction hist as [|q hist IH]; intros s Hs; [done|]. cbn. apply IH.
  apply chain_auth; [done| |done]. intros r' s' w' Hs'. by eapply app_endpoint_auth.
Qed.

(** Without proof of authorization nothing depends on the service. *)
Lemma unauthorized_apart ctx cfg hooks h auth clients mws hist sv ep expr r w svc svc' :
  GetDefaultConfig ctx = Some cfg → rules_apply cfg (ah_auth hooks) → handler_of ctx cfg hooks = Ok (h, auth) →
  Forall Transparent mws → ttls_bounded cfg → ep ∈ endpoints.*2 → ep_rule ep = Some expr →
  is_Some (svc !! ep_method ep) → is_Some (svc' !! ep_method ep) → ¬ request_authorized cfg expr r →
  let s := served mws h clients hist (mkAppState sv auth) in
  chain mws (app_endpoint h clients svc ep) r s w = chain mws (app_endpoint h clients svc' ep) r s w.
Proof using issuers_W world_W world_clock distinct_methods.
  intros Hcfg Hrules Hh Hmws Httl Hep He [f Hf] [f' Hf'] Hno s.
  assert (auth_ok cfg (ap_auth s)) as Hs.
  { apply (served_auth_ok ctx cfg hooks h auth clients); try done. by eapply app_rules_Ok. }
  clearbody s. apply chain_transparent; [done|]. intros r' s' w' (Hr&_&Ha). unfold app_endpoint. rewrite Hf Hf'.
  assert (∀ s1 out, decide_request h ep r' s' = Some (s1, out) → ¬ granted out ∧ out ≠ Ok (None, None)) as Hd.
  { intros s1 out Hd. rewrite -Ha in Hs.
    destruct (decide_request_ok ctx cfg hooks h auth Hcfg Hrules Hh ep r' s' s1 out Hd Hs) as (_&Hn&Hg).
    split; [|done]. intros Hgr. destruct (Hg Hep Httl Hgr expr He) as [ctx' Hauth]. destruct Hno.
    exists r', (header_ctx r'), ctx'. split; [done|]. split; [|done].
    unfold header_ctx, RequestHeaderFromContext, RequestHeaderToContext. rewrite WithValue_same. cbn. by rewrite Hr. }
  apply MethodHandler_guarded; [by eexists|intros s1 out Hs1; by apply (Hd s1)..].
Qed.

Context (Validate : DefaultConfig → option error) (Args : list string) (envPrefix : config_source → res string)
  (decode : config_source → option string → error + CustomConfig App * list string).
Context (createService_type : func_type) (serviceInterface : string) (downstreamConfig : value)
  (createService : BootContext → App → res (ServiceInterface (T := T) (U := U) * option (BootHooks AppS G))).
Context (race : Z → Request → AppS → option error) (metrics : option (Middleware AppS))
  (uuid_Parse : string → option string) (uuid_New : string) (health_NewServer : option error).
Notation NewServer := (NewServer Validate Args envPrefix decode createService_type serviceInterface downstreamConfig
  createService (app_newManagers m appname basePathFromSpec endpoints downstream_ContextTimeout deps downstream_of grpc_Dial temporal_Dial hooks_of ParseString
    url_Parse issuer_env url_Parse_proxy ProxyFromEnvironment)).
Notation autogen_servers := (autogen_servers m (prepareMiddleware json_text race metrics uuid_Parse uuid_New) health_NewServer).

(** C1. A generated REST application, from its configuration to its answers: if
    [NewServer] makes a server and [Start] its servers, the clients of its downstreams
    were made from the validated configuration, and one of the servers is a public
    server of the address in it, with the routes of the endpoints below the base path.
    Whatever has been served before, each request to an endpoint of it is answered
    exactly once, whatever the service does and whatever middleware the application adds
    to the router; and if the endpoint has a rule, and that middleware hands on what it
    gets with the header, the configuration and the authenticators as they were, then
    without proof of authorization -- a bearer token of a configured issuer, valid now
    and signed with a key it served, whose scopes satisfy the rule -- nothing, neither
    the answer nor the state that is left, depends on what the service is: it is not
    run. *)
Theorem application_guarded c c' srv servers :
  NewServer c = Ok (srv, c') → autogen_servers srv = Ok servers →
  as_hooks srv ≫= sh_StoppableServerBuilder = None →
  (∀ mw, metrics = Some mw → Transparent mw) → (∀ dt r s e, race dt r s = Some e → done_error e) →
  ∃ cfg hooks clients h auth hs,
    (∃ c1 app svc bh, createService c1 app = Ok (svc, bh) ∧ hooks = default_hooks_of hooks_of bh) ∧
    Validate cfg = None ∧ GetDefaultConfig (as_ctx srv) = Some cfg ∧ clients_of cfg hooks = Ok clients ∧
    handler_of (as_ctx srv) cfg hooks = Ok (h, auth) ∧
    ServerHTTP hs ∈ servers ∧ hs_cfg hs = up_HTTP (gen_Upstream (cfg_GenCode cfg)) ∧
    let router := WireRoutes basePathFromSpec endpoints (as_ctx srv) (app_callback downstream_ContextTimeout cfg hooks) in
    mux_routes (srv_Handler (hs_server hs)) = mux_routes router ∧
    ∀ hist sv ep r w svc, ep ∈ endpoints.*2 →
      let mws := mux_middleware (srv_Handler (hs_server hs)) ++ mux_middleware router in
      let s := served mws h clients hist (mkAppState sv auth) in
      (let '(_, w', out) := chain mws (app_endpoint h clients svc ep) r s w in out = Ok () ∧ ∃ code, one_response w w' code) ∧
      (∀ expr svc', Forall Transparent (mux_middleware router) →
        ep_rule ep = Some expr → rules_apply cfg (ah_auth hooks) → ttls_bounded cfg →
        is_Some (svc !! ep_method ep) → is_Some (svc' !! ep_method ep) → ¬ request_authorized cfg expr r →
        chain mws (app_endpoint h clients svc ep) r s w = chain mws (app_endpoint h clients svc' ep) r s w).
Proof using issuers_W world_W world_clock distinct_methods.
  intros Hnew Hservers Hhook Hmetrics Hrace.
  apply NewServer_spec in Hnew as (cc&c1&svc0&bh&cfg&grpc&manager&_&_&Hcs&_&Hval&Hman&Hm&_&_&Hcfg&Hctx&_).
  apply app_newManagers_Ok in Hman as (cfg'&clients&h&auth&Hcfg'&Hcl&Hh&->). rewrite -Hctx in Hcfg' Hh Hm.
  set (hooks := default_hooks_of hooks_of bh) in *.
  rewrite Hcfg in Hcfg'. injection Hcfg' as <-.
  destruct (app_public_server _ _ _ _ _ _ _ _ _ _ _ _ _ Hservers Hm Hhook) as (hs&dt&Hin&Hhs&Hroutes&Hmws).
  exists cfg, hooks, clients, h, auth, hs. split; [by exists c1, (cc_App cc), svc0, bh|].
  split_and!; [done..|]. set (router := WireRoutes _ _ _ _). split; [by rewrite Hroutes /= app_nil_r|].
  intros hist sv ep r w svc Hep mws s. split.
  - subst mws. rewrite Hmws. generalize (mux_middleware router). intros added. generalize (app_endpoint (T := T) h clients svc ep) as next. intros next.
    assert (∃ ms', mw_public (prepareMiddleware json_text race metrics uuid_Parse uuid_New dt) =
      Recoverer :: TimeoutMiddleware (race dt) (core_timeoutHandler json_text) :: ms') as [ms' ->].
    { unfold prepareMiddleware. destruct metrics; by eexists. }
    apply (guarded_one_response json_text (race dt) (chain (ms' ++ added) next)). intros r' s' e. apply Hrace.
  - intros expr svc' Hadded He Hrules Httl Hf Hf' Hno.
    apply (unauthorized_apart (as_ctx srv) cfg hooks h auth clients mws hist sv ep expr); try done.
    subst mws. rewrite Hmws. apply list.Forall_app. split; [by apply prepared_transparent|done].
Qed.

(** The rule of an endpoint, as the handler finds it. *)
Lemma app_rule ctx cfg (hooks : AppHooks (U := U)) h auth ep expr :
  GetDefaultConfig ctx = Some cfg → rules_apply cfg (ah_auth hooks) → handler_of ctx cfg hooks = Ok (h, auth) →
  ep ∈ endpoints.*2 → ep_rule ep = Some expr →
  sh_genCallback h = app_callback downstream_ContextTimeout cfg hooks ∧
  ∃ authRule, sh_authorizationRules h !! ep_method ep = Some (MakeRESTJWTAuthorizationRule authRule).
Proof using issuers_W.
  intros Hcfg Hrules Hh Hep He.
  destruct (app_rules_Ok ctx cfg hooks h auth Hcfg Hrules Hh) as [Hr _].
  unfold app_handler, NewServiceHandler in Hh. apply res_bind_Ok in Hh as ([rules auth']&Hmake&[= <- _]).
  split; [done|]. cbn in *.
  destruct (make_rules_dom _ _ _ _ _ _ Hmake (ep_method ep)) as [rule Hrule].
  { right. exists expr. apply list_elem_of_fmap. exists ep. by rewrite He. }
  destruct (Hr _ _ Hrule) as (expr'&a&_&Hres).
  destruct (resolved_rule m _ _ _ _ _ ctx (ah_auth hooks) _ _ rule a cfg Hcfg Hrules Hres) as (e&_&->).
  by eexists.
Qed.

(** C36. A request with a bearer token that is none is answered 401 by an endpoint
    with a rule; but a request with no bearer token at all is answered 500: the
    rule returns a nil context with its error, the generated handler passes it to
    [HandleError], which dereferences it, and the recoverer answers for it. *)
Theorem unauthenticated_status ctx cfg (hooks : AppHooks (U := U)) h auth clients ep expr
    (svc : ServiceInterface (T := T) (U := U)) r s w dt :
  GetDefaultConfig ctx = Some cfg → rules_apply cfg (ah_auth hooks) → handler_of ctx cfg hooks = Ok (h, auth) →
  ah_MapError hooks = None → ah_WriteError hooks = None →
  ep ∈ endpoints.*2 → ep_rule ep = Some expr → is_Some (svc !! ep_method ep) →
  is_deadline_exceeded (req_ctx r) = false → (∀ s, race dt r s = None) →
  let answer code := ∃ s' w', chain (mw_public (prepareMiddleware json_text race None uuid_Parse uuid_New dt))
    (app_endpoint h clients svc ep) r s w = (s', w', Ok ()) ∧ one_response w w' code in
  let sent := bearer_token (header_get (canonicalized range_header (req_Header r)) "Authorization") in
  (sent = None → answer StatusInternalServerError) ∧
  (∀ raw err, sent = Some raw → ParseSigned raw = inl err → answer StatusUnauthorized).
Proof using issuers_W.
  intros Hcfg Hrules Hh Hmap Hwrite Hep He [f Hf] Hdl Hrace answer sent.
  destruct (app_rule ctx cfg hooks h auth ep expr Hcfg Hrules Hh Hep He) as (Hg&authRule&Hrule).
  assert (req_Header (inner_request uuid_Parse uuid_New r s) = req_Header r) as Hr by apply (inner_derived uuid_Parse uuid_New).
  assert (app_endpoint h clients svc ep (inner_request uuid_Parse uuid_New r s) (inner_state s) rw_empty =
    MethodHandler h ep (Some (f clients)) (inner_request uuid_Parse uuid_New r s) (inner_state s) rw_empty) as Hendpoint.
  { unfold app_endpoint. by rewrite Hf. }
  split.
  - intros Hs. destruct (MethodHandler_no_token h ep (f clients) (inner_request uuid_Parse uuid_New r s) (inner_state s) rw_empty authRule)
      as (s1&_&Hm); [by eexists|done|by rewrite Hr|done|].
    apply (stack_panic json_text race uuid_Parse uuid_New dt _ r s w s1 rw_empty
      (ErrText "runtime error: invalid memory address or nil pointer dereference")); [done..|].
    by rewrite Hendpoint Hm.
  - intros raw err Hs Hparse. set (r' := inner_request uuid_Parse uuid_New r s) in *.
    destruct (decide_request_unparsed h ep r' (inner_state s) authRule raw err) as (s1&Hsvc&Hd);
      [by eexists|done|by rewrite Hr|done|].
    destruct (MethodHandler_refused h ep (f clients) r' (inner_state s) rw_empty _ (header_ctx r') _
      ltac:(by rewrite Hg; split) ltac:(done) Hd) as [body Hm]; [|done..|].
    { unfold header_ctx, RequestHeaderToContext, r', inner_request. by case_match. }
    exists s1. apply (stack_response json_text race uuid_Parse uuid_New dt _ r s w _ (json_headers rw_empty) _ body); try done.
    + by rewrite Hendpoint Hm.
    + cbn. by rewrite Hsvc.
Qed.
End application.

(** ** An application with one guarded endpoint *)
Module AppExample.
#[local] Existing Instance TlsExample.crypto.
#[local] Existing Instance Example.jose.
#[export] Instance platform : Platform string nat := {
  time_Parse layout s := inl (ErrText "cannot parse");
  ReadAll r := inr (req_Body r);
  json_Decode r := inl (ErrText "EOF");
  URLParam r key := "";
  query r key := if bool_decide (key = "limit") then "many" else "";
  ParseBool s := inl (ErrText "strconv.ParseBool");
  regex_match re s := Ok true;
  valid_string s tag := None;
  valid_request req := None;
  valid_response p := None;
  xml_Encode p := None;
  json_Encode p := Some "{}";
  json_text t := "{}";
  range_header h := map_to_list h;
  fmt_panic p := "boom";
  world r := Example.day1;
  timeout_Err dt ctx s := None
}.
Definition ep : EndpointSpec :=
  mkEndpointSpec "GetAccounts" (Some "read") None [] [] [] [] [] [] [] [] [mk_return_spec false "application/json" 200] false.
Definition endpoints : list (string * EndpointSpec) := [("/accounts", ep)].
Definition custom : CustomConfig string :=
  mkCustomConfig _ (cfg_Library RuleExample.cfg) None ServersExample.up VNil None "app".
Definition decode (src : config_source) (prefix : option string) : error + CustomConfig string * list string := inr (custom, ["envprefix"]).
(** Its hooks add a middleware of their own to the router. *)
Definition tracing : Middleware (AppState nat) := TraceabilityMiddleware (λ _, None) "id".
Definition hooks_of (h : BootHooks (AppState nat) string) : AppHooks (U := nat) :=
  mkAppHooks (ah_auth (U := nat) no_hooks) None None
    (Some (λ _ r, mkMux (mux_middleware r ++ [tracing]) (mux_base r) (mux_routes r))) []
    (ah_HTTP (U := nat) no_hooks) (ah_Temporal (U := nat) no_hooks).
Definition hooks : BootHooks (AppState nat) string := mkBootHooks None None (mkServerHooks false None None).
Definition timeout (v : value) : Z := 0.
(** Its one dependency. *)
Definition deps : list (string * dep_kind) := [("backend", DepHTTP)].
Definition downstream_of (v : value) : res DownstreamConfig :=
  Ok (mkDownstreamConfig (λ _, DownstreamExample.cfg) (λ _, mkCommonGRPCDownstreamData "" None false)
        (λ _, mkCommonTemporalDownstreamData "" "" "")).
Definition no_dial {A B} (_ : A) : res B := Err (ErrText "dial").
Definition svc (n : nat) : ServiceInterface (T := string) (U := nat) :=
  {["GetAccounts" := λ clients ctx req s, (mkSvcState (sv_monitors s) (sv_resp s) n, Ok [PayOther VNil])]}.
Definition result : res (autogenServer (S := AppState nat) (G := string) * BootContext) :=
  NewServer (λ _, None) ["app"] (λ _, Err (ErrText "envPrefix: key value is nil")) decode
    (mk_func_type [type_context; "AppConfig"] ["*Service"; type_hooks; type_error]) "*Service" VNil
    (λ c app, Ok (svc 1, Some hooks))
    (app_newManagers TlsExample.machine "app" "" endpoints timeout deps downstream_of (λ _, no_dial) no_dial hooks_of RuleExample.ParseString Example.parse_any
       RuleExample.issuer_env (λ u, inr u) (λ _, inr None)) BootstrapExample.c.
Definition made : autogenServer (S := AppState nat) (G := string) * BootContext :=
  match result with Ok p => p | _ => (mk_autogenServer Background "" None None false None None, BootstrapExample.c) end.
Lemma app_result_Ok : result = Ok made.
Proof.
  unfold made. assert (is_ok result = true) as H by (by_vm). by destruct result.
Defined.

Lemma made_config : GetDefaultConfig (as_ctx made.1) = Some (defaultConfig_of VNil custom).
Proof. by_vm. Defined.

Definition race (dt : Z) (r : Request) (s : AppState nat) : option error := None.
Definition started : res (list (server (AppState nat) string)) :=
  autogen_servers TlsExample.machine (prepareMiddleware json_text race None (λ _, None) "id") None made.1.
Definition servers : list (server (AppState nat) string) := match started with Ok l => l | _ => [] end.
Lemma started_Ok : started = Ok servers.
Proof.
  unfold servers. assert (is_ok started = true) as H by (by_vm). by destruct started.
Defined.

(** Requests with no token, and with something that is not one. *)
Definition anonymous : Request := mkRequest Background "GET" "/accounts" ∅ "".
Definition malformed : Request := mkRequest Background "GET" "/accounts" {["Authorization" := ["bearer surprise!"]]} "".

Lemma anonymous_unauthorized cfg expr :
  ¬ request_authorized RuleExample.ParseString Example.W cfg expr anonymous.
Proof.
  intros (r'&rctx&ctx'&_&Hh&(jwt&ic&raw&token&sc&kid&ks&key&env'&claims&e&_&_&Hb&_)).
  unfold getBearerTokenFromIncomingRESTContext in Hb. rewrite Hh in Hb. vm_compute in Hb. discriminate Hb.
Defined.

Definition handler_result : res (ServiceHandler (R := Mux (AppState nat)) * gmap string (StdAuthenticator RemoteJWKSIssuer)) :=
  app_handler TlsExample.machine endpoints timeout RuleExample.ParseString Example.parse_any RuleExample.issuer_env
    (λ u, inr u) (λ _, inr None) RuleExample.ctx RuleExample.cfg no_hooks.
Definition handler := match handler_result with Ok p => p | _ => (mkServiceHandler (app_callback timeout RuleExample.cfg no_hooks) ∅, ∅) end.
Lemma handler_Ok : handler_result = Ok handler.
Proof.
  unfold handler. assert (is_ok handler_result = true) as H by (by_vm). by destruct handler_result.
Defined.
End AppExample.
#[local] Existing Instance TlsExample.crypto.
#[local] Existing Instance Example.jose.
#[local] Existing Instance AppExample.platform.

Lemma application_guarded_witness :
  ∃ hs h clients auth, ServerHTTP hs ∈ AppExample.servers ∧ length clients = 1%nat ∧
    chain (mux_middleware (srv_Handler (hs_server hs)) ++ [AppExample.tracing])
      (app_endpoint h clients (AppExample.svc 1) AppExample.ep)
      AppExample.anonymous (mkAppState (mkSvcState ∅ ∅ 0%nat) auth) rw_empty =
    chain (mux_middleware (srv_Handler (hs_server hs)) ++ [AppExample.tracing])
      (app_endpoint h clients (AppExample.svc 2) AppExample.ep)
      AppExample.anonymous (mkAppState (mkSvcState ∅ ∅ 0%nat) auth) rw_empty.
Proof.
  destruct (application_guarded TlsExample.machine "app" "" AppExample.endpoints AppExample.timeout AppExample.hooks_of
    AppExample.deps AppExample.downstream_of (λ _, AppExample.no_dial) AppExample.no_dial
    RuleExample.ParseString Example.parse_any RuleExample.issuer_env (λ u, inr u) (λ _, inr None) Example.W
    ltac:(by left) ltac:(by left) ltac:(vm_compute; discriminate) ltac:(repeat constructor; by intros []%elem_of_nil)
    (λ _, None) ["app"] (λ _, Err (ErrText "envPrefix: key value is nil")) AppExample.decode
    (mk_func_type [type_context; "AppConfig"] ["*Service"; type_hooks; type_error]) "*Service" VNil
    (λ c app, Ok (AppExample.svc 1, Some AppExample.hooks)) AppExample.race None (λ _, None) "id" None
    BootstrapExample.c AppExample.made.2 AppExample.made.1 AppExample.servers)
    as (cfg&hooks&clients&h&auth&hs&(c1&app&svc0&bh&Hcs&->)&_&Hcfg&Hcl&_&Hin&_&_&Hserve).
  - rewrite -surjective_pairing. exact AppExample.app_result_Ok.
  - exact AppExample.started_Ok.
  - by_vm.
  - discriminate.
  - discriminate.
  - injection Hcs as _ <-. rewrite AppExample.made_config in Hcfg. injection Hcfg as <-.
    exists hs, h, clients, auth. split; [exact Hin|]. split; [by apply mapM_res_length in Hcl|].
    refine (proj2 (Hserve [] (mkSvcState ∅ ∅ 0%nat) AppExample.ep AppExample.anonymous rw_empty (AppExample.svc 1) _)
      "read" (AppExample.svc 2) _ eq_refl _ _ _ _ _).
    + apply list_elem_of_singleton. reflexivity.
    + apply list.Forall_singleton. apply _.
    + split; [discriminate|reflexivity].
    + intros jwt [= <-]. repeat constructor.
    + eexists. reflexivity.
    + eexists. reflexivity.
    + apply AppExample.anonymous_unauthorized.
Defined.

Ltac unauthenticated r :=
  destruct (unauthenticated_status TlsExample.machine AppExample.endpoints AppExample.timeout
    RuleExample.ParseString Example.parse_any RuleExample.issuer_env (λ u, inr u) (λ _, inr None) Example.W (λ _, or_introl eq_refl)
    AppExample.race (λ _, None) "id" RuleExample.ctx RuleExample.cfg no_hooks AppExample.handler.1 AppExample.handler.2 []
    AppExample.ep "read" (AppExample.svc 1) r (mkAppState (mkSvcState ∅ ∅ 0%nat) AppExample.handler.2) rw_empty 30) as [H1 H2];
  [reflexivity|split; [discriminate|reflexivity]|rewrite -surjective_pairing; exact AppExample.handler_Ok|reflexivity..
  |by apply list_elem_of_singleton|reflexivity|by eexists|reflexivity|reflexivity|].

Lemma unauthenticated_status_witness :
  let answer r code := ∃ s' w', chain (mw_public (prepareMiddleware json_text AppExample.race None (λ _, None) "id" 30))
    (app_endpoint AppExample.handler.1 [] (AppExample.svc 1) AppExample.ep) r
    (mkAppState (mkSvcState ∅ ∅ 0%nat) AppExample.handler.2) rw_empty = (s', w', Ok ()) ∧ one_response rw_empty w' code in
  answer AppExample.anonymous 500%Z ∧ answer AppExample.malformed 401%Z.
Proof.
  split.
  - unauthenticated AppExample.anonymous. apply H1. by_vm.
  - unauthenticated AppExample.malformed. eapply H2; vm_compute; reflexivity.
Defined.

Lemma malformed_parameter_status_witness :
  ∃ fl body, opt_stage (T := string) (U := nat) (("Limit", "limit"), OptInt) Background AppExample.anonymous ∅ = Ok (inl fl) ∧
    handle_error (app_callback (U := nat) AppExample.timeout RuleExample.cfg no_hooks) (Some Background) rw_empty fl =
      (mkRW (json_headers rw_empty) [CallWriteHeader 500 (json_headers rw_empty); CallWrite body], Ok ()).
Proof.
  destruct (malformed_parameter_status (app_callback (U := nat) AppExample.timeout RuleExample.cfg no_hooks)
    "Limit" "limit" Background AppExample.anonymous ∅ rw_empty) as [(fl&body&H1&_&H2) _].
  - split; reflexivity.
  - reflexivity.
  - reflexivity.
  - discriminate.
  - by_vm.
  - exists fl, body. split; [exact H1|exact H2].
Defined.
