(* ===== verification/GrpcApp.v ===== *)
(** * A generated gRPC application: src/codegen/arrai/auto/grpc_handler.arrai and
    svc_app.arrai

    The counterpart of [App] for gRPC: the service handler with the rule of each
    method, the managers, and what a call can rely on, from [NewServer] through
    [Start], the interceptors and the rule of the method to the service. *)

From S2P Require Export App GrpcServing.

(** A method of the service, and its authorization rule if the specification has one. *)
Record GrpcMethodSpec := mkGrpcMethodSpec { rpc_name : string; rpc_rule : option string }.

Record GrpcServiceHandler `{Jose} (U : Type) := mkGrpcServiceHandler {
  gh_genCallback : Callback UpstreamConfig (Mux (AppState U));
  gh_authorizationRules : gmap string (Rule (StdAuthenticator RemoteJWKSIssuer) RemoteEnv)
}.
Arguments mkGrpcServiceHandler {_ U}.
Arguments gh_genCallback {_ U}.
Arguments gh_authorizationRules {_ U}.

Section grpc_app.
Context `{Crypto, Jose, !NativeLogs} {T U Req Resp : Type} `{!Platform T U} (m : Machine).
Notation AppS := (AppState U).
Notation St := (StdAuthenticator RemoteJWKSIssuer).
Notation G := (GrpcServiceHandler U).

Context (methods : list GrpcMethodSpec) (downstream_ContextTimeout : value → Z)
  (hooks_of : BootHooks AppS G → AppHooks (U := U)).
Context (deps : list (string * dep_kind)) (downstream_of : value → res DownstreamConfig)
  (grpc_Dial : string → list grpc_option → res loc) (temporal_Dial : client_Options → res loc).
Context (ParseString : string → error + Expr) (url_Parse : string → option error) (issuer_env : string → RemoteEnv)
  (url_Parse_proxy : string → error + string) (ProxyFromEnvironment : string → error + option string).
Notation resolve := (ResolveGRPCAuthorizationRule m ParseString url_Parse issuer_env url_Parse_proxy ProxyFromEnvironment).

(** The methods of a service interface, by name, each given the clients; [Req] and
    [Resp] are the messages. *)
Definition GrpcServiceInterface := gmap string (DownstreamClients → Context → Req → SvcState U → SvcState U * res Resp).

Definition NewGrpcServiceHandler (ctx : Context) (hooks : AppHooks (U := U)) (genCallback : Callback UpstreamConfig (Mux AppS)) :
    res (G * gmap string St) :=
  '(rules, auth) ← make_rules (resolve ctx (ah_auth hooks)) ((λ md, (rpc_name md, rpc_rule md)) <$> methods) ∅ ∅;
  Ok (mkGrpcServiceHandler genCallback rules, auth).

(** The function literal of the generated [NewServer], for a gRPC application. *)
Definition grpc_newManagers (c : BootContext) (serviceIntf : GrpcServiceInterface) (hooks : option (BootHooks AppS G)) :
    res (option Manager * option (GrpcServerManager G)) :=
  cfg ← deref (GetDefaultConfig (bc_ctx c));
  let hooks := default_hooks_of hooks_of hooks in
  let genCallbacks := app_callback downstream_ContextTimeout cfg hooks in
  _ ← app_clients m deps downstream_of grpc_Dial temporal_Dial url_Parse_proxy ProxyFromEnvironment cfg hooks;
  '(serviceHandler, _) ← NewGrpcServiceHandler (bc_ctx c) hooks genCallbacks;
  let grpcPublicServerConfig := up_GRPC (gen_Upstream (cfg_GenCode cfg)) in
  grpcServerOptions ← ResolveGrpcServerOptions (λ _, DefaultGrpcServerOptions m) (bc_ctx c) (ah_auth hooks) (Some grpcPublicServerConfig);
  let grpcManager := mkGrpcServerManager grpcServerOptions [SHandler serviceHandler] (Some grpcPublicServerConfig) in
  let restManager := mkManager [] (Some (cfg_Library cfg)) (admin_HTTP <$> cfg_Admin cfg) None (ah_adminRoutes hooks) in
  Ok (Some restManager, Some grpcManager).

(** What the library calls for a method: its handler. A request carries the context
    of the call without its loggers, which are the other argument. *)
Definition grpc_method (h : G) (clients : DownstreamClients) (svc : GrpcServiceInterface) (md : GrpcMethodSpec) (env : RemoteEnv) :
    UnaryHandler (Context * Req) Resp AppS := λ _ q s,
  GrpcMethod (gh_genCallback h) (gh_authorizationRules h) (rpc_name md) (bool_decide (is_Some (rpc_rule md)))
    ((λ f, f clients) <$> svc !! rpc_name md) env q.1 q.2 s.

(** A call to a server: through the interceptors of its options to the method. *)
Definition grpc_call_method `{!UnaryServing (Context * Req) Resp AppS} (lg : option Logger)
    (app : string → LogContext → Context * Req → UnaryHandler (Context * Req) Resp AppS → AppS → AppS * res Resp)
    (opts : list grpc_option) (h : G) (clients : DownstreamClients) (svc : GrpcServiceInterface) (md : GrpcMethodSpec) (env : RemoteEnv)
    (lc : LogContext) (q : Context * Req) (s : AppS) : AppS * res Resp :=
  serve_unary (run_interceptor lg app) opts (grpc_method h clients svc md env) lc q s.
End grpc_app.

(** * Interceptors

    An interceptor that is transparent hands on a call with the same bearer token, in
    a state with the same authenticators, and depends on its next handler only
    through that; and it preserves what its next handler does to the authenticators. *)

Section interceptors.
Context `{Jose, !NativeLogs} {U Req Resp : Type}.
Notation AppS := (AppState U).
Notation Q := (Context * Req)%type.
Notation UH := (UnaryHandler Q Resp AppS).
Implicit Types (next : UH) (lc : LogContext) (q : Q) (s : AppS).

Definition same_call q s q' s' : Prop :=
  GetBearerFromIncomingContext q'.1 = GetBearerFromIncomingContext q.1 ∧ ap_auth s' = ap_auth s.

Lemma same_call_trans q s q1 s1 q2 s2 : same_call q s q1 s1 → same_call q1 s1 q2 s2 → same_call q s q2 s2.
Proof. unfold same_call. intros [? ?] [? ?]. split; congruence. Qed.

Class TransparentI (i : LogContext → Q → UH → AppS → AppS * res Resp) : Prop := {
  ti_next : ∀ next next' q s, (∀ lc' q' s', same_call q s q' s' → next lc' q' s' = next' lc' q' s') →
    ∀ lc, i lc q next s = i lc q next' s;
  ti_auth : ∀ (P : gmap string (StdAuthenticator RemoteJWKSIssuer) → Prop) next,
    (∀ lc q s, P (ap_auth s) → P (ap_auth (next lc q s).1)) → ∀ lc q s, P (ap_auth s) → P (ap_auth (i lc q next s).1)
}.

#[export] Instance Logger_transparent lg : TransparentI (makeLoggerInterceptor lg).
Proof.
  split; unfold makeLoggerInterceptor.
  - intros next next' q s Hn lc. destruct lg; [by apply Hn|done].
  - intros P next Hn lc q s Hs. destruct lg; [by apply Hn|done].
Qed.

#[export] Instance Traceid_transparent : TransparentI TraceidLogInterceptor_run.
Proof.
  split; unfold TraceidLogInterceptor_run.
  - intros next next' q s Hn lc. destruct (With lc _ _); [by apply Hn|done..].
  - intros P next Hn lc q s Hs. destruct (With lc _ _); [by apply Hn|done..].
Qed.

Section chained.
Context `{!Crypto} (run : interceptor → LogContext → Q → UH → AppS → AppS * res Resp) (l : list interceptor).
Hypothesis Hl : Forall (λ i, TransparentI (run i)) l.

Lemma chained_next next next' q s :
  (∀ lc' q' s', same_call q s q' s' → next lc' q' s' = next' lc' q' s') →
  ∀ lc, chained run l next lc q s = chained run l next' lc q s.
Proof using Hl.
  revert q s. induction Hl as [|i il Hi Hil IH]; intros q s Hn lc; [by apply Hn|]. cbn. destruct Hi as [Hi _]. apply Hi.
  intros lc' q' s' Hd. apply (IH Hil). intros lc2 q2 s2 Hd2. apply Hn. by eapply same_call_trans.
Qed.

Lemma chained_auth (P : gmap string (StdAuthenticator RemoteJWKSIssuer) → Prop) next lc q s :
  (∀ lc q s, P (ap_auth s) → P (ap_auth (next lc q s).1)) → P (ap_auth s) → P (ap_auth (chained run l next lc q s).1).
Proof using Hl.
  intros Hn. revert lc q s. induction Hl as [|i il Hi Hil IH]; intros lc q s; [by apply Hn|]. cbn. destruct Hi as [_ Hi]. apply Hi. by apply IH.
Qed.
End chained.
End interceptors.

(** * The rules of an application *)

Section application.
Context `{Crypto, Jose, !NativeLogs} {T U Req Resp App : Type} `{!Platform T U} (m : Machine).
Notation AppS := (AppState U).
Notation St := (StdAuthenticator RemoteJWKSIssuer).
Notation G := (GrpcServiceHandler U).
Notation Service := (GrpcServiceInterface (U := U) (Req := Req) (Resp := Resp)).
Context (methods : list GrpcMethodSpec) (downstream_ContextTimeout : value → Z)
  (hooks_of : BootHooks AppS G → AppHooks (U := U)).
Context (deps : list (string * dep_kind)) (downstream_of : value → res DownstreamConfig)
  (grpc_Dial : string → list grpc_option → res loc) (temporal_Dial : client_Options → res loc).
Context (ParseString : string → error + Expr) (url_Parse : string → option error) (issuer_env : string → RemoteEnv)
  (url_Parse_proxy : string → error + string) (ProxyFromEnvironment : string → error + option string).
Notation resolve := (ResolveGRPCAuthorizationRule m ParseString url_Parse issuer_env url_Parse_proxy ProxyFromEnvironment).
Notation new_handler := (NewGrpcServiceHandler m methods ParseString url_Parse issuer_env url_Parse_proxy ProxyFromEnvironment).

(** The keys the issuers have served and the clocks: what the world may be. *)
Context (W : RemoteEnv → Prop).
Hypothesis issuers_W : ∀ n, W (issuer_env n).
Hypothesis distinct_methods : NoDup (rpc_name <$> methods).

Definition grpc_auth_ok (cfg : DefaultConfig) (a : gmap string St) : Prop := map_Forall (λ _ a, authenticator_ok W cfg a) a.

(** Proof of authorization of a call, in the world it is served in. *)
Definition grpc_call_authorized (cfg : DefaultConfig) (expr : string) (env : RemoteEnv) (ctx : Context) : Prop :=
  ∃ rctx ctx', GetBearerFromIncomingContext rctx = GetBearerFromIncomingContext ctx ∧
    grpc_authorized ParseString W cfg expr env rctx ctx'.

Section one_app.
Context (ctx : Context) (cfg : DefaultConfig) (hooks : AppHooks (U := U)) (g : Callback UpstreamConfig (Mux AppS)) (h : G)
  (auth : gmap string St).
Hypothesis Hcfg : GetDefaultConfig ctx = Some cfg.
Hypothesis Hrules : rules_apply cfg (ah_auth hooks).
Hypothesis Hhandler : new_handler ctx hooks g = Ok (h, auth).

Lemma grpc_rules_Ok :
  gh_genCallback h = g ∧ grpc_auth_ok cfg auth ∧
  ∀ md expr, md ∈ methods → rpc_rule md = Some expr →
    ∃ rule a0, gh_authorizationRules h !! rpc_name md = Some rule ∧ resolve ctx (ah_auth hooks) (rpc_name md) expr = Ok (rule, a0).
Proof using Hcfg Hrules Hhandler issuers_W distinct_methods.
  unfold NewGrpcServiceHandler in Hhandler.
  apply res_bind_Ok in Hhandler as ([rules auth']&Hmake&[= <- <-]). cbn [gh_genCallback gh_authorizationRules].
  destruct (make_rules_Ok _ _ _ _ _ _ _ (reflexivity _) Hmake (map_Forall_empty _) (map_Forall_empty _)) as [Hr Ha].
  split; [done|]. split.
  - intros method a Hm. destruct (Ha _ _ Hm) as (method'&expr&rule&Hres).
    by apply (resolved_authenticator_ok m _ _ _ _ _ W ctx (ah_auth hooks) method' expr rule a cfg Hcfg Hrules Hres).
  - intros md expr Hmd He.
    assert ((rpc_name md, Some expr) ∈ (λ md, (rpc_name md, rpc_rule md)) <$> methods) as Hin.
    { apply list_elem_of_fmap. exists md. by rewrite He. }
    destruct (make_rules_dom _ _ _ _ _ _ Hmake (rpc_name md)) as [rule Hrule]; [by right; exists expr|].
    destruct (Hr _ _ Hrule) as (expr'&a&Hin'&Hres).
    assert (Some expr = Some expr') as [= <-].
    { apply (NoDup_fst_inj _ (rpc_name md) _ _) with (2 := Hin) in Hin'; [done|]. by rewrite -list_fmap_compose. }
    by exists rule, a.
Qed.

Lemma grpc_token_unchanged c s : GetBearerFromIncomingContext (DownstreamTimeoutContext (T := T) (U := U) g c s) = GetBearerFromIncomingContext c.
Proof using Type. done. Qed.

(** A method with a rule, on a call that the rule refuses. *)
Lemma grpc_denied md clients expr env q s :
  md ∈ methods → rpc_rule md = Some expr → grpc_auth_ok cfg (ap_auth s) → W env → modern_clock env → ttls_bounded cfg →
  ¬ grpc_call_authorized cfg expr env q.1 →
  ∃ s' out, is_ok out = false ∧ ap_svc s' = ap_svc s ∧
    ∀ (svc : Service) lc, is_Some (svc !! rpc_name md) → grpc_method h clients svc md env lc q s = (s', out).
Proof using Hcfg Hrules Hhandler issuers_W distinct_methods.
  intros Hmd He Ha HW Hclock Httl Hno. destruct grpc_rules_Ok as (Hg&_&Hr).
  destruct (Hr md expr Hmd He) as (rule&a0&Hrule&Hres).
  set (dctx := DownstreamTimeoutContext g q.1 (ap_svc s)).
  set (a := default (mkStdAuthenticator ∅) (ap_auth s !! rpc_name md)).
  assert (authenticator_ok W cfg a) as Hok by by apply stored_authenticator_ok.
  destruct (resolved_rule m _ _ _ _ _ ctx (ah_auth hooks) _ _ rule a0 cfg Hcfg Hrules Hres) as (e&_&Heq).
  pose proof (jwt_rule_not_nil GetBearerFromIncomingContext
    (λ ctx claims, Expr_Evaluate (MakeStandardJWTHasScope claims) e) env dctx a) as Hn.
  rewrite -Heq in Hn.
  destruct (rule env dctx a) as [a' out] eqn:E. cbn in Hn.
  assert (∀ c, out ≠ Ok (Some c, None)) as Hdeny.
  { intros c ->. apply Hno. exists dctx, c. split; [done|].
    by apply (resolved_rule_authorizes m _ _ _ _ _ W ctx (ah_auth hooks) _ _ rule a0 cfg Hcfg Hrules Hres env dctx a a' c). }
  exists (mkAppState (ap_svc s) (<[rpc_name md := a']> (ap_auth s))),
    (match out with Panic p => Panic p | Err err | Ok (_, Some err) => Err err | Ok (_, None) => Panic nil_dereference end).
  split; [destruct out as [[[c|] [err|]]|?|?]; [done|by destruct (Hdeny c)|done|done|done..]|]. split; [done|].
  intros svc lc [f Hf]. unfold grpc_method, GrpcMethod. rewrite Hf Hg bool_decide_eq_true_2; [by rewrite He|]. cbn [fmap option_fmap option_map].
  rewrite Hrule. fold dctx a. rewrite E.
  destruct out as [[[c|] [err|]]|?|?]; [done|by destruct (Hdeny c)|done|by destruct Hn|done..].
Qed.

(** The authenticators stay as the configuration says. *)
Lemma grpc_method_auth_ok md clients (svc : Service) env lc q s :
  md ∈ methods → W env → grpc_auth_ok cfg (ap_auth s) → grpc_auth_ok cfg (ap_auth (grpc_method h clients svc md env lc q s).1).
Proof using Hcfg Hrules Hhandler issuers_W distinct_methods.
  intros Hmd HW Ha. destruct grpc_rules_Ok as (Hg&_&Hr). unfold grpc_method, GrpcMethod.
  destruct (svc !! rpc_name md) as [f0|]; [|done]. cbn [fmap option_fmap option_map]. generalize (f0 clients) as f. intros f.
  assert (∀ c s, grpc_auth_ok cfg (ap_auth s) → grpc_auth_ok cfg (ap_auth
    (match c with Some c => let '(sv, out) := f c q.2 (ap_svc s) in (mkAppState sv (ap_auth s), out)
     | None => (s, Panic nil_dereference) end).1)) as Hserve.
  { intros [c|] s0 Hs0; [|done]. by destruct (f c q.2 (ap_svc s0)). }
  destruct (rpc_rule md) as [expr|] eqn:He; [|by apply (Hserve (Some _))].
  rewrite bool_decide_eq_true_2; [by eexists|]. destruct (Hr md expr Hmd He) as (rule&a0&Hrule&Hres). rewrite Hrule.
  set (a := default _ _). set (dctx := DownstreamTimeoutContext _ _ _).
  assert (authenticator_ok W cfg a) as Hok by by apply stored_authenticator_ok.
  assert (Forall (λ q, W q.1) [(env, dctx)]) as Hw by by apply list.Forall_singleton.
  pose proof (resolved_state_ok m _ _ _ _ _ W ctx (ah_auth hooks) _ _ rule a0 cfg Hcfg Hrules Hres _ a Hw Hok) as Hp.
  cbn in Hp. destruct (rule env dctx a) as [a' out].
  assert (grpc_auth_ok cfg (<[rpc_name md := a']> (ap_auth s))) as Ha' by by apply map_Forall_insert_2.
  destruct out as [[c [err|]]|?|?]; [done| |done..]. by apply Hserve.
Qed.
End one_app.

(** ** The server *)

Notation clients_of := (app_clients m deps downstream_of grpc_Dial temporal_Dial url_Parse_proxy ProxyFromEnvironment).
Notation newManagers := (grpc_newManagers (Req := Req) (Resp := Resp) m methods downstream_ContextTimeout hooks_of deps
  downstream_of grpc_Dial temporal_Dial ParseString
  url_Parse issuer_env url_Parse_proxy ProxyFromEnvironment).

Lemma grpc_newManagers_Ok c (svc : Service) hooks manager grpc :
  newManagers c svc hooks = Ok (manager, grpc) →
  let hooks := default_hooks_of hooks_of hooks in
  ∃ cfg clients h auth opts, GetDefaultConfig (bc_ctx c) = Some cfg ∧ clients_of cfg hooks = Ok clients ∧
    new_handler (bc_ctx c) hooks (app_callback downstream_ContextTimeout cfg hooks) = Ok (h, auth) ∧
    ResolveGrpcServerOptions (λ _, DefaultGrpcServerOptions m) (bc_ctx c) (ah_auth hooks)
      (Some (up_GRPC (gen_Upstream (cfg_GenCode cfg)))) = Ok opts ∧
    grpc = Some (mkGrpcServerManager opts [SHandler h] (Some (up_GRPC (gen_Upstream (cfg_GenCode cfg))))).
Proof using Type.
  unfold grpc_newManagers. intros (cfg&Hcfg%deref_Ok&Hm)%res_bind_Ok.
  apply res_bind_Ok in Hm as (clients&Hc&Hm). apply res_bind_Ok in Hm as ([h auth]&Hh&Hm).
  apply res_bind_Ok in Hm as (opts&Hopts&[= <- <-]). by exists cfg, clients, h, auth, opts.
Qed.

(** The gRPC server of an application serves its handler and no other. *)
Lemma app_grpc_server mware health (srv : autogenServer (S := AppS) (G := G)) servers opts h config :
  autogen_servers m mware health srv = Ok servers →
  as_grpcServerManager srv = Some (mkGrpcServerManager opts [SHandler h] (Some config)) →
  as_hooks srv ≫= sh_StoppableGrpcServerBuilder = None →
  ∃ gs, ServerGRPC gs ∈ servers ∧ gs_cfg gs = config ∧ gs_options gs = opts ∧ ∀ h', SHandler h' ∈ gs_services gs ↔ h' = h.
Proof using Type.
  clear distinct_methods methods issuers_W issuer_env W.
  intros (gm&admin&public&grpc&Hgm&->&_&_&->&_)%autogen_servers_Ok Hm Hhooks.
  assert (∃ more, gm = Some (mkGrpcServerManager opts ([SHandler h] ++ more) (Some config)) ∧ ∀ h', SHandler h' ∉ more)
    as (more&->&Hmore).
  { unfold load_health in Hgm. rewrite Hm in Hgm. destruct (health_enabled srv); [|injection Hgm as <-; exists []; split; [done|set_solver]].
    apply res_bind_Ok in Hgm as ([]&_&[= <-]). exists [SHealth]. split; [done|set_solver]. }
  unfold grpc_servers. cbn [gm_GrpcPublicServerConfig gm_EnabledGrpcHandlers app]. unfold configurePublicGrpcServerListener. rewrite Hhooks.
  eexists (mk_grpcServer _ _ _ _). split; [rewrite !elem_of_app; right; right; by apply list_elem_of_singleton|].
  split; [done|]. split; [done|]. intros h'. cbn [gs_services].
  set (reflection := if _ then [SReflection] else []). set (healthCheck := if _ then [SHealthCheck] else []).
  assert (SHandler h' ∉ reflection ∧ SHandler h' ∉ healthCheck) as [Hr Hc].
  { subst reflection healthCheck. split; case_match; set_solver. }
  specialize (Hmore h'). set_solver.
Qed.

(** ** Calls *)

Context `{!UnaryServing (Context * Req) Resp AppS, !UnaryServingLaws (Context * Req) Resp AppS}.
Notation Apps := (string → LogContext → Context * Req → UnaryHandler (Context * Req) Resp AppS → AppS → AppS * res Resp).

(** A call of a history: the method, the service there is then, the world, the
    loggers of its context, and the rest of the context with the message. *)
Record grpc_request := mk_grpc_request {
  gq_method : GrpcMethodSpec;
  gq_service : Service;
  gq_env : RemoteEnv;
  gq_log : LogContext;
  gq_call : Context * Req
}.
Definition grpc_served (lg : option Logger) (app : Apps) (opts : list grpc_option) (h : G) (clients : DownstreamClients)
    (hist : list grpc_request) (s : AppS) : AppS :=
  foldl (λ s c, (grpc_call_method lg app opts h clients (gq_service c) (gq_method c) (gq_env c) (gq_log c) (gq_call c) s).1) s hist.
Definition possible (c : grpc_request) : Prop := gq_method c ∈ methods ∧ W (gq_env c).

Definition transparent_options (app : Apps) (opts : list grpc_option) : Prop :=
  ∀ n, AppInterceptor n ∈ chained_interceptors opts → TransparentI (app n).

Lemma transparent_run lg (app : Apps) opts :
  transparent_options app opts → Forall (λ i, TransparentI (run_interceptor lg app i)) (chained_interceptors opts).
Proof using Type. intros Happ. apply list.Forall_forall. intros [| |n] Hin; cbn; [apply _..|by apply Happ]. Qed.

Lemma grpc_served_auth_ok ctx cfg (hooks : AppHooks (U := U)) g h auth clients lg app opts hist s :
  GetDefaultConfig ctx = Some cfg → rules_apply cfg (ah_auth hooks) → new_handler ctx hooks g = Ok (h, auth) →
  transparent_options app opts → Forall possible hist → grpc_auth_ok cfg (ap_auth s) →
  grpc_auth_ok cfg (ap_auth (grpc_served lg app opts h clients hist s)).
Proof using All.
  intros Hcfg Hrules Hh Happ Hhist. revert s. induction Hhist as [|c hist [Hmd HW] _ IH]; intros s Hs; [done|]. cbn. apply IH.
  unfold grpc_call_method. rewrite serve_unary_chains.
  apply chained_auth; [by apply transparent_run| |done]. intros lc q s' Hs'.
  by apply (grpc_method_auth_ok ctx cfg hooks g h auth).
Qed.

Context (Validate : DefaultConfig → option error) (Args : list string) (envPrefix : config_source → res string)
  (decode : config_source → option string → error + CustomConfig App * list string).
Context (createService_type : func_type) (serviceInterface : string) (downstreamConfig : value)
  (createService : BootContext → App → res (Service * option (BootHooks AppS G)))
  (prepareMiddleware : Z → middlewareCollection AppS) (health_NewServer : option error).
Notation NewServer := (NewServer Validate Args envPrefix decode createService_type serviceInterface downstreamConfig
  createService newManagers).

(** C2. A generated gRPC application, from its configuration to its answers: if
    [NewServer] makes a server and [Start] its servers, the clients of its downstreams
    were made from the validated configuration, and one of the servers is a gRPC server
    of the address in it, with the handler of the service and no other. Whatever calls there were before, a call to a method with a rule,
    without proof of authorization -- a bearer token in its metadata, of a configured
    issuer, valid now and signed with a key it served, whose scopes satisfy the rule
    -- depends in no way on what the service is: it is not run. That holds for any
    interceptors of the application that keep the token; without any, such a call
    fails and leaves what services share as it was. *)
Theorem grpc_application_guarded c c' srv servers :
  NewServer c = Ok (srv, c') → autogen_servers m prepareMiddleware health_NewServer srv = Ok servers →
  as_hooks srv ≫= sh_StoppableGrpcServerBuilder = None →
  ∃ cfg hooks clients h auth gs,
    (∃ c1 app svc bh, createService c1 app = Ok (svc, bh) ∧ hooks = default_hooks_of hooks_of bh) ∧
    Validate cfg = None ∧ GetDefaultConfig (as_ctx srv) = Some cfg ∧ clients_of cfg hooks = Ok clients ∧
    new_handler (as_ctx srv) hooks (app_callback downstream_ContextTimeout cfg hooks) = Ok (h, auth) ∧
    ServerGRPC gs ∈ servers ∧ gs_cfg gs = up_GRPC (gen_Upstream (cfg_GenCode cfg)) ∧
    (∀ h', SHandler h' ∈ gs_services gs ↔ h' = h) ∧
    ∀ lg app hist sv md expr env lc q,
      transparent_options app (gs_options gs) → Forall possible hist →
      md ∈ methods → rpc_rule md = Some expr → rules_apply cfg (ah_auth hooks) → ttls_bounded cfg →
      W env → modern_clock env → ¬ grpc_call_authorized cfg expr env q.1 →
      let s := grpc_served lg app (gs_options gs) h clients hist (mkAppState sv auth) in
      let call svc := grpc_call_method lg app (gs_options gs) h clients svc md env lc q s in
      (∀ svc svc', is_Some (svc !! rpc_name md) → is_Some (svc' !! rpc_name md) → call svc = call svc') ∧
      (chained_interceptors (gs_options gs) = [LoggerInterceptor; TraceidLogInterceptor] →
       ∀ svc, is_Some (svc !! rpc_name md) → is_ok (call svc).2 = false ∧ ap_svc (call svc).1 = ap_svc s).
Proof using All.
  intros Hnew Hservers Hhook.
  apply NewServer_spec in Hnew as (cc&c1&svc0&bh&cfg&grpc&manager&_&_&Hcs&_&Hval&Hman&_&Hm&_&Hcfg&Hctx&_).
  apply grpc_newManagers_Ok in Hman as (cfg'&clients&h&auth&opts&Hcfg'&Hcl&Hh&_&->). rewrite -Hctx in Hcfg' Hh.
  set (hooks := default_hooks_of hooks_of bh) in *. rewrite Hcfg in Hcfg'. injection Hcfg' as <-.
  destruct (app_grpc_server _ _ _ _ _ _ _ Hservers Hm Hhook) as (gs&Hin&Hgc&Hopts&Hserv).
  exists cfg, hooks, clients, h, auth, gs. split; [by exists c1, (cc_App cc), svc0, bh|].
  split_and!; [done..|].
  intros lg app hist sv md expr env lc q Happ Hhist Hmd He Hrules Httl HW Hclock Hno s call.
  assert (grpc_auth_ok cfg (ap_auth s)) as Hs.
  { apply (grpc_served_auth_ok (as_ctx srv) cfg hooks (app_callback downstream_ContextTimeout cfg hooks) h auth clients); [done..|]. by eapply grpc_rules_Ok. }
  subst call. unfold grpc_call_method. clearbody s. split.
  - intros svc svc' Hf Hf'. rewrite !serve_unary_chains. apply chained_next; [by apply transparent_run|].
    intros lc' q' s' [Hq Ha]. rewrite -Ha in Hs.
    destruct (grpc_denied (as_ctx srv) cfg hooks (app_callback downstream_ContextTimeout cfg hooks) h auth Hcfg Hrules Hh md clients expr env q' s') as (s1&out&_&_&Hout); [done..| |by rewrite !Hout].
    intros (rctx&ctx'&Hr&Hauth). apply Hno. exists rctx, ctx'. by rewrite -Hq.
  - intros Hint svc Hf. rewrite serve_unary_chains Hint.
    destruct (grpc_denied (as_ctx srv) cfg hooks (app_callback downstream_ContextTimeout cfg hooks) h auth Hcfg Hrules Hh md clients expr env q s) as (s1&out&Hout&Hsvc&Heq); [done..|].
    cbn. unfold makeLoggerInterceptor, TraceidLogInterceptor_run. destruct lg as [l|]; [|done].
    destruct (With _ _ _); [by rewrite Heq|done..].
Qed.
End application.

(** ** An application with one guarded method *)
Module GrpcAppExample.
#[export] Existing Instance LoggersExample.native.
#[export] Existing Instance LoggersExample.native_laws.
#[export] Existing Instance TlsExample.crypto.
#[export] Existing Instance Example.jose.
#[export] Existing Instance AppExample.platform.
#[export] Instance serving : UnaryServing (Context * string) string (AppState nat) :=
  λ run opts h, chained run (chained_interceptors opts) h.
#[export] Instance serving_laws : UnaryServingLaws (Context * string) string (AppState nat).
Proof. done. Defined.

Definition md : GrpcMethodSpec := mkGrpcMethodSpec "GetPet" (Some "read").
Definition methods : list GrpcMethodSpec := [md; mkGrpcMethodSpec "Ping" None].
Definition svc (n : nat) : GrpcServiceInterface (U := nat) (Req := string) (Resp := string) :=
  {["GetPet" := λ clients ctx req s, (mkSvcState (sv_monitors s) (sv_resp s) n, Ok ("pet " +:+ req))]}.
Definition hooks_of (h : BootHooks (AppState nat) (GrpcServiceHandler nat)) : AppHooks (U := nat) := no_hooks.
Definition result : res (autogenServer (S := AppState nat) (G := GrpcServiceHandler nat) * BootContext) :=
  NewServer (λ _, None) ["app"] (λ _, Err (ErrText "envPrefix: key value is nil")) AppExample.decode
    (mk_func_type [type_context; "AppConfig"] ["*Service"; type_hooks; type_error]) "*Service" VNil
    (λ c app, Ok (svc 1, None))
    (grpc_newManagers TlsExample.machine methods AppExample.timeout hooks_of
       AppExample.deps AppExample.downstream_of (λ _, AppExample.no_dial) AppExample.no_dial RuleExample.ParseString Example.parse_any
       RuleExample.issuer_env (λ u, inr u) (λ _, inr None)) BootstrapExample.c.
Definition made : autogenServer (S := AppState nat) (G := GrpcServiceHandler nat) * BootContext :=
  match result with Ok p => p | _ => (mk_autogenServer Background "" None None false None None, BootstrapExample.c) end.
Lemma grpc_result_Ok : result = Ok made.
Proof.
  unfold made. assert (is_ok result = true) as H by (by_vm). by destruct result.
Defined.
Lemma grpc_made_config : GetDefaultConfig (as_ctx made.1) = Some (defaultConfig_of VNil AppExample.custom).
Proof. by_vm. Defined.

Definition started : res (list (server (AppState nat) (GrpcServiceHandler nat))) :=
  autogen_servers TlsExample.machine (prepareMiddleware json_text AppExample.race None (λ _, None) "id") None made.1.
Definition servers : list (server (AppState nat) (GrpcServiceHandler nat)) := match started with Ok l => l | _ => [] end.
Lemma grpc_started_Ok : started = Ok servers.
Proof.
  unfold servers. assert (is_ok started = true) as H by (by_vm). by destruct started.
Defined.

(** A call with no metadata at all, and one after it. *)
Definition anonymous : Context * string := (Background, "7").
Lemma grpc_anonymous_unauthorized cfg expr env :
  ¬ grpc_call_authorized RuleExample.ParseString Example.W cfg expr env anonymous.1.
Proof.
  intros (rctx&ctx'&Hr&(jwt&ic&raw&token&sc&kid&ks&key&env'&claims&e&_&_&Hb&_)).
  rewrite Hr in Hb. vm_compute in Hb. discriminate Hb.
Defined.
Definition app (name : string) (lc : LogContext) (q : Context * string)
    (next : UnaryHandler (Context * string) string (AppState nat)) (s : AppState nat) : AppState nat * res string := next lc q s.
End GrpcAppExample.
Import GrpcAppExample.

Lemma grpc_application_guarded_witness :
  ∃ gs h clients auth, length clients = 1%nat ∧ ServerGRPC gs ∈ GrpcAppExample.servers ∧ SHandler h ∈ gs_services gs ∧
    let call svc := grpc_call_method (Some (NewLogrusLogger 1%positive)) GrpcAppExample.app (gs_options gs) h clients svc GrpcAppExample.md Example.day1
      (mkLogContext LoggersExample.no_native None None) GrpcAppExample.anonymous (mkAppState (mkSvcState ∅ ∅ 0%nat) auth) in
    call (GrpcAppExample.svc 1) = call (GrpcAppExample.svc 2).
Proof.
  destruct (grpc_application_guarded (T := string) TlsExample.machine GrpcAppExample.methods AppExample.timeout GrpcAppExample.hooks_of
    AppExample.deps AppExample.downstream_of (λ _, AppExample.no_dial) AppExample.no_dial RuleExample.ParseString Example.parse_any RuleExample.issuer_env (λ u, inr u) (λ _, inr None) Example.W
    ltac:(by left) ltac:(vm_compute; repeat constructor; set_solver)
    (λ _, None) ["app"] (λ _, Err (ErrText "envPrefix: key value is nil")) AppExample.decode
    (mk_func_type [type_context; "AppConfig"] ["*Service"; type_hooks; type_error]) "*Service" VNil
    (λ c app, Ok (GrpcAppExample.svc 1, None)) (prepareMiddleware json_text AppExample.race None (λ _, None) "id") None
    BootstrapExample.c GrpcAppExample.made.2 GrpcAppExample.made.1 GrpcAppExample.servers)
    as (cfg&hooks&clients&h&auth&gs&(c1&app0&svc0&bh&Hcs&->)&_&Hcfg&Hcl&_&Hin&_&Hh&Hserve).
  - rewrite -surjective_pairing. exact GrpcAppExample.grpc_result_Ok.
  - exact GrpcAppExample.grpc_started_Ok.
  - by_vm.
  - injection Hcs as _ <-. rewrite GrpcAppExample.grpc_made_config in Hcfg. injection Hcfg as <-.
    exists gs, h, clients, auth. split; [by apply mapM_res_length in Hcl|]. split; [exact Hin|]. split; [by apply Hh|].
    refine (proj1 (Hserve (Some (NewLogrusLogger 1%positive)) GrpcAppExample.app [] (mkSvcState ∅ ∅ 0%nat) GrpcAppExample.md "read" Example.day1
      (mkLogContext LoggersExample.no_native None None) GrpcAppExample.anonymous _ _ _ eq_refl _ _ _ _ _)
      (GrpcAppExample.svc 1) (GrpcAppExample.svc 2) _ _).
    + intros n _. split; [intros next next' q s Hn lc; by apply Hn|intros P next Hn lc q s; by apply Hn].
    + constructor.
    + apply list_elem_of_here.
    + split; [discriminate|reflexivity].
    + intros jwt [= <-]. repeat constructor.
    + by left.
    + vm_compute. discriminate.
    + apply GrpcAppExample.grpc_anonymous_unauthorized.
    + eexists. reflexivity.
    + eexists. reflexivity.
Defined.
