(* ===== verification/TemporalApp.v ===== *)
(** * Generated Temporal applications: src/codegen/arrai/auto/temporal.arrai,
    temporal_handler.arrai and temporal_client.arrai

    An application whose endpoints are workflows: what the generator finds in its
    specification, the worker's handler that it writes, which registers workflows and
    activities under their names, and the client that other applications start the
    workflows with. Whatever is started or scheduled by name has to meet the worker that
    registered the name, on the same task queue. The SDK's worker is an interface.
    Databases are left out, as are the types of parameters. *)

From stdpp Require Import sorting.
From S2P Require Export Bootstrap Downstream.

(** ** Names in Go (go.arrai)

    The classes of letters and digits are those of ASCII here. *)

Definition word_start (c : ascii) : bool := is_lower c || is_upper c || bool_decide (c = "_"%char).
Definition word_byte (c : ascii) : bool := word_start c || is_digit c.

(** The matches of [[\p{L}_][\p{L}\p{N}_]*], with the one that has begun. *)
Fixpoint words_from (current : option string) (s : string) : list string :=
  match s, current with
  | "", Some w => [w]
  | "", None => []
  | String c s, Some w => if word_byte c then words_from (Some (w +:+ String c "")) s else w :: words_from None s
  | String c s, None => words_from (if word_start c then Some (String c "") else None) s
  end.
Definition words (s : string) : list string := words_from None s.

Definition initialisms : list string :=
  ["ACL"; "API"; "ASCII"; "CPU"; "CSS"; "DNS"; "EOF"; "GUID"; "HTML"; "HTTP"; "HTTPS"; "ID"; "IP"; "JSON"; "LHS"; "QPS";
   "RAM"; "RHS"; "RPC"; "SLA"; "SMTP"; "SQL"; "SSH"; "TCP"; "TLS"; "TTL"; "UDP"; "UI"; "UID"; "UUID"; "URI"; "URL";
   "UTF8"; "VM"; "XML"; "XMPP"; "XSRF"; "XSS"].
Fixpoint trimRE (s : string) : string :=
  match s with String "_" s => trimRE s | _ => s end.
(** [strings.Title]. *)
Fixpoint title_from (inside : bool) (s : string) : string :=
  match s with
  | "" => ""
  | String c s => String (if inside then c else upper_byte c) (title_from (word_byte c) s)
  end.
Definition title (s : string) : string := title_from false s.

Definition go_word (v : string) : string :=
  let upper := str_map upper_byte (trimRE v) in
  if bool_decide (upper ∈ initialisms) then upper else title v.
(** [go.name]; a text without a word, which stops the generator, has no name here. *)
Definition go_name (word : string) : string :=
  let result := String.concat "" (go_word <$> match words word with
                                              | first :: rest => trimRE first :: rest
                                              | [] => []
                                              end) in
  if bool_decide (result = "Error") then "Error_" else result.

(** ** The specification *)

Record sysl_call := mk_sysl_call {
  sc_target : list string;
  sc_endpoint : string
}.
#[export] Instance sysl_call_eq_dec : EqDecision sysl_call.
Proof. solve_decision. Defined.

(** An endpoint: its tag, whether it has [restParams], and its calls. *)
Record sysl_endpoint := mk_sysl_endpoint {
  se_workflow : bool;
  se_rest : bool;
  se_calls : list sysl_call
}.

(** The application, its endpoints in the order of their names, and what the module says
    of the endpoints of others: with it [go.package] of an application and
    [go.methodName] of an endpoint. *)
Record temporal_spec := mk_temporal_spec {
  ts_name : list string;
  ts_endpoints : list (string * sysl_endpoint);
  ts_others : sysl_call → sysl_endpoint;
  ts_package : list string → string;
  ts_method : sysl_call → string
}.

Section generator.
Context (spec : temporal_spec).

Definition no_endpoint : sysl_endpoint := mk_sysl_endpoint false false [].
Definition own (c : sysl_call) : bool := bool_decide (sc_target c = ts_name spec).
Definition epFromCall (c : sysl_call) : sysl_endpoint :=
  if own c then default no_endpoint (snd <$> head (filter (λ e, e.1 = sc_endpoint c) (ts_endpoints spec)))
  else ts_others spec c.

(** *** temporal.arrai *)

Definition workflows : list (string * sysl_endpoint) := filter (λ e, se_workflow e.2 = true) (ts_endpoints spec).
Definition activities_of (ep : sysl_endpoint) : list sysl_call :=
  filter (λ c, se_workflow (epFromCall c) = false) (se_calls ep).
Definition all_activities : list sysl_call := remove_dups (workflows ≫= λ w, activities_of w.2).
Definition activitiesOfMainApp : list sysl_call := filter (λ c, own c = true) all_activities.

(** [name] and [activityName] of [activityFromCall]. *)
Definition activity_func (c : sysl_call) : string :=
  (if own c then "" else go_name (String.concat "" (title <$> sc_target c))) +:+ go_name (sc_endpoint c).
Definition activity_name (c : sysl_call) : string :=
  (if own c then "" else String.concat " :: " (sc_target c) +:+ " <- ") +:+ sc_endpoint c.

Definition by_func (c d : sysl_call) : Prop := String.le (activity_func c) (activity_func d).
#[export] Instance by_func_dec c d : Decision (by_func c d) := _.
Definition activitiesData : list sysl_call := merge_sort by_func all_activities.

(** [sysl.app.name], which is the queue of the worker, and the queue the client uses. *)
Definition TaskQueueName : string := String.concat "" (ts_name spec).
Definition client_TaskQueue : string := go_name (default "" (list.last (ts_name spec))).
End generator.

Example names :
  go_name "TemporalWorker" = "TemporalWorker" ∧ go_name "POST /" = "POST" ∧ go_name "get_url id" = "Get_urlID" ∧
  go_name "_error" = "Error_".
Proof. repeat split; by_vm. Qed.

(** ** The SDK's worker

    Functions are registered under a name, each kind by itself; a name that is taken
    makes the registration panic. *)
Class TemporalWorker (W WF AF : Type) := {
  RegisterWorkflowWithOptions : string → WF → W → res W;
  RegisterActivityWithOptions : string → AF → W → res W;
  worker_queue : W → string;
  worker_workflow : W → string → option WF;
  worker_activity : W → string → option AF
}.
Class TemporalWorkerLaws (W WF AF : Type) `{!TemporalWorker W WF AF} : Prop := {
  register_workflow_new : ∀ n f w, worker_workflow w n = None →
    ∃ w', RegisterWorkflowWithOptions n f w = Ok w' ∧ worker_queue w' = worker_queue w ∧
      (∀ m, worker_workflow w' m = if bool_decide (m = n) then Some f else worker_workflow w m) ∧
      (∀ m, worker_activity w' m = worker_activity w m);
  register_workflow_dup : ∀ n f w, is_Some (worker_workflow w n) → is_panic (RegisterWorkflowWithOptions n f w) = true;
  register_activity_new : ∀ n f w, worker_activity w n = None →
    ∃ w', RegisterActivityWithOptions n f w = Ok w' ∧ worker_queue w' = worker_queue w ∧
      (∀ m, worker_activity w' m = if bool_decide (m = n) then Some f else worker_activity w m) ∧
      (∀ m, worker_workflow w' m = worker_workflow w m);
  register_activity_dup : ∀ n f w, is_Some (worker_activity w n) → is_panic (RegisterActivityWithOptions n f w) = true
}.

(** ** temporal_handler.arrai *)

Section handler.
Context {U Fut ClientT Clients W : Type}.

(** What the worker runs, and what schedules an activity from a workflow; [Fut] is the
    SDK's future. Arguments come as values, and there is a result or an error. *)
Definition workflow_func : Type := activity_options → list value → U → U * res value.
Definition activity_func_type : Type := Context → list value → U → U * res value.
Definition executor : Type := activity_options → list value → Fut.
Context `{!TemporalWorker W workflow_func activity_func_type}.
(** [workflow.ExecuteActivity], and a method of the client of a package. *)
Context (sdk_ExecuteActivity : activity_options → string → list value → Fut).
Context (call_client : Clients → string → string → activity_func_type).

(** The user's functions, by their names in Go: a workflow gets the activities it may
    schedule, an activity the clients it may call. *)
Record TemporalServiceInterface := mkTemporalServiceInterface {
  ti_workflow : string → option (list (string * executor) → workflow_func);
  ti_activity : string → option (list (string * activity_func_type) → activity_func_type)
}.
Record TemporalServiceHandler := mkTemporalServiceHandler {
  tsh_Worker : W;
  tsh_Client : ClientT;
  tsh_Intf : TemporalServiceInterface;
  tsh_clients : Clients
}.
Definition NewTemporalServiceHandler (c : ClientT) (w : W) (intf : TemporalServiceInterface) (dc : Clients) :
    TemporalServiceHandler := mkTemporalServiceHandler w c intf dc.

Context (spec : temporal_spec).
Notation epFromCall := (epFromCall spec).

Definition unimplemented (name : string) : panicval := PanicString (name +:+ " unimplemented").

(** The executor of an activity. *)
Definition execute (c : sysl_call) : executor := λ ctx args,
  sdk_ExecuteActivity (ExecuteActivity ctx (TaskQueueName spec)) (activity_name spec c) args.

(** The structure of the activities of a workflow: each of its calls names the executor
    of that name. *)
Definition executor_named (name : string) : option executor :=
  execute <$> head (filter (λ c, activity_func spec c = name) (activitiesData spec)).
Definition activities_struct (ep : sysl_endpoint) : list (string * executor) :=
  omap (λ c, (activity_func spec c,.) <$> executor_named (activity_func spec c)) (remove_dups (se_calls ep)).

(** The wrappers of the handler; the fields of the interface have names in Go. *)
Definition workflow_wrapper (h : TemporalServiceHandler) (name : string) (ep : sysl_endpoint) : workflow_func := λ ctx args s,
  match ti_workflow (tsh_Intf h) name with
  | None => (s, Panic (unimplemented name))
  | Some f => f (activities_struct ep) ctx args s
  end.
(** [client.new]. *)
Definition client_struct (h : TemporalServiceHandler) (ep : sysl_endpoint) : list (string * activity_func_type) :=
  (λ c, (go_name (ts_package spec (sc_target c)) +:+ ts_method spec c,
         call_client (tsh_clients h) (ts_package spec (sc_target c)) (ts_method spec c))) <$> se_calls ep.
Definition activity_wrapper (h : TemporalServiceHandler) (c : sysl_call) : activity_func_type := λ ctx args s,
  match ti_activity (tsh_Intf h) (go_name (sc_endpoint c)) with
  | None => (s, Panic (unimplemented (go_name (sc_endpoint c))))
  | Some f => f (client_struct h (epFromCall c)) ctx args s
  end.

(** What is registered for an activity: the method of a client, or a wrapper. *)
Definition registered_activity (h : TemporalServiceHandler) (c : sysl_call) : activity_func_type :=
  if se_rest (epFromCall c) then call_client (tsh_clients h) (ts_package spec (sc_target c)) (ts_method spec c)
  else activity_wrapper h c.

Fixpoint register_workflows (h : TemporalServiceHandler) (l : list (string * sysl_endpoint)) (w : W) : res W :=
  match l with
  | [] => Ok w
  | (name, ep) :: l => w ← RegisterWorkflowWithOptions name (workflow_wrapper h name ep) w; register_workflows h l w
  end.
Fixpoint register_activities (h : TemporalServiceHandler) (l : list sysl_call) (w : W) : res W :=
  match l with
  | [] => Ok w
  | c :: l => w ← RegisterActivityWithOptions (activity_name spec c) (registered_activity h c) w; register_activities h l w
  end.
Definition Register (h : TemporalServiceHandler) : res W :=
  w ← register_workflows h (workflows spec) (tsh_Worker h); register_activities h (activitiesData spec) w.

(** What a Go compiler asks of the file: no function, constant or method twice; the
    wrapper of a workflow is declared under its own name, but named in Go's way where it
    is registered; a field of the activities has an executor; and what is registered for
    an activity of another application is the method of its client. *)
Definition compiles : Prop :=
  NoDup ((activity_func spec <$> activitiesData spec) ++ (workflows spec).*1) ∧
  Forall (λ w, go_name w.1 = w.1) (workflows spec) ∧
  Forall (λ w, Forall (λ c, activity_func spec c ∈ activity_func spec <$> activitiesData spec) (se_calls w.2)) (workflows spec) ∧
  Forall (λ c, own spec c = true ∨ se_rest (epFromCall c) = true) (activitiesData spec).
#[export] Instance compiles_dec : Decision compiles := _.

(** ** temporal_client.arrai: the method of a workflow *)
Definition client_workflow {R} (sdk_ExecuteWorkflow : StartWorkflowOptions → string → list value → res R)
    (name : string) (args : list value) (option : list StartWorkflowOptions) : res R :=
  option ← GetOptionFromClientIntf option;
  ExecuteWorkflow sdk_ExecuteWorkflow option (client_TaskQueue spec) (go_name name) args.
End handler.
Arguments TemporalServiceInterface : clear implicits.
Arguments TemporalServiceHandler : clear implicits.

(** * Lemmas *)

Section lemmas.
Context {U Fut ClientT Clients W : Type}.
Context `{!TemporalWorker W (workflow_func (U := U)) (activity_func_type (U := U)),
  !TemporalWorkerLaws W (workflow_func (U := U)) (activity_func_type (U := U))}.
Context (sdk_ExecuteActivity : activity_options → string → list value → Fut).
Context (call_client : Clients → string → string → activity_func_type (U := U)).
Context (spec : temporal_spec).
Notation handler := (TemporalServiceHandler U Fut ClientT Clients W).
Implicit Types (h : handler) (w : W).
Notation workflow_wrapper := (workflow_wrapper sdk_ExecuteActivity spec).
Notation registered_activity := (registered_activity call_client spec).
Notation register_workflows := (register_workflows sdk_ExecuteActivity spec).
Notation register_activities := (register_activities call_client spec).
Notation Register := (Register sdk_ExecuteActivity call_client spec).

Lemma register_workflows_spec h l w :
  NoDup l.*1 → (∀ n, n ∈ l.*1 → worker_workflow w n = None) →
  ∃ w', register_workflows h l w = Ok w' ∧ worker_queue w' = worker_queue w ∧
    (∀ n ep, (n, ep) ∈ l → worker_workflow w' n = Some (workflow_wrapper h n ep)) ∧
    (∀ n, n ∉ l.*1 → worker_workflow w' n = worker_workflow w n) ∧
    (∀ n, worker_activity w' n = worker_activity w n).
Proof using TemporalWorkerLaws0.
  revert w. induction l as [|[n0 ep0] l IH]; intros w Hnd Hfree.
  { exists w. repeat split; try done. by intros n ep ?%elem_of_nil. }
  apply list.NoDup_cons in Hnd as [Hn0 Hnd].
  destruct (register_workflow_new n0 (workflow_wrapper h n0 ep0) w) as (w1 & Hw1 & Hq1 & Hwf1 & Hact1); [apply Hfree; by left|].
  destruct (IH w1 Hnd) as (w' & Hw' & Hq' & Hin & Hout & Hact').
  { intros n Hn. rewrite Hwf1 bool_decide_false; [by intros ->|]. apply Hfree. by right. }
  exists w'. cbn [TemporalApp.register_workflows]. rewrite Hw1 /= Hw'. split; [done|]. split; [congruence|]. split; [|split].
  - intros n ep [[= -> ->]|Hn]%elem_of_cons; [|by apply Hin]. rewrite Hout // Hwf1 bool_decide_true //.
  - intros n [Hne Hn]%not_elem_of_cons. rewrite Hout // Hwf1 bool_decide_false //.
  - intros n. by rewrite Hact' Hact1.
Qed.

Lemma register_activities_spec h l w :
  NoDup (activity_name spec <$> l) → (∀ n, worker_activity w n = None) →
  ∃ w', register_activities h l w = Ok w' ∧ worker_queue w' = worker_queue w ∧
    (∀ c, c ∈ l → worker_activity w' (activity_name spec c) = Some (registered_activity h c)) ∧
    (∀ n, worker_workflow w' n = worker_workflow w n).
Proof using TemporalWorkerLaws0.
  intros Hnd Hfree. assert (∀ n, n ∈ activity_name spec <$> l → worker_activity w n = None) as H by auto. clear Hfree.
  assert (∃ w', register_activities h l w = Ok w' ∧ worker_queue w' = worker_queue w ∧
    (∀ c, c ∈ l → worker_activity w' (activity_name spec c) = Some (registered_activity h c)) ∧
    (∀ n, n ∉ activity_name spec <$> l → worker_activity w' n = worker_activity w n) ∧
    (∀ n, worker_workflow w' n = worker_workflow w n)) as (w' & ? & ? & ? & _ & ?); [|by exists w'].
  revert w H. induction l as [|c0 l IH]; intros w Hfree.
  { exists w. repeat split; try done. by intros c ?%elem_of_nil. }
  apply list.NoDup_cons in Hnd as [Hn0 Hnd].
  destruct (register_activity_new (activity_name spec c0) (registered_activity h c0) w) as (w1 & Hw1 & Hq1 & Hact1 & Hwf1); [apply Hfree; by left|].
  destruct (IH Hnd w1) as (w' & Hw' & Hq' & Hin & Hout & Hwf').
  { intros n Hn. rewrite Hact1 bool_decide_false; [by intros ->|]. apply Hfree. by right. }
  exists w'. cbn [TemporalApp.register_activities]. rewrite Hw1 /= Hw'. split; [done|]. split; [congruence|]. split; [|split].
  - intros c [->|Hc]%elem_of_cons; [|by apply Hin]. rewrite Hout // Hact1 bool_decide_true //.
  - intros n [Hne Hn]%not_elem_of_cons. rewrite Hout // Hact1 bool_decide_false //.
  - intros n. by rewrite Hwf' Hwf1.
Qed.

Lemma activitiesData_elem c : c ∈ activitiesData spec ↔ ∃ n ep, (n, ep) ∈ workflows spec ∧ c ∈ activities_of spec ep.
Proof using.
  unfold activitiesData, all_activities. rewrite merge_sort_Permutation elem_of_remove_dups list_elem_of_bind. split.
  - intros ([n ep] & Hc & Hw). eauto.
  - intros (n & ep & Hw & Hc). by exists (n, ep).
Qed.

(** The executor that a name stands for is that of the activity with this name. *)
Lemma executor_named_data c : NoDup (activity_func spec <$> activitiesData spec) → c ∈ activitiesData spec →
  executor_named sdk_ExecuteActivity spec (activity_func spec c) = Some (execute sdk_ExecuteActivity spec c).
Proof using.
  unfold executor_named. induction (activitiesData spec) as [|d l IH]; [by intros _ ?%elem_of_nil|].
  rewrite fmap_cons. intros [Hd Hnd]%list.NoDup_cons [->|Hc]%elem_of_cons; rewrite filter_cons.
  - by rewrite decide_True.
  - rewrite decide_False; [|by apply IH]. intros E. apply Hd. rewrite E. by apply list_elem_of_fmap_2.
Qed.
End lemmas.

(** ** The queues of the worker and of its clients *)

Lemma length_concat a l : String.length (String.concat "" (a :: l)) = String.length a + String.length (String.concat "" l).
Proof.
  destruct l as [|b l]; cbn [String.concat].
  - cbn. lia.
  - by rewrite str_length_append.
Qed.

(** The worker listens on the queue that has all parts of the application's name; the
    client sends to the one of the last part: for an application in a namespace they
    never meet. *)
Theorem namespaced_client_misses_worker spec ns name :
  ts_name spec = ns ++ [name] → Exists (λ p, p ≠ "") ns → go_name name = name → client_TaskQueue spec ≠ TaskQueueName spec.
Proof.
  intros Hname Hns Hgo E. unfold client_TaskQueue, TaskQueueName in E. rewrite Hname list.last_snoc /= Hgo in E.
  apply (f_equal String.length) in E.
  assert (∀ l, String.length name ≤ String.length (String.concat "" (l ++ [name]))) as Hle.
  { intros l. induction l as [|a l IH]; [done|]. rewrite -app_comm_cons length_concat. lia. }
  clear Hname Hgo. induction Hns as [p ns Hp | p ns Hns IH].
  - rewrite -app_comm_cons length_concat in E. specialize (Hle ns). destruct p; [done|]. cbn in E. lia.
  - apply IH. rewrite -app_comm_cons length_concat in E. specialize (Hle ns). lia.
Qed.

Lemma queues_meet spec ns name : ts_name spec = ns ++ [name] → go_name name = name →
  client_TaskQueue spec = TaskQueueName spec ↔ Forall (λ p, p = "") ns.
Proof.
  intros Hname Hgo. split.
  - intros E. destruct (decide (Forall (λ p, p = "") ns)) as [|Hn]; [done|].
    apply not_Forall_Exists in Hn; [|apply _]. by destruct (namespaced_client_misses_worker spec ns name Hname Hn Hgo).
  - unfold client_TaskQueue, TaskQueueName. rewrite Hname list.last_snoc /= Hgo. clear Hname Hgo. intros Hns.
    symmetry. induction Hns as [|p ns -> _ IH]; [done|]. destruct ns; exact IH.
Qed.

(** A program whose worker was built by [NewTemporalWorker]. *)
Section application.
Context {U Fut ClientT Clients W App : Type}.
Context `{!TemporalWorker W (workflow_func (U := U)) (activity_func_type (U := U)),
  !TemporalWorkerLaws W (workflow_func (U := U)) (activity_func_type (U := U))}.
Context (sdk_ExecuteActivity : activity_options → string → list value → Fut).
Context (call_client : Clients → string → string → activity_func_type (U := U)).
Notation handler := (TemporalServiceHandler U Fut ClientT Clients W).
Notation Intf := (TemporalServiceInterface U Fut).

(** A worker that has registered nothing, on a queue. *)
Definition fresh_worker (q : string) (w : W) : Prop :=
  worker_queue w = q ∧ (∀ n, worker_workflow w n = None) ∧ (∀ n, worker_activity w n = None).

Definition NewTemporalApp (spec : temporal_spec) (Validate : DefaultConfig → option error) (Args : list string)
    (envPrefix : config_source → res string) (decode : config_source → option string → error + CustomConfig App * list string)
    (Dial : string * string → res ClientT) (worker_New : ClientT → string → W) (downstream : value)
    (createService : BootContext → App → res (Intf * option (TemporalHooks ClientT W)))
    (BuildDownstreamClients : BootContext → TemporalHooks ClientT W → res Clients) : BootContext → res handler :=
  NewTemporalWorker Validate Args envPrefix decode Dial worker_New (TaskQueueName spec) downstream createService
    BuildDownstreamClients NewTemporalServiceHandler.

Lemma NewTemporalApp_fresh spec Validate Args envPrefix decode Dial worker_New downstream createService build c h :
  (∀ cl q, fresh_worker q (worker_New cl q)) →
  (∀ c app svc hooks b, createService c app = Ok (svc, Some hooks) → th_TemporalWorkerBuilder hooks = Some b →
     ∀ cl q, fresh_worker q (b cl q)) →
  NewTemporalApp spec Validate Args envPrefix decode Dial worker_New downstream createService build c = Ok h →
  fresh_worker (TaskQueueName spec) (tsh_Worker h).
Proof using.
  intros Hnew Hhook. unfold NewTemporalApp, NewTemporalWorker. destruct (getExternalLogger c) as [c0 ext].
  intros ([cfg app] & _ & H)%res_bind_Ok. apply res_bind_Ok in H as ([svc hooks] & Hcs & H).
  destruct (temporal_validateConfig Validate hooks cfg) as [cfg' err].
  apply res_bind_Ok in H as (_ & _ & H). apply res_bind_Ok in H as (hk & ->%deref_Ok & H).
  apply res_bind_Ok in H as (o & _ & H). apply res_bind_Ok in H as (cl & _ & H). apply res_bind_Ok in H as (dc & _ & H).
  apply res_bind_Ok in H as (_ & _ & [= <-]). cbn.
  destruct (th_TemporalWorkerBuilder hk) as [b|] eqn:Hb; [by eapply Hhook|apply Hnew].
Qed.

(** C21. A Temporal application whose code compiles and whose activities have names of
    their own: [Register] on the worker of [NewTemporalWorker] succeeds; every workflow is
    registered under the name its client starts it with, but the client sends it to the
    worker's queue only if nothing precedes the last part of the application's name; and
    whatever activity a workflow may schedule goes, with a timeout, to the queue of this
    very worker, under a name that is registered to the function that the specification
    calls. *)
Theorem temporal_application_connected spec Validate Args envPrefix decode Dial worker_New downstream createService build c h :
  (∀ cl q, fresh_worker q (worker_New cl q)) →
  (∀ c app svc hooks b, createService c app = Ok (svc, Some hooks) → th_TemporalWorkerBuilder hooks = Some b →
     ∀ cl q, fresh_worker q (b cl q)) →
  NewTemporalApp spec Validate Args envPrefix decode Dial worker_New downstream createService build c = Ok h →
  compiles spec → NoDup (activity_name spec <$> activitiesData spec) →
  ∃ w, Register sdk_ExecuteActivity call_client spec h = Ok w ∧ worker_queue w = TaskQueueName spec ∧
    (∀ ns name, ts_name spec = ns ++ [name] → go_name name = name →
      client_TaskQueue spec = worker_queue w ↔ Forall (λ p, p = "") ns) ∧
    (∀ n ep, (n, ep) ∈ ts_endpoints spec → se_workflow ep = true →
      worker_workflow w n = Some (workflow_wrapper sdk_ExecuteActivity spec h n ep) ∧
      (∀ R (start : StartWorkflowOptions → string → list value → res R) args option, length option ≤ 1 →
        ∃ id, client_workflow spec start n args option = start (mkStartWorkflowOptions (client_TaskQueue spec) id) n args) ∧
      ∀ call, call ∈ activities_of spec ep → ∃ ex,
        (activity_func spec call, ex) ∈ activities_struct sdk_ExecuteActivity spec ep ∧
        ∀ ctx args, ∃ opts, ex ctx args = sdk_ExecuteActivity opts (activity_name spec call) args ∧
          ao_TaskQueue opts = worker_queue w ∧ ao_StartToCloseTimeout opts ≠ 0%Z ∧
          worker_activity w (activity_name spec call) = Some (registered_activity call_client spec h call)).
Proof using TemporalWorkerLaws0.
  intros Hnew Hhook Hh (Hnames & Hgo & _ & _) Hact.
  destruct (NewTemporalApp_fresh _ _ _ _ _ _ _ _ _ _ _ _ Hnew Hhook Hh) as (Hq & Hwf & Hactw).
  apply list.NoDup_app in Hnames as (Hfuncs & _ & Hwfs).
  destruct (register_workflows_spec sdk_ExecuteActivity spec h (workflows spec) (tsh_Worker h)) as (w1 & Hw1 & Hq1 & Hin1 & _ & Hact1); [done|auto|].
  destruct (register_activities_spec call_client spec h (activitiesData spec) w1) as (w & Hw & Hqw & Hinw & Hwfw); [done|by intros n; rewrite Hact1|].
  exists w. unfold Register. rewrite Hw1 /= Hw. split; [done|]. split; [congruence|].
  split. { intros ns name Hname Hgn. rewrite Hqw Hq1 Hq. by apply (queues_meet spec ns name). }
  intros n ep Hep Htag. assert ((n, ep) ∈ workflows spec) as Hin by (by apply list_elem_of_filter). split; [|split].
  - rewrite Hwfw. by apply Hin1.
  - intros R start args option Hlen. apply (proj1 (list.Forall_forall _ _) Hgo) in Hin. cbn in Hin.
    unfold client_workflow. rewrite Hin. destruct option as [|o [|]]; [| |cbn in Hlen; lia]; cbn; unfold ExecuteWorkflow.
    + exists "". by destruct (start _ _ _).
    + exists (swo_ID o). by destruct (start _ _ _).
  - intros call Hcall. assert (call ∈ activitiesData spec) as Hdata by (apply activitiesData_elem; eauto).
    exists (execute sdk_ExecuteActivity spec call). split.
    + unfold activities_struct. apply list_elem_of_omap. exists call.
      rewrite elem_of_remove_dups executor_named_data //. split; [|done]. by apply list_elem_of_filter in Hcall as [_ ?].
    + intros ctx args. eexists. split; [done|]. unfold ExecuteActivity. cbn [ao_StartToCloseTimeout ao_TaskQueue].
      case_bool_decide as Ht; cbn; repeat split; try congruence; try done; by apply Hinw.
Qed.

End application.

(** ** What does not fit together *)

(** A workflow that calls a workflow of the same application has no executor for it: the
    structure of its activities does not compile. *)
Theorem child_workflow_does_not_compile spec n ep c :
  compiles spec → (n, ep) ∈ workflows spec → c ∈ se_calls ep → own spec c = true → se_workflow (epFromCall spec c) = false.
Proof.
  intros (Hnames & Hgo & Hstruct & _) Hn Hc Hown. apply not_true_iff_false. intros Hwf.
  rewrite list.Forall_forall in Hstruct. specialize (Hstruct _ Hn). cbn in Hstruct. rewrite list.Forall_forall in Hstruct.
  specialize (Hstruct _ Hc). apply list.NoDup_app in Hnames as (_ & Hdis & _). apply (Hdis _ Hstruct).
  unfold epFromCall in Hwf. rewrite Hown in Hwf.
  destruct (filter _ _) as [|[m e] l] eqn:E; [done|]. cbn in Hwf.
  assert ((m, e) ∈ filter (λ e, e.1 = sc_endpoint c) (ts_endpoints spec)) as Hm by (rewrite E; by left).
  apply list_elem_of_filter in Hm as [Hm Hin]. cbn in Hm.
  assert ((m, e) ∈ workflows spec) as Hw by (by apply list_elem_of_filter).
  rewrite list.Forall_forall in Hgo. specialize (Hgo _ Hw). cbn in Hgo. unfold activity_func. rewrite Hown -Hm Hgo.
  apply list_elem_of_fmap. by exists (m, e).
Qed.

(** ** A worker with maps, and an application of the repository's tests
    (codegen/arrai/auto/tests/temporal_client) *)
Module TemporalExample.
Record worker (WF AF : Type) := mk_worker {
  wk_queue : string;
  wk_workflows : gmap string WF;
  wk_activities : gmap string AF
}.
Arguments mk_worker {WF AF}.
Arguments wk_queue {WF AF}.
Arguments wk_workflows {WF AF}.
Arguments wk_activities {WF AF}.
Definition taken (n : string) : panicval := PanicString (n +:+ " already registered").
#[export] Instance worker_ops WF AF : TemporalWorker (worker WF AF) WF AF := {
  RegisterWorkflowWithOptions n f w :=
    if bool_decide (is_Some (wk_workflows w !! n)) then Panic (taken n)
    else Ok (mk_worker (wk_queue w) (<[n := f]> (wk_workflows w)) (wk_activities w));
  RegisterActivityWithOptions n f w :=
    if bool_decide (is_Some (wk_activities w !! n)) then Panic (taken n)
    else Ok (mk_worker (wk_queue w) (wk_workflows w) (<[n := f]> (wk_activities w)));
  worker_queue := wk_queue;
  worker_workflow w n := wk_workflows w !! n;
  worker_activity w n := wk_activities w !! n
}.
Lemma insert_if {F} (m : gmap string F) n f k : <[n := f]> m !! k = if bool_decide (k = n) then Some f else m !! k.
Proof. case_bool_decide; subst; [apply lookup_insert_eq|by apply lookup_insert_ne]. Qed.
#[export] Instance worker_laws WF AF : TemporalWorkerLaws (worker WF AF) WF AF.
Proof.
  split; cbn; intros n f w Hn.
  1,3: rewrite Hn bool_decide_false; [by intros []|]; eexists; repeat split; intros m; apply insert_if.
  all: by rewrite bool_decide_true.
Qed.

Definition self : list string := ["TemporalWorker"].
Definition activity : sysl_call := mk_sysl_call self "Activity".
Definition post : sysl_call := mk_sysl_call ["SomeDownstream"] "POST /".
Definition with_activities : sysl_endpoint := mk_sysl_endpoint true false [post; activity].
Definition spec : temporal_spec := mk_temporal_spec self
  [("Activity", mk_sysl_endpoint false false [post]); ("WorkflowWithActivities", with_activities);
   ("WorkflowWithoutParam", mk_sysl_endpoint true false [])]
  (λ _, mk_sysl_endpoint false true []) (λ _, "somedownstream") (λ _, "Post").

Definition Fut : Type := activity_options * string * list value.
Definition WF : Type := workflow_func (U := nat).
Definition AF : Type := activity_func_type (U := nat).
Definition intf : TemporalServiceInterface nat Fut := mkTemporalServiceInterface
  (λ n, if bool_decide (n = "WorkflowWithActivities") then Some (λ _ _ _ s, (s, Ok VNil)) else None)
  (λ n, if bool_decide (n = "Activity") then Some (λ _ _ _ s, (S s, Ok VNil)) else None).
Definition schedule (opts : activity_options) (name : string) (args : list value) : Fut := (opts, name, args).
Definition call_client (dc : unit) (package method : string) : AF := λ _ _ s, (s, Ok VNil).
Definition hooks : TemporalHooks unit (worker WF AF) := mkTemporalHooks _ _ None None None None None.
Definition app : BootContext → res (TemporalServiceHandler nat Fut unit unit (worker WF AF)) :=
  NewTemporalApp spec (λ _, None) ["app"] (λ _, Err (ErrText "envPrefix: key value is nil")) BootstrapExample.decode
    (λ _, Ok ()) (λ _ q, mk_worker q ∅ ∅) VNil (λ _ _, Ok (intf, Some hooks)) (λ _ _, Ok ()).
Definition made : TemporalServiceHandler nat Fut unit unit (worker WF AF) := mkTemporalServiceHandler (mk_worker "TemporalWorker" ∅ ∅) () intf ().
Example app_made : app BootstrapExample.c = Ok made.
Proof. reflexivity. Qed.

(** One that calls its own workflow, and one whose name has two parts. *)
Definition parent : temporal_spec := mk_temporal_spec self
  [("Child", mk_sysl_endpoint true false []); ("Parent", mk_sysl_endpoint true false [mk_sysl_call self "Child"])]
  (λ _, no_endpoint) (λ _, "") (λ _, "").
Example parent_does_not_compile : bool_decide (compiles parent) = false ∧ bool_decide (compiles spec) = true.
Proof. split; by_vm. Qed.
Definition namespaced : temporal_spec := mk_temporal_spec ["Bank"; "Payments"] [] (λ _, no_endpoint) (λ _, "") (λ _, "").
Example namespaced_queues : TaskQueueName namespaced = "BankPayments" ∧ client_TaskQueue namespaced = "Payments".
Proof. split; by_vm. Qed.
End TemporalExample.
Import TemporalExample.

Lemma temporal_application_connected_witness :
  ∃ w, Register schedule call_client spec made = Ok w ∧ worker_queue w = "TemporalWorker" ∧
    client_TaskQueue spec = worker_queue w ∧
    is_Some (worker_workflow w "WorkflowWithActivities") ∧ is_Some (worker_activity w "SomeDownstream <- POST /").
Proof.
  destruct (temporal_application_connected schedule call_client spec (λ _, None) ["app"]
    (λ _, Err (ErrText "envPrefix: key value is nil")) BootstrapExample.decode (λ _, Ok ()) (λ _ q, mk_worker q ∅ ∅) VNil
    (λ _ _, Ok (intf, Some hooks)) (λ _ _, Ok ()) BootstrapExample.c made) as (w & Hw & Hq & Hqueue & Hall).
  - by intros cl q.
  - by intros c a svc hk b [= <- <-].
  - exact app_made.
  - apply (bool_decide_unpack _). by_vm.
  - apply (bool_decide_unpack _). by_vm.
  - exists w. split; [exact Hw|]. split; [exact Hq|].
    split. { apply (Hqueue [] "TemporalWorker" eq_refl ltac:(by_vm)). constructor. }
    destruct (Hall "WorkflowWithActivities" with_activities) as (Hwf & _ & Hact); [by right; left|done|].
    split; [by rewrite Hwf|]. destruct (Hact post) as (ex & _ & Hex); [by left|].
    destruct (Hex (mk_activity_options "" 0) []) as (opts & _ & _ & _ & Hr). by eexists.
Defined.

Lemma namespaced_client_misses_worker_witness : client_TaskQueue namespaced ≠ TaskQueueName namespaced.
Proof.
  apply (namespaced_client_misses_worker namespaced ["Bank"] "Payments"); [reflexivity| |by_vm].
  by constructor.
Defined.
