(* ===== verification/Shims.v ===== *)
(** * Globals, shims and mocks: src/core/http_shim.go, src/core/build_metadata.go, part of
    src/core/serve.go and src/core/temporal_serve.go, src/jwtauth/logger.go, and the
    reader of src/restlib/mock.go

    What is set once and read by the other parts: the manager a generated service is
    given, the metadata of a build, the configuration in a context, the logger of
    package jwtauth; and the mock reader with which callers of [io.ReadAll] are tested. *)

From S2P Require Export Bootstrap Support.

(** ** http_shim.go: the manager of generated services *)

Record HTTPManagerShim := mkHTTPManagerShim {
  shim_libraryConfig : option LibraryConfig;
  shim_adminServerConfig : option CommonHTTPServerConfig;
  shim_publicServerConfig : option UpstreamConfig;
  shim_enabledHandlers : list HandlerInitialiser;
  shim_addAdminHTTPMiddleware : list (string * endpoint)
}.
Definition NewHTTPManagerShim libraryConfig adminServerConfig publicServerConfig enabledHandlers
    addAdminHTTPMiddleware : HTTPManagerShim :=
  mkHTTPManagerShim libraryConfig adminServerConfig publicServerConfig enabledHandlers addAdminHTTPMiddleware.
Definition shim_EnabledHandlers (m : HTTPManagerShim) : list HandlerInitialiser := shim_enabledHandlers m.
Definition shim_LibraryConfig (m : HTTPManagerShim) : option LibraryConfig := shim_libraryConfig m.
Definition shim_AdminServerConfig (m : HTTPManagerShim) : option CommonHTTPServerConfig := shim_adminServerConfig m.
Definition shim_PublicServerConfig (m : HTTPManagerShim) : option UpstreamConfig := shim_publicServerConfig m.
Definition shim_AddAdminHTTPMiddleware (m : HTTPManagerShim) : list (string * endpoint) := shim_addAdminHTTPMiddleware m.

(** The interface [Manager] of the servers, by the methods of the shim. *)
Definition shim_Manager (m : HTTPManagerShim) : Manager :=
  mkManager (shim_EnabledHandlers m) (shim_LibraryConfig m) (shim_AdminServerConfig m)
    (shim_PublicServerConfig m) (shim_AddAdminHTTPMiddleware m).

(** ** build_metadata.go: the linker sets the variables before the program runs *)
Section build.
Context (Name Version BuildID CommitSha BranchName TagName : string).
Definition buildMetadata : BuildMetadata := mkBuildMetadata Name Version BuildID CommitSha BranchName TagName.
End build.

(** ** serve.go: the configuration that a test puts in the context *)
Definition WithConfigFile (ctx : Context) (yamlConfigData : string) : Context := WithValue ctx KYamlConfig yamlConfigData.

(** ** The names of servers *)
Definition autogenServer_GetName `{Crypto} {S G} (s : autogenServer (S := S) (G := G)) : string := as_name s.
Definition httpServer_GetName `{Crypto} {S} (s : httpServer S) : string := hs_name s.
Definition grpcServer_GetName `{Crypto} {G} (s : grpcServer G) : string := gs_name s.
Definition multiStoppableServer_GetName : string := "multiStoppableServer".
Definition TemporalServer_GetName : string := "autogenerated-temporal-server".

(** ** logger.go: the logger of package jwtauth

    What a call logs; the functions of a [FuncLogger] may be nil. *)
Section jwt_logger.
Context {L : Type} (log_Println : list value → L) (log_Printf : string → list value → L).

Inductive JwtLogger :=
| defaultLogger
| FuncLogger (DebugFunc : option (list value → L)) (DebugfFunc : option (string → list value → L))
| OtherLogger (Debug : list value → L) (Debugf : string → list value → L).

(** [pkgLogger] is a global variable. *)
Definition SetLogger (l pkgLogger : JwtLogger) : JwtLogger := l.
Definition XXX_GetLogger (pkgLogger : JwtLogger) : JwtLogger := pkgLogger.
Definition SetLogFuncs debug debugf (pkgLogger : JwtLogger) : JwtLogger := FuncLogger debug debugf.

Definition JwtLogger_Debug (l : JwtLogger) (args : list value) : res L :=
  match l with
  | defaultLogger => Ok (log_Println args)
  | FuncLogger debug _ => f ← deref debug; Ok (f args)
  | OtherLogger f _ => Ok (f args)
  end.
Definition JwtLogger_Debugf (l : JwtLogger) (format : string) (args : list value) : res L :=
  match l with
  | defaultLogger => Ok (log_Printf format args)
  | FuncLogger _ debugf => f ← deref debugf; Ok (f format args)
  | OtherLogger _ f => Ok (f format args)
  end.

(** What a [NewRemoteJWKSIssuer] or the polling goroutine does about a refresh that
    failed. *)
Definition debug_failure (l : JwtLogger) (msg : string) (err : option error) : res () :=
  match err with
  | Some e => _ ← JwtLogger_Debug l [VString msg; VString "error"]; Ok ()
  | None => Ok ()
  end.
End jwt_logger.

(** ** mock.go: a reader that fails *)
Record readCloser := mk_readCloser { rc_err : option error }.
Definition ReadCloser : readCloser := mk_readCloser None.
Definition rc_Err (err : option error) (r : readCloser) : readCloser := mk_readCloser err.
(** How many bytes were read; no [Read] changes the reader. *)
Definition rc_Read (r : readCloser) : nat * option error := (0%nat, rc_err r).
Definition rc_Close (r : readCloser) : option error := rc_err r.

(** [io.ReadAll]: it reads until there is an error, and [io.EOF] is a success. *)
Definition io_EOF : error := ErrText "EOF".
Fixpoint ReadAll (fuel : nat) (r : readCloser) (read : nat) : option (nat * option error) :=
  match fuel with
  | O => None
  | S fuel =>
      match rc_Read r with
      | (n, None) => ReadAll fuel r (read + n)
      | (n, Some err) => Some ((read + n)%nat, match err with ErrText "EOF" => None | _ => Some err end)
      end
  end.

(** * Properties *)

(** A test's configuration wins over the command line, and the last one over those
    before it; the rest of the context stays. *)
Theorem WithConfigFile_wins Args ctx old data :
  config_source_of Args (WithConfigFile (WithConfigFile ctx old) data) = Ok (FromYaml data) ∧
  GetDefaultConfig (WithConfigFile ctx data) = GetDefaultConfig ctx.
Proof. unfold config_source_of, WithConfigFile, GetDefaultConfig. by autorewrite with ctx. Qed.

(** With a logger made of functions of which one is nil, the first line that would go
    to it panics: setting only the one for formatted lines turns a failed download of
    keys, which is otherwise only logged, into a panic. *)
Theorem SetLogFuncs_spec {L} (pl : list value → L) (pf : string → list value → L) debug debugf g msg e :
  let g' := SetLogFuncs debug debugf g in
  (∀ args, JwtLogger_Debug pl g' args = match debug with Some f => Ok (f args) | None => Panic nil_dereference end) ∧
  (∀ format args, JwtLogger_Debugf pf g' format args =
     match debugf with Some f => Ok (f format args) | None => Panic nil_dereference end) ∧
  (debug_failure pl g' msg (Some e) = Ok () ↔ is_Some debug).
Proof.
  cbn. split; [by destruct debug|]. split; [by destruct debugf|]. destruct debug; cbn; [by split|]. by split; [|intros []].
Qed.

(** The mock reader gives its error and no bytes, at once. But one that was made and
    given no error never gets to an end: reading all of it goes on for ever. *)
Theorem ReadCloser_spec r :
  match rc_err r with
  | None => ∀ fuel, ReadAll fuel r 0 = None
  | Some err => ∀ fuel, ReadAll (S fuel) r 0 = Some (0%nat, match err with ErrText "EOF" => None | _ => Some err end)
  end.
Proof.
  destruct (rc_err r) as [err|] eqn:E.
  - intros fuel. cbn. by rewrite E.
  - intros fuel. induction fuel as [|fuel IH]; [done|]. cbn. by rewrite E.
Qed.
