(* ===== verification/TesterSetup.v ===== *)
(** * A service under the end-to-end tester: the rest of src/testutil/e2e/e2e_tester.go

    The tester that is made for a service, with the context and the hooks that connect
    the two, and what becomes of the service whose hooks are patched with them. *)

From S2P Require Export TemporalTester Shims GrpcServing.

Section setup.
Context `{!TestEnv, Crypto} {G SdkClient Others : Type}.
Implicit Types (b : Tester (G := G)).

(** The hooks of a test; the builders are the tester's own functions. *)
Definition TesterHooks : Type :=
  @Hooks _ (env_heap → res MockClient * env_heap)
    (MockClient + SdkClient → string → env_heap → res (MockClient * env_heap))
    (string → Tester (G := G) → nat * Tester (G := G)) (string → Tester (G := G) → Tester (G := G))
    (G → Tester (G := G) → Tester (G := G)) Others.

Definition tester_hooks (zero : Others) : TesterHooks :=
  mkHooks (Some EmptyClientsBuilder) (Some MockWorkerBuilder) (Some HTTPClientGetter) (Some E2E.prepareServerListener)
    (Some E2E.prepareGrpcServerListener) None None None (Some false) zero.

(** The tester's state, its build metadata, the context and the hooks. *)
Definition NewTesterWithBuildMetadata (zero : Others) (ctx : Context) (bm : BuildMetadata) (yamlConfigData : string) :
    Tester (G := G) * BuildMetadata * Context * TesterHooks :=
  (NewTester, bm, WithConfigFile ctx yamlConfigData, tester_hooks zero).

Definition zero_BuildMetadata : BuildMetadata := mkBuildMetadata "" "" "" "" "" "".
Definition NewTester_plain (zero : Others) (ctx : Context) (yamlConfigData : string) :=
  NewTesterWithBuildMetadata zero ctx zero_BuildMetadata yamlConfigData.

(** The accessors; [server_URL] is where a server of httptest listens. *)
Definition Tester_BuildMetadata (bm : BuildMetadata) : BuildMetadata := bm.
Definition Tester_BuildID (bm : BuildMetadata) : string := bm_Name bm +:+ "/" +:+ bm_Version bm.
Definition Tester_CfgBasePath b : string := b_restCfgBasePath b.
Definition Tester_EndpointURL (server_URL : nat → string) b (suffix : string) : res string :=
  i ← deref (b_restServer b); Ok (server_URL i +:+ suffix).
(** The buffered listener is nil until a gRPC server was prepared, and stays after that. *)
Definition Tester_GetBufDialer {L Conn} (Dial : L → res Conn) (grpcListener : option L) : res Conn :=
  l ← deref grpcListener; Dial l.

(** ** Properties *)

(** A service whose hooks are patched with those of a fresh tester reads its
    configuration from the test's data, whatever its command line; its clients of
    downstream services are the tester's, for each a server that is open, in a tester
    that is otherwise unchanged for hosts that are already there; it dials and serves
    through the tester and leaves gRPC's global logger alone unless it has an opinion.
    But if it has a hook to validate its configuration then the hook panics: the
    tester's hooks have none, and the patch calls it without a test. *)
Theorem tester_service_setup {Args Svc} (m : Machine) zero ctx bm yaml
    (createService : Args → Svc * option TesterHooks * option error) args svc h argv :
  createService args = (svc, Some h, None) →
  let '(b, bm', ctx', hooks) := NewTesterWithBuildMetadata zero ctx bm yaml in
  ∃ h', CreateServiceWithTestHooksPatched createService hooks args = (svc, Some h', None) ∧
    config_source_of argv ctx' = Ok (FromYaml yaml) ∧
    (∀ name cfg, ResolveGrpcDialOptions m name (dial_hooks h') cfg = ResolveGrpcDialOptions m name (dial_hooks h) cfg) ∧
    hk_StoppableServerBuilder h' = Some E2E.prepareServerListener ∧
    hk_StoppableGrpcServerBuilder h' = Some E2E.prepareGrpcServerListener ∧
    should_setLogger (Some (hk_ShouldSetGrpcGlobalLogger h')) = default false (hk_ShouldSetGrpcGlobalLogger h) ∧
    (∃ client, hk_HTTPClientBuilder h' = Some client ∧
      ∀ host, let '(i, b1) := client host b in
        w_servers b1 !! i = Some (mk_httptest_Server true DownstreamTimeout) ∧ client host b1 = (i, b1)) ∧
    match hk_ValidateConfig h with
    | None => hk_ValidateConfig h' = None
    | Some _ => ∃ patched, hk_ValidateConfig h' = Some patched ∧ ∀ c cfg, patched c cfg = Panic nil_dereference
    end.
Proof.
  intros Hc. cbn zeta. unfold NewTesterWithBuildMetadata. eexists. split.
  { unfold CreateServiceWithTestHooksPatched. by rewrite Hc. }
  split; [unfold config_source_of, WithConfigFile; by autorewrite with ctx|].
  split; [intros name cfg; by rewrite patch_dial_options_spec|].
  split; [done|]. split; [done|]. split; [cbn; by destruct (hk_ShouldSetGrpcGlobalLogger h)|].
  split.
  - exists HTTPClientGetter. split; [done|]. intros host. unfold HTTPClientGetter. cbn.
    split; [done|]. by rewrite lookup_insert_eq.
  - rewrite patch_hooks_ValidateConfig. destruct (hk_ValidateConfig h) as [users|]; [|done].
    eexists. split; [done|]. done.
Qed.
End setup.

(** ** A service that validates its configuration *)
Module TesterSetupExample.
#[export] Existing Instance TemporalTesterExample.env.
#[export] Existing Instance TlsExample.crypto.
Definition own : TesterHooks (G := ()) (SdkClient := ()) (Others := ()) :=
  mkHooks None None None None None None None (Some (λ _ cfg, Ok (cfg, None))) None ().
Definition createService (_ : ()) : () * option (TesterHooks (G := ()) (SdkClient := ()) (Others := ())) * option error :=
  ((), Some own, None).
End TesterSetupExample.

Lemma tester_service_setup_witness :
  ∃ h' patched, CreateServiceWithTestHooksPatched TesterSetupExample.createService (tester_hooks ()) () = ((), Some h', None) ∧
    hk_ValidateConfig h' = Some patched ∧ patched Background zero_DefaultConfig = Panic nil_dereference.
Proof.
  destruct (tester_service_setup TlsExample.machine () Background zero_BuildMetadata "app: {}"
    TesterSetupExample.createService () () TesterSetupExample.own ["service"; "--help"] eq_refl)
    as (h'&Hc&_&_&_&_&_&_&(patched&Hp&Hpanic)).
  exists h', patched. split; [exact Hc|]. split; [exact Hp|]. apply Hpanic.
Defined.
